(* ===== verification/_CoqProject ===== *)
-Q . S2P
Prelude.v
GoLib.v
Encoding.v
Regex.v
Utils.v
Model.v
Enums.v
Runtime.v
Logic.v
Queries.v
Store.v
Password.v
Tokens.v
Emails.v
Codes.v
Signup.v
Mfa.v
Login.v
Session.v
PasswordFlows.v
Sso.v
Maintenance.v
Admin.v
Passkey.v
Frames.v
Walks.v
Toy.v
Requests.v
Scenes.v
Calls.v
Steps.v
Pool.v
Interleave.v
TokenSpec.v
SessionSpec.v
LoginSpec.v
MfaSpec.v
PasswordSpec.v
AdminSpec.v
BlockedSpec.v
SignupSpec.v
PasskeySpec.v
EnrollSpec.v
GrantSpec.v
NewcomerSpec.v
MaintenanceSpec.v
Json.v
Http.v
Config.v
Routes.v
Handlers.v
Middleware.v
Server.v
Startup.v
Logging.v
Dispatch.v
ToyServer.v
HttpRefine.v
ServerSpec.v
JsonSpec.v
ConfigSpec.v
Returns.v
LifecycleSpec.v
StartupSpec.v
AccountSpec.v
InterleaveSpec.v
RaceSpec.v
Caller.v
HttpSteps.v
Deploy.v
DeploySpec.v
AuthoritySpec.v
ReplySpec.v
LogSpec.v
