(* ===== verification/Prelude.v ===== *)
(** * A verification library for the auth-api service

    The service signs people up, signs them in (password with an optional second
    factor, Google and Apple, passkeys), keeps their sessions and lets moderators
    and admins act on accounts.  This library models its Go code, from the
    environment variables and the HTTP request down to the SQL statements, and
    proves what the code promises.

    ** How the model reads

    A Go function that talks to the outside is a [Go A] (Runtime.v): it reads an
    environment [Env] and threads a world [World].  The world is the Postgres
    tables, the Redis keys with their expiry, the open transaction, the mail sent
    and the number of Argon2id evaluations.  The environment decides everything
    the code does not: the clock, the random sources and, for every call that
    leaves the process, whether it works, fails without effect, or takes effect
    and loses its answer.  [None] is a panic; an error is a value ([res], or [svc]
    for a service that answers with an entry of the error registry).  A
    transaction restores the tables on an error, a panic or a refused commit.
    All definitions are executable, and the examples run them.

    ** The files and the code they model (paths under src/)

    - the language and its library: GoLib.v, Encoding.v, Regex.v; Json.v and
      Http.v for encoding/json, net/http, net and strconv, with
      internal/utils/json.go;
    - internal/utils: Utils.v (error registry, validations, random codes);
    - rows, entities and configuration record: Model.v (internal/db/postgres/models.go,
      internal/entities, config/config.go); the labels and the Scan and Value
      methods of the enumerations: Enums.v; loading the configuration: Config.v;
    - internal/db/postgres/*.sql.go with src/db/migrations: Queries.v, one
      definition per query, with the keys, references, CHECKs and triggers it
      meets; with_tx.go and admin.go: [WithTx] and [WithActor] in Runtime.v;
    - internal/auth: Password.v (hash.go, password.go), Tokens.v (jwt.go,
      session.go), Codes.v (otp_code.go, mfa_otp_code.go, mfa_totp.go,
      mfa_encryption.go), Passkey.v and Sso.v (webauthn_*.go, oidc.go);
    - internal/emailer, its templates and the escaping of html/template: Emails.v;
    - internal/services: Signup.v, Login.v, Mfa.v, Session.v, PasswordFlows.v,
      Sso.v, Admin.v, Passkey.v, Maintenance.v, each with the transactional
      helpers of internal/db/postgres its services call;
    - internal/server/routes.go: Routes.v; internal/handlers: Handlers.v, one
      definition per handler, and Server.v for router.go and
      build_handler_stack.go; internal/middleware: Middleware.v;
    - cmd/main.go up to [server.Start], cmd/cron/main.go, and the ends [Start] and
      [gracefulShutdown] of internal/server/server.go come to: Startup.v; the process
      in between, as a state machine: Deploy.v;
    - config/logger.go and internal/utils/logging.go: Logging.v, with the layers of
      the middleware and the maintenance command a second time, reporting what they
      report.

    A request travels as in the code: [NewHandler] runs [BuildHandlerStack], whose
    layers set the request id, recover panics, check the media type, set the
    headers, apply the address limit, authenticate ([JWTMiddleware]), apply the
    user limit and the deadline, and hand the request to the router; the handler
    decodes its payload, calls one service, and answers with its result.

    ** The reasoning

    Logic.v has a postcondition judgement [wp] with one rule per primitive, a
    relational judgement [db_tracks R] (every run, whatever fails, moves the tables
    along [R]), the same for Redis, and the rules for undisturbed runs.  Store.v
    proves what each statement does; Frames.v and Walks.v lift it to the services
    against an interface: [Plain R] is what a relation must allow; [Opens R],
    [Rotates R], [Joins R], [SetsStatus R], [SetsRole R] and [DeletesUsers R] add the
    special statements, and each relation of interest ([safe], [frozen], [lives],
    [stands]) is an instance of those it needs.  Requests.v makes the services one
    state machine ([serve], [reachable]).

    Goroutines alternate at their calls.  Calls.v turns a computation into the tree
    of its calls ([prog]), with a proof that the tree runs as it does ([Steps]);
    Steps.v has the trees of the services, HttpSteps.v those of the handlers, the
    router and the layers.  Pool.v runs any number of trees at the same time:
    [along I R] says that every call of a tree moves the store along [R], given
    that the store a call finds satisfies [I]; what holds along all trees holds of
    every pool ([running_along]); [ends] says what a tree comes to, whatever its calls
    answer; and no order of calls is infinite ([busy_sn]).
    Interleave.v walks the trees against the interface of Walks.v ([permits]);
    Caller.v says whom a request context names behind the authentication layer (the
    bearer of a token signed with the configured key) and for whom a service is run;
    HttpSteps.v carries the walks to HTTP requests by the services each route may run,
    on what its path names, for that caller ([issues]).
    Deploy.v puts the requests and the maintenance command of a deployment into one
    pool, under the phases of the server process.

    Returns.v has a judgement for runs that do not panic.  Toy.v, ToyServer.v and
    Scenes.v instantiate every parameter with executable libraries, prove their
    laws, and reach the states the witnesses use.

    ** What is proved

    - of a deployment, with requests and maintenance running at the same time and
      through crashes, signals and restarts: the schema's constraints hold; accounts
      and sessions follow their machines, each act caused by a request on its route
      that names the account and bears a token of the rank the act takes; an account
      that changes was changed by somebody else of rank (AuthoritySpec.v); once an
      account is blocked with no sign-in under way, nothing that arrives later opens
      a session for it (DeploySpec.v; for service requests alone InterleaveSpec.v
      and BlockedSpec.v).  What does not survive alternating calls is shown by runs
      that break it: RaceSpec.v;
    - over every history of requests: the schema's constraints hold, accounts keep
      their identity, deletions and the admin role stick, revoked sessions stay
      revoked (Requests.v); every session follows an abstract machine - opened by a
      sign-in, its token replaced only by who presents the current one, revoked for good
      (LifecycleSpec.v) - and so does the standing of every account, which only the
      admin actions that name it move (AccountSpec.v); what HTTP requests do, one after
      the other, is such a history (HttpRefine.v);
    - at the door: a request that does not pass its gates changes nothing, and the
      admin routes demand their role (ServerSpec.v); every request of a
      server that stays up is answered, whatever runs beside it, with a registered
      status and a JSON body, or with what the router answers on its own, such as a
      redirect (ReplySpec.v); a server that started does not panic (Returns.v,
      StartupSpec.v); a body decodes to the fields it spells, however it spells them,
      and the decoder ends (JsonSpec.v); which environments load, and what [Load] has
      then checked - not that the peppers parse or that the keys match
      (ConfigSpec.v);
    - per service: what each success proves and what each failure leaves, single
      use of refresh tokens, reset tokens, recovery codes and ceremonies, the
      lockout, the limits of guesses that do not overlap, the constant hashing cost
      of rejected logins, all-or-nothing effects where the code has a transaction
      (the reset link an admin sends has none), and what maintenance sweeps and what
      it spares (TokenSpec, SessionSpec, LoginSpec, MfaSpec, EnrollSpec,
      PasswordSpec, SignupSpec, PasskeySpec, AdminSpec, MaintenanceSpec);
    - that what is granted works: where no call fails, the right password lets in,
      the access token of the session is accepted until it expires and its refresh
      token renews it again and again; a new account can sign in (GrantSpec.v), and a
      newcomer gets from an address to an account and a session (NewcomerSpec.v);
    - of the log: the lines of the middleware change nothing, every request leaves
      the logger's two and the last one tells the status the client got (LogSpec.v).

    ** Parameters and their laws

    Code outside the repository is a class whose laws, where a theorem needs them,
    are a second class: Unicode case mapping ([TextLib]), UUIDs ([UuidLib]), SHA-256
    and Argon2id ([HashLib]), JWT ([JwtLib], [JwtLaws], and [JwtAccepts] for what it
    must accept), zap ([ZapLib], [ZapLaws]), TOTP ([TotpLib]), AES-GCM
    ([AeadLib]), WebAuthn ([WebAuthnLib]), OIDC ([OidcLib]), time formatting
    ([TimeLib]), the JSON of foreign values ([JsonLib]), the limiter
    ([LimiterLib], [LimiterLaws]), httprouter ([RouterLib], [RouterLaws]), key files
    ([KeyLib]) and what the clients answer at start-up ([StartLib]).

    ** Bounds and fuel

    Integers of the code are [Z] with the wrap-around written where it can happen
    ([int32] of page sizes, the [int4] counters, 64-bit durations, [Atoi]).  The
    JSON scanner has fuel: [scan_fuel s], twice the length of the input plus one, is
    enough for every input ([scan_terminates]).  Trimming and skipping white space
    drop at least one byte a step and have the length of the text as fuel.  All
    other recursion is structural.

    ** Not modelled

    - the lines that handlers and services log, which no code reads back: their
      definitions leave these calls out, and the log theorems speak of a request
      without them; the scopes of Sentry, whose calls are recorded only;
    - sockets, and the timeouts of connections: a deployment takes a request at any
      moment it serves, and after a signal from any connection accepted by then;
      that the goroutines of a process end with it is taken from the system;
    - the fetching of the providers' keys;
    - a deployment whose configuration changes: all its processes load the same one.
      The theorems start from any store, so they hold of the next deployment over
      the store the last one left;
    - what happens inside a transaction while others run: a transaction, like any
      other statement, is one call.  Postgres runs them at READ COMMITTED, which
      allows more; the races of RaceSpec.v need none of that;
    - the cancelling of contexts: a call that is cut short is a failing call, which
      every theorem allows at any time.  A handler whose deadline has passed runs on
      and its answer is dropped, as with [http.TimeoutHandler];
    - the response stream: headers sent before a panic cannot be replaced in Go,
      which the model needs no case for since layers write an answer only at
      their end. *)

From Stdlib Require Export ZArith Lia Ascii String.
From stdpp Require Export base list strings gmap.

#[global] Open Scope Z_scope.

(** The function at the head of an application. *)
Ltac head_of t := lazymatch t with ?f _ => head_of f | _ => t end.
#[global] Arguments String.append !_ _ : simpl nomatch.

(** ** Results of fallible Go calls: [(value, err)] pairs. *)

(** The error values the source distinguishes.  [ErrNoRows] is
    [pgx.ErrNoRows], [ErrRedisNil] is [redis.Nil], [ErrUniqueViolation] is a
    Postgres error with SQLSTATE 23505; [ErrConn] stands for every failure of
    the transport to Postgres, Redis or the mail provider. *)
Inductive error :=
  | ErrNoRows
  | ErrRedisNil
  | ErrUniqueViolation
  | ErrForeignKey
  | ErrCheckViolation
  | ErrRaised
  | ErrOutOfRange
  | ErrInvalidText
  | ErrConn
  | ErrMsg (msg : string).

#[export] Instance error_eq_dec : EqDecision error.
Proof. solve_decision. Defined.

Inductive res (A : Type) :=
  | Ok (a : A)
  | Err (e : error).
Arguments Ok {_} _.
Arguments Err {_} _.

#[export] Instance res_eq_dec `{EqDecision A} : EqDecision (res A).
Proof. solve_decision. Defined.

Definition is_no_rows (e : error) : bool := bool_decide (e = ErrNoRows).

Definition is_ok {A} (r : res A) : bool := match r with Ok _ => true | Err _ => false end.

Definition res_map {A B} (f : A → B) (r : res A) : res B :=
  match r with Ok a => Ok (f a) | Err e => Err e end.

(** ** Tables: rows in insertion order, and the three SQL statement shapes. *)
Section tables.
Context {A : Type}.
Implicit Types (p : A → bool) (f : A → A) (t : list A) (r : A).

(** [SELECT ... WHERE p] *)
Definition select p t : list A := List.filter p t.
(** [UPDATE ... SET f WHERE p] *)
Definition update p f t : list A := List.map (λ r, if p r then f r else r) t.
(** [DELETE ... WHERE p] *)
Definition delete_where p t : list A := List.filter (λ r, negb (p r)) t.
(** A [:one] query: the first row, or [pgx.ErrNoRows]. *)
Definition fetch_one p t : res A :=
  match select p t with r :: _ => Ok r | [] => Err ErrNoRows end.
(** [SELECT EXISTS (...)] *)
Definition exists_row p t : bool := List.existsb p t.

Lemma elem_of_select p t r : r ∈ select p t ↔ r ∈ t ∧ p r = true.
Proof. unfold select. rewrite !list_elem_of_In. apply filter_In. Qed.

Lemma elem_of_delete_where p t r : r ∈ delete_where p t ↔ r ∈ t ∧ p r = false.
Proof.
  unfold delete_where. rewrite !list_elem_of_In, filter_In.
  by rewrite negb_true_iff.
Qed.

Lemma elem_of_update p f t r :
  r ∈ update p f t ↔ ∃ r0, r0 ∈ t ∧ r = (if p r0 then f r0 else r0).
Proof.
  unfold update. rewrite list_elem_of_In, in_map_iff.
  split; intros (r0 & H1 & H2); exists r0; rewrite ?list_elem_of_In in *; naive_solver.
Qed.

Lemma length_update p f t : length (update p f t) = length t.
Proof. apply length_map. Qed.

(** An update that keeps column [c] keeps the whole projected column. *)
Lemma update_proj {B} (c : A → B) p f t :
  (∀ r, p r = true → c (f r) = c r) → List.map c (update p f t) = List.map c t.
Proof.
  intros Hc. unfold update. rewrite map_map. apply map_ext. intros r.
  destruct (p r) eqn:E; auto.
Qed.

Lemma update_none p f t : (∀ r, r ∈ t → p r = false) → update p f t = t.
Proof.
  intros H. unfold update. rewrite <- (List.map_id t) at 2. apply map_ext_in.
  intros r Hr%list_elem_of_In. by rewrite (H r Hr).
Qed.

(** Selecting by a column the update keeps. *)
Lemma select_update q p f t :
  (∀ r, p r = true → q (f r) = q r) → select q (update p f t) = update p f (select q t).
Proof.
  intros H. unfold select, update. induction t as [|r t IH]; [done|]. simpl.
  assert (q (if p r then f r else r) = q r) as -> by (destruct (p r) eqn:E; auto).
  rewrite IH. by destruct (q r).
Qed.

Lemma fetch_one_Ok p t r : fetch_one p t = Ok r → r ∈ t ∧ p r = true.
Proof.
  unfold fetch_one. destruct (select p t) as [|x l] eqn:E; [done|].
  intros [= ->]. apply elem_of_select. rewrite E. set_solver.
Qed.

Lemma fetch_one_Err p t e :
  fetch_one p t = Err e → e = ErrNoRows ∧ ∀ r, r ∈ t → p r = false.
Proof.
  unfold fetch_one. destruct (select p t) as [|x l] eqn:E; [|done].
  intros [= <-]. split; [done|]. intros r Hr. destruct (p r) eqn:Hp; [|done].
  assert (r ∈ select p t) as Hin by (by apply elem_of_select).
  rewrite E in Hin. set_solver.
Qed.

(** When at most one row satisfies [p], any matching row is the answer. *)
Lemma fetch_one_unique p t r :
  r ∈ t → p r = true → (∀ r', r' ∈ t → p r' = true → r' = r) → fetch_one p t = Ok r.
Proof.
  intros Hr Hp Hu. destruct (fetch_one p t) as [x|e] eqn:E.
  - apply fetch_one_Ok in E as [Hx Hpx]. by rewrite (Hu x Hx Hpx).
  - apply fetch_one_Err in E as [_ E]. by rewrite (E r Hr) in Hp.
Qed.

Lemma exists_row_true p t : exists_row p t = true ↔ ∃ r, r ∈ t ∧ p r = true.
Proof.
  unfold exists_row. rewrite existsb_exists. by setoid_rewrite list_elem_of_In.
Qed.

Lemma exists_row_false p t : exists_row p t = false ↔ ∀ r, r ∈ t → p r = false.
Proof.
  rewrite <- not_true_iff_false, exists_row_true. split.
  - intros H r Hr. destruct (p r) eqn:E; naive_solver.
  - intros H (r & Hr & Hp). by rewrite (H r Hr) in Hp.
Qed.

Lemma select_none p t : exists_row p t = false → select p t = [].
Proof.
  intros H. destruct (select p t) as [|r l] eqn:E; [done|].
  assert (r ∈ select p t) as [Hr Hp]%elem_of_select by (rewrite E; left).
  by rewrite (proj1 (exists_row_false p t) H r Hr) in Hp.
Qed.
End tables.

Lemma NoDup_proj_eq {A B} (c : A → B) (l : list A) (x y : A) :
  NoDup (List.map c l) → x ∈ l → y ∈ l → c x = c y → x = y.
Proof.
  intros Hnd Hx Hy Hc. induction l as [|a l IH]; [set_solver|].
  simpl in Hnd. apply NoDup_cons in Hnd as [Hna Hnd].
  assert (∀ z, z ∈ l → c z ∈ List.map c l) as Hmap.
  { intros z Hz. rewrite list_elem_of_In. apply in_map. by apply list_elem_of_In. }
  apply elem_of_cons in Hx as [->|Hx]; apply elem_of_cons in Hy as [->|Hy]; auto.
  - rewrite Hc in Hna. exfalso. auto.
  - rewrite <- Hc in Hna. exfalso. auto.
Qed.

Lemma delete_where_proj_NoDup {A B} (c : A → B) p (l : list A) :
  NoDup (List.map c l) → NoDup (List.map c (delete_where p l)).
Proof.
  unfold delete_where. induction l as [|a l IH]; simpl; [done|].
  intros [Ha Hnd]%NoDup_cons. destruct (p a); simpl; [by apply IH|].
  apply NoDup_cons. split; [|by apply IH].
  intros Hin. apply Ha. rewrite list_elem_of_In in *. apply in_map_iff in Hin as (x & Hx & Hin).
  apply filter_In in Hin as [Hin _]. apply in_map_iff. eauto.
Qed.

(** ** Three-valued comparisons: a SQL comparison with NULL is not true. *)
Definition sql_eq `{EqDecision A} (x y : option A) : bool :=
  match x, y with Some a, Some b => bool_decide (a = b) | _, _ => false end.

Definition sql_ne `{EqDecision A} (x y : option A) : bool :=
  match x, y with Some a, Some b => negb (bool_decide (a = b)) | _, _ => false end.

Lemma sql_eq_true `{EqDecision A} (x y : option A) :
  sql_eq x y = true ↔ ∃ a, x = Some a ∧ y = Some a.
Proof.
  destruct x, y; simpl; rewrite ?bool_decide_eq_true; naive_solver.
Qed.

Lemma sql_eq_refl `{EqDecision A} (a : A) : sql_eq (Some a) (Some a) = true.
Proof. simpl. by apply bool_decide_eq_true. Qed.

(** ** Go durations, in nanoseconds. *)
Definition Second : Z := 1000000000.
Definition Minute : Z := 60 * Second.
Definition Hour : Z := 60 * Minute.

(** ** Shared tactics. *)
Ltac split_and_all := repeat match goal with H : _ ∧ _ |- _ => destruct H end.

Ltac bool_to_prop :=
  repeat match goal with
  | H : _ && _ = true |- _ => apply andb_true_iff in H as [? ?]
  | H : _ || _ = false |- _ => apply orb_false_iff in H as [? ?]
  | H : negb _ = true |- _ => apply negb_true_iff in H
  | H : negb _ = false |- _ => apply negb_false_iff in H
  | H : bool_decide _ = true |- _ => apply bool_decide_eq_true in H
  | H : bool_decide _ = false |- _ => apply bool_decide_eq_false in H
  | H : (_ <? _)%Z = true |- _ => apply Z.ltb_lt in H
  | H : (_ <? _)%Z = false |- _ => apply Z.ltb_ge in H
  | H : (_ <=? _)%Z = true |- _ => apply Z.leb_le in H
  | H : (_ <=? _)%Z = false |- _ => apply Z.leb_gt in H
  | H : String.eqb _ _ = true |- _ => apply String.eqb_eq in H
  | H : String.eqb _ _ = false |- _ => apply String.eqb_neq in H
  | H : sql_eq _ _ = true |- _ => apply sql_eq_true in H as (? & ? & ?)
  end.

(** ** Ordering: a stable insertion sort, for [ORDER BY]. *)
Fixpoint insert_by {A} (before : A → A → bool) (x : A) (l : list A) : list A :=
  match l with
  | [] => [x]
  | y :: l => if before x y then x :: y :: l else y :: insert_by before x l
  end.
Definition sort_by {A} (before : A → A → bool) (l : list A) : list A :=
  List.fold_right (insert_by before) [] l.

Lemma insert_by_Permutation {A} before (x : A) l : insert_by before x l ≡ₚ x :: l.
Proof.
  induction l as [|y l IH]; simpl; [done|]. destruct (before x y); [done|].
  rewrite IH. by constructor.
Qed.

Lemma sort_by_Permutation {A} before (l : list A) : sort_by before l ≡ₚ l.
Proof.
  induction l as [|x l IH]; simpl; [done|]. rewrite insert_by_Permutation. by constructor.
Qed.

(** Two's-complement conversion to [w] bits, as Go's [int32(x)]. *)
Definition wrap_signed (w x : Z) : Z := (x + 2 ^ (w - 1)) mod 2 ^ w - 2 ^ (w - 1).

Lemma wrap_signed_id w x : 0 < w → - 2 ^ (w - 1) ≤ x < 2 ^ (w - 1) → wrap_signed w x = x.
Proof.
  intros Hw Hx. unfold wrap_signed.
  assert (2 ^ w = 2 * 2 ^ (w - 1)) as E.
  { replace w with (1 + (w - 1)) at 1 by lia. rewrite Z.pow_add_r by lia. lia. }
  rewrite Z.mod_small by lia. lia.
Qed.
