(* ===== verification/GoLib.v ===== *)
(** * The part of the Go standard library the service relies on

    Strings are byte strings ([string] of [ascii]), as in Go; [[]byte] values
    are the same type.  ASCII case mapping, white space, splitting, the three
    base64 encodings, decimal formatting and scanning, and regular expressions
    are defined here and executable.  Case mapping outside ASCII follows the
    Unicode tables of the Go runtime and the collation of the database; both
    are parameters ([TextLib]). *)

From S2P Require Import Prelude.
From Stdlib Require Import DecimalString DecimalN.

#[local] Open Scope string_scope.
#[local] Open Scope Z_scope.

Definition len (s : string) : Z := Z.of_nat (String.length s).

Definition is_ascii_char (c : ascii) : bool :=
  match c with Ascii _ _ _ _ _ _ _ b7 => negb b7 end.

Fixpoint is_ascii (s : string) : bool :=
  match s with
  | EmptyString => true
  | String c s => is_ascii_char c && is_ascii s
  end.

Definition in_range (lo hi c : ascii) : bool :=
  (N_of_ascii lo <=? N_of_ascii c)%N && (N_of_ascii c <=? N_of_ascii hi)%N.

Definition is_upper (c : ascii) : bool := in_range "A" "Z" c.
Definition is_lower (c : ascii) : bool := in_range "a" "z" c.
Definition is_digit (c : ascii) : bool := in_range "0" "9" c.
Definition is_alpha (c : ascii) : bool := is_lower c || is_upper c.
Definition is_alnum (c : ascii) : bool := is_alpha c || is_digit c.

Definition lower_char (c : ascii) : ascii :=
  if is_upper c then ascii_of_N (N_of_ascii c + 32) else c.
Definition upper_char (c : ascii) : ascii :=
  if is_lower c then ascii_of_N (N_of_ascii c - 32) else c.

Fixpoint string_map (f : ascii → ascii) (s : string) : string :=
  match s with
  | EmptyString => EmptyString
  | String c s => String (f c) (string_map f s)
  end.

Fixpoint string_forall (p : ascii → bool) (s : string) : bool :=
  match s with
  | EmptyString => true
  | String c s => p c && string_forall p s
  end.

(** Case mapping of strings with non-ASCII characters: Go's Unicode tables
    ([strings.ToLower], [strings.ToUpper]) and the database's [lower]. *)
Class TextLib := {
  unicode_ToLower : string → string;
  unicode_ToUpper : string → string;
  pg_unicode_lower : string → string
}.

Section case.
Context `{TextLib}.
Definition ToLower (s : string) : string :=
  if is_ascii s then string_map lower_char s else unicode_ToLower s.
Definition ToUpper (s : string) : string :=
  if is_ascii s then string_map upper_char s else unicode_ToUpper s.
(** SQL [lower(s)] *)
Definition pg_lower (s : string) : string :=
  if is_ascii s then string_map lower_char s else pg_unicode_lower s.
End case.

Lemma lower_char_idem c : lower_char (lower_char c) = lower_char c.
Proof. destruct c as [[] [] [] [] [] [] [] []]; reflexivity. Qed.

Lemma lower_char_ascii c : is_ascii_char c = true → is_ascii_char (lower_char c) = true.
Proof. destruct c as [[] [] [] [] [] [] [] []]; done. Qed.

Lemma string_map_lower_ascii s :
  is_ascii s = true → is_ascii (string_map lower_char s) = true.
Proof.
  induction s as [|c s IH]; simpl; [done|]. intros [Hc Hs]%andb_true_iff.
  by rewrite lower_char_ascii, IH.
Qed.

Lemma string_map_lower_idem s :
  string_map lower_char (string_map lower_char s) = string_map lower_char s.
Proof. induction s as [|c s IH]; simpl; [done|]. by rewrite lower_char_idem, IH. Qed.

Lemma pg_lower_idem_ascii `{TextLib} s :
  is_ascii s = true → pg_lower (pg_lower s) = pg_lower s.
Proof.
  intros Hs. unfold pg_lower. rewrite Hs, (string_map_lower_ascii s Hs).
  apply string_map_lower_idem.
Qed.

Lemma string_map_lower_fixed s :
  string_forall (λ c, negb (is_upper c)) s = true → string_map lower_char s = s.
Proof.
  induction s as [|c s IH]; simpl; [done|]. intros [Hc Hs]%andb_true_iff.
  rewrite (IH Hs). unfold lower_char. by apply negb_true_iff in Hc as ->.
Qed.

(** ** White space *)

Definition char (n : nat) : ascii := ascii_of_nat n.
Definition bytes (l : list nat) : string :=
  String.string_of_list_ascii (List.map ascii_of_nat l).

(** The UTF-8 encodings of the code points [unicode.IsSpace] accepts. *)
Definition space_seqs : list string :=
  List.map bytes
    ([[9]; [10]; [11]; [12]; [13]; [32]; [194; 133]; [194; 160]; [225; 154; 128];
      [226; 128; 168]; [226; 128; 169]; [226; 128; 175]; [226; 129; 159]; [227; 128; 128];
      [226; 128; 128]; [226; 128; 129]; [226; 128; 130]; [226; 128; 131]; [226; 128; 132];
      [226; 128; 133]; [226; 128; 134]; [226; 128; 135]; [226; 128; 136]; [226; 128; 137];
      [226; 128; 138]]%nat).

Fixpoint drop_prefix (p s : string) : option string :=
  match p, s with
  | EmptyString, _ => Some s
  | String a p, String b s => if Ascii.eqb a b then drop_prefix p s else None
  | String _ _, EmptyString => None
  end.

Fixpoint drop_one_of (ps : list string) (s : string) : option string :=
  match ps with
  | [] => None
  | p :: ps => match drop_prefix p s with Some r => Some r | None => drop_one_of ps s end
  end.

(** Every dropped sequence is non-empty, so [String.length s] is enough fuel. *)
Fixpoint trim_left_fuel (seqs : list string) (n : nat) (s : string) : string :=
  match n with
  | O => s
  | S n => match drop_one_of seqs s with
           | Some r => trim_left_fuel seqs n r
           | None => s
           end
  end.
Definition trim_left (seqs : list string) (s : string) : string :=
  trim_left_fuel seqs (String.length s) s.

Definition string_rev (s : string) : string :=
  String.string_of_list_ascii (List.rev (String.list_ascii_of_string s)).

Definition trim_right (seqs : list string) (s : string) : string :=
  string_rev (trim_left (List.map string_rev seqs) (string_rev s)).

(** [strings.TrimSpace] *)
Definition TrimSpace (s : string) : string := trim_right space_seqs (trim_left space_seqs s).

(** [strings.Trim(s, cutset)] for an ASCII cutset *)
Definition Trim (s cutset : string) : string :=
  let seqs := List.map (λ c, String c EmptyString) (String.list_ascii_of_string cutset) in
  trim_right seqs (trim_left seqs s).

(** ** Splitting *)

Fixpoint Split (s : string) (sep : ascii) : list string :=
  match s with
  | EmptyString => [EmptyString]
  | String c s =>
      if Ascii.eqb c sep then EmptyString :: Split s sep
      else match Split s sep with
           | hd :: tl => String c hd :: tl
           | [] => [String c EmptyString]
           end
  end.

(** [strings.Cut(s, sep)]: the text before and after the first separator. *)
Fixpoint Cut (s : string) (sep : ascii) : option (string * string) :=
  match s with
  | EmptyString => None
  | String c s =>
      if Ascii.eqb c sep then Some (EmptyString, s)
      else match Cut s sep with
           | Some (a, b) => Some (String c a, b)
           | None => None
           end
  end.

Definition HasPrefix (s p : string) : bool :=
  match drop_prefix p s with Some _ => true | None => false end.
Definition TrimPrefix (s p : string) : string :=
  match drop_prefix p s with Some r => r | None => s end.

Fixpoint Join (l : list string) (sep : string) : string :=
  match l with
  | [] => EmptyString
  | [x] => x
  | x :: l => x ++ sep ++ Join l sep
  end.

Lemma drop_prefix_app p s : drop_prefix p (p ++ s) = Some s.
Proof. induction p as [|c p IH]; simpl; [done|]. by rewrite Ascii.eqb_refl. Qed.

Lemma drop_prefix_Some p s r : drop_prefix p s = Some r → s = p ++ r.
Proof.
  revert s. induction p as [|c p IH]; intros s; simpl; [by intros [= ->]|].
  destruct s as [|b s]; [done|]. destruct (Ascii.eqb_spec c b) as [->|]; [|done].
  intros ->%IH. done.
Qed.

(** Splitting a string without the separator. *)
Definition lacks (c : ascii) (s : string) : bool :=
  string_forall (λ x, negb (Ascii.eqb x c)) s.

Lemma Split_lacks s c : lacks c s = true → Split s c = [s].
Proof.
  induction s as [|a s IH]; simpl; [done|]. intros [Ha Hs]%andb_true_iff.
  apply negb_true_iff in Ha as ->. by rewrite IH.
Qed.

Lemma Split_app s t c :
  lacks c s = true → Split (s ++ String c t) c = s :: Split t c.
Proof.
  induction s as [|a s IH]; simpl; [by rewrite Ascii.eqb_refl|].
  intros [Ha Hs]%andb_true_iff. apply negb_true_iff in Ha as ->. by rewrite IH.
Qed.

Lemma lacks_app c s t : lacks c (s ++ t) = lacks c s && lacks c t.
Proof. induction s as [|a s IH]; simpl; [done|]. unfold lacks in *. simpl. by rewrite IH, andb_assoc. Qed.

Lemma Cut_app s t c : lacks c s = true → Cut (s ++ String c t) c = Some (s, t).
Proof.
  induction s as [|a s IH]; simpl; [by rewrite Ascii.eqb_refl|].
  intros [Ha Hs]%andb_true_iff. apply negb_true_iff in Ha as ->. by rewrite IH.
Qed.

Lemma string_app_assoc (a b c : string) : (a ++ b) ++ c = a ++ (b ++ c).
Proof. induction a as [|x a IH]; simpl; congruence. Qed.

Lemma string_app_nil_r (a : string) : a ++ "" = a.
Proof. induction a as [|x a IH]; simpl; congruence. Qed.

Lemma string_forall_app p s t : string_forall p (s ++ t) = string_forall p s && string_forall p t.
Proof. induction s as [|a s IH]; simpl; [done|]. by rewrite IH, andb_assoc. Qed.

Lemma string_forall_impl (p q : ascii → bool) s :
  (∀ c, p c = true → q c = true) → string_forall p s = true → string_forall q s = true.
Proof.
  intros Hpq. induction s as [|c s IH]; simpl; [done|].
  intros [Hc Hs]%andb_true_iff. by rewrite (Hpq c Hc), IH.
Qed.

Lemma string_length_app (s t : string) :
  String.length (s ++ t) = (String.length s + String.length t)%nat.
Proof. induction s as [|c s IH]; simpl; congruence. Qed.

Lemma len_app s t : len (s ++ t) = len s + len t.
Proof. unfold len. rewrite string_length_app. lia. Qed.

Lemma len_nonneg s : 0 <= len s.
Proof. unfold len. lia. Qed.

(** ** Cutting strings *)

Lemma substring_front n s t : String.length s = n → String.substring 0 n (s ++ t) = s.
Proof.
  intros <-. induction s as [|c s IH]; simpl; [by destruct t|]. by rewrite IH.
Qed.
Lemma substring_all n s : (String.length s ≤ n)%nat → String.substring 0 n s = s.
Proof.
  revert n. induction s as [|c s IH]; intros [|n] H; simpl in *; try done; [lia|]. by rewrite IH by lia.
Qed.
Lemma substring_prefix n s : ∃ t, s = String.substring 0 n s ++ t.
Proof.
  revert n. induction s as [|c s IH]; intros [|n]; simpl; [by exists ""..|by eexists|].
  destruct (IH n) as [t Ht]. exists t. by rewrite <- Ht.
Qed.
Lemma substring_rest n s t :
  String.length s = n → String.substring n (n + String.length t - n) (s ++ t) = t.
Proof.
  intros <-. replace (_ + _ - _)%nat with (String.length t) by lia.
  induction s as [|c s IH]; simpl; [by apply substring_all|done].
Qed.
Lemma substring_length n s : (n ≤ String.length s)%nat → String.length (String.substring 0 n s) = n.
Proof.
  revert s. induction n as [|n IH]; intros [|c s]; simpl; intros H; try lia.
  rewrite IH; lia.
Qed.
