(* ===== verification/Encoding.v ===== *)
(** * Text encodings of the Go standard library

    The three [encoding/base64] variants the service uses, decimal formatting
    and the [%d] and [%s] verbs of [fmt.Sscanf], with their round trips. *)

From S2P Require Import Prelude.
From S2P Require Import GoLib.
From Stdlib Require Import DecimalString DecimalN.

#[local] Open Scope string_scope.
#[local] Open Scope Z_scope.

(** ** base64 *)

Definition std_alphabet : string :=
  "ABCDEFGHIJKLMNOPQRSTUVWXYZabcdefghijklmnopqrstuvwxyz0123456789+/".
Definition url_alphabet : string :=
  "ABCDEFGHIJKLMNOPQRSTUVWXYZabcdefghijklmnopqrstuvwxyz0123456789-_".

Definition b2n (b : bool) : nat := if b then 1%nat else 0%nat.

(** Six bits, the most significant first, as an index of the alphabet. *)
Definition sextet (b5 b4 b3 b2 b1 b0 : bool) : nat :=
  (32 * b2n b5 + 16 * b2n b4 + 8 * b2n b3 + 4 * b2n b2 + 2 * b2n b1 + b2n b0)%nat.

Definition enc_char (alpha : string) (n : nat) : ascii :=
  match String.get n alpha with Some c => c | None => "A"%char end.

Fixpoint index_of (c : ascii) (s : string) : option nat :=
  match s with
  | EmptyString => None
  | String d s => if Ascii.eqb c d then Some O else S <$> index_of c s
  end.

(** [RawEncoding.EncodeToString] over the given alphabet. *)
Fixpoint b64_encode (alpha : string) (s : string) : string :=
  let e b5 b4 b3 b2 b1 b0 := enc_char alpha (sextet b5 b4 b3 b2 b1 b0) in
  match s with
  | String (Ascii a0 a1 a2 a3 a4 a5 a6 a7)
      (String (Ascii b0 b1 b2 b3 b4 b5 b6 b7)
         (String (Ascii c0 c1 c2 c3 c4 c5 c6 c7) r)) =>
      String (e a7 a6 a5 a4 a3 a2) (String (e a1 a0 b7 b6 b5 b4)
        (String (e b3 b2 b1 b0 c7 c6) (String (e c5 c4 c3 c2 c1 c0) (b64_encode alpha r))))
  | String (Ascii a0 a1 a2 a3 a4 a5 a6 a7)
      (String (Ascii b0 b1 b2 b3 b4 b5 b6 b7) EmptyString) =>
      String (e a7 a6 a5 a4 a3 a2) (String (e a1 a0 b7 b6 b5 b4)
        (String (e b3 b2 b1 b0 false false) EmptyString))
  | String (Ascii a0 a1 a2 a3 a4 a5 a6 a7) EmptyString =>
      String (e a7 a6 a5 a4 a3 a2)
        (String (e a1 a0 false false false false) EmptyString)
  | EmptyString => EmptyString
  end.

Definition bits6 (n : nat) : bool * bool * bool * bool * bool * bool :=
  (Nat.testbit n 5, Nat.testbit n 4, Nat.testbit n 3,
   Nat.testbit n 2, Nat.testbit n 1, Nat.testbit n 0).

Definition dec_char (alpha : string) (c : ascii) :
    option (bool * bool * bool * bool * bool * bool) :=
  bits6 <$> index_of c alpha.

(** The decoder ignores line breaks and, not being strict, the unused low bits
    of the last character. *)
Definition is_newline (c : ascii) : bool :=
  Ascii.eqb c (char 10) || Ascii.eqb c (char 13).

Fixpoint string_filter (p : ascii → bool) (s : string) : string :=
  match s with
  | EmptyString => EmptyString
  | String c s => if p c then String c (string_filter p s) else string_filter p s
  end.

Definition strip_newlines (s : string) : string := string_filter (λ c, negb (is_newline c)) s.

Fixpoint b64_decode_raw (alpha : string) (s : string) : option string :=
  match s with
  | EmptyString => Some EmptyString
  | String w (String x (String y (String z r))) =>
      match dec_char alpha w, dec_char alpha x, dec_char alpha y, dec_char alpha z with
      | Some (a7, a6, a5, a4, a3, a2), Some (a1, a0, b7, b6, b5, b4),
        Some (b3, b2, b1, b0, c7, c6), Some (c5, c4, c3, c2, c1, c0) =>
          match b64_decode_raw alpha r with
          | Some t => Some (String (Ascii a0 a1 a2 a3 a4 a5 a6 a7)
                       (String (Ascii b0 b1 b2 b3 b4 b5 b6 b7)
                          (String (Ascii c0 c1 c2 c3 c4 c5 c6 c7) t)))
          | None => None
          end
      | _, _, _, _ => None
      end
  | String w (String x (String y EmptyString)) =>
      match dec_char alpha w, dec_char alpha x, dec_char alpha y with
      | Some (a7, a6, a5, a4, a3, a2), Some (a1, a0, b7, b6, b5, b4),
        Some (b3, b2, b1, b0, _, _) =>
          Some (String (Ascii a0 a1 a2 a3 a4 a5 a6 a7)
                  (String (Ascii b0 b1 b2 b3 b4 b5 b6 b7) EmptyString))
      | _, _, _ => None
      end
  | String w (String x EmptyString) =>
      match dec_char alpha w, dec_char alpha x with
      | Some (a7, a6, a5, a4, a3, a2), Some (a1, a0, _, _, _, _) =>
          Some (String (Ascii a0 a1 a2 a3 a4 a5 a6 a7) EmptyString)
      | _, _ => None
      end
  | String _ EmptyString => None
  end.

(** The padded decoder of [base64.StdEncoding]: every quantum has four
    characters, and the last one may end in [=] or [==]. *)
Fixpoint b64_decode_padded (alpha : string) (s : string) : option string :=
  match s with
  | EmptyString => Some EmptyString
  | String w (String x (String y (String z r))) =>
      if Ascii.eqb z "=" then
        match r with
        | EmptyString =>
            if Ascii.eqb y "=" then b64_decode_raw alpha (String w (String x EmptyString))
            else b64_decode_raw alpha (String w (String x (String y EmptyString)))
        | _ => None
        end
      else
        match b64_decode_raw alpha (String w (String x (String y (String z EmptyString)))),
              b64_decode_padded alpha r with
        | Some a, Some b => Some (a ++ b)
        | _, _ => None
        end
  | _ => None
  end.

Definition RawURLEncoding_EncodeToString := b64_encode url_alphabet.
Definition RawStdEncoding_EncodeToString := b64_encode std_alphabet.
Definition RawURLEncoding_DecodeString s := b64_decode_raw url_alphabet (strip_newlines s).
Definition RawStdEncoding_DecodeString s := b64_decode_raw std_alphabet (strip_newlines s).
Definition StdEncoding_DecodeString s := b64_decode_padded std_alphabet (strip_newlines s).

Definition std_or_url (alpha : string) : Prop := alpha = std_alphabet ∨ alpha = url_alphabet.

Lemma dec_enc_char alpha b5 b4 b3 b2 b1 b0 :
  std_or_url alpha →
  dec_char alpha (enc_char alpha (sextet b5 b4 b3 b2 b1 b0)) = Some (b5, b4, b3, b2, b1, b0).
Proof. intros [-> | ->]; destruct b5, b4, b3, b2, b1, b0; vm_compute; reflexivity. Qed.

(** No character of the encoding is a line break, a [$] or a white space. *)
Definition b64_safe (c : ascii) : bool :=
  is_alnum c || Ascii.eqb c "+" || Ascii.eqb c "/" || Ascii.eqb c "-" || Ascii.eqb c "_".

Lemma enc_char_safe alpha b5 b4 b3 b2 b1 b0 :
  std_or_url alpha → b64_safe (enc_char alpha (sextet b5 b4 b3 b2 b1 b0)) = true.
Proof. intros [-> | ->]; destruct b5, b4, b3, b2, b1, b0; vm_compute; reflexivity. Qed.

(** Induction in steps of three characters, the quantum of base64. *)
Lemma string_ind3 (P : string → Prop) :
  P "" → (∀ a, P (String a "")) → (∀ a b, P (String a (String b ""))) →
  (∀ a b c s, P s → P (String a (String b (String c s)))) → ∀ s, P s.
Proof.
  intros H0 H1 H2 H3. fix IH 1. intros [|a [|b [|c s]]];
    [apply H0|apply H1|apply H2|apply H3, IH].
Qed.

Lemma b64_encode_safe alpha s :
  std_or_url alpha → string_forall b64_safe (b64_encode alpha s) = true.
Proof.
  intros Ha. induction s as [|[] |[] []|[] [] [] s IH] using string_ind3;
    cbn [b64_encode string_forall]; rewrite ?enc_char_safe by done; simpl; auto.
Qed.

Lemma b64_raw_roundtrip alpha s :
  std_or_url alpha → b64_decode_raw alpha (b64_encode alpha s) = Some s.
Proof.
  intros Ha. induction s as [|[] |[] []|[] [] [] s IH] using string_ind3;
    cbn [b64_encode b64_decode_raw]; rewrite ?dec_enc_char by done; [done..|].
  by rewrite IH.
Qed.

Lemma strip_newlines_safe s :
  string_forall b64_safe s = true → strip_newlines s = s.
Proof.
  unfold strip_newlines. induction s as [|c s IH]; simpl; [done|].
  intros [Hc Hs]%andb_true_iff.
  replace (negb (is_newline c)) with true; [by rewrite IH|].
  destruct c as [[] [] [] [] [] [] [] []]; vm_compute in Hc |- *; congruence.
Qed.

Lemma RawStd_roundtrip s :
  RawStdEncoding_DecodeString (RawStdEncoding_EncodeToString s) = Some s.
Proof.
  unfold RawStdEncoding_DecodeString, RawStdEncoding_EncodeToString.
  rewrite strip_newlines_safe; [|apply b64_encode_safe]; try apply b64_raw_roundtrip; by left.
Qed.

Lemma RawURL_roundtrip s :
  RawURLEncoding_DecodeString (RawURLEncoding_EncodeToString s) = Some s.
Proof.
  unfold RawURLEncoding_DecodeString, RawURLEncoding_EncodeToString.
  rewrite strip_newlines_safe; [|apply b64_encode_safe]; try apply b64_raw_roundtrip; by right.
Qed.

Lemma RawURL_inj s t :
  RawURLEncoding_EncodeToString s = RawURLEncoding_EncodeToString t → s = t.
Proof. intros H. apply (f_equal RawURLEncoding_DecodeString) in H. rewrite !RawURL_roundtrip in H. congruence. Qed.

Lemma RawStd_nonempty c s : RawStdEncoding_EncodeToString (String c s) ≠ "".
Proof. destruct c, s as [|[] [|[] s]]; done. Qed.

(** ** Decimal numbers *)

(** [fmt.Sprintf("%d", n)] for a non-negative integer. *)
Definition print_nat (n : N) : string := NilZero.string_of_uint (N.to_uint n).

Fixpoint digit_prefix (s : string) : string * string :=
  match s with
  | EmptyString => (EmptyString, EmptyString)
  | String c r =>
      if is_digit c then let '(d, t) := digit_prefix r in (String c d, t)
      else (EmptyString, s)
  end.

Definition parse_digits (s : string) : option N :=
  match s with
  | EmptyString => None
  | _ => N.of_uint <$> NilEmpty.uint_of_string s
  end.

(** [strconv.Itoa]-style zero padding: [%0wd]. *)
Definition print_padded (w : nat) (n : N) : string :=
  let s := print_nat n in
  String.string_of_list_ascii (List.repeat "0"%char (w - String.length s)) ++ s.

(** [SkipSpace] of [fmt]: spaces are skipped, a newline is an error. *)
Fixpoint skip_space_fuel (n : nat) (s : string) : option string :=
  match n with
  | O => Some s
  | S n =>
      match s with
      | String c _ =>
          if Ascii.eqb c (char 10) then None
          else match drop_one_of space_seqs s with
               | Some r => skip_space_fuel n r
               | None => Some s
               end
      | EmptyString => Some s
      end
  end.
Definition skip_space (s : string) : option string := skip_space_fuel (String.length s) s.

(** [fmt.Sscanf(s, prefix+"%d", &x)] for an unsigned [x] of [w] bits: [None]
    when the scan fails, in which case [x] keeps its value. *)
Definition sscanf_uint (prefix : string) (w : Z) (s : string) : option N :=
  match drop_prefix prefix s with
  | None => None
  | Some r =>
      match skip_space r with
      | None => None
      | Some r =>
          match parse_digits (fst (digit_prefix r)) with
          | Some n => if Z.of_N n <? 2 ^ w then Some n else None
          | None => None
          end
      end
  end.

Fixpoint token (s : string) : string :=
  match drop_one_of space_seqs s with
  | Some _ => EmptyString
  | None => match s with
            | EmptyString => EmptyString
            | String c r => String c (token r)
            end
  end.

(** [fmt.Sscanf(s, prefix+"%s", &x)] *)
Definition sscanf_string (prefix : string) (s : string) : option string :=
  match drop_prefix prefix s with
  | None => None
  | Some r =>
      match skip_space r with
      | None => None
      | Some r => match token r with EmptyString => None | t => Some t end
      end
  end.

Lemma uint_string_digits u : string_forall is_digit (NilEmpty.string_of_uint u) = true.
Proof. induction u; simpl; auto. Qed.

Lemma print_nat_digits n : string_forall is_digit (print_nat n) = true.
Proof.
  unfold print_nat, NilZero.string_of_uint.
  destruct (N.to_uint n) eqn:E; [done|..]; apply uint_string_digits.
Qed.

Lemma print_nat_nonempty n : print_nat n ≠ "".
Proof. unfold print_nat, NilZero.string_of_uint. by destruct (N.to_uint n). Qed.

Lemma parse_print_nat n : parse_digits (print_nat n) = Some n.
Proof.
  unfold parse_digits. pose proof (print_nat_nonempty n) as Hne.
  destruct (print_nat n) eqn:E; [done|]. rewrite <- E. clear Hne E.
  unfold print_nat. pose proof (DecimalN.Unsigned.of_to n) as Hof.
  destruct (Decimal.uint_eq_dec (N.to_uint n) Decimal.Nil) as [E|E].
  - rewrite E in *. simpl in *. by rewrite <- Hof.
  - assert (NilZero.string_of_uint (N.to_uint n) = NilEmpty.string_of_uint (N.to_uint n))
      as -> by (unfold NilZero.string_of_uint; by destruct (N.to_uint n)).
    rewrite NilEmpty.usu. unfold fmap, option_fmap, option_map. by rewrite Hof.
Qed.

Lemma digit_prefix_all s : string_forall is_digit s = true → digit_prefix s = (s, "").
Proof.
  induction s as [|c s IH]; simpl; [done|].
  intros [Hc Hs]%andb_true_iff. by rewrite Hc, (IH Hs).
Qed.

Lemma digit_not_space c s : is_digit c = true → drop_one_of space_seqs (String c s) = None.
Proof. destruct c as [[] [] [] [] [] [] [] []]; intros H; vm_compute in H; try done; reflexivity. Qed.

Lemma skip_space_none c s :
  Ascii.eqb c (char 10) = false → drop_one_of space_seqs (String c s) = None →
  skip_space (String c s) = Some (String c s).
Proof. intros Hn Hs. unfold skip_space. cbn [String.length skip_space_fuel]. by rewrite Hn, Hs. Qed.

(** Scanning back a printed number that fits the width. *)
Lemma sscanf_uint_print prefix w n :
  Z.of_N n < 2 ^ w → sscanf_uint prefix w (prefix ++ print_nat n) = Some n.
Proof.
  intros Hn. unfold sscanf_uint. rewrite drop_prefix_app.
  pose proof (print_nat_digits n) as Hd. pose proof (print_nat_nonempty n) as Hne.
  pose proof (parse_print_nat n) as Hp. destruct (print_nat n) as [|c s] eqn:E; [done|].
  rewrite skip_space_none.
  - rewrite digit_prefix_all by done. simpl fst. rewrite Hp.
    apply Z.ltb_lt in Hn. by rewrite Hn.
  - simpl in Hd. destruct c as [[] [] [] [] [] [] [] []]; vm_compute in Hd |- *; done.
  - simpl in Hd. apply andb_true_iff in Hd as [Hd _]. by apply digit_not_space.
Qed.

(** A token all of whose characters are printable ASCII is scanned whole. *)
Definition is_graphic (c : ascii) : bool := in_range "!" "~" c.

Lemma graphic_not_space c s : is_graphic c = true → drop_one_of space_seqs (String c s) = None.
Proof. destruct c as [[] [] [] [] [] [] [] []]; intros H; vm_compute in H; try done; reflexivity. Qed.

Lemma token_graphic s : string_forall is_graphic s = true → token s = s.
Proof.
  induction s as [|c s IH]; [done|]. simpl string_forall. intros [Hc Hs]%andb_true_iff.
  pose proof (graphic_not_space c s Hc) as Hn. cbn [token]. rewrite Hn. by rewrite IH.
Qed.

Lemma sscanf_string_graphic prefix s :
  string_forall is_graphic s = true → s ≠ "" → sscanf_string prefix (prefix ++ s) = Some s.
Proof.
  intros Hs Hne. unfold sscanf_string. rewrite drop_prefix_app.
  destruct s as [|c s]; [done|]. pose proof Hs as [Hc _]%andb_true_iff.
  rewrite skip_space_none.
  - by rewrite token_graphic.
  - destruct c as [[] [] [] [] [] [] [] []]; vm_compute in Hc |- *; done.
  - by apply graphic_not_space.
Qed.

(** Trimming does not change a token of printable characters. *)
Lemma graphic_not_rev_space c s :
  is_graphic c = true → drop_one_of (List.map string_rev space_seqs) (String c s) = None.
Proof. destruct c as [[] [] [] [] [] [] [] []]; intros H; vm_compute in H; try done; reflexivity. Qed.

Lemma trim_left_none seqs s : drop_one_of seqs s = None → trim_left seqs s = s.
Proof. unfold trim_left. destruct s as [|c s]; [done|]. cbn [String.length trim_left_fuel]. by intros ->. Qed.

Lemma string_rev_involutive s : string_rev (string_rev s) = s.
Proof.
  unfold string_rev. by rewrite String.list_ascii_of_string_of_list_ascii, rev_involutive,
    String.string_of_list_ascii_of_string.
Qed.

Lemma string_forall_list p s : string_forall p s = List.forallb p (String.list_ascii_of_string s).
Proof. induction s as [|c s IH]; simpl; [done|]. by rewrite IH. Qed.

Lemma string_rev_forall p s : string_forall p (string_rev s) = string_forall p s.
Proof.
  rewrite !string_forall_list. unfold string_rev. rewrite String.list_ascii_of_string_of_list_ascii.
  apply eq_true_iff_eq. rewrite !List.forallb_forall. by setoid_rewrite <- in_rev.
Qed.

Lemma TrimSpace_graphic s : string_forall is_graphic s = true → TrimSpace s = s.
Proof.
  intros Hs. unfold TrimSpace, trim_right. rewrite (trim_left_none space_seqs s).
  - rewrite trim_left_none; [apply string_rev_involutive|].
    rewrite <- string_rev_forall in Hs. destruct (string_rev s) as [|c r]; [done|].
    simpl in Hs. bool_to_prop. by apply graphic_not_rev_space.
  - destruct s as [|c r]; [done|]. simpl in Hs. bool_to_prop. by apply graphic_not_space.
Qed.
