(* ===== verification/Regex.v ===== *)
(** * Regular expressions, as [regexp.MatchString] on anchored patterns

    An executable matcher by derivatives, its declarative semantics, and the
    equations used to reason about the patterns of the service.  Every class of
    those patterns is ASCII, so matching byte by byte is matching rune by rune. *)

From S2P Require Import Prelude.
From S2P Require Import GoLib.

#[local] Open Scope string_scope.
#[local] Open Scope nat_scope.

Inductive re :=
  | RNone
  | RNil
  | RCls (p : ascii → bool)
  | RCat (r1 r2 : re)
  | ROr (r1 r2 : re)
  | RStar (r : re).

Definition RPlus (r : re) : re := RCat r (RStar r).
Definition ROpt (r : re) : re := ROr RNil r.
(** [r{0,n}], nested as [(r(r(...)?)?)?] *)
Fixpoint RUpTo (n : nat) (r : re) : re :=
  match n with O => RNil | S n => ROpt (RCat r (RUpTo n r)) end.
(** [r{n}] *)
Fixpoint RTimes (n : nat) (r : re) : re :=
  match n with O => RNil | S n => RCat r (RTimes n r) end.
Definition RChar (c : ascii) : re := RCls (Ascii.eqb c).

Fixpoint nullable (r : re) : bool :=
  match r with
  | RNone | RCls _ => false
  | RNil | RStar _ => true
  | RCat r1 r2 => nullable r1 && nullable r2
  | ROr r1 r2 => nullable r1 || nullable r2
  end.

Fixpoint deriv (c : ascii) (r : re) : re :=
  match r with
  | RNone | RNil => RNone
  | RCls p => if p c then RNil else RNone
  | RCat r1 r2 =>
      if nullable r1 then ROr (RCat (deriv c r1) r2) (deriv c r2)
      else RCat (deriv c r1) r2
  | ROr r1 r2 => ROr (deriv c r1) (deriv c r2)
  | RStar r => RCat (deriv c r) (RStar r)
  end.

Fixpoint re_match (r : re) (s : string) : bool :=
  match s with
  | EmptyString => nullable r
  | String c s => re_match (deriv c r) s
  end.

Inductive lang : re → string → Prop :=
  | lang_nil : lang RNil ""
  | lang_cls p c : p c = true → lang (RCls p) (String c "")
  | lang_cat r1 r2 s1 s2 : lang r1 s1 → lang r2 s2 → lang (RCat r1 r2) (s1 ++ s2)
  | lang_or_l r1 r2 s : lang r1 s → lang (ROr r1 r2) s
  | lang_or_r r1 r2 s : lang r2 s → lang (ROr r1 r2) s
  | lang_star_nil r : lang (RStar r) ""
  | lang_star_cons r s1 s2 : lang r s1 → lang (RStar r) s2 → lang (RStar r) (s1 ++ s2).

#[local] Hint Constructors lang : core.

Lemma app_nil_inv (s1 s2 : string) : "" = s1 ++ s2 → s1 = "" ∧ s2 = "".
Proof. by destruct s1. Qed.

Lemma nullable_lang r : nullable r = true ↔ lang r "".
Proof.
  split.
  - induction r; simpl; intros H; bool_to_prop; try done; auto.
    + change "" with ("" ++ ""). auto.
    + apply orb_true_iff in H as [H|H]; auto.
  - remember "" as s eqn:Hs. induction 1; simpl; try done;
      try (symmetry in Hs; apply app_nil_inv in Hs as [-> ->]);
      repeat match goal with H : "" = "" → _ |- _ => specialize (H eq_refl) end.
    + by rewrite IHlang1, IHlang2.
    + subst. by rewrite IHlang.
    + subst. by rewrite IHlang, orb_true_r.
Qed.

Lemma deriv_lang c r s : lang (deriv c r) s ↔ lang r (String c s).
Proof.
  split.
  - revert s. induction r; intros s; simpl; intros H; try by inversion H.
    + destruct (p c) eqn:E; inversion H; subst. by constructor.
    + destruct (nullable r1) eqn:E.
      * inversion H; subst.
        -- inversion H3; subst. change (String c (s1 ++ s2)) with (String c s1 ++ s2). auto.
        -- change (String c s) with ("" ++ String c s). constructor; [by apply nullable_lang|auto].
      * inversion H; subst. change (String c (s1 ++ s2)) with (String c s1 ++ s2). auto.
    + inversion H; subst; auto.
    + inversion H; subst. change (String c (s1 ++ s2)) with (String c s1 ++ s2). auto.
  - remember (String c s) as cs eqn:Hcs. intros H. revert c s Hcs.
    induction H as [|p c' Hp|r1 r2 s1 s2 H1 IH1 H2 IH2|r1 r2 s H IH|r1 r2 s H IH| |r s1 s2 H1 IH1 H2 IH2];
      intros c s' Hcs; simpl; try done.
    + injection Hcs as -> <-. rewrite Hp. done.
    + destruct s1 as [|a s1]; simpl in Hcs.
      * apply nullable_lang in H1. rewrite H1. subst. apply lang_or_r. by apply IH2.
      * injection Hcs as -> <-. destruct (nullable r1); [apply lang_or_l|]; auto.
    + auto.
    + apply lang_or_r. auto.
    + destruct s1 as [|a s1]; simpl in Hcs; [by apply IH2|].
      injection Hcs as -> <-. auto.
Qed.

(** The matcher decides the language. *)
Lemma re_match_lang r s : re_match r s = true ↔ lang r s.
Proof.
  revert r. induction s as [|c s IH]; intros r; simpl.
  - apply nullable_lang.
  - by rewrite IH, deriv_lang.
Qed.

(** Equations for the shapes the patterns use. *)
Lemma lang_cat_iff r1 r2 s :
  lang (RCat r1 r2) s ↔ ∃ s1 s2, s = s1 ++ s2 ∧ lang r1 s1 ∧ lang r2 s2.
Proof. split; [inversion 1; subst; eauto 10|intros (? & ? & -> & ? & ?); auto]. Qed.

Lemma lang_cls_iff p s : lang (RCls p) s ↔ ∃ c, s = String c "" ∧ p c = true.
Proof. split; [inversion 1; subst; eauto|intros (c & -> & ?); auto]. Qed.

Lemma lang_star_cls_iff p s : lang (RStar (RCls p)) s ↔ string_forall p s = true.
Proof.
  split.
  - remember (RStar (RCls p)) as r eqn:Hr. induction 1; try done.
    injection Hr as ->. apply lang_cls_iff in H as (c & -> & Hc). simpl.
    by rewrite Hc, IHlang2.
  - induction s as [|c s IH]; simpl; [auto|].
    intros [Hc Hs]%andb_true_iff. change (String c s) with (String c "" ++ s). auto.
Qed.

Lemma lang_plus_cls_iff p s :
  lang (RPlus (RCls p)) s ↔ s ≠ "" ∧ string_forall p s = true.
Proof.
  unfold RPlus. rewrite lang_cat_iff. split.
  - intros (s1 & s2 & -> & (c & -> & Hc)%lang_cls_iff & H2%lang_star_cls_iff).
    simpl. by rewrite Hc, H2.
  - intros [Hne H]. destruct s as [|c s]; [done|]. simpl in H.
    apply andb_true_iff in H as [Hc Hs]. exists (String c ""), s.
    split; [done|]. split; [by constructor|by apply lang_star_cls_iff].
Qed.

Lemma lang_upto_cls_iff n p s :
  lang (RUpTo n (RCls p)) s ↔ String.length s ≤ n ∧ string_forall p s = true.
Proof.
  revert s. induction n as [|n IH]; intros s; simpl.
  - split; [inversion 1; subst; simpl; auto|].
    intros [Hl _]. destruct s; [auto|simpl in Hl; lia].
  - unfold ROpt. split.
    + inversion 1 as [| | |? ? ? H1|? ? ? H1| |]; subst.
      * inversion H1; subst. simpl; auto with lia.
      * apply lang_cat_iff in H1 as (s1 & s2 & -> & (c & -> & Hc)%lang_cls_iff & H2).
        apply IH in H2 as [Hl Hs]. simpl. rewrite Hc, Hs. simpl. auto with lia.
    + intros [Hl Hs]. destruct s as [|c s]; [auto|]. simpl in *.
      apply andb_true_iff in Hs as [Hc Hs]. apply lang_or_r.
      change (String c s) with (String c "" ++ s). constructor; [auto|]. apply IH. auto with lia.
Qed.

Lemma lang_times_cls_iff n p s :
  lang (RTimes n (RCls p)) s ↔ String.length s = n ∧ string_forall p s = true.
Proof.
  revert s. induction n as [|n IH]; intros s; simpl.
  - split; [inversion 1; subst; auto|]. intros [Hl _]. by destruct s.
  - rewrite lang_cat_iff. split.
    + intros (s1 & s2 & -> & (c & -> & Hc)%lang_cls_iff & [Hl Hs]%IH). simpl.
      by rewrite Hc, Hs, Hl.
    + intros [Hl Hs]. destruct s as [|c s]; [done|]. simpl in *.
      apply andb_true_iff in Hs as [Hc Hs]. exists (String c ""), s.
      split; [done|]. split; [by constructor|]. apply IH. auto with lia.
Qed.

Lemma lang_char_iff c s : lang (RChar c) s ↔ s = String c "".
Proof.
  unfold RChar. rewrite lang_cls_iff. split.
  - intros (d & -> & Hd%Ascii.eqb_eq). by subst.
  - intros ->. eexists. split; [done|]. apply Ascii.eqb_refl.
Qed.

Lemma lang_opt_iff r s : lang (ROpt r) s ↔ s = "" ∨ lang r s.
Proof.
  unfold ROpt. split.
  - inversion 1; subst; [left; by inversion H3|auto].
  - intros [->|]; auto.
Qed.
