(* ===== verification/Utils.v ===== *)
(** * internal/utils: the error registry and the input validations

    [ErrorCode] has one constructor per field of [utils.Errors]; [detail] gives
    the registered code, message and HTTP status.  The validations of
    [validations.go] are the source's regular expressions, run by the matcher of
    [Regex], and are characterised by what they accept. *)

From S2P Require Import Prelude.
From S2P Require Import GoLib.
From S2P Require Import Encoding.
From S2P Require Import Regex.
From Stdlib Require Import DecimalFacts DecimalN DecimalString.

#[local] Open Scope string_scope.
#[local] Open Scope Z_scope.

(** ** error_codes.go *)

(** The [net/http] status constants the registry uses. *)
Definition StatusBadRequest : Z := 400.
Definition StatusUnauthorized : Z := 401.
Definition StatusForbidden : Z := 403.
Definition StatusNotFound : Z := 404.
Definition StatusConflict : Z := 409.
Definition StatusRequestEntityTooLarge : Z := 413.
Definition StatusUnsupportedMediaType : Z := 415.
Definition StatusLocked : Z := 423.
Definition StatusTooManyRequests : Z := 429.
Definition StatusInternalServerError : Z := 500.
Definition StatusServiceUnavailable : Z := 503.

Record ErrorDetail := mkErrorDetail { Code : string; Message : string; Status : Z }.

Inductive ErrorCode :=
  | AccountLocked
  | AccountNotUsable
  | AdminProtected
  | CannotTargetSelf
  | CodeExpired
  | EmailIsTaken
  | Forbidden
  | IncorrectCode
  | InternalServerError
  | InvalidCredentials
  | InvalidEmailFormat
  | InvalidMFACode
  | InvalidMFAMethod
  | InvalidOrExpiredToken
  | InvalidPasswordFormat
  | InvalidPayload
  | InvalidPayloadMedia
  | InvalidPayloadSize
  | InvalidRole
  | InvalidUsernameFormat
  | MFAAlreadyEnabled
  | MFANotEnabled
  | NewPasswordMatchesCurrent
  | PasskeyAlreadyRegistered
  | PasskeyChallengeFailed
  | PasskeyNotConfigured
  | PasskeyNotFound
  | RouteNotFound
  | SessionExpired
  | SSOAccountConflict
  | SSOEmailNotVerified
  | SSONotConfigured
  | SSOTokenInvalid
  | TooManyAttempts
  | TooSoonToRequest
  | Unauthorized
  | UserNotFound
  | UsernameTaken
  | TokenGenerationFailed.

#[export] Instance ErrorCode_eq_dec : EqDecision ErrorCode.
Proof. solve_decision. Defined.

Definition Errors (e : ErrorCode) : ErrorDetail :=
  match e with
  | AccountLocked => mkErrorDetail "account_locked" "Account temporarily locked due to too many failed login attempts" StatusLocked
  | AccountNotUsable => mkErrorDetail "account_not_usable" "This account cannot currently sign in" StatusForbidden
  | AdminProtected => mkErrorDetail "admin_protected" "This action cannot be performed on an admin account" StatusForbidden
  | CannotTargetSelf => mkErrorDetail "cannot_target_self" "This action cannot be performed on your own account" StatusBadRequest
  | CodeExpired => mkErrorDetail "code_expired" "Verification code has expired" StatusUnauthorized
  | EmailIsTaken => mkErrorDetail "email_is_taken" "Email is already taken" StatusConflict
  | Forbidden => mkErrorDetail "forbidden" "You do not have permission to perform this action" StatusForbidden
  | IncorrectCode => mkErrorDetail "invalid_code" "Invalid verification code" StatusUnauthorized
  | InternalServerError => mkErrorDetail "internal_server_error" "Something went wrong" StatusInternalServerError
  | InvalidCredentials => mkErrorDetail "invalid_credentials" "Invalid email or password" StatusUnauthorized
  | InvalidEmailFormat => mkErrorDetail "invalid_email_format" "Invalid email submitted" StatusBadRequest
  | InvalidMFACode => mkErrorDetail "invalid_mfa_code" "Invalid or expired MFA code" StatusUnauthorized
  | InvalidMFAMethod => mkErrorDetail "invalid_mfa_method" "This MFA method is not set up for this account" StatusBadRequest
  | InvalidOrExpiredToken => mkErrorDetail "invalid_or_expired_token" "This link is invalid or has expired" StatusUnauthorized
  | InvalidPasswordFormat => mkErrorDetail "invalid_password_format" "Invalid password length" StatusBadRequest
  | InvalidPayload => mkErrorDetail "invalid_payload" "Invalid request payload" StatusBadRequest
  | InvalidPayloadMedia => mkErrorDetail "invalid_payload" "Invalid request payload" StatusUnsupportedMediaType
  | InvalidPayloadSize => mkErrorDetail "invalid_payload" "Invalid request payload" StatusRequestEntityTooLarge
  | InvalidRole => mkErrorDetail "invalid_role" "Invalid role submitted" StatusBadRequest
  | InvalidUsernameFormat => mkErrorDetail "invalid_username_format" "Invalid username submitted" StatusBadRequest
  | MFAAlreadyEnabled => mkErrorDetail "mfa_already_enabled" "MFA is already enabled for this account" StatusConflict
  | MFANotEnabled => mkErrorDetail "mfa_not_enabled" "MFA is not enabled for this account" StatusBadRequest
  | NewPasswordMatchesCurrent => mkErrorDetail "new_password_matches_current" "New password must be different from your current password" StatusBadRequest
  | PasskeyAlreadyRegistered => mkErrorDetail "passkey_already_registered" "This passkey is already registered" StatusConflict
  | PasskeyChallengeFailed => mkErrorDetail "passkey_challenge_failed" "Could not verify the passkey response" StatusUnauthorized
  | PasskeyNotConfigured => mkErrorDetail "passkey_not_configured" "Passkeys are not available" StatusServiceUnavailable
  | PasskeyNotFound => mkErrorDetail "passkey_not_found" "Passkey not found" StatusNotFound
  | RouteNotFound => mkErrorDetail "route_not_found" "Requested route not found" StatusNotFound
  | SessionExpired => mkErrorDetail "session_expired" "Refresh token is invalid or expired" StatusUnauthorized
  | SSOAccountConflict => mkErrorDetail "sso_account_conflict" "An account already exists with this email using a different sign-in method" StatusConflict
  | SSOEmailNotVerified => mkErrorDetail "sso_email_not_verified" "Your account email is not verified with the identity provider" StatusForbidden
  | SSONotConfigured => mkErrorDetail "sso_not_configured" "This sign-in method is not available" StatusServiceUnavailable
  | SSOTokenInvalid => mkErrorDetail "sso_token_invalid" "Could not verify the provided identity token" StatusUnauthorized
  | TooManyAttempts => mkErrorDetail "too_many_attempts" "Too many failed attempts" StatusTooManyRequests
  | TooSoonToRequest => mkErrorDetail "too_soon_to_request" "Please wait before requesting another code" StatusTooManyRequests
  | Unauthorized => mkErrorDetail "unauthorized" "Unauthorized access" StatusUnauthorized
  | UserNotFound => mkErrorDetail "user_not_found" "User not found" StatusNotFound
  | UsernameTaken => mkErrorDetail "username_taken" "Username already in use" StatusConflict
  | TokenGenerationFailed => mkErrorDetail "session_generation_failed" "Failed to generate session, please log-in" StatusInternalServerError
  end.

(** What a service function returns: a value, or a registered error. *)
Inductive svc (A : Type) :=
  | Done (a : A)
  | Fail (e : ErrorCode).
Arguments Done {_} _.
Arguments Fail {_} _.

(** ** validations.go *)

Definition email_local_char (c : ascii) : bool :=
  is_alnum c || Ascii.eqb c "." || Ascii.eqb c "_" || Ascii.eqb c "%"
  || Ascii.eqb c "+" || Ascii.eqb c "-".
Definition email_domain_char (c : ascii) : bool :=
  is_alnum c || Ascii.eqb c "." || Ascii.eqb c "-".
Definition username_char (c : ascii) : bool :=
  is_alnum c || Ascii.eqb c "." || Ascii.eqb c "_".

(** [^[a-zA-Z0-9._%+-]+@[a-zA-Z0-9.-]+\.[a-zA-Z]{2,}$] *)
Definition emailRegex : re :=
  RCat (RPlus (RCls email_local_char))
    (RCat (RChar "@")
       (RCat (RPlus (RCls email_domain_char))
          (RCat (RChar ".")
             (RCat (RTimes 2 (RCls is_alpha)) (RStar (RCls is_alpha)))))).

(** [^[a-zA-Z0-9][a-zA-Z0-9._]{0,28}[a-zA-Z0-9]$] *)
Definition usernameRegex : re :=
  RCat (RCls is_alnum) (RCat (RUpTo 28 (RCls username_char)) (RCls is_alnum)).

(** [^\d{6}$] *)
Definition verificationCodeRegex : re := RTimes 6 (RCls is_digit).

Definition IsValidEmail (email : string) : bool := re_match emailRegex email.
Definition IsValidUsername (username : string) : bool := re_match usernameRegex username.
Definition IsValidVerificationCode (code : string) : bool := re_match verificationCodeRegex code.

Definition minPasswordLen : Z := 12.
Definition maxPasswordLen : Z := 128.
Definition IsValidPassword (password : string) : bool :=
  (minPasswordLen <=? len password) && (len password <=? maxPasswordLen).

Fixpoint IsOriginAllowed (origin : string) (whitelist : list string) : bool :=
  match whitelist with
  | [] => false
  | allowed :: whitelist =>
      if String.eqb origin allowed then true else IsOriginAllowed origin whitelist
  end.

(** The formatting step of [utils.GenerateCode], given the random number. *)
Definition format_code (n : N) : string := print_padded 6 n.

(** ** What the validations accept *)

Lemma alnum_username c : is_alnum c = true → username_char c = true.
Proof. unfold username_char. by intros ->. Qed.

Definition last_char (s : string) : option ascii := last (String.list_ascii_of_string s).
Definition first_char (s : string) : option ascii :=
  match s with EmptyString => None | String c _ => Some c end.

Lemma list_ascii_app s t :
  String.list_ascii_of_string (s ++ t)
  = (String.list_ascii_of_string s ++ String.list_ascii_of_string t)%list.
Proof. induction s as [|c s IH]; simpl; congruence. Qed.

Lemma last_char_app s c : last_char (s ++ String c "") = Some c.
Proof. unfold last_char. rewrite list_ascii_app. simpl. apply last_snoc. Qed.

Lemma string_snoc_inv s : s ≠ "" → ∃ s' c, s = s' ++ String c "".
Proof.
  induction s as [|a s IH]; [done|]. intros _. destruct s as [|b s].
  - by exists "", a.
  - destruct IH as (s' & c & ->); [done|]. by exists (String a s'), c.
Qed.

Definition valid_username_spec (s : string) : Prop :=
  2 ≤ len s ≤ 30 ∧ string_forall username_char s = true
  ∧ (∃ c, first_char s = Some c ∧ is_alnum c = true)
  ∧ (∃ c, last_char s = Some c ∧ is_alnum c = true).

Lemma IsValidUsername_spec s : IsValidUsername s = true ↔ valid_username_spec s.
Proof.
  unfold IsValidUsername, usernameRegex, valid_username_spec.
  rewrite re_match_lang, lang_cat_iff. setoid_rewrite lang_cat_iff.
  setoid_rewrite lang_cls_iff. setoid_rewrite lang_upto_cls_iff. split.
  - intros (s1 & s2 & -> & (a & -> & Ha) & (m & s3 & -> & [Hl Hm] & (z & -> & Hz))).
    rewrite !len_app, !string_forall_app. simpl string_forall.
    rewrite Hm, (alnum_username a Ha), (alnum_username z Hz).
    split; [unfold len in *; simpl in *; lia|]. split; [done|]. split.
    + exists a. auto.
    + exists z. rewrite <- string_app_assoc, last_char_app. auto.
  - intros (Hl & Hall & (a & Ha & Haa) & (z & Hz & Hzz)).
    destruct s as [|a' s]; [done|]. injection Ha as ->.
    destruct (string_snoc_inv s) as (m & z' & ->).
    { intros ->. unfold len in Hl. simpl in Hl. lia. }
    change (String a (m ++ String z' "")) with (String a m ++ String z' "") in Hz.
    rewrite last_char_app in Hz. injection Hz as ->.
    exists (String a ""), (m ++ String z ""). split; [done|]. split; [eauto|].
    exists m, (String z ""). split; [done|]. split; [|eauto].
    change (String a (m ++ String z "")) with (String a "" ++ (m ++ String z "")) in *.
    rewrite !len_app in Hl. rewrite !string_forall_app in Hall. bool_to_prop.
    split; [unfold len in Hl; simpl in Hl; lia|done].
Qed.

Lemma IsValidVerificationCode_spec s :
  IsValidVerificationCode s = true ↔ String.length s = 6%nat ∧ string_forall is_digit s = true.
Proof. unfold IsValidVerificationCode, verificationCodeRegex. by rewrite re_match_lang, lang_times_cls_iff. Qed.

Definition valid_email_spec (s : string) : Prop :=
  ∃ local domain tld, s = local ++ "@" ++ domain ++ "." ++ tld
    ∧ local ≠ "" ∧ string_forall email_local_char local = true
    ∧ domain ≠ "" ∧ string_forall email_domain_char domain = true
    ∧ 2 ≤ len tld ∧ string_forall is_alpha tld = true.

Lemma string_split_2 s : 2 ≤ len s → ∃ s1 s2, s = s1 ++ s2 ∧ String.length s1 = 2%nat.
Proof.
  unfold len. destruct s as [|a [|b s]]; simpl; try lia. intros _.
  by exists (String a (String b "")), s.
Qed.

Lemma IsValidEmail_spec s : IsValidEmail s = true ↔ valid_email_spec s.
Proof.
  unfold IsValidEmail, emailRegex, valid_email_spec. rewrite re_match_lang. split.
  - intros (l & r & -> & [Hl1 Hl2]%lang_plus_cls_iff & (c1 & r2 & -> & ->%lang_char_iff
      & (d & r3 & -> & [Hd1 Hd2]%lang_plus_cls_iff & (c2 & r4 & -> & ->%lang_char_iff
      & (t1 & t2 & -> & [Ht1 Ht2]%lang_times_cls_iff & Ht3%lang_star_cls_iff)%lang_cat_iff
      )%lang_cat_iff)%lang_cat_iff)%lang_cat_iff)%lang_cat_iff.
    exists l, d, (t1 ++ t2). repeat split; try done.
    + rewrite len_app. unfold len at 1. rewrite Ht1. pose proof (len_nonneg t2). lia.
    + by rewrite string_forall_app, Ht2, Ht3.
  - intros (l & d & t & -> & Hl1 & Hl2 & Hd1 & Hd2 & Ht1 & Ht2).
    apply string_split_2 in Ht1 as (t1 & t2 & -> & Ht1).
    rewrite string_forall_app in Ht2. bool_to_prop.
    constructor; [by apply lang_plus_cls_iff|]. constructor; [by apply lang_char_iff|].
    constructor; [by apply lang_plus_cls_iff|]. constructor; [by apply lang_char_iff|].
    constructor; [by apply lang_times_cls_iff|by apply lang_star_cls_iff].
Qed.

Lemma ascii_of_class (p : ascii → bool) s :
  (∀ c, p c = true → is_ascii_char c = true) → string_forall p s = true → is_ascii s = true.
Proof.
  intros Hp. induction s as [|c s IH]; simpl; [done|]. intros [Hc Hs]%andb_true_iff.
  by rewrite (Hp c Hc), IH.
Qed.

Ltac ascii_cases c := destruct c as [[] [] [] [] [] [] [] []]; vm_compute; try done; auto.

Lemma is_ascii_app s t : is_ascii (s ++ t) = is_ascii s && is_ascii t.
Proof. induction s as [|c s IH]; simpl; [done|]. by rewrite IH, andb_assoc. Qed.

(** Valid emails and usernames are ASCII. *)
Lemma valid_email_ascii s : IsValidEmail s = true → is_ascii s = true.
Proof.
  intros (l & d & t & -> & _ & Hl & _ & Hd & _ & Ht)%IsValidEmail_spec.
  rewrite !is_ascii_app.
  rewrite (ascii_of_class email_local_char l), (ascii_of_class email_domain_char d),
    (ascii_of_class is_alpha t); try done; intros c; ascii_cases c.
Qed.

Lemma valid_username_ascii s : IsValidUsername s = true → is_ascii s = true.
Proof.
  intros (_ & Hs & _)%IsValidUsername_spec. revert Hs. apply ascii_of_class.
  intros c; ascii_cases c.
Qed.

Lemma IsOriginAllowed_elem o l : IsOriginAllowed o l = true ↔ o ∈ l.
Proof.
  induction l as [|a l IH]; simpl; [set_solver|].
  destruct (String.eqb_spec o a) as [->|Hne]; [set_solver|]. rewrite IH. set_solver.
Qed.

(** ** Generated codes *)

Definition ulen (u : Decimal.uint) : nat := String.length (NilEmpty.string_of_uint u).

(** The value of a digit string is at least its leading value times a power of
    ten. *)
Lemma of_uint_acc_lower u acc :
  (N.pos acc * 10 ^ N.of_nat (ulen u) <= N.pos (Pos.of_uint_acc u acc))%N.
Proof.
  revert acc. induction u; intros acc; [cbn; lia|..];
    (replace (ulen _) with (S (ulen u)) by reflexivity;
     rewrite Nat2N.inj_succ, N.pow_succ_r'; cbn [Pos.of_uint_acc];
     eapply N.le_trans; [|apply IHu]; rewrite N.mul_assoc;
     apply N.mul_le_mono_r; lia).
Qed.

Lemma unorm_lower u :
  Decimal.unorm u = u → u ≠ Decimal.zero → u ≠ Decimal.Nil →
  (10 ^ N.of_nat (ulen u - 1) <= N.of_uint u)%N.
Proof.
  intros Hn Hz Hnil.
  destruct u; [done| |..];
    [|replace (ulen _ - 1)%nat with (ulen u) by (unfold ulen; cbn; lia);
      cbn [N.of_uint Pos.of_uint];
      eapply N.le_trans; [|apply of_uint_acc_lower]; lia..].
  exfalso. unfold Decimal.unorm in Hn. cbn [Decimal.nzhead] in Hn.
  destruct (Decimal.nzhead u) eqn:E; try done.
  pose proof (DecimalFacts.nb_digits_nzhead u) as Hl. rewrite E in Hl.
  injection Hn as ->. cbn in Hl. lia.
Qed.

Lemma print_nat_length k n :
  (0 < k)%nat → (n < 10 ^ N.of_nat k)%N → (String.length (print_nat n) ≤ k)%nat.
Proof.
  intros Hk Hn. unfold print_nat.
  assert (Hu : Decimal.unorm (N.to_uint n) = N.to_uint n)
    by (rewrite <- DecimalN.Unsigned.to_of, DecimalN.Unsigned.of_to; done).
  destruct (Decimal.uint_eq_dec (N.to_uint n) Decimal.zero) as [E|E]; [rewrite E; cbn; lia|].
  destruct (Decimal.uint_eq_dec (N.to_uint n) Decimal.Nil) as [E'|E']; [rewrite E'; cbn; lia|].
  assert (NilZero.string_of_uint (N.to_uint n) = NilEmpty.string_of_uint (N.to_uint n))
    as -> by (unfold NilZero.string_of_uint; by destruct (N.to_uint n)).
  fold (ulen (N.to_uint n)).
  pose proof (unorm_lower _ Hu E E') as Hl. rewrite DecimalN.Unsigned.of_to in Hl.
  destruct (le_lt_dec (ulen (N.to_uint n)) k) as [|Hgt]; [done|]. exfalso.
  assert (10 ^ N.of_nat k <= 10 ^ N.of_nat (ulen (N.to_uint n) - 1))%N
    by (apply N.pow_le_mono_r; lia).
  lia.
Qed.

Lemma zeros_digits n :
  string_forall is_digit (String.string_of_list_ascii (List.repeat "0"%char n)) = true.
Proof. by induction n. Qed.

Lemma zeros_length n :
  String.length (String.string_of_list_ascii (List.repeat "0"%char n)) = n.
Proof. induction n; simpl; congruence. Qed.

(** Every generated code passes [IsValidVerificationCode]. *)
Lemma format_code_valid n : (n < 1000000)%N → IsValidVerificationCode (format_code n) = true.
Proof.
  intros Hn. apply IsValidVerificationCode_spec. unfold format_code, print_padded.
  rewrite string_length_app, string_forall_app, zeros_length, zeros_digits, print_nat_digits.
  pose proof (print_nat_length 6 n ltac:(lia) Hn). split; [lia|done].
Qed.
