(* ===== verification/Model.v ===== *)
(** * The data model: internal/db/postgres/models.go, internal/entities, config

    Rows of the nine tables as records with the columns of [models.go], the
    enumerations of the schema, the Redis values of [internal/entities] and the
    fields of [config.Config] the modelled code reads.  A nullable column
    ([pgtype.T] with [Valid]) is an [option]; a timestamp is a number of
    nanoseconds since the epoch. *)

From S2P Require Import Prelude.
From S2P Require Import GoLib.

#[local] Open Scope string_scope.
#[local] Open Scope Z_scope.

(** [uuid.UUID]: sixteen bytes. *)
Record uuid := MkUUID { uuid_Bytes : string }.

#[export] Instance uuid_eq_dec : EqDecision uuid.
Proof. solve_decision. Defined.

Definition uuid_Nil : uuid := MkUUID (bytes (List.repeat 0%nat 16)).

(** ** Enumerations of models.go, with the strings they stand for. *)

Inductive UserRole :=
  | UserRoleUser
  | UserRoleModerator
  | UserRoleAdmin.

#[export] Instance UserRole_eq_dec : EqDecision UserRole.
Proof. solve_decision. Defined.

Definition UserRole_string (x : UserRole) : string :=
  match x with
  | UserRoleUser => "user"
  | UserRoleModerator => "moderator"
  | UserRoleAdmin => "admin"
  end.

Inductive UserStatus :=
  | UserStatusActive
  | UserStatusOffline
  | UserStatusDisabled
  | UserStatusBanned.

#[export] Instance UserStatus_eq_dec : EqDecision UserStatus.
Proof. solve_decision. Defined.

Definition UserStatus_string (x : UserStatus) : string :=
  match x with
  | UserStatusActive => "active"
  | UserStatusOffline => "offline"
  | UserStatusDisabled => "disabled"
  | UserStatusBanned => "banned"
  end.

Inductive UserOrigin :=
  | UserOriginEmail
  | UserOriginGoogle
  | UserOriginApple.

#[export] Instance UserOrigin_eq_dec : EqDecision UserOrigin.
Proof. solve_decision. Defined.

Inductive ProviderName :=
  | ProviderNameEmail
  | ProviderNameGoogle
  | ProviderNameApple.

#[export] Instance ProviderName_eq_dec : EqDecision ProviderName.
Proof. solve_decision. Defined.

Inductive MfaType :=
  | MfaTypeTotp
  | MfaTypeSms
  | MfaTypeEmail.

#[export] Instance MfaType_eq_dec : EqDecision MfaType.
Proof. solve_decision. Defined.

Inductive ResetSource :=
  | ResetSourceWeb
  | ResetSourceMobile
  | ResetSourceAdmin.

#[export] Instance ResetSource_eq_dec : EqDecision ResetSource.
Proof. solve_decision. Defined.

Inductive LoginResult :=
  | LoginResultSuccess
  | LoginResultFailed
  | LoginResultLocked
  | LoginResultMfaRequired.

#[export] Instance LoginResult_eq_dec : EqDecision LoginResult.
Proof. solve_decision. Defined.

Inductive AuditAction :=
  | AuditActionUpdateUser
  | AuditActionChangeRole
  | AuditActionChangeStatus
  | AuditActionPasswordReset
  | AuditActionEmailChange
  | AuditActionMfaChange
  | AuditActionUserBan
  | AuditActionUserUnban
  | AuditActionUserDeleted
  | AuditActionAdminNote.

#[export] Instance AuditAction_eq_dec : EqDecision AuditAction.
Proof. solve_decision. Defined.

(** The [changes] column the audit triggers write: column, old and new value. *)
Inductive jval :=
  | JInt (z : option Z)
  | JTime (t : option Z)
  | JText (s : option string)
  | JBool (b : option bool).

Definition changes := list (string * (jval * jval)).

(** ** Rows *)

Record AuditLog := mkAuditLog {
  al_ID : uuid;
  al_ActorID : option uuid;
  al_ActorUsername : option string;
  al_ActorEmail : option string;
  al_TargetUserID : option uuid;
  al_TargetUsername : option string;
  al_TargetEmail : option string;
  al_Action : AuditAction;
  al_Changes : option changes;
  al_Reason : option string;
  al_Ip : option string;
  al_UserAgent : option string;
  al_CreatedAt : option Z
}.

Record AuthIdentity := mkAuthIdentity {
  ai_ID : uuid;
  ai_UserID : option uuid;
  ai_Provider : ProviderName;
  ai_ProviderUserID : string;
  ai_PasswordHash : option string;
  ai_FailedAttempts : option Z;
  ai_LastFailedAt : option Z;
  ai_LockedAt : option Z;
  ai_LastLogin : option Z;
  ai_CreatedAt : option Z
}.

Record Login := mkLogin {
  lg_ID : uuid;
  lg_UserID : option uuid;
  lg_IdentityID : option uuid;
  lg_Result : LoginResult;
  lg_Ip : option string;
  lg_UserAgent : option string;
  lg_DeviceID : option string;
  lg_Location : option string;
  lg_CreatedAt : option Z
}.

Record MfaFactor := mkMfaFactor {
  mf_ID : uuid;
  mf_UserID : option uuid;
  mf_AuthenticatorAppName : option string;
  mf_Type : MfaType;
  mf_Secret : option string;
  mf_Enabled : option bool;
  mf_Verified : option bool;
  mf_CreatedAt : option Z;
  mf_FailedAttempts : option Z;
  mf_LastUsedAt : option Z;
  mf_Revoked : option bool;
  mf_LastUsedStep : option Z
}.

Record MfaRecoveryCode := mkMfaRecoveryCode {
  rc_ID : uuid;
  rc_FactorID : uuid;
  rc_CodeHash : string;
  rc_UsedAt : option Z;
  rc_CreatedAt : option Z
}.

Record PasswordReset := mkPasswordReset {
  pr_ID : uuid;
  pr_UserID : option uuid;
  pr_ResetToken : string;
  pr_CreatedAt : option Z;
  pr_ExpiresAt : Z;
  pr_UsedAt : option Z;
  pr_BackupCodes : option string;
  pr_Source : ResetSource
}.

Record Session := mkSession {
  se_ID : uuid;
  se_UserID : option uuid;
  se_CreatedAt : option Z;
  se_ExpiresAt : Z;
  se_RefreshTokenHash : option string;
  se_RotatedAt : option Z;
  se_Revoked : option bool;
  se_RevokedAt : option Z;
  se_Ip : option string;
  se_UserAgent : option string;
  se_Metadata : option string
}.

Record User := mkUser {
  u_ID : uuid;
  u_Email : string;
  u_Username : string;
  u_UsernameDisplay : string;
  u_ProfilePhotoUrl : option string;
  u_DisplayName : option string;
  u_CreatedAt : option Z;
  u_Status : option UserStatus;
  u_Role : UserRole;
  u_LastLogin : option Z;
  u_LastPasswordChange : option Z;
  u_Origin : option UserOrigin;
  u_LastSeen : option Z;
  u_DeletedAt : option Z
}.

Record WebauthnCredential := mkWebauthnCredential {
  wc_ID : uuid;
  wc_UserID : uuid;
  wc_CredentialID : string;
  wc_Name : option string;
  wc_Credential : string;
  wc_CreatedAt : option Z;
  wc_LastUsedAt : option Z
}.

(** Column assignments ([SET c = v]). *)
Definition set_ai_PasswordHash (v : option string) (r : AuthIdentity) : AuthIdentity :=
  mkAuthIdentity (ai_ID r) (ai_UserID r) (ai_Provider r) (ai_ProviderUserID r) v (ai_FailedAttempts r) (ai_LastFailedAt r) (ai_LockedAt r) (ai_LastLogin r) (ai_CreatedAt r).
Definition set_ai_FailedAttempts (v : option Z) (r : AuthIdentity) : AuthIdentity :=
  mkAuthIdentity (ai_ID r) (ai_UserID r) (ai_Provider r) (ai_ProviderUserID r) (ai_PasswordHash r) v (ai_LastFailedAt r) (ai_LockedAt r) (ai_LastLogin r) (ai_CreatedAt r).
Definition set_ai_LastFailedAt (v : option Z) (r : AuthIdentity) : AuthIdentity :=
  mkAuthIdentity (ai_ID r) (ai_UserID r) (ai_Provider r) (ai_ProviderUserID r) (ai_PasswordHash r) (ai_FailedAttempts r) v (ai_LockedAt r) (ai_LastLogin r) (ai_CreatedAt r).
Definition set_ai_LockedAt (v : option Z) (r : AuthIdentity) : AuthIdentity :=
  mkAuthIdentity (ai_ID r) (ai_UserID r) (ai_Provider r) (ai_ProviderUserID r) (ai_PasswordHash r) (ai_FailedAttempts r) (ai_LastFailedAt r) v (ai_LastLogin r) (ai_CreatedAt r).
Definition set_ai_LastLogin (v : option Z) (r : AuthIdentity) : AuthIdentity :=
  mkAuthIdentity (ai_ID r) (ai_UserID r) (ai_Provider r) (ai_ProviderUserID r) (ai_PasswordHash r) (ai_FailedAttempts r) (ai_LastFailedAt r) (ai_LockedAt r) v (ai_CreatedAt r).
Definition set_mf_Secret (v : option string) (r : MfaFactor) : MfaFactor :=
  mkMfaFactor (mf_ID r) (mf_UserID r) (mf_AuthenticatorAppName r) (mf_Type r) v (mf_Enabled r) (mf_Verified r) (mf_CreatedAt r) (mf_FailedAttempts r) (mf_LastUsedAt r) (mf_Revoked r) (mf_LastUsedStep r).
Definition set_mf_Enabled (v : option bool) (r : MfaFactor) : MfaFactor :=
  mkMfaFactor (mf_ID r) (mf_UserID r) (mf_AuthenticatorAppName r) (mf_Type r) (mf_Secret r) v (mf_Verified r) (mf_CreatedAt r) (mf_FailedAttempts r) (mf_LastUsedAt r) (mf_Revoked r) (mf_LastUsedStep r).
Definition set_mf_Verified (v : option bool) (r : MfaFactor) : MfaFactor :=
  mkMfaFactor (mf_ID r) (mf_UserID r) (mf_AuthenticatorAppName r) (mf_Type r) (mf_Secret r) (mf_Enabled r) v (mf_CreatedAt r) (mf_FailedAttempts r) (mf_LastUsedAt r) (mf_Revoked r) (mf_LastUsedStep r).
Definition set_mf_CreatedAt (v : option Z) (r : MfaFactor) : MfaFactor :=
  mkMfaFactor (mf_ID r) (mf_UserID r) (mf_AuthenticatorAppName r) (mf_Type r) (mf_Secret r) (mf_Enabled r) (mf_Verified r) v (mf_FailedAttempts r) (mf_LastUsedAt r) (mf_Revoked r) (mf_LastUsedStep r).
Definition set_mf_FailedAttempts (v : option Z) (r : MfaFactor) : MfaFactor :=
  mkMfaFactor (mf_ID r) (mf_UserID r) (mf_AuthenticatorAppName r) (mf_Type r) (mf_Secret r) (mf_Enabled r) (mf_Verified r) (mf_CreatedAt r) v (mf_LastUsedAt r) (mf_Revoked r) (mf_LastUsedStep r).
Definition set_mf_LastUsedAt (v : option Z) (r : MfaFactor) : MfaFactor :=
  mkMfaFactor (mf_ID r) (mf_UserID r) (mf_AuthenticatorAppName r) (mf_Type r) (mf_Secret r) (mf_Enabled r) (mf_Verified r) (mf_CreatedAt r) (mf_FailedAttempts r) v (mf_Revoked r) (mf_LastUsedStep r).
Definition set_mf_LastUsedStep (v : option Z) (r : MfaFactor) : MfaFactor :=
  mkMfaFactor (mf_ID r) (mf_UserID r) (mf_AuthenticatorAppName r) (mf_Type r) (mf_Secret r) (mf_Enabled r) (mf_Verified r) (mf_CreatedAt r) (mf_FailedAttempts r) (mf_LastUsedAt r) (mf_Revoked r) v.
Definition set_rc_UsedAt (v : option Z) (r : MfaRecoveryCode) : MfaRecoveryCode :=
  mkMfaRecoveryCode (rc_ID r) (rc_FactorID r) (rc_CodeHash r) v (rc_CreatedAt r).
Definition set_pr_UsedAt (v : option Z) (r : PasswordReset) : PasswordReset :=
  mkPasswordReset (pr_ID r) (pr_UserID r) (pr_ResetToken r) (pr_CreatedAt r) (pr_ExpiresAt r) v (pr_BackupCodes r) (pr_Source r).
Definition set_se_ExpiresAt (v : Z) (r : Session) : Session :=
  mkSession (se_ID r) (se_UserID r) (se_CreatedAt r) v (se_RefreshTokenHash r) (se_RotatedAt r) (se_Revoked r) (se_RevokedAt r) (se_Ip r) (se_UserAgent r) (se_Metadata r).
Definition set_se_RefreshTokenHash (v : option string) (r : Session) : Session :=
  mkSession (se_ID r) (se_UserID r) (se_CreatedAt r) (se_ExpiresAt r) v (se_RotatedAt r) (se_Revoked r) (se_RevokedAt r) (se_Ip r) (se_UserAgent r) (se_Metadata r).
Definition set_se_RotatedAt (v : option Z) (r : Session) : Session :=
  mkSession (se_ID r) (se_UserID r) (se_CreatedAt r) (se_ExpiresAt r) (se_RefreshTokenHash r) v (se_Revoked r) (se_RevokedAt r) (se_Ip r) (se_UserAgent r) (se_Metadata r).
Definition set_se_Revoked (v : option bool) (r : Session) : Session :=
  mkSession (se_ID r) (se_UserID r) (se_CreatedAt r) (se_ExpiresAt r) (se_RefreshTokenHash r) (se_RotatedAt r) v (se_RevokedAt r) (se_Ip r) (se_UserAgent r) (se_Metadata r).
Definition set_se_RevokedAt (v : option Z) (r : Session) : Session :=
  mkSession (se_ID r) (se_UserID r) (se_CreatedAt r) (se_ExpiresAt r) (se_RefreshTokenHash r) (se_RotatedAt r) (se_Revoked r) v (se_Ip r) (se_UserAgent r) (se_Metadata r).
Definition set_u_Status (v : option UserStatus) (r : User) : User :=
  mkUser (u_ID r) (u_Email r) (u_Username r) (u_UsernameDisplay r) (u_ProfilePhotoUrl r) (u_DisplayName r) (u_CreatedAt r) v (u_Role r) (u_LastLogin r) (u_LastPasswordChange r) (u_Origin r) (u_LastSeen r) (u_DeletedAt r).
Definition set_u_Role (v : UserRole) (r : User) : User :=
  mkUser (u_ID r) (u_Email r) (u_Username r) (u_UsernameDisplay r) (u_ProfilePhotoUrl r) (u_DisplayName r) (u_CreatedAt r) (u_Status r) v (u_LastLogin r) (u_LastPasswordChange r) (u_Origin r) (u_LastSeen r) (u_DeletedAt r).
Definition set_u_LastLogin (v : option Z) (r : User) : User :=
  mkUser (u_ID r) (u_Email r) (u_Username r) (u_UsernameDisplay r) (u_ProfilePhotoUrl r) (u_DisplayName r) (u_CreatedAt r) (u_Status r) (u_Role r) v (u_LastPasswordChange r) (u_Origin r) (u_LastSeen r) (u_DeletedAt r).
Definition set_u_LastSeen (v : option Z) (r : User) : User :=
  mkUser (u_ID r) (u_Email r) (u_Username r) (u_UsernameDisplay r) (u_ProfilePhotoUrl r) (u_DisplayName r) (u_CreatedAt r) (u_Status r) (u_Role r) (u_LastLogin r) (u_LastPasswordChange r) (u_Origin r) v (u_DeletedAt r).
Definition set_u_DeletedAt (v : option Z) (r : User) : User :=
  mkUser (u_ID r) (u_Email r) (u_Username r) (u_UsernameDisplay r) (u_ProfilePhotoUrl r) (u_DisplayName r) (u_CreatedAt r) (u_Status r) (u_Role r) (u_LastLogin r) (u_LastPasswordChange r) (u_Origin r) (u_LastSeen r) v.
Definition set_wc_Name (v : option string) (r : WebauthnCredential) : WebauthnCredential :=
  mkWebauthnCredential (wc_ID r) (wc_UserID r) (wc_CredentialID r) v (wc_Credential r) (wc_CreatedAt r) (wc_LastUsedAt r).
Definition set_wc_Credential (v : string) (r : WebauthnCredential) : WebauthnCredential :=
  mkWebauthnCredential (wc_ID r) (wc_UserID r) (wc_CredentialID r) (wc_Name r) v (wc_CreatedAt r) (wc_LastUsedAt r).
Definition set_wc_LastUsedAt (v : option Z) (r : WebauthnCredential) : WebauthnCredential :=
  mkWebauthnCredential (wc_ID r) (wc_UserID r) (wc_CredentialID r) (wc_Name r) (wc_Credential r) (wc_CreatedAt r) v.

(** ** The database *)
Record DB := mkDB {
  users : list User;
  auth_identities : list AuthIdentity;
  mfa_factors : list MfaFactor;
  mfa_recovery_codes : list MfaRecoveryCode;
  password_resets : list PasswordReset;
  sessions : list Session;
  logins : list Login;
  audit_logs : list AuditLog;
  webauthn_credentials : list WebauthnCredential
}.

Definition set_users (v : list User) (d : DB) : DB :=
  mkDB v (auth_identities d) (mfa_factors d) (mfa_recovery_codes d) (password_resets d) (sessions d) (logins d) (audit_logs d) (webauthn_credentials d).
Definition set_auth_identities (v : list AuthIdentity) (d : DB) : DB :=
  mkDB (users d) v (mfa_factors d) (mfa_recovery_codes d) (password_resets d) (sessions d) (logins d) (audit_logs d) (webauthn_credentials d).
Definition set_mfa_factors (v : list MfaFactor) (d : DB) : DB :=
  mkDB (users d) (auth_identities d) v (mfa_recovery_codes d) (password_resets d) (sessions d) (logins d) (audit_logs d) (webauthn_credentials d).
Definition set_mfa_recovery_codes (v : list MfaRecoveryCode) (d : DB) : DB :=
  mkDB (users d) (auth_identities d) (mfa_factors d) v (password_resets d) (sessions d) (logins d) (audit_logs d) (webauthn_credentials d).
Definition set_password_resets (v : list PasswordReset) (d : DB) : DB :=
  mkDB (users d) (auth_identities d) (mfa_factors d) (mfa_recovery_codes d) v (sessions d) (logins d) (audit_logs d) (webauthn_credentials d).
Definition set_sessions (v : list Session) (d : DB) : DB :=
  mkDB (users d) (auth_identities d) (mfa_factors d) (mfa_recovery_codes d) (password_resets d) v (logins d) (audit_logs d) (webauthn_credentials d).
Definition set_logins (v : list Login) (d : DB) : DB :=
  mkDB (users d) (auth_identities d) (mfa_factors d) (mfa_recovery_codes d) (password_resets d) (sessions d) v (audit_logs d) (webauthn_credentials d).
Definition set_audit_logs (v : list AuditLog) (d : DB) : DB :=
  mkDB (users d) (auth_identities d) (mfa_factors d) (mfa_recovery_codes d) (password_resets d) (sessions d) (logins d) v (webauthn_credentials d).
Definition set_webauthn_credentials (v : list WebauthnCredential) (d : DB) : DB :=
  mkDB (users d) (auth_identities d) (mfa_factors d) (mfa_recovery_codes d) (password_resets d) (sessions d) (logins d) (audit_logs d) v.

(** ** internal/entities *)

(** [entities.OTPMeta], the JSON value of every one-time-code key in Redis. *)
Record OTPMeta := mkOTPMeta {
  otp_Code : string;
  otp_CreatedAt : Z;
  otp_ExpiresAt : Z;
  otp_Attempts : Z;
  otp_MaxAttempts : Z
}.

Definition set_otp_Attempts (v : Z) (m : OTPMeta) : OTPMeta :=
  mkOTPMeta (otp_Code m) (otp_CreatedAt m) (otp_ExpiresAt m) v (otp_MaxAttempts m).

Record UserContext := mkUserContext {
  uc_ID : string;
  uc_Username : string;
  uc_SessionID : string;
  uc_Role : string
}.

Definition RoleJoiner : string := "joiner".
Definition RoleMFAPending : string := "mfa_pending".

(** [entities.JWTClaims] with the registered claims the service reads. *)
Record JWTClaims := mkJWTClaims {
  jc_UserID : string;
  jc_Username : string;
  jc_Role : string;
  jc_Subject : string;
  jc_Issuer : string;
  jc_Audience : list string;
  jc_ID : string;
  jc_ExpiresAt : option Z;
  jc_IssuedAt : option Z;
  jc_NotBefore : option Z
}.

(** The request context values of [entities.ContextKey] (a missing key is
    [None]). *)
Record Ctx := mkCtx {
  ctx_User : option UserContext;
  ctx_EmailFromTempJWT : option string;
  ctx_JTIFromTempJWT : option string;
  ctx_ClientIP : option string;
  ctx_UserAgent : option string;
  ctx_SessionIDFromExpiredJWT : option string;
  ctx_UserIDFromExpiredJWT : option string
}.

Definition GetContextString (v : option string) (fallback : string) : string := default fallback v.
Definition ClientIPFromCtx (ctx : Ctx) : string := GetContextString (ctx_ClientIP ctx) "".
Definition UserAgentFromCtx (ctx : Ctx) : string := GetContextString (ctx_UserAgent ctx) "".

(** ** config.Config (the Sentry fields apart) *)

(** [limiter.Rate] *)
Record Rate := mkRate { rate_Period : Z; rate_Limit : Z }.

Record Config := mkConfig {
  cfg_Env : string;
  cfg_PasswordPeppersRaw : string;
  cfg_ActivePepperID : string;
  cfg_AllowedOrigins : list string;
  cfg_OTP_TTL : Z;
  cfg_AccessTTL : Z;
  cfg_RefreshTTL : Z;
  cfg_TemporaryTokenTTL : Z;
  cfg_LoginMaxFailedAttempts : Z;
  cfg_LoginLockDuration : Z;
  cfg_PasswordResetTTL : Z;
  cfg_PasswordResetURL : string;
  cfg_MFAIssuer : string;
  cfg_MFAChallengeTTL : Z;
  cfg_MFARecoveryCodeCount : Z;
  cfg_MFAEncryptionKey : string;
  cfg_JWTAlgorithm : string;
  cfg_JWTPrivateKey : string;
  cfg_JWTPublicKey : string;
  cfg_GoogleClientID : string;
  cfg_AppleClientID : string;
  cfg_Port : string;
  cfg_DSN : string;
  cfg_RequestTimeout : Z;
  cfg_RateLimit : Rate;
  cfg_RedisAddress : string;
  cfg_ResendAPIKey : string;
  cfg_EmailFromAddress : string;
  cfg_WebAuthnRPID : string;
  cfg_WebAuthnRPDisplayName : string;
  cfg_WebAuthnRPOrigins : list string
}.

(** [pgtype.Text.String], [pgtype.Bool.Bool], [pgtype.Int8.Int64]: the zero value
    when the column is NULL. *)
Definition text_String (o : option string) : string := default "" o.
Definition bool_Bool (o : option bool) : bool := default false o.
Definition int_Int (o : option Z) : Z := default 0 o.
Definition is_valid {A} (o : option A) : bool := match o with Some _ => true | None => false end.

(** [identity.DeletedAt.Valid || (Status.Valid && (banned || disabled))]: the
    account check repeated by every flow. *)
Definition status_blocked (st : option UserStatus) : bool :=
  match st with
  | Some s => bool_decide (s = UserStatusBanned) || bool_decide (s = UserStatusDisabled)
  | None => false
  end.
Definition not_usable (deleted : option Z) (st : option UserStatus) : bool :=
  is_valid deleted || status_blocked st.

(** [textOrNull] of admin_service.go *)
Definition textOrNull (s : string) : option string :=
  if String.eqb s "" then None else Some s.
