(* ===== verification/Enums.v ===== *)
(** * Reading and writing enumerations: the Scan and Value methods of models.go

    A column of an enumeration type reaches Go as text; [Scan] keeps the text,
    whatever it is, and refuses values of other types; the [Null] wrappers add
    the missing value.  The schema's types have exactly the labels of the
    constructors of [Model], so what a row of the store scans to is the
    constructor the model keeps. *)

From S2P Require Import Prelude.
From S2P Require Import GoLib.
From S2P Require Import Model.

#[local] Open Scope string_scope.

(** [driver.Value], with the name [%T] prints. *)
Inductive driver_Value :=
  | VNil
  | VInt64 (z : Z)
  | VFloat64 (text : string)
  | VBool (b : bool)
  | VBytes (s : string)
  | VString (s : string)
  | VTime (t : Z).
Definition type_name (v : driver_Value) : string :=
  match v with
  | VNil => "<nil>" | VInt64 _ => "int64" | VFloat64 _ => "float64" | VBool _ => "bool"
  | VBytes _ => "[]uint8" | VString _ => "string" | VTime _ => "time.Time"
  end.

(** The receiver after the call and the error, if any. *)
Definition Scan (name : string) (e : string) (src : driver_Value) : string * option error :=
  match src with
  | VBytes s => (s, None)
  | VString s => (s, None)
  | _ => (e, Some (ErrMsg ("unsupported scan type for " ++ name ++ ": " ++ type_name src)))
  end.

Record NullEnum := mkNullEnum { ne_Enum : string; ne_Valid : bool }.

Definition NullScan (scan : string → driver_Value → string * option error) (ns : NullEnum) (value : driver_Value)
    : NullEnum * option error :=
  match value with
  | VNil => (mkNullEnum "" false, None)
  | _ => let '(e, err) := scan (ne_Enum ns) value in (mkNullEnum e true, err)
  end.
Definition NullValue (ns : NullEnum) : driver_Value * option error :=
  if negb (ne_Valid ns) then (VNil, None) else (VString (ne_Enum ns), None).

(** ** The eight types *)

Definition AuditAction_string (x : AuditAction) : string :=
  match x with
  | AuditActionUpdateUser => "update_user"
  | AuditActionChangeRole => "change_role"
  | AuditActionChangeStatus => "change_status"
  | AuditActionPasswordReset => "password_reset"
  | AuditActionEmailChange => "email_change"
  | AuditActionMfaChange => "mfa_change"
  | AuditActionUserBan => "user_ban"
  | AuditActionUserUnban => "user_unban"
  | AuditActionUserDeleted => "user_deleted"
  | AuditActionAdminNote => "admin_note"
  end.
Definition AuditAction_Scan : string → driver_Value → string * option error := Scan "AuditAction".
Definition NullAuditAction : Type := NullEnum.
Definition NullAuditAction_Scan : NullAuditAction → driver_Value → NullAuditAction * option error := NullScan AuditAction_Scan.
Definition NullAuditAction_Value : NullAuditAction → driver_Value * option error := NullValue.

Definition LoginResult_string (x : LoginResult) : string :=
  match x with
  | LoginResultSuccess => "success"
  | LoginResultFailed => "failed"
  | LoginResultLocked => "locked"
  | LoginResultMfaRequired => "mfa_required"
  end.
Definition LoginResult_Scan : string → driver_Value → string * option error := Scan "LoginResult".
Definition NullLoginResult : Type := NullEnum.
Definition NullLoginResult_Scan : NullLoginResult → driver_Value → NullLoginResult * option error := NullScan LoginResult_Scan.
Definition NullLoginResult_Value : NullLoginResult → driver_Value * option error := NullValue.

Definition MfaType_string (x : MfaType) : string :=
  match x with
  | MfaTypeTotp => "totp"
  | MfaTypeSms => "sms"
  | MfaTypeEmail => "email"
  end.
Definition MfaType_Scan : string → driver_Value → string * option error := Scan "MfaType".
Definition NullMfaType : Type := NullEnum.
Definition NullMfaType_Scan : NullMfaType → driver_Value → NullMfaType * option error := NullScan MfaType_Scan.
Definition NullMfaType_Value : NullMfaType → driver_Value * option error := NullValue.

Definition ProviderName_string (x : ProviderName) : string :=
  match x with
  | ProviderNameEmail => "email"
  | ProviderNameGoogle => "google"
  | ProviderNameApple => "apple"
  end.
Definition ProviderName_Scan : string → driver_Value → string * option error := Scan "ProviderName".
Definition NullProviderName : Type := NullEnum.
Definition NullProviderName_Scan : NullProviderName → driver_Value → NullProviderName * option error := NullScan ProviderName_Scan.
Definition NullProviderName_Value : NullProviderName → driver_Value * option error := NullValue.

Definition ResetSource_string (x : ResetSource) : string :=
  match x with
  | ResetSourceWeb => "web"
  | ResetSourceMobile => "mobile"
  | ResetSourceAdmin => "admin"
  end.
Definition ResetSource_Scan : string → driver_Value → string * option error := Scan "ResetSource".
Definition NullResetSource : Type := NullEnum.
Definition NullResetSource_Scan : NullResetSource → driver_Value → NullResetSource * option error := NullScan ResetSource_Scan.
Definition NullResetSource_Value : NullResetSource → driver_Value * option error := NullValue.

Definition UserOrigin_string (x : UserOrigin) : string :=
  match x with
  | UserOriginEmail => "email"
  | UserOriginGoogle => "google"
  | UserOriginApple => "apple"
  end.
Definition UserOrigin_Scan : string → driver_Value → string * option error := Scan "UserOrigin".
Definition NullUserOrigin : Type := NullEnum.
Definition NullUserOrigin_Scan : NullUserOrigin → driver_Value → NullUserOrigin * option error := NullScan UserOrigin_Scan.
Definition NullUserOrigin_Value : NullUserOrigin → driver_Value * option error := NullValue.

Definition UserRole_Scan : string → driver_Value → string * option error := Scan "UserRole".
Definition NullUserRole : Type := NullEnum.
Definition NullUserRole_Scan : NullUserRole → driver_Value → NullUserRole * option error := NullScan UserRole_Scan.
Definition NullUserRole_Value : NullUserRole → driver_Value * option error := NullValue.

Definition UserStatus_Scan : string → driver_Value → string * option error := Scan "UserStatus".
Definition NullUserStatus : Type := NullEnum.
Definition NullUserStatus_Scan : NullUserStatus → driver_Value → NullUserStatus * option error := NullScan UserStatus_Scan.
Definition NullUserStatus_Value : NullUserStatus → driver_Value * option error := NullValue.

(** ** What a scan gives *)

(** An enumeration and its labels. *)
Class Labels (A : Type) := {
  label : A → string;
  all_of : list A;
  all_of_complete : ∀ a, a ∈ all_of;
  label_inj : ∀ a b, label a = label b → a = b
}.
Definition of_label {A} `{Labels A} (s : string) : option A :=
  List.find (λ a, String.eqb (label a) s) all_of.
Lemma of_label_label {A} `{Labels A} (a : A) : of_label (label a) = Some a.
Proof.
  unfold of_label. destruct (List.find _ _) as [b|] eqn:E.
  - apply find_some in E as [_ E%String.eqb_eq]. f_equal. by apply label_inj.
  - pose proof (find_none _ _ E a (proj1 (list_elem_of_In _ _) (all_of_complete a))) as Hn.
    cbv beta in Hn. by rewrite String.eqb_refl in Hn.
Qed.

#[export] Program Instance AuditAction_labels : Labels AuditAction := {| label := AuditAction_string; all_of := [AuditActionUpdateUser; AuditActionChangeRole; AuditActionChangeStatus; AuditActionPasswordReset; AuditActionEmailChange; AuditActionMfaChange; AuditActionUserBan; AuditActionUserUnban; AuditActionUserDeleted; AuditActionAdminNote] |}.
Next Obligation. intros []; set_solver. Qed.
Next Obligation. by intros [] []. Qed.
#[export] Program Instance LoginResult_labels : Labels LoginResult := {| label := LoginResult_string; all_of := [LoginResultSuccess; LoginResultFailed; LoginResultLocked; LoginResultMfaRequired] |}.
Next Obligation. intros []; set_solver. Qed.
Next Obligation. by intros [] []. Qed.
#[export] Program Instance MfaType_labels : Labels MfaType := {| label := MfaType_string; all_of := [MfaTypeTotp; MfaTypeSms; MfaTypeEmail] |}.
Next Obligation. intros []; set_solver. Qed.
Next Obligation. by intros [] []. Qed.
#[export] Program Instance ProviderName_labels : Labels ProviderName := {| label := ProviderName_string; all_of := [ProviderNameEmail; ProviderNameGoogle; ProviderNameApple] |}.
Next Obligation. intros []; set_solver. Qed.
Next Obligation. by intros [] []. Qed.
#[export] Program Instance ResetSource_labels : Labels ResetSource := {| label := ResetSource_string; all_of := [ResetSourceWeb; ResetSourceMobile; ResetSourceAdmin] |}.
Next Obligation. intros []; set_solver. Qed.
Next Obligation. by intros [] []. Qed.
#[export] Program Instance UserOrigin_labels : Labels UserOrigin := {| label := UserOrigin_string; all_of := [UserOriginEmail; UserOriginGoogle; UserOriginApple] |}.
Next Obligation. intros []; set_solver. Qed.
Next Obligation. by intros [] []. Qed.
#[export] Program Instance UserRole_labels : Labels UserRole := {| label := UserRole_string; all_of := [UserRoleUser; UserRoleModerator; UserRoleAdmin] |}.
Next Obligation. intros []; set_solver. Qed.
Next Obligation. by intros [] []. Qed.
#[export] Program Instance UserStatus_labels : Labels UserStatus := {| label := UserStatus_string; all_of := [UserStatusActive; UserStatusOffline; UserStatusDisabled; UserStatusBanned] |}.
Next Obligation. intros []; set_solver. Qed.
Next Obligation. by intros [] []. Qed.

(** A column of an enumeration type, as text or as bytes. *)
Definition column {A} `{Labels A} (o : option A) : driver_Value :=
  match o with None => VNil | Some a => VString (label a) end.

(** What is scanned from a column decodes to what the column holds, and a value
    that was scanned is written back as it was; any other type is refused and
    leaves the text alone. *)
Lemma Scan_column {A} `{Labels A} name e (a : A) : of_label (Scan name e (column (Some a))).1 = Some a.
Proof. apply of_label_label. Qed.
Lemma NullScan_column {A} `{Labels A} name ns (o : option A) :
  let '(ns', err) := NullScan (Scan name) ns (column o) in
  err = None ∧ ne_Valid ns' = is_valid o ∧ (ne_Valid ns' = true → of_label (ne_Enum ns') = o)
  ∧ NullValue ns' = (column o, None).
Proof. destruct o as [a|]; cbn; split_and!; try done. intros _. apply of_label_label. Qed.
Lemma Scan_refuses name e v :
  (∀ s, v ≠ VBytes s) → (∀ s, v ≠ VString s) →
  Scan name e v = (e, Some (ErrMsg ("unsupported scan type for " ++ name ++ ": " ++ type_name v))).
Proof. intros H1 H2. destruct v; try done; [by destruct (H1 s)|by destruct (H2 s)]. Qed.

Example scans :
  UserStatus_Scan "" (VString "banned") = ("banned", None)
  ∧ UserStatus_Scan "active" (VInt64 3) = ("active", Some (ErrMsg "unsupported scan type for UserStatus: int64"))
  ∧ NullUserStatus_Scan (mkNullEnum "active" true) VNil = (mkNullEnum "" false, None).
Proof. vm_compute. done. Qed.
