(* ===== verification/Runtime.v ===== *)
(** * The execution model: requests against Postgres, Redis and the mail provider

    A Go function that talks to the outside is a [Go A]: it reads an
    environment and threads a world.  The environment decides everything the
    code cannot: the clock, the random sources and, for every call that leaves
    the process, whether it succeeds, fails without effect, or takes effect and
    then fails to answer ([fault]).  [None] is a panic.

    [wp] is the postcondition judgement used for statements about what a
    request returns, [tracks] the relational judgement used for statements
    about what every request does to a part of the state, whatever it returns. *)

From S2P Require Import Prelude.
From S2P Require Import GoLib.
From S2P Require Import Model.
From Stdlib Require Import RelationClasses.

#[local] Open Scope string_scope.
#[local] Open Scope Z_scope.

Inductive fault := FNone | FRefused | FLost.

Record Env := mkEnv {
  e_cfg : Config;
  e_redis_nil : bool;                  (** the [*redis.Client] is nil *)
  e_clock : nat → Z;                   (** the clock at each step *)
  e_fault : nat → fault;               (** the fate of the call made at each step *)
  e_uuid : nat → uuid;                 (** [uuid.NewString()] *)
  e_rand_read : nat → nat → option string;  (** [rand.Read] of n bytes *)
  e_rand_int : nat → option N;         (** [rand.Int(rand.Reader, 1_000_000)] *)
  e_gen_uuid : nat → nat → uuid        (** [gen_random_uuid()], the k-th of a statement *)
}.

(** The values stored in Redis: plain strings and JSON-encoded [OTPMeta]. *)
Inductive rval :=
  | RStr (s : string)
  | ROTP (m : OTPMeta).

(** An open transaction: its start time and the setting [app.actor_id]. *)
Record Tx := mkTx { tx_start : Z; tx_actor : string }.

Record Email := mkEmail {
  mail_From : string;
  mail_To : string;
  mail_Subject : string;
  mail_Text : string;
  mail_Html : string
}.

Record World := mkWorld {
  w_db : DB;
  w_redis : gmap string (rval * option Z);  (** value and expiry time *)
  w_tx : option Tx;
  w_mail : list Email;
  w_argon : nat;                            (** argon2 evaluations so far *)
  w_tick : nat
}.

Definition set_w_db (d : DB) (w : World) : World :=
  mkWorld d (w_redis w) (w_tx w) (w_mail w) (w_argon w) (w_tick w).
Definition set_w_redis r (w : World) : World :=
  mkWorld (w_db w) r (w_tx w) (w_mail w) (w_argon w) (w_tick w).
Definition set_w_tx t (w : World) : World :=
  mkWorld (w_db w) (w_redis w) t (w_mail w) (w_argon w) (w_tick w).
Definition set_w_mail m (w : World) : World :=
  mkWorld (w_db w) (w_redis w) (w_tx w) m (w_argon w) (w_tick w).
Definition tick (w : World) : World :=
  mkWorld (w_db w) (w_redis w) (w_tx w) (w_mail w) (w_argon w) (S (w_tick w)).
Definition burn_one (w : World) : World :=
  mkWorld (w_db w) (w_redis w) (w_tx w) (w_mail w) (S (w_argon w)) (w_tick w).

Definition Go (A : Type) : Type := Env → World → option A * World.

Definition ret {A} (a : A) : Go A := λ _ w, (Some a, w).
Definition panic {A} : Go A := λ _ w, (None, w).
Definition bind {A B} (m : Go A) (k : A → Go B) : Go B := λ e w,
  match m e w with
  | (Some a, w') => k a e w'
  | (None, w') => (None, w')
  end.

Declare Scope go_scope.
Delimit Scope go_scope with go.
Notation "x <- m ;; k" := (bind m (λ x, k))
  (at level 100, m at next level, right associativity) : go_scope.
Notation "m ;;; k" := (bind m (λ _, k))
  (at level 100, right associativity) : go_scope.
#[local] Open Scope go_scope.

(** ** Primitives *)

Definition get_cfg : Go Config := λ e w, (Some (e_cfg e), w).
Definition redis_is_nil : Go bool := λ e w, (Some (e_redis_nil e), w).

(** [time.Now()] *)
Definition now : Go Z := λ e w, (Some (e_clock e (w_tick w)), tick w).
(** [uuid.NewString()], as the parsed value *)
Definition new_uuid : Go uuid := λ e w, (Some (e_uuid e (w_tick w)), tick w).
(** [rand.Read(make([]byte, n))] *)
Definition rand_read (n : nat) : Go (res string) := λ e w,
  (Some (match e_rand_read e (w_tick w) n with
         | Some s => Ok s
         | None => Err (ErrMsg "crypto/rand")
         end), tick w).
(** [rand.Int(rand.Reader, big.NewInt(1_000_000))] *)
Definition rand_int : Go (option N) := λ e w, (Some (e_rand_int e (w_tick w)), tick w).
(** One argon2 evaluation *)
Definition burn : Go unit := λ _ w, (Some tt, burn_one w).

(** ** Postgres *)

(** What a statement can read besides the tables: the time of [now()], fresh
    identifiers, and the [app.actor_id] setting.  Postgres keeps microseconds. *)
Record SCtx := mkSCtx { s_now : Z; s_gen : nat → uuid; s_actor : string }.

Definition us (t : Z) : Z := t / 1000 * 1000.

Definition sctx (e : Env) (w : World) : SCtx :=
  match w_tx w with
  | Some tx => mkSCtx (us (tx_start tx)) (e_gen_uuid e (w_tick w)) (tx_actor tx)
  | None => mkSCtx (us (e_clock e (w_tick w))) (e_gen_uuid e (w_tick w)) ""
  end.

Definition Stmt (A : Type) : Type := SCtx → DB → res A * DB.

(** A statement is atomic: when it fails the tables are as before. *)
Definition run_stmt {A} (st : Stmt A) (c : SCtx) (d : DB) : res A * DB :=
  match st c d with
  | (Ok a, d') => (Ok a, d')
  | (Err err, _) => (Err err, d)
  end.

Definition db_stmt {A} (st : Stmt A) : Go (res A) := λ e w,
  let '(r, d) := run_stmt st (sctx e w) (w_db w) in
  match e_fault e (w_tick w) with
  | FNone => (Some r, tick (set_w_db d w))
  | FRefused => (Some (Err ErrConn), tick w)
  | FLost => (Some (Err ErrConn), tick (set_w_db d w))
  end.

(** A statement that reads only. *)
Definition query {A} (q : SCtx → DB → res A) : Stmt A := λ c d, (q c d, d).

(** [postgres.WithTx]: begin, run, roll back on error, commit. *)
Definition WithTx {A} (fn : Go (res A)) : Go (res A) := λ e w,
  match e_fault e (w_tick w) with
  | FNone =>
      let w1 := set_w_tx (Some (mkTx (e_clock e (w_tick w)) "")) (tick w) in
      match fn e w1 with
      | (None, w2) => (None, set_w_tx (w_tx w) (set_w_db (w_db w) w2))
      | (Some (Err err), w2) => (Some (Err err), set_w_tx (w_tx w) (set_w_db (w_db w) w2))
      | (Some (Ok a), w2) =>
          match e_fault e (w_tick w2) with
          | FNone => (Some (Ok a), tick (set_w_tx (w_tx w) w2))
          | FRefused => (Some (Err ErrConn), tick (set_w_tx (w_tx w) (set_w_db (w_db w) w2)))
          | FLost => (Some (Err ErrConn), tick (set_w_tx (w_tx w) w2))
          end
      end
  | _ => (Some (Err ErrConn), tick w)
  end.

(** [SELECT set_config('app.actor_id', $1, true)]: local to the transaction, so
    outside of one it has no lasting effect. *)
Definition SetActorID (actorID : string) : Go (res string) := λ e w,
  let w' := match w_tx w with
            | Some tx => set_w_tx (Some (mkTx (tx_start tx) actorID)) w
            | None => w
            end in
  match e_fault e (w_tick w) with
  | FNone => (Some (Ok actorID), tick w')
  | FRefused => (Some (Err ErrConn), tick w)
  | FLost => (Some (Err ErrConn), tick w')
  end.

(** [postgres.WithActor] *)
Definition WithActor {A} (actorID : string) (fn : Go (res A)) : Go (res A) :=
  WithTx (r <- SetActorID actorID ;;
          match r with
          | Err err => ret (Err err)
          | Ok _ => fn
          end).

(** ** Redis *)

Definition rlive (t : Z) (v : rval * option Z) : bool :=
  match v.2 with None => true | Some x => t <? x end.
Definition rlookup (r : gmap string (rval * option Z)) (t : Z) (k : string) : option rval :=
  match r !! k with
  | Some v => if rlive t v then Some v.1 else None
  | None => None
  end.

(** A call on the client: it panics on a nil client; otherwise the fault of the
    step decides whether the effect happens and whether the reply arrives. *)
Definition redis_call {A} (f : Z → gmap string (rval * option Z) → res A * gmap string (rval * option Z))
    : Go (res A) := λ e w,
  if e_redis_nil e then (None, w)
  else
    let '(r, m) := f (e_clock e (w_tick w)) (w_redis w) in
    match e_fault e (w_tick w) with
    | FNone => (Some r, tick (set_w_redis m w))
    | FRefused => (Some (Err ErrConn), tick w)
    | FLost => (Some (Err ErrConn), tick (set_w_redis m w))
    end.

Definition redis_Get (k : string) : Go (res rval) := redis_call (λ t m,
  (match rlookup m t k with Some v => Ok v | None => Err ErrRedisNil end, m)).
Definition redis_Exists (k : string) : Go (res Z) := redis_call (λ t m,
  (Ok (match rlookup m t k with Some _ => 1 | None => 0 end), m)).
(** [SET key value EX ttl]; a non-positive expiration means no expiration. *)
Definition redis_Set (k : string) (v : rval) (ttl : Z) : Go (res unit) := redis_call (λ t m,
  (Ok tt, <[k := (v, if 0 <? ttl then Some (t + ttl) else None)]> m)).
Definition redis_Del (ks : list string) : Go (res unit) := redis_call (λ t m,
  (Ok tt, List.fold_right (λ k m, delete k m) m ks)).

(** ** The mail provider: [client.Emails.Send] *)
Definition send_mail (m : Email) : Go (res unit) := λ e w,
  match e_fault e (w_tick w) with
  | FNone => (Some (Ok tt), tick (set_w_mail (m :: w_mail w) w))
  | FRefused => (Some (Err ErrConn), tick w)
  | FLost => (Some (Err ErrConn), tick (set_w_mail (m :: w_mail w) w))
  end.

(** Run an operation for every element, in order, ignoring the results. *)
Fixpoint for_each {A B} (f : A → Go B) (l : list A) : Go unit :=
  match l with
  | [] => ret tt
  | a :: l => f a ;;; for_each f l
  end.

(** Run an operation for every element, in order, stopping at the first error. *)
Fixpoint for_each_ok {A} (f : A → Go (res unit)) (l : list A) : Go (res unit) :=
  match l with
  | [] => ret (Ok tt)
  | a :: l => r <- f a ;;
              match r with
              | Ok _ => for_each_ok f l
              | Err err => ret (Err err)
              end
  end.

(** ** Results of runs *)
Definition result {A} (m : Go A) (e : Env) (w : World) : option A := (m e w).1.
Definition final {A} (m : Go A) (e : Env) (w : World) : World := (m e w).2.

(** No call is disturbed. *)
Definition no_faults (e : Env) : Prop := (∀ n, e_fault e n = FNone) ∧ e_redis_nil e = false.
