(* ===== verification/Logic.v ===== *)
(** * Reasoning about runs

    [wp m e Q w]: the run of [m] from [w] under [e] ends in [Q].  [db_tracks R m]:
    every run of [m], under every environment, moves the database along [R];
    [redis_tracks] likewise for Redis.  Both come with one rule per primitive, so
    that a proof about a request is a walk along its code. *)

From S2P Require Import Prelude.
From S2P Require Import GoLib.
From S2P Require Import Model.
From S2P Require Import Runtime.
From Stdlib Require Import RelationClasses.

#[local] Open Scope Z_scope.
#[local] Open Scope go_scope.

Definition wp {A} (m : Go A) (e : Env) (Q : option A → World → Prop) (w : World) : Prop :=
  Q (m e w).1 (m e w).2.

Section wp.
Context {A : Type}.
Implicit Types (e : Env) (w : World) (Q : option A → World → Prop).

Lemma wp_ret e Q w (a : A) : Q (Some a) w → wp (ret a) e Q w.
Proof. done. Qed.

Lemma wp_panic e Q w : Q None w → wp panic e Q w.
Proof. done. Qed.

Lemma wp_bind {B} e Q w (m : Go B) (k : B → Go A) :
  wp m e (λ o w', match o with Some b => wp (k b) e Q w' | None => Q None w' end) w →
  wp (bind m k) e Q w.
Proof. unfold wp, bind. by destruct (m e w) as [[b|] w']. Qed.

Lemma wp_mono e (Q Q' : option A → World → Prop) w m :
  wp m e Q w → (∀ o w', Q o w' → Q' o w') → wp m e Q' w.
Proof. unfold wp. eauto. Qed.

Lemma wp_and e Q Q' w (m : Go A) :
  wp m e Q w → wp m e Q' w → wp m e (λ o w', Q o w' ∧ Q' o w') w.
Proof. done. Qed.

Lemma wp_result e Q w (m : Go A) : wp m e Q w ↔ Q (result m e w) (final m e w).
Proof. done. Qed.

Lemma wp_true e w (m : Go A) : wp m e (λ _ _, True) w.
Proof. done. Qed.
End wp.

Lemma wp_get_cfg e Q w : Q (Some (e_cfg e)) w → wp get_cfg e Q w.
Proof. done. Qed.
Lemma wp_redis_is_nil e Q w : Q (Some (e_redis_nil e)) w → wp redis_is_nil e Q w.
Proof. done. Qed.
Lemma wp_now e Q w : Q (Some (e_clock e (w_tick w))) (tick w) → wp now e Q w.
Proof. done. Qed.
Lemma wp_new_uuid e Q w : Q (Some (e_uuid e (w_tick w))) (tick w) → wp new_uuid e Q w.
Proof. done. Qed.
Lemma wp_rand_int e Q w : Q (Some (e_rand_int e (w_tick w))) (tick w) → wp rand_int e Q w.
Proof. done. Qed.
Lemma wp_burn e Q w : Q (Some tt) (burn_one w) → wp burn e Q w.
Proof. done. Qed.

Lemma wp_rand_read e Q w n :
  (∀ r, Q (Some r) (tick w)) → wp (rand_read n) e Q w.
Proof. intros H. apply H. Qed.

(** A statement either has no effect and an error, or its effect and its
    result, or its effect and an error. *)
Lemma wp_db_stmt {A} e (Q : option (res A) → World → Prop) w st :
  (∀ err, Q (Some (Err err)) (tick w)) →
  (∀ a d, st (sctx e w) (w_db w) = (Ok a, d) →
     Q (Some (Ok a)) (tick (set_w_db d w)) ∧ Q (Some (Err ErrConn)) (tick (set_w_db d w))) →
  wp (db_stmt st) e Q w.
Proof.
  intros Herr Hok. unfold wp, db_stmt, run_stmt.
  assert (set_w_db (w_db w) w = w) as Hid by (by destruct w).
  destruct (st (sctx e w) (w_db w)) as [[a|err] d] eqn:E;
    destruct (e_fault e (w_tick w)); simpl; rewrite ?Hid; try apply Herr;
    destruct (Hok a d eq_refl); done.
Qed.

(** A read: it answers what the tables say, or fails. *)
Lemma wp_query {A} e (Q : option (res A) → World → Prop) w q :
  (∀ err, (err = ErrConn ∨ q (sctx e w) (w_db w) = Err err) → Q (Some (Err err)) (tick w)) →
  (∀ a, q (sctx e w) (w_db w) = Ok a → Q (Some (Ok a)) (tick w)) →
  wp (db_stmt (query q)) e Q w.
Proof.
  intros Herr Hok. unfold wp, db_stmt, run_stmt, query.
  assert (set_w_db (w_db w) w = w) as Hid by (by destruct w).
  destruct (q (sctx e w) (w_db w)) as [a|err] eqn:E;
    destruct (e_fault e (w_tick w)); simpl; rewrite ?Hid; auto.
Qed.

Lemma wp_redis_call {A} e (Q : option (res A) → World → Prop) w f :
  (e_redis_nil e = true → Q None w) →
  Q (Some (Err ErrConn)) (tick w) →
  (∀ r m, f (e_clock e (w_tick w)) (w_redis w) = (r, m) →
     Q (Some r) (tick (set_w_redis m w)) ∧ Q (Some (Err ErrConn)) (tick (set_w_redis m w))) →
  wp (redis_call f) e Q w.
Proof.
  intros Hnil Herr Hok. unfold wp, redis_call. destruct (e_redis_nil e); [by apply Hnil|].
  destruct (f _ _) as [r m] eqn:E. destruct (Hok _ _ eq_refl).
  by destruct (e_fault e (w_tick w)).
Qed.

Lemma rlookup_Some r t k v : rlookup r t k = Some v → ∃ x, r !! k = Some (v, x).
Proof. unfold rlookup. destruct (r !! k) as [[v' x]|]; [|done]. destruct (rlive _ _); naive_solver. Qed.

Lemma set_w_redis_id w : set_w_redis (w_redis w) w = w.
Proof. by destruct w. Qed.
Lemma set_w_db_id w : set_w_db (w_db w) w = w.
Proof. by destruct w. Qed.

Lemma wp_redis_Get e (Q : option (res rval) → World → Prop) w k :
  (e_redis_nil e = true → Q None w) →
  (∀ err, (err = ErrConn ∨ rlookup (w_redis w) (e_clock e (w_tick w)) k = None ∧ err = ErrRedisNil) →
     Q (Some (Err err)) (tick w)) →
  (∀ v, rlookup (w_redis w) (e_clock e (w_tick w)) k = Some v → Q (Some (Ok v)) (tick w)) →
  wp (redis_Get k) e Q w.
Proof.
  intros Hnil Herr Hok. apply wp_redis_call; [done|auto|].
  intros r m [= <- <-]. rewrite set_w_redis_id. split; [|auto].
  destruct (rlookup _ _ k) eqn:E; auto.
Qed.

Lemma wp_redis_Exists e (Q : option (res Z) → World → Prop) w k :
  (e_redis_nil e = true → Q None w) →
  Q (Some (Err ErrConn)) (tick w) →
  (rlookup (w_redis w) (e_clock e (w_tick w)) k = None → Q (Some (Ok 0)) (tick w)) →
  (∀ v, rlookup (w_redis w) (e_clock e (w_tick w)) k = Some v → Q (Some (Ok 1)) (tick w)) →
  wp (redis_Exists k) e Q w.
Proof.
  intros Hnil Herr Hno Hok. apply wp_redis_call; [done|auto|].
  intros r m [= <- <-]. rewrite set_w_redis_id. split; [|auto].
  destruct (rlookup _ _ k) eqn:E; eauto.
Qed.

Lemma wp_redis_Set e (Q : option (res unit) → World → Prop) w k v ttl :
  (e_redis_nil e = true → Q None w) →
  (∀ m, Q (Some (Err ErrConn)) (tick (set_w_redis m w))) →
  Q (Some (Ok tt)) (tick (set_w_redis
     (<[k := (v, if 0 <? ttl then Some (e_clock e (w_tick w) + ttl) else None)]> (w_redis w)) w)) →
  wp (redis_Set k v ttl) e Q w.
Proof.
  intros Hnil Herr Hok. apply wp_redis_call; [done| |].
  - rewrite <- (set_w_redis_id w). apply Herr.
  - intros r m [= <- <-]. auto.
Qed.

Lemma wp_redis_Del e (Q : option (res unit) → World → Prop) w ks :
  (e_redis_nil e = true → Q None w) →
  (∀ m, Q (Some (Err ErrConn)) (tick (set_w_redis m w))) →
  Q (Some (Ok tt)) (tick (set_w_redis (List.fold_right (λ k m, delete k m) (w_redis w) ks) w)) →
  wp (redis_Del ks) e Q w.
Proof.
  intros Hnil Herr Hok. apply wp_redis_call; [done| |].
  - rewrite <- (set_w_redis_id w). apply Herr.
  - intros r m [= <- <-]. auto.
Qed.

Lemma wp_send_mail e (Q : option (res unit) → World → Prop) w m :
  (∀ l, Q (Some (Err ErrConn)) (tick (set_w_mail l w))) →
  Q (Some (Ok tt)) (tick (set_w_mail (m :: w_mail w) w)) →
  wp (send_mail m) e Q w.
Proof.
  intros Herr Hok. unfold wp, send_mail. destruct (e_fault _ _); simpl; auto.
  assert (set_w_mail (w_mail w) w = w) as <- by (by destruct w). apply Herr.
Qed.

(** A transaction: its effects are kept by a commit that takes effect and
    dropped otherwise. *)
Lemma wp_WithTx {A} e (Q : option (res A) → World → Prop) w (fn : Go (res A)) :
  (∀ w', w_db w' = w_db w → Q (Some (Err ErrConn)) w') →
  wp fn e (λ o w2, match o with
     | Some (Ok a) => Q (Some (Ok a)) (tick (set_w_tx (w_tx w) w2))
                      ∧ Q (Some (Err ErrConn)) (tick (set_w_tx (w_tx w) w2))
     | Some (Err err) => Q (Some (Err err)) (set_w_tx (w_tx w) (set_w_db (w_db w) w2))
     | None => Q None (set_w_tx (w_tx w) (set_w_db (w_db w) w2))
     end) (set_w_tx (Some (mkTx (e_clock e (w_tick w)) EmptyString)) (tick w)) →
  wp (WithTx fn) e Q w.
Proof.
  intros Herr H. unfold wp, WithTx in *. destruct (e_fault e (w_tick w)); [|by apply Herr..].
  destruct (fn _ _) as [[[a|err]|] w2]; simpl in *; [|done..].
  destruct H. destruct (e_fault e (w_tick w2)); simpl; [done| |done]. by apply Herr.
Qed.

(** Nothing is known about a call. *)
Lemma wp_any {A} e (Q : option A → World → Prop) w (m : Go A) :
  (∀ o w', Q o w') → wp m e Q w.
Proof. intros H. apply H. Qed.

(** ** Relational judgements *)
Definition db_tracks {A} (R : relation DB) (m : Go A) : Prop :=
  ∀ e w, R (w_db w) (w_db (m e w).2).
Definition redis_tracks {A} (R : relation (gmap string (rval * option Z))) (m : Go A) : Prop :=
  ∀ e w, R (w_redis w) (w_redis (m e w).2).

(** A statement that succeeds moves the tables along [R]. *)
Definition st_in {A} (R : relation DB) (st : Stmt A) : Prop := ∀ c d a d', st c d = (Ok a, d') → R d d'.

Create HintDb tracks.

Section tracks.
Context (R : relation DB) `{!PreOrder R}.

Lemma db_tracks_ret {A} (a : A) : db_tracks R (ret a).
Proof. intros e w. reflexivity. Qed.
Lemma db_tracks_panic {A} : db_tracks R (@panic A).
Proof. intros e w. reflexivity. Qed.
Lemma db_tracks_bind {A B} (m : Go A) (k : A → Go B) :
  db_tracks R m → (∀ a, db_tracks R (k a)) → db_tracks R (bind m k).
Proof.
  intros Hm Hk e w. specialize (Hm e w). unfold bind.
  destruct (m e w) as [[a|] w'] eqn:E; [|done]. simpl in *.
  etransitivity; [done|]. apply Hk.
Qed.
(** The same when something is known of the value the first step answers. *)
Lemma db_tracks_bind_post {A B} (P : A → Prop) (m : Go A) (k : A → Go B) :
  db_tracks R m → (∀ e w, wp m e (λ o _, ∀ a, o = Some a → P a) w) → (∀ a, P a → db_tracks R (k a)) →
  db_tracks R (bind m k).
Proof.
  intros Hm Hp Hk e w. specialize (Hm e w). specialize (Hp e w). unfold wp in Hp. unfold bind.
  destruct (m e w) as [[a|] w'] eqn:E; [|done]. simpl in *.
  etransitivity; [done|]. by apply Hk, Hp.
Qed.
Lemma db_tracks_get_cfg : db_tracks R get_cfg.
Proof. intros e w. reflexivity. Qed.
Lemma db_tracks_redis_is_nil : db_tracks R redis_is_nil.
Proof. intros e w. reflexivity. Qed.
Lemma db_tracks_now : db_tracks R now.
Proof. intros e w. reflexivity. Qed.
Lemma db_tracks_new_uuid : db_tracks R new_uuid.
Proof. intros e w. reflexivity. Qed.
Lemma db_tracks_rand_read n : db_tracks R (rand_read n).
Proof. intros e w. reflexivity. Qed.
Lemma db_tracks_rand_int : db_tracks R rand_int.
Proof. intros e w. reflexivity. Qed.
Lemma db_tracks_burn : db_tracks R burn.
Proof. intros e w. reflexivity. Qed.
Lemma db_tracks_redis_call {A} f : db_tracks R (@redis_call A f).
Proof.
  intros e w. unfold redis_call. destruct (e_redis_nil e); [reflexivity|].
  destruct (f _ _). destruct (e_fault _ _); reflexivity.
Qed.
Lemma db_tracks_send_mail m : db_tracks R (send_mail m).
Proof. intros e w. unfold send_mail. destruct (e_fault _ _); reflexivity. Qed.
Lemma db_tracks_SetActorID a : db_tracks R (SetActorID a).
Proof.
  intros e w. unfold SetActorID.
  destruct (w_tx w), (e_fault _ _); reflexivity.
Qed.

Lemma db_tracks_stmt {A} (st : Stmt A) :
  (∀ c d a d', st c d = (Ok a, d') → R d d') → db_tracks R (db_stmt st).
Proof.
  intros H e w. unfold db_stmt, run_stmt.
  destruct (st _ _) as [[a|err] d] eqn:E; destruct (e_fault _ _); simpl;
    try reflexivity; by eapply H.
Qed.
Lemma db_tracks_query {A} (q : SCtx → DB → res A) : db_tracks R (db_stmt (query q)).
Proof. apply db_tracks_stmt. intros c d a d' [= _ <-]. reflexivity. Qed.

Lemma db_tracks_WithTx {A} (fn : Go (res A)) : db_tracks R fn → db_tracks R (WithTx fn).
Proof.
  intros H e w. unfold WithTx. destruct (e_fault e (w_tick w)); [|reflexivity..].
  pose proof (H e (set_w_tx (Some (mkTx (e_clock e (w_tick w)) "")) (tick w))) as Hf.
  destruct (fn _ _) as [[[a|err]|] w2]; simpl in *; try reflexivity.
  destruct (e_fault e (w_tick w2)); simpl; try reflexivity; done.
Qed.

Lemma db_tracks_WithActor {A} a (fn : Go (res A)) : db_tracks R fn → db_tracks R (WithActor a fn).
Proof.
  intros H. apply db_tracks_WithTx, db_tracks_bind; [apply db_tracks_SetActorID|].
  intros [?|?]; [done|apply db_tracks_ret].
Qed.

Lemma db_tracks_for_each {A B} (f : A → Go B) l :
  (∀ a, db_tracks R (f a)) → db_tracks R (for_each f l).
Proof.
  intros H. induction l as [|a l IH]; simpl; [apply db_tracks_ret|].
  apply db_tracks_bind; auto.
Qed.
Lemma db_tracks_for_each_ok {A} (f : A → Go (res unit)) l :
  (∀ a, db_tracks R (f a)) → db_tracks R (for_each_ok f l).
Proof.
  intros H. induction l as [|a l IH]; simpl; [apply db_tracks_ret|].
  apply db_tracks_bind; auto. intros [?|?]; [done|apply db_tracks_ret].
Qed.
End tracks.

#[export] Hint Resolve db_tracks_ret db_tracks_panic db_tracks_get_cfg db_tracks_redis_is_nil
  db_tracks_now db_tracks_new_uuid db_tracks_rand_read db_tracks_rand_int db_tracks_burn
  db_tracks_redis_call db_tracks_send_mail db_tracks_SetActorID db_tracks_query : tracks.

Lemma st_call (R : relation DB) `{!PreOrder R} {A} (st : Stmt A) : st_in R st → db_tracks R (db_stmt st).
Proof. intros H. by apply db_tracks_stmt. Qed.
#[export] Hint Extern 1 (db_tracks _ (db_stmt _)) => apply st_call : tracks.

(** A call covered by the hints. *)
Ltac tracked := solve [eauto with tracks typeclass_instances].

(** Walk along the code of a request, closing every call with a hint. *)
Ltac db_tracks_step :=
  match goal with
  | |- db_tracks _ (bind _ _) => apply db_tracks_bind; [typeclasses eauto|..|intros ?]
  | |- db_tracks _ (WithActor _ _) => apply db_tracks_WithActor; [typeclasses eauto|]
  | |- db_tracks _ (WithTx _) => apply db_tracks_WithTx; [typeclasses eauto|]
  | |- db_tracks _ (for_each _ _) => apply db_tracks_for_each; [typeclasses eauto|intros ?]
  | |- db_tracks _ (for_each_ok _ _) => apply db_tracks_for_each_ok; [typeclasses eauto|intros ?]
  | |- db_tracks _ (match ?x with _ => _ end) => destruct x
  | |- db_tracks _ (let '_ := ?x in _) => destruct x
  | |- db_tracks _ _ => tracked
  end.
Ltac db_tracks := intros; repeat db_tracks_step.

(** The same for Redis. *)
Section redis_tracks.
Context (R : relation (gmap string (rval * option Z))) `{!PreOrder R}.

(** A call that does not talk to Redis. *)
Lemma redis_tracks_other {A} (m : Go A) : (∀ e w, w_redis (m e w).2 = w_redis w) → redis_tracks R m.
Proof. intros H e w. by rewrite H. Qed.
Lemma redis_tracks_bind {A B} (m : Go A) (k : A → Go B) :
  redis_tracks R m → (∀ a, redis_tracks R (k a)) → redis_tracks R (bind m k).
Proof.
  intros Hm Hk e w. specialize (Hm e w). unfold bind.
  destruct (m e w) as [[a|] w'] eqn:E; [|done]. simpl in *.
  etransitivity; [done|]. apply Hk.
Qed.
Lemma redis_tracks_call {A} f : (∀ t m, R m (f t m).2) → redis_tracks R (@redis_call A f).
Proof.
  intros H e w. unfold redis_call. destruct (e_redis_nil e); [reflexivity|].
  specialize (H (e_clock e (w_tick w)) (w_redis w)). destruct (f _ _). by destruct (e_fault _ _).
Qed.
Lemma redis_tracks_Get k : redis_tracks R (redis_Get k).
Proof. apply redis_tracks_call. reflexivity. Qed.
Lemma redis_tracks_Exists k : redis_tracks R (redis_Exists k).
Proof. apply redis_tracks_call. reflexivity. Qed.
Lemma redis_tracks_db_stmt {A} (st : Stmt A) : redis_tracks R (db_stmt st).
Proof.
  apply redis_tracks_other. intros e w. unfold db_stmt. destruct (run_stmt _ _ _).
  by destruct (e_fault _ _).
Qed.
End redis_tracks.

(** The key [k] stays absent. *)
Definition absent (k : string) (m m' : gmap string (rval * option Z)) : Prop := m !! k = None → m' !! k = None.
#[export] Instance absent_preorder k : PreOrder (absent k).
Proof. split; [intros m H; exact H|]. intros m1 m2 m3 H12 H23 H. exact (H23 (H12 H)). Qed.
Lemma absent_Set k k' v ttl : k' ≠ k → redis_tracks (absent k) (redis_Set k' v ttl).
Proof.
  intros H. apply redis_tracks_call; [typeclasses eauto|]. intros t m Hm. simpl. by rewrite lookup_insert_ne.
Qed.
Lemma absent_Del k ks : redis_tracks (absent k) (redis_Del ks).
Proof.
  apply redis_tracks_call; [typeclasses eauto|]. intros t m Hm. simpl.
  induction ks as [|k' ks IH]; [done|]. simpl. rewrite lookup_delete_None. by right.
Qed.

Ltac redis_tracks_step :=
  match goal with
  | |- redis_tracks _ (bind _ _) => apply redis_tracks_bind; [typeclasses eauto|..|intros ?]
  | |- redis_tracks _ (db_stmt _) => apply redis_tracks_db_stmt; typeclasses eauto
  | |- redis_tracks _ (redis_Get _) => apply redis_tracks_Get; typeclasses eauto
  | |- redis_tracks _ (redis_Exists _) => apply redis_tracks_Exists; typeclasses eauto
  | |- redis_tracks (absent _) (redis_Del _) => apply absent_Del
  | |- redis_tracks (absent _) (redis_Set _ _ _) => apply absent_Set; solve [auto]
  | |- redis_tracks _ (match ?x with _ => _ end) => destruct x
  | |- redis_tracks _ (let '_ := ?x in _) => destruct x
  | |- redis_tracks _ _ =>
      apply redis_tracks_other; [typeclasses eauto|by intros]
  end.
Ltac redis_tracks := intros; repeat redis_tracks_step.

(** What a relational judgement gives about one run. *)
Lemma wp_db_tracks {A} (R : relation DB) e (Q : option A → World → Prop) w (m : Go A) :
  db_tracks R m → (∀ o w', R (w_db w) (w_db w') → Q o w') → wp m e Q w.
Proof. intros Hm H. apply H, Hm. Qed.

(** ** Walking along the code of one run *)
Ltac wp_step :=
  lazymatch goal with
  | |- wp (bind _ _) _ _ _ => apply wp_bind
  | |- wp (ret _) _ _ _ => apply wp_ret
  | |- wp panic _ _ _ => apply wp_panic
  | |- wp get_cfg _ _ _ => apply wp_get_cfg
  | |- wp redis_is_nil _ _ _ => apply wp_redis_is_nil
  | |- wp now _ _ _ => apply wp_now
  | |- wp new_uuid _ _ _ => apply wp_new_uuid
  | |- wp (rand_read _) _ _ _ => apply wp_rand_read; intros ?
  | |- wp (db_stmt (query _)) _ _ _ => apply wp_query; [intros ? ?|intros ? ?]
  | |- wp (db_stmt _) _ _ _ => apply wp_db_stmt; [intros ?|intros ? ? ?; split]
  | |- wp (redis_Set _ _ _) _ _ _ => apply wp_redis_Set; [intros ?|intros ?|]
  | |- wp (redis_Del _) _ _ _ => apply wp_redis_Del; [intros ?|intros ?|]
  | |- wp (send_mail _) _ _ _ => apply wp_send_mail; [intros ?|]
  | |- wp (redis_Get _) _ _ _ => apply wp_redis_Get; [intros ?|intros ? ?|intros ? ?]
  | |- wp (redis_Exists _) _ _ _ => apply wp_redis_Exists; [intros ?| |intros ?|intros ? ?]
  | |- wp (match ?x with _ => _ end) _ _ _ => destruct x eqn:?
  | |- wp (let '_ := ?x in _) _ _ _ => destruct x eqn:?
  end; cbv beta iota.
(** Step over a call, keeping nothing. *)
Ltac wp_skip := apply wp_any; intros [?|] ?; cbv beta iota.
(** Step over a call that leaves the tables alone. *)
Ltac wp_frame :=
  apply (wp_db_tracks eq); [tracked|];
  intros [?|] ? ?; cbv beta iota.
(** Leaves that contradict the outcome of interest, and walks that only have
    such leaves. *)
Ltac wp_absurd := solve [intros; simplify_eq].
Ltac wp_dead := solve [repeat first [wp_step | wp_skip]; wp_absurd].
(** Walk as far as the primitives go and drop the branches that cannot give the
    outcome. *)
Ltac wp_walk := repeat wp_step; try wp_absurd; try wp_dead.

(** From a statement about a run's result to a walk. *)
Lemma wp_intro {A} (m : Go A) e w (r : option A) (F : World → Prop) :
  wp m e (λ o w', o = r → F w') w → result m e w = r → F (final m e w).
Proof. intros H Hr. by apply H. Qed.

Ltac to_wp :=
  lazymatch goal with |- ?a ≠ ?b => change (a = b → False) | _ => idtac end;
  match goal with
  | |- result ?m ?e ?w = ?r → ?G =>
      let G' := eval pattern (final m e w) in G in
      match G' with ?F _ => apply (wp_intro m e w r F); cbv beta end
  end.

(** ** Runs without faults *)
Lemma run_bind {A B} (m : Go A) (k : A → Go B) e w a w' :
  m e w = (Some a, w') → bind m k e w = k a e w'.
Proof. unfold bind. by intros ->. Qed.

Lemma run_db_stmt {A} (st : Stmt A) e w :
  no_faults e →
  db_stmt st e w =
    (let '(r, d) := run_stmt st (sctx e w) (w_db w) in (Some r, tick (set_w_db d w))).
Proof. intros [Hf _]. unfold db_stmt. destruct (run_stmt _ _ _). by rewrite Hf. Qed.

Lemma run_query {A} (q : SCtx → DB → res A) e w :
  no_faults e → db_stmt (query q) e w = (Some (q (sctx e w) (w_db w)), tick w).
Proof.
  intros Hf. rewrite run_db_stmt by done. unfold run_stmt, query.
  destruct (q _ _); by rewrite set_w_db_id.
Qed.

Lemma run_redis_call {A} f e w :
  no_faults e →
  @redis_call A f e w =
    (let '(r, m) := f (e_clock e (w_tick w)) (w_redis w) in (Some r, tick (set_w_redis m w))).
Proof. intros [Hf Hn]. unfold redis_call. rewrite Hn. destruct (f _ _). by rewrite Hf. Qed.

Lemma run_redis_Get k e w :
  no_faults e →
  redis_Get k e w =
    (Some (match rlookup (w_redis w) (e_clock e (w_tick w)) k with
           | Some v => Ok v | None => Err ErrRedisNil end), tick w).
Proof. intros Hf. unfold redis_Get. rewrite run_redis_call by done. by rewrite set_w_redis_id. Qed.

(** The same walk when no call is disturbed: every call has one outcome. *)
Section quiet.
Context (e : Env) (Hq : no_faults e).

Lemma quiet_stmt {A} (Q : option (res A) → World → Prop) w st r d :
  run_stmt st (sctx e w) (w_db w) = (r, d) →
  Q (Some r) (tick (set_w_db d w)) → wp (db_stmt st) e Q w.
Proof. intros E H. unfold wp. by rewrite run_db_stmt, E. Qed.

Lemma quiet_query {A} (Q : option (res A) → World → Prop) w q :
  Q (Some (q (sctx e w) (w_db w))) (tick w) → wp (db_stmt (query q)) e Q w.
Proof. intros H. unfold wp. by rewrite run_query. Qed.

Lemma quiet_redis_is_nil Q w : Q (Some false) w → wp redis_is_nil e Q w.
Proof. intros H. unfold wp, redis_is_nil. by rewrite (proj2 Hq). Qed.

Lemma quiet_redis_Get (Q : option (res rval) → World → Prop) w k :
  Q (Some (match rlookup (w_redis w) (e_clock e (w_tick w)) k with
           | Some v => Ok v | None => Err ErrRedisNil end)) (tick w) →
  wp (redis_Get k) e Q w.
Proof. intros H. unfold wp. by rewrite run_redis_Get. Qed.

Lemma quiet_redis_Set (Q : option (res unit) → World → Prop) w k v ttl :
  Q (Some (Ok tt)) (tick (set_w_redis
     (<[k := (v, if 0 <? ttl then Some (e_clock e (w_tick w) + ttl) else None)]> (w_redis w)) w)) →
  wp (redis_Set k v ttl) e Q w.
Proof. intros H. unfold wp, redis_Set. by rewrite run_redis_call. Qed.

Lemma quiet_redis_Del (Q : option (res unit) → World → Prop) w ks :
  Q (Some (Ok tt)) (tick (set_w_redis (List.fold_right (λ k m, delete k m) (w_redis w) ks) w)) →
  wp (redis_Del ks) e Q w.
Proof. intros H. unfold wp, redis_Del. by rewrite run_redis_call. Qed.

Lemma quiet_send_mail (Q : option (res unit) → World → Prop) w m :
  Q (Some (Ok tt)) (tick (set_w_mail (m :: w_mail w) w)) → wp (send_mail m) e Q w.
Proof. intros H. unfold wp, send_mail. by rewrite (proj1 Hq). Qed.

Lemma quiet_WithTx {A} (Q : option (res A) → World → Prop) w (fn : Go (res A)) :
  wp fn e (λ o w2, match o with
                   | Some (Ok a) => Q (Some (Ok a)) (tick (set_w_tx (w_tx w) w2))
                   | Some (Err err) => Q (Some (Err err)) (set_w_tx (w_tx w) (set_w_db (w_db w) w2))
                   | None => Q None (set_w_tx (w_tx w) (set_w_db (w_db w) w2))
                   end)
     (set_w_tx (Some (mkTx (e_clock e (w_tick w)) EmptyString)) (tick w)) →
  wp (WithTx fn) e Q w.
Proof.
  unfold wp, WithTx. rewrite (proj1 Hq). destruct (fn _ _) as [[[a|err]|] w2]; simpl; [|done..].
  by rewrite (proj1 Hq).
Qed.
End quiet.

Ltac quiet_step Hq :=
  lazymatch goal with
  | |- wp (db_stmt (query _)) _ _ _ => apply (quiet_query _ Hq)
  | |- wp (redis_Get _) _ _ _ => apply (quiet_redis_Get _ Hq)
  | |- wp (redis_Set _ _ _) _ _ _ => apply (quiet_redis_Set _ Hq)
  | |- wp (redis_Del _) _ _ _ => apply (quiet_redis_Del _ Hq)
  | |- wp (send_mail _) _ _ _ => apply (quiet_send_mail _ Hq)
  | |- wp redis_is_nil _ _ _ => apply (quiet_redis_is_nil _ Hq)
  | |- wp (WithTx _) _ _ _ => apply (quiet_WithTx _ Hq)
  | |- wp (match _ with _ => _ end) _ _ _ => fail
  | |- wp (db_stmt _) _ _ _ => fail
  | |- _ => wp_step
  end; cbv beta iota.
