(* ===== verification/Queries.v ===== *)
(** * internal/db/postgres: the queries, with the constraints and triggers behind them

    One definition per sqlc query, by its Go name.  Reads are functions of the
    tables; writes are statements ([Stmt]) that enforce what the migrations
    declare on the tables they touch: primary keys, unique indexes, foreign
    keys, CHECK constraints, the guard triggers of 003_prevent_triggers and the
    audit triggers of 002_log_triggers/007_fix_actor_id. *)

From S2P Require Import Prelude.
From S2P Require Import GoLib.
From S2P Require Import Regex.
From S2P Require Import Utils.
From S2P Require Import Model.
From S2P Require Import Runtime.

#[local] Open Scope string_scope.
#[local] Open Scope Z_scope.
#[local] Open Scope go_scope.

(** Identifier text forms: [github.com/google/uuid], [pgtype.UUID.String] and the
    input function of the Postgres [uuid] type. *)
Class UuidLib := {
  uuid_Parse : string → option uuid;
  uuid_String : uuid → string;
  pg_uuid_in : string → option uuid
}.

(** Documented behaviour: the canonical text form parses back. *)
Class UuidLaws (U : UuidLib) := {
  uuid_Parse_String : ∀ u, uuid_Parse (uuid_String u) = Some u;
  pg_uuid_in_String : ∀ u, pg_uuid_in (uuid_String u) = Some u
}.

(** [pgtype.UUID.String()]: the empty string for NULL *)
Definition ouuid_String `{UuidLib} (u : option uuid) : string :=
  match u with Some u => uuid_String u | None => "" end.

Section queries.
Context `{TL : TextLib} `{UL : UuidLib}.

(** ** Audit triggers *)

(** [NULLIF(current_setting('app.actor_id', true), '')::UUID] *)
Definition current_actor (c : SCtx) : res (option uuid) :=
  if String.eqb (s_actor c) "" then Ok None
  else match pg_uuid_in (s_actor c) with
       | Some u => Ok (Some u)
       | None => Err ErrInvalidText
       end.

(** The audit row a trigger writes: actor, target, action, changes, reason. *)
Definition trigger_log (c : SCtx) (k : nat) (actor : option uuid) (target : option uuid)
    (who : option User) (act : AuditAction) (ch : option changes) (reason : option string) : AuditLog :=
  mkAuditLog (s_gen c k) actor None None target (u_Username <$> who) (u_Email <$> who)
    act ch reason None None (Some (s_now c)).

Definition user_by_id (id : option uuid) (d : DB) : option User :=
  List.find (λ u, sql_eq (Some (u_ID u)) id) (users d).

Definition change {A} `{EqDecision A} (name : string) (j : A → jval) (old new : A) : changes :=
  if decide (old = new) then [] else [(name, (j old, j new))].

(** log_user_update *)
Definition user_changes (o n : User) : changes :=
  (change "email" (λ s, JText (Some s)) (u_Email o) (u_Email n)
   ++ change "status" (λ s, JText (UserStatus_string <$> s)) (u_Status o) (u_Status n)
   ++ change "role" (λ r, JText (Some (UserRole_string r))) (u_Role o) (u_Role n))%list.

(** log_auth_identity_update *)
Definition identity_changes (o n : AuthIdentity) : changes :=
  (change "failed_attempts" JInt (ai_FailedAttempts o) (ai_FailedAttempts n)
   ++ change "locked_at" JTime (ai_LockedAt o) (ai_LockedAt n)
   ++ (if decide (ai_PasswordHash o = ai_PasswordHash n) then []
       else [("password_hash", (JText (Some "[REDACTED]"), JText (Some "[REDACTED]")))]))%list.

(** log_mfa_factor_update *)
Definition factor_changes (o n : MfaFactor) : changes :=
  (change "verified" JBool (mf_Verified o) (mf_Verified n)
   ++ change "enabled" JBool (mf_Enabled o) (mf_Enabled n))%list.

(** The rows a FOR EACH ROW trigger adds for the updated rows [hit]; [row]
    answers nothing when its WHEN condition is false. *)
Fixpoint trigger_rows {A} (c : SCtx) (row : nat → option uuid → A → option AuditLog)
    (k : nat) (hit : list A) : res (list AuditLog) :=
  match hit with
  | [] => Ok []
  | r :: hit =>
      match row k None r with
      | None => trigger_rows c row (S k) hit
      | Some _ =>
          match current_actor c, trigger_rows c row (S k) hit with
          | Ok a, Ok l => match row k a r with Some x => Ok (l ++ [x])%list | None => Ok l end
          | Err err, _ => Err err
          | _, Err err => Err err
          end
      end
  end.

Definition user_audit (c : SCtx) (f : User → User) (k : nat) (a : option uuid) (o : User) : option AuditLog :=
  match user_changes o (f o) with
  | [] => None
  | ch => Some (trigger_log c k a (Some (u_ID (f o))) (Some (f o)) AuditActionUpdateUser (Some ch) None)
  end.

Definition identity_audit (c : SCtx) (d : DB) (f : AuthIdentity → AuthIdentity) (k : nat)
    (a : option uuid) (o : AuthIdentity) : option AuditLog :=
  match identity_changes o (f o) with
  | [] => None
  | ch => Some (trigger_log c k a (ai_UserID (f o)) (user_by_id (ai_UserID (f o)) d)
                  AuditActionPasswordReset (Some ch) None)
  end.

Definition factor_audit (c : SCtx) (d : DB) (f : MfaFactor → MfaFactor) (k : nat)
    (a : option uuid) (o : MfaFactor) : option AuditLog :=
  match factor_changes o (f o) with
  | [] => None
  | ch => Some (trigger_log c k a (mf_UserID (f o)) (user_by_id (mf_UserID (f o)) d)
                  AuditActionMfaChange (Some ch) None)
  end.

(** log_password_reset_used *)
Definition reset_audit (c : SCtx) (d : DB) (f : PasswordReset → PasswordReset) (k : nat)
    (a : option uuid) (o : PasswordReset) : option AuditLog :=
  if is_valid (pr_UsedAt (f o)) && negb (is_valid (pr_UsedAt o))
  then Some (trigger_log c k a (pr_UserID (f o)) (user_by_id (pr_UserID (f o)) d)
               AuditActionPasswordReset None (Some "Password reset completed"))
  else None.

Definition log_audit (l : list AuditLog) (d : DB) : DB := set_audit_logs (l ++ audit_logs d)%list d.

(** prevent_admin_demotion *)
Definition demotes (o n : User) : bool :=
  bool_decide (u_Role o = UserRoleAdmin) && negb (bool_decide (u_Role n = UserRoleAdmin)).

(** [UPDATE users SET f WHERE p], with its triggers. *)
Definition update_users (p : User → bool) (f : User → User) : Stmt unit := λ c d,
  let hit := select p (users d) in
  if List.existsb (λ u, demotes u (f u)) hit then (Err ErrRaised, d)
  else match trigger_rows c (user_audit c f) 0 hit with
       | Ok l => (Ok (), log_audit l (set_users (update p f (users d)) d))
       | Err err => (Err err, d)
       end.

Definition update_identities (p : AuthIdentity → bool) (f : AuthIdentity → AuthIdentity) : Stmt unit := λ c d,
  match trigger_rows c (identity_audit c d f) 0 (select p (auth_identities d)) with
  | Ok l => (Ok (), log_audit l (set_auth_identities (update p f (auth_identities d)) d))
  | Err err => (Err err, d)
  end.

(** prevent_multiple_totp_mfa, for the row [n] about to be written *)
Definition other_totp (d : DB) (n : MfaFactor) : bool :=
  bool_decide (mf_Type n = MfaTypeTotp)
  && exists_row (λ f, sql_eq (mf_UserID f) (mf_UserID n) && bool_decide (mf_Type f = MfaTypeTotp)
                      && negb (bool_decide (mf_ID f = mf_ID n))) (mfa_factors d).

Definition update_factors (p : MfaFactor → bool) (f : MfaFactor → MfaFactor) : Stmt unit := λ c d,
  let hit := select p (mfa_factors d) in
  if List.existsb (λ m, other_totp d (f m)) hit then (Err ErrRaised, d)
  else match trigger_rows c (factor_audit c d f) 0 hit with
       | Ok l => (Ok (), log_audit l (set_mfa_factors (update p f (mfa_factors d)) d))
       | Err err => (Err err, d)
       end.

Definition update_resets (p : PasswordReset → bool) (f : PasswordReset → PasswordReset) : Stmt unit := λ c d,
  match trigger_rows c (reset_audit c d f) 0 (select p (password_resets d)) with
  | Ok l => (Ok (), log_audit l (set_password_resets (update p f (password_resets d)) d))
  | Err err => (Err err, d)
  end.

(** Constraints of an insert, in order; the first that fails is the error. *)
Fixpoint checks (l : list (bool * error)) : option error :=
  match l with
  | [] => None
  | (true, _) :: l => checks l
  | (false, err) :: _ => Some err
  end.

Definition user_exists (id : option uuid) (d : DB) : bool :=
  match id with None => true | Some i => exists_row (λ u, bool_decide (u_ID u = i)) (users d) end.
Definition identity_exists (id : option uuid) (d : DB) : bool :=
  match id with None => true | Some i => exists_row (λ a, bool_decide (ai_ID a = i)) (auth_identities d) end.

(** [column = $1] on a non-null column *)
Definition id_is {A} (col : A → uuid) (id : option uuid) (r : A) : bool := sql_eq (Some (col r)) id.

(** ** user.sql *)

(** users.username_display_format:
    [^[A-Za-z0-9](?:[A-Za-z0-9._]{0,28}[A-Za-z0-9])?$] *)
Definition username_display_format : re :=
  RCat (RCls is_alnum) (ROpt (RCat (RUpTo 28 (RCls username_char)) (RCls is_alnum))).

Definition insert_user (email display : string) (role : UserRole) (origin : option UserOrigin) : Stmt User := λ c d,
  let u := mkUser (s_gen c 0) (pg_lower email) (pg_lower display) display None None (Some (s_now c))
             (Some UserStatusActive) role None None origin None None in
  match checks [
      (re_match username_display_format display, ErrCheckViolation);
      (negb (exists_row (λ r, bool_decide (u_ID r = u_ID u)) (users d)), ErrUniqueViolation);
      (negb (exists_row (λ r, bool_decide (u_Email r = u_Email u)) (users d)), ErrUniqueViolation);
      (negb (exists_row (λ r, bool_decide (pg_lower (u_Email r) = pg_lower (u_Email u))) (users d)), ErrUniqueViolation);
      (negb (exists_row (λ r, bool_decide (u_Username r = u_Username u)) (users d)), ErrUniqueViolation)] with
  | Some err => (Err err, d)
  | None => (Ok u, set_users (users d ++ [u])%list d)
  end.

Definition CreateUser (email usernameDisplay : string) : Stmt User :=
  insert_user email usernameDisplay UserRoleUser (Some UserOriginEmail).

Definition GetUserByID (id : option uuid) (c : SCtx) (d : DB) : res User :=
  fetch_one (id_is u_ID id) (users d).

Definition TouchUserLastLogin (id : option uuid) : Stmt unit := λ c d,
  update_users (id_is u_ID id)
    (λ u, set_u_LastSeen (Some (s_now c)) (set_u_LastLogin (Some (s_now c)) u)) c d.

Definition UsernameExists (username : string) (c : SCtx) (d : DB) : res bool :=
  Ok (exists_row (λ u, bool_decide (u_Username u = pg_lower username)) (users d)).

(** ** auth_identities.sql *)

Definition insert_identity (user : option uuid) (provider : ProviderName) (puid : string)
    (hash : option string) : Stmt AuthIdentity := λ c d,
  let a := mkAuthIdentity (s_gen c 0) user provider puid hash (Some 0) None None None (Some (s_now c)) in
  match checks [
      (bool_decide (provider = ProviderNameEmail) && is_valid hash
       || negb (bool_decide (provider = ProviderNameEmail)) && negb (is_valid hash), ErrCheckViolation);
      (negb (exists_row (λ r, bool_decide (ai_ID r = ai_ID a)) (auth_identities d)), ErrUniqueViolation);
      (negb (exists_row (λ r, bool_decide (ai_Provider r = provider)
                              && bool_decide (ai_ProviderUserID r = puid)) (auth_identities d)), ErrUniqueViolation);
      (user_exists user d, ErrForeignKey)] with
  | Some err => (Err err, d)
  | None => (Ok a, set_auth_identities (auth_identities d ++ [a])%list d)
  end.

Definition discard {A} (st : Stmt A) : Stmt unit := λ c d,
  let '(r, d') := st c d in (res_map (λ _, ()) r, d').

Definition CreateEmailAuth (user : option uuid) (email : string) (hash : option string) : Stmt unit :=
  discard (insert_identity user ProviderNameEmail (pg_lower email) hash).

(** The row of the two email-identity lookups. *)
Record GetEmailAuthRow := mkGetEmailAuthRow {
  ea_UserID : uuid;
  ea_Username : string;
  ea_UsernameDisplay : string;
  ea_Role : UserRole;
  ea_Status : option UserStatus;
  ea_DeletedAt : option Z;
  ea_IdentityID : uuid;
  ea_PasswordHash : option string;
  ea_FailedAttempts : option Z;
  ea_LockedAt : option Z
}.

(** [auth_identities ai JOIN users u ON u.id = ai.user_id] *)
Definition identities_join_users (d : DB) : list (AuthIdentity * User) :=
  List.flat_map (λ a, List.map (pair a) (select (λ u, id_is u_ID (ai_UserID a) u) (users d)))
    (auth_identities d).

Definition email_auth_row (r : AuthIdentity * User) : GetEmailAuthRow :=
  let '(a, u) := r in
  mkGetEmailAuthRow (u_ID u) (u_Username u) (u_UsernameDisplay u) (u_Role u) (u_Status u)
    (u_DeletedAt u) (ai_ID a) (ai_PasswordHash a) (ai_FailedAttempts a) (ai_LockedAt a).

Definition GetEmailAuthByEmail (email : string) (c : SCtx) (d : DB) : res GetEmailAuthRow :=
  res_map email_auth_row
    (fetch_one (λ '(a, u), bool_decide (ai_Provider a = ProviderNameEmail)
                           && bool_decide (ai_ProviderUserID a = pg_lower email))
       (identities_join_users d)).

Definition GetEmailAuthByUserID (userID : option uuid) (c : SCtx) (d : DB) : res GetEmailAuthRow :=
  res_map email_auth_row
    (fetch_one (λ '(a, u), bool_decide (ai_Provider a = ProviderNameEmail) && id_is u_ID userID u)
       (identities_join_users d)).

(** [failed_attempts] is a 32-bit INTEGER; incrementing past its range is an
    error. *)
Definition int4_max : Z := 2147483647.
Definition incr_int4 (x : option Z) : option Z := (λ z, z + 1) <$> x.
Definition int4_overflows (x : option Z) : bool :=
  match x with Some z => int4_max <? z + 1 | None => false end.

Definition IncrementFailedLoginAttempts (id : uuid) : Stmt (option Z) := λ c d,
  let p := id_is ai_ID (Some id) in
  match fetch_one p (auth_identities d) with
  | Err err => (Err err, d)
  | Ok a =>
      if int4_overflows (ai_FailedAttempts a) then (Err ErrOutOfRange, d)
      else
        let '(r, d') := update_identities p
            (λ a, set_ai_LastFailedAt (Some (s_now c))
                    (set_ai_FailedAttempts (incr_int4 (ai_FailedAttempts a)) a)) c d in
        (res_map (λ _, incr_int4 (ai_FailedAttempts a)) r, d')
  end.

Definition IsEmailRegistered (email : string) (c : SCtx) (d : DB) : res bool :=
  Ok (exists_row (λ a, bool_decide (ai_Provider a = ProviderNameEmail)
                       && bool_decide (ai_ProviderUserID a = pg_lower email)) (auth_identities d)).

Definition LockAuthIdentity (id : uuid) : Stmt unit := λ c d,
  update_identities (id_is ai_ID (Some id)) (set_ai_LockedAt (Some (s_now c))) c d.

Definition ResetFailedLoginAttempts (id : uuid) : Stmt unit := λ c d,
  update_identities (id_is ai_ID (Some id))
    (λ a, set_ai_LastLogin (Some (s_now c)) (set_ai_LockedAt None (set_ai_FailedAttempts (Some 0) a))) c d.

(** The CHECK on auth_identities rejects removing the hash of an email identity
    and giving one to any other. *)
Definition UpdatePasswordHash (hash : option string) (id : uuid) : Stmt unit := λ c d,
  if List.forallb (λ a, Bool.eqb (bool_decide (ai_Provider a = ProviderNameEmail)) (is_valid hash))
       (select (id_is ai_ID (Some id)) (auth_identities d))
  then update_identities (id_is ai_ID (Some id)) (set_ai_PasswordHash hash) c d
  else (Err ErrCheckViolation, d).

(** ** sso.sql *)

Definition CreateSSOIdentity (user : option uuid) (provider : ProviderName) (puid : string) : Stmt uuid := λ c d,
  let '(r, d') := insert_identity user provider puid None c d in (res_map ai_ID r, d').

Definition CreateSSOUser (email usernameDisplay : string) (origin : option UserOrigin) : Stmt User :=
  insert_user email usernameDisplay UserRoleUser origin.

Record GetIdentityByProviderRow := mkGetIdentityByProviderRow {
  ip_UserID : uuid;
  ip_Username : string;
  ip_UsernameDisplay : string;
  ip_Role : UserRole;
  ip_Status : option UserStatus;
  ip_DeletedAt : option Z;
  ip_IdentityID : uuid
}.

Definition GetIdentityByProvider (provider : ProviderName) (puid : string) (c : SCtx) (d : DB)
    : res GetIdentityByProviderRow :=
  res_map (λ '(a, u), mkGetIdentityByProviderRow (u_ID u) (u_Username u) (u_UsernameDisplay u)
                        (u_Role u) (u_Status u) (u_DeletedAt u) (ai_ID a))
    (fetch_one (λ '(a, u), bool_decide (ai_Provider a = provider)
                           && bool_decide (ai_ProviderUserID a = puid))
       (identities_join_users d)).

Definition GetUserIDByEmail (email : string) (c : SCtx) (d : DB) : res uuid :=
  res_map u_ID (fetch_one (λ u, bool_decide (pg_lower (u_Email u) = pg_lower email)) (users d)).

(** ** sessions.sql *)

Definition CreateRefreshSession (id : uuid) (user : option uuid) (expires : Z) (hash ip ua : option string)
    : Stmt Session := λ c d,
  let s := mkSession id user (Some (s_now c)) (us expires) hash None (Some false) None ip ua None in
  match checks [
      (negb (exists_row (λ r, bool_decide (se_ID r = id)) (sessions d)), ErrUniqueViolation);
      (user_exists user d, ErrForeignKey)] with
  | Some err => (Err err, d)
  | None => (Ok s, set_sessions (sessions d ++ [s])%list d)
  end.

Definition GetRefreshSession (id : option uuid) (c : SCtx) (d : DB) : res Session :=
  fetch_one (id_is se_ID id) (sessions d).

(** [user_id = $1 AND revoked = FALSE] *)
Definition active_session_of (user : option uuid) (s : Session) : bool :=
  sql_eq (se_UserID s) user && sql_eq (se_Revoked s) (Some false).

Definition ListActiveSessionIDs (user : option uuid) (c : SCtx) (d : DB) : res (list uuid) :=
  Ok (List.map se_ID (select (active_session_of user) (sessions d))).

Definition revoke_at (t : Z) (s : Session) : Session :=
  set_se_RevokedAt (Some t) (set_se_Revoked (Some true) s).

Definition RevokeAllOtherUserSessions (user current : option uuid) : Stmt unit := λ c d,
  (Ok (), set_sessions (update (λ s, active_session_of user s && sql_ne (Some (se_ID s)) current)
                          (revoke_at (s_now c)) (sessions d)) d).

Definition RevokeAllUserSessions (user : option uuid) : Stmt unit := λ c d,
  (Ok (), set_sessions (update (active_session_of user) (revoke_at (s_now c)) (sessions d)) d).

Definition RevokeSession (id : option uuid) : Stmt unit := λ c d,
  (Ok (), set_sessions (update (λ s, id_is se_ID id s && sql_eq (se_Revoked s) (Some false))
                          (revoke_at (s_now c)) (sessions d)) d).

Definition RotateRefreshSession (hash : option string) (expires : Z) (id : option uuid) : Stmt Session := λ c d,
  let p := λ s, id_is se_ID id s && sql_eq (se_Revoked s) (Some false) in
  let f := λ s, set_se_ExpiresAt (us expires)
                  (set_se_RotatedAt (Some (s_now c)) (set_se_RefreshTokenHash hash s)) in
  match fetch_one p (sessions d) with
  | Err err => (Err err, d)
  | Ok s => (Ok (f s), set_sessions (update p f (sessions d)) d)
  end.

(** ** logins.sql *)

Definition RecordLoginAttempt (user identity : option uuid) (r : LoginResult) (ip ua : option string)
    : Stmt unit := λ c d,
  match checks [(user_exists user d, ErrForeignKey); (identity_exists identity d, ErrForeignKey)] with
  | Some err => (Err err, d)
  | None =>
      (Ok (), set_logins (mkLogin (s_gen c 0) user identity r ip ua None None (Some (s_now c)) :: logins d) d)
  end.

(** ** password_resets.sql *)

Definition CreatePasswordReset (user : option uuid) (token : string) (expires : Z) (source : ResetSource)
    : Stmt uuid := λ c d,
  let r := mkPasswordReset (s_gen c 0) user token (Some (s_now c)) (us expires) None None source in
  match checks [
      (negb (exists_row (λ x, bool_decide (pr_ID x = pr_ID r)) (password_resets d)), ErrUniqueViolation);
      (user_exists user d, ErrForeignKey)] with
  | Some err => (Err err, d)
  | None => (Ok (pr_ID r), set_password_resets (password_resets d ++ [r])%list d)
  end.

Definition active_reset (token : string) (t : Z) (r : PasswordReset) : bool :=
  bool_decide (pr_ResetToken r = token) && negb (is_valid (pr_UsedAt r)) && (t <? pr_ExpiresAt r).

Definition GetActivePasswordReset (token : string) (c : SCtx) (d : DB) : res PasswordReset :=
  fetch_one (active_reset token (s_now c)) (password_resets d).

(** Descending order, NULL first. *)
Definition desc (x y : option Z) : bool :=
  match x, y with None, _ => true | Some _, None => false | Some a, Some b => b <=? a end.

Definition GetLatestPasswordResetForUser (user : option uuid) (c : SCtx) (d : DB) : res (option Z) :=
  match sort_by (λ a b, desc (pr_CreatedAt a) (pr_CreatedAt b))
          (select (λ r, sql_eq (pr_UserID r) user) (password_resets d)) with
  | r :: _ => Ok (pr_CreatedAt r)
  | [] => Err ErrNoRows
  end.

Definition MarkPasswordResetUsed (id : uuid) : Stmt unit := λ c d,
  update_resets (id_is pr_ID (Some id)) (set_pr_UsedAt (Some (s_now c))) c d.

(** ** mfa.sql *)

Definition CreateMFARecoveryCode (factor : uuid) (hash : string) : Stmt unit := λ c d,
  let r := mkMfaRecoveryCode (s_gen c 0) factor hash None (Some (s_now c)) in
  match checks [
      (negb (exists_row (λ x, bool_decide (rc_ID x = rc_ID r)) (mfa_recovery_codes d)), ErrUniqueViolation);
      (negb (exists_row (λ x, bool_decide (rc_CodeHash x = hash)) (mfa_recovery_codes d)), ErrUniqueViolation);
      (exists_row (λ f, bool_decide (mf_ID f = factor)) (mfa_factors d), ErrForeignKey)] with
  | Some err => (Err err, d)
  | None => (Ok (), set_mfa_recovery_codes (mfa_recovery_codes d ++ [r])%list d)
  end.

Definition DeleteMFARecoveryCodesByFactor (factor : uuid) : Stmt unit := λ c d,
  (Ok (), set_mfa_recovery_codes
            (delete_where (λ r, bool_decide (rc_FactorID r = factor)) (mfa_recovery_codes d)) d).

(** [DELETE FROM mfa_factors WHERE p]: cascades to mfa_recovery_codes. *)
Definition delete_factors (p : MfaFactor → bool) : Stmt unit := λ c d,
  let gone := List.map mf_ID (select p (mfa_factors d)) in
  (Ok (), set_mfa_recovery_codes
            (delete_where (λ r, bool_decide (rc_FactorID r ∈ gone)) (mfa_recovery_codes d))
            (set_mfa_factors (delete_where p (mfa_factors d)) d)).

Definition factor_of (user : option uuid) (ty : MfaType) (f : MfaFactor) : bool :=
  sql_eq (mf_UserID f) user && bool_decide (mf_Type f = ty).

Definition DeleteOTPFactor (user : option uuid) (ty : MfaType) : Stmt unit :=
  delete_factors (factor_of user ty).
Definition DeleteTOTPFactor (user : option uuid) : Stmt unit :=
  delete_factors (factor_of user MfaTypeTotp).

Definition GetOTPFactorByUserID (user : option uuid) (ty : MfaType) (c : SCtx) (d : DB) : res MfaFactor :=
  fetch_one (factor_of user ty) (mfa_factors d).
Definition GetTOTPFactorByUserID (user : option uuid) (c : SCtx) (d : DB) : res MfaFactor :=
  fetch_one (factor_of user MfaTypeTotp) (mfa_factors d).

Definition GetUnusedMFARecoveryCode (hash : string) (c : SCtx) (d : DB) : res uuid :=
  res_map rc_ID (fetch_one (λ r, bool_decide (rc_CodeHash r = hash) && negb (is_valid (rc_UsedAt r)))
                   (mfa_recovery_codes d)).

Definition GetUserEmailByID (id : option uuid) (c : SCtx) (d : DB) : res string :=
  res_map u_Email (fetch_one (id_is u_ID id) (users d)).

(** [failed_attempts = failed_attempts + 1] on the factor *)
Definition IncrementOTPFactorFailedAttempts (id : uuid) : Stmt unit := λ c d,
  let p := id_is mf_ID (Some id) in
  if List.existsb (λ f, int4_overflows (mf_FailedAttempts f)) (select p (mfa_factors d))
  then (Err ErrOutOfRange, d)
  else update_factors p (λ f, set_mf_FailedAttempts (incr_int4 (mf_FailedAttempts f)) f) c d.
Definition IncrementTOTPFailedAttempts (id : uuid) : Stmt unit :=
  IncrementOTPFactorFailedAttempts id.

Definition MarkMFARecoveryCodeUsed (id : uuid) : Stmt unit := λ c d,
  (Ok (), set_mfa_recovery_codes
            (update (id_is rc_ID (Some id)) (set_rc_UsedAt (Some (s_now c))) (mfa_recovery_codes d)) d).

Definition RecordOTPFactorSuccess (id : uuid) : Stmt unit := λ c d,
  update_factors (id_is mf_ID (Some id))
    (λ f, set_mf_FailedAttempts (Some 0) (set_mf_LastUsedAt (Some (s_now c)) f)) c d.

Definition RecordTOTPSuccess (step : option Z) (id : uuid) : Stmt unit := λ c d,
  update_factors (id_is mf_ID (Some id))
    (λ f, set_mf_FailedAttempts (Some 0)
            (set_mf_LastUsedStep step (set_mf_LastUsedAt (Some (s_now c)) f))) c d.

(** [INSERT ... ON CONFLICT (user_id, type) DO UPDATE]: the BEFORE INSERT trigger
    runs on the proposed row, whose id is fresh, before the conflict is looked
    at. *)
Definition upsert_factor (n : MfaFactor) (f : MfaFactor → MfaFactor) : Stmt uuid := λ c d,
  if other_totp d n then (Err ErrRaised, d)
  else
    let p := λ m, sql_eq (mf_UserID m) (mf_UserID n) && bool_decide (mf_Type m = mf_Type n) in
    match fetch_one p (mfa_factors d) with
    | Ok m =>
        let '(r, d') := update_factors (id_is mf_ID (Some (mf_ID m))) f c d in
        (res_map (λ _, mf_ID m) r, d')
    | Err _ =>
        match checks [
            (negb (exists_row (λ x, bool_decide (mf_ID x = mf_ID n)) (mfa_factors d)), ErrUniqueViolation);
            (user_exists (mf_UserID n) d, ErrForeignKey)] with
        | Some err => (Err err, d)
        | None => (Ok (mf_ID n), set_mfa_factors (mfa_factors d ++ [n])%list d)
        end
    end.

Definition UpsertPendingOTPFactor (user : option uuid) (ty : MfaType) : Stmt uuid := λ c d,
  upsert_factor
    (mkMfaFactor (s_gen c 0) user None ty None (Some false) (Some false) (Some (s_now c)) (Some 0)
       None (Some false) None)
    (λ f, set_mf_CreatedAt (Some (s_now c)) (set_mf_LastUsedAt None (set_mf_FailedAttempts (Some 0)
            (set_mf_Enabled (Some false) (set_mf_Verified (Some false) f))))) c d.

Definition UpsertPendingTOTPFactor (user : option uuid) (secret : option string) : Stmt uuid := λ c d,
  upsert_factor
    (mkMfaFactor (s_gen c 0) user None MfaTypeTotp secret (Some false) (Some false) (Some (s_now c))
       (Some 0) None (Some false) None)
    (λ f, set_mf_CreatedAt (Some (s_now c)) (set_mf_LastUsedStep None (set_mf_LastUsedAt None
            (set_mf_FailedAttempts (Some 0) (set_mf_Enabled (Some false) (set_mf_Verified (Some false)
               (set_mf_Secret secret f))))))) c d.

Definition VerifyOTPFactor (id : uuid) : Stmt unit :=
  update_factors (id_is mf_ID (Some id)) (λ f, set_mf_Enabled (Some true) (set_mf_Verified (Some true) f)).
Definition VerifyTOTPFactor (id : uuid) : Stmt unit :=
  update_factors (id_is mf_ID (Some id)) (λ f, set_mf_Enabled (Some true) (set_mf_Verified (Some true) f)).

(** ** webauthn.sql *)

Definition CountWebAuthnCredentialsByUserID (user : option uuid) (c : SCtx) (d : DB) : res Z :=
  Ok (Z.of_nat (length (select (λ w, sql_eq (Some (wc_UserID w)) user) (webauthn_credentials d)))).

Definition CreateWebAuthnCredential (user : uuid) (credID : string) (name : option string) (cred : string)
    : Stmt uuid := λ c d,
  let w := mkWebauthnCredential (s_gen c 0) user credID name cred (Some (s_now c)) None in
  match checks [
      (negb (exists_row (λ x, bool_decide (wc_ID x = wc_ID w)) (webauthn_credentials d)), ErrUniqueViolation);
      (negb (exists_row (λ x, bool_decide (wc_CredentialID x = credID)) (webauthn_credentials d)), ErrUniqueViolation);
      (user_exists (Some user) d, ErrForeignKey)] with
  | Some err => (Err err, d)
  | None => (Ok (wc_ID w), set_webauthn_credentials (webauthn_credentials d ++ [w])%list d)
  end.

Definition own_credential (id user : option uuid) (w : WebauthnCredential) : bool :=
  id_is wc_ID id w && sql_eq (Some (wc_UserID w)) user.

Definition DeleteWebAuthnCredential (id user : option uuid) : Stmt unit := λ c d,
  (Ok (), set_webauthn_credentials (delete_where (own_credential id user) (webauthn_credentials d)) d).

Definition GetUserForWebAuthnLogin (id : option uuid) (c : SCtx) (d : DB) : res User :=
  fetch_one (id_is u_ID id) (users d).

(** Ascending order, NULL last. *)
Definition asc (x y : option Z) : bool :=
  match x, y with _, None => true | None, Some _ => false | Some a, Some b => a <=? b end.

Definition GetWebAuthnCredentialsByUserID (user : option uuid) (c : SCtx) (d : DB)
    : res (list WebauthnCredential) :=
  Ok (sort_by (λ a b, asc (wc_CreatedAt a) (wc_CreatedAt b))
        (select (λ w, sql_eq (Some (wc_UserID w)) user) (webauthn_credentials d))).

Definition RenameWebAuthnCredential (name : option string) (id user : option uuid) : Stmt unit := λ c d,
  (Ok (), set_webauthn_credentials
            (update (own_credential id user) (set_wc_Name name) (webauthn_credentials d)) d).

Definition UpdateWebAuthnCredential (cred : string) (id : uuid) : Stmt unit := λ c d,
  (Ok (), set_webauthn_credentials
            (update (id_is wc_ID (Some id))
               (λ w, set_wc_LastUsedAt (Some (s_now c)) (set_wc_Credential cred w))
               (webauthn_credentials d)) d).

(** ** admin.sql *)

Definition CountAuditLogs (target : option uuid) (c : SCtx) (d : DB) : res Z :=
  Ok (Z.of_nat (length (select (λ a, negb (is_valid target) || sql_eq (al_TargetUserID a) target)
                          (audit_logs d)))).

(** [LIKE]: [%] matches any sequence, [_] one character, [\] escapes. *)
Fixpoint like (p : list ascii) : list ascii → bool :=
  match p with
  | [] => λ s, match s with [] => true | _ => false end
  | c :: p =>
      if Ascii.eqb c "%" then
        fix any (s : list ascii) : bool :=
          like p s || match s with [] => false | _ :: s => any s end
      else if Ascii.eqb c "_" then
        λ s, match s with [] => false | _ :: s => like p s end
      else if Ascii.eqb c "\" then
        match p with
        | [] => λ _, false
        | e :: p => λ s, match s with [] => false | x :: s => Ascii.eqb x e && like p s end
        end
      else λ s, match s with [] => false | x :: s => Ascii.eqb x c && like p s end
  end.

(** [col ILIKE '%' || search || '%'], on ASCII text *)
Definition ilike_contains (col search : string) : bool :=
  like (String.list_ascii_of_string (string_map lower_char ("%" ++ search ++ "%")))
    (String.list_ascii_of_string (string_map lower_char col)).

Record UserFilter := mkUserFilter {
  uf_Search : option string;
  uf_Status : option UserStatus;
  uf_Role : option UserRole
}.

Definition user_matches (f : UserFilter) (u : User) : bool :=
  match uf_Search f with
  | None => true
  | Some s => ilike_contains (u_Username u) s || ilike_contains (u_Email u) s
  end
  && match uf_Status f with None => true | Some s => sql_eq (u_Status u) (Some s) end
  && match uf_Role f with None => true | Some r => bool_decide (u_Role u = r) end.

Definition CountUsers (f : UserFilter) (c : SCtx) (d : DB) : res Z :=
  Ok (Z.of_nat (length (select (user_matches f) (users d)))).

(** [LIMIT l OFFSET o]: negative values are errors. *)
Definition page {A} (limit offset : Z) (l : list A) : res (list A) :=
  if (limit <? 0) || (offset <? 0) then Err ErrOutOfRange
  else Ok (List.firstn (Z.to_nat limit) (List.skipn (Z.to_nat offset) l)).

Definition ListUsers (f : UserFilter) (offset limit : Z) (c : SCtx) (d : DB) : res (list User) :=
  page limit offset
    (sort_by (λ a b, desc (u_CreatedAt a) (u_CreatedAt b)) (select (user_matches f) (users d))).

Definition ListAuditLogs (target : option uuid) (offset limit : Z) (c : SCtx) (d : DB) : res (list AuditLog) :=
  page limit offset
    (sort_by (λ a b, desc (al_CreatedAt a) (al_CreatedAt b))
       (select (λ a, negb (is_valid target) || sql_eq (al_TargetUserID a) target) (audit_logs d))).

Record CreateAuditLogParams := mkCreateAuditLogParams {
  ca_ActorID : option uuid;
  ca_ActorUsername : option string;
  ca_TargetUserID : option uuid;
  ca_TargetUsername : option string;
  ca_TargetEmail : option string;
  ca_Action : AuditAction;
  ca_Reason : option string;
  ca_Ip : option string;
  ca_UserAgent : option string
}.

Definition CreateAuditLog (a : CreateAuditLogParams) : Stmt unit := λ c d,
  (Ok (), set_audit_logs
            (mkAuditLog (s_gen c 0) (ca_ActorID a) (ca_ActorUsername a) None (ca_TargetUserID a)
               (ca_TargetUsername a) (ca_TargetEmail a) (ca_Action a) None (ca_Reason a) (ca_Ip a)
               (ca_UserAgent a) (Some (s_now c)) :: audit_logs d) d).

(** Unlike the other lookups this one also finds soft-deleted accounts. *)
Definition GetUserByIDAdmin (id : option uuid) (c : SCtx) (d : DB) : res User :=
  fetch_one (id_is u_ID id) (users d).

(** [WHERE id = $1 AND deleted_at IS NULL] *)
Definition undeleted_user (id : option uuid) (u : User) : bool :=
  id_is u_ID id u && negb (is_valid (u_DeletedAt u)).

Definition SetUserRole (role : UserRole) (id : option uuid) : Stmt unit :=
  update_users (undeleted_user id) (set_u_Role role).
Definition SetUserStatus (status : option UserStatus) (id : option uuid) : Stmt unit :=
  update_users (undeleted_user id) (set_u_Status status).
Definition SoftDeleteUser (id : option uuid) : Stmt unit := λ c d,
  update_users (undeleted_user id) (set_u_DeletedAt (Some (s_now c))) c d.

(** ** maintenance.sql: the functions of 004_revoke_triggers *)

Definition Day : Z := 24 * Hour.

(** [x < y] on a nullable timestamp *)
Definition ts_before (x : option Z) (y : Z) : bool :=
  match x with Some t => t <? y | None => false end.

Definition RemoveExpiredPasswordResets : Stmt unit := λ c d,
  (Ok (), set_password_resets
            (delete_where (λ r, negb (is_valid (pr_UsedAt r)) && (pr_ExpiresAt r <? s_now c))
               (password_resets d)) d).

Definition RemoveOldLoginLogs : Stmt unit := λ c d,
  (Ok (), set_logins (delete_where (λ l, ts_before (lg_CreatedAt l) (s_now c - 90 * Day)) (logins d)) d).

(** The five most recent requests of a user are kept. *)
Definition RemoveOldPasswordResets : Stmt unit := λ c d,
  let ranked := List.flat_map
      (λ owner, List.skipn 5 (sort_by (λ a b, desc (pr_CreatedAt a) (pr_CreatedAt b))
                   (select (λ r, bool_decide (pr_UserID r = owner)) (password_resets d))))
      (List.map pr_UserID (password_resets d)) in
  (Ok (), set_password_resets
            (delete_where (λ r, bool_decide (pr_ID r ∈ List.map pr_ID ranked)) (password_resets d)) d).

Definition RemoveUnverifiedMFAFactors : Stmt unit := λ c d,
  delete_factors (λ f, sql_eq (mf_Verified f) (Some false)
                       && ts_before (mf_CreatedAt f) (s_now c - 2 * Hour)) c d.

Definition RevokeExpiredSessions : Stmt unit := λ c d,
  (Ok (), set_sessions (update (λ s, sql_eq (se_Revoked s) (Some false) && (se_ExpiresAt s <? s_now c))
                          (set_se_Revoked (Some true)) (sessions d)) d).

Definition RevokeOldSessions : Stmt unit := λ c d,
  (Ok (), set_sessions (update (λ s, sql_eq (se_Revoked s) (Some false)
                                     && ts_before (se_CreatedAt s) (s_now c - 30 * Day))
                          (set_se_Revoked (Some true)) (sessions d)) d).

End queries.
