(* ===== verification/Store.v ===== *)
(** * What every statement does to the store

    [wf]: the constraints of the schema hold.  [evolves d d']: what no statement
    ever undoes - accounts keep their identity, deletions and the admin role
    stick, revoked sessions stay revoked, the audit log only grows.  [safe]
    joins the two into a preorder; every statement of [Queries] moves along it,
    and the [tracks] hints carry that to every request. *)

From S2P Require Import Prelude.
From S2P Require Import GoLib.
From S2P Require Import Regex.
From S2P Require Import Utils.
From S2P Require Import Model.
From S2P Require Import Runtime.
From S2P Require Import Logic.
From S2P Require Import Queries.
From Stdlib Require Import RelationClasses.

#[local] Open Scope Z_scope.

(** ** Column-wise facts about tables *)

Definition keys {A B} (c : A → B) (l : list A) : list B := List.map c l.
#[global] Arguments keys : simpl never.

(** [l'] extends [l]: every row of [l] has a successor related by [R]. *)
Definition carried {A} (R : A → A → Prop) (l l' : list A) : Prop :=
  ∀ r, r ∈ l → ∃ r', r' ∈ l' ∧ R r r'.

Section carried.
Context {A : Type} (R : A → A → Prop) `{!PreOrder R}.

#[export] Instance carried_preorder : PreOrder (carried R).
Proof.
  split.
  - intros l r Hr. exists r. split; [done|]. reflexivity.
  - intros l1 l2 l3 H12 H23 r Hr. destruct (H12 r Hr) as (r2 & Hr2 & HR2).
    destruct (H23 r2 Hr2) as (r3 & Hr3 & HR3). exists r3. split; [done|]. by etransitivity.
Qed.

Lemma carried_app l x : carried R l (l ++ x).
Proof. intros r Hr. exists r. split; [set_solver|]. reflexivity. Qed.

Lemma carried_update p f l : (∀ r, r ∈ l → p r = true → R r (f r)) → carried R l (update p f l).
Proof.
  intros H r Hr. exists (if p r then f r else r). split.
  - apply elem_of_update. eauto.
  - destruct (p r) eqn:E; [by apply H|reflexivity].
Qed.
End carried.

Lemma update_keys {A B} (c : A → B) p f l :
  (∀ r, c (f r) = c r) → keys c (update p f l) = keys c l.
Proof. intros H. apply update_proj. auto. Qed.

Lemma update_Forall {A} (P : A → Prop) p f l :
  Forall P l → (∀ r, r ∈ l → P r → p r = true → P (f r)) → Forall P (update p f l).
Proof.
  rewrite !Forall_forall. intros HP Hf r (r0 & Hr0 & ->)%elem_of_update.
  destruct (p r0) eqn:E; auto.
Qed.

Lemma delete_where_Forall {A} (P : A → Prop) p l : Forall P l → Forall P (delete_where p l).
Proof. rewrite !Forall_forall. intros HP r [Hr _]%elem_of_delete_where. auto. Qed.

Lemma NoDup_keys_snoc {A B} (c : A → B) l x :
  NoDup (keys c l) → (∀ r, r ∈ l → c r ≠ c x) → NoDup (keys c (l ++ [x])).
Proof.
  intros Hnd Hx. unfold keys. rewrite map_app. apply NoDup_app. split_and!; [done| |apply NoDup_singleton].
  intros b Hb Hin. apply list_elem_of_singleton in Hin as ->.
  rewrite list_elem_of_In in Hb. apply in_map_iff in Hb as (r & Hr & Hin).
  apply (Hx r); [by apply list_elem_of_In|done].
Qed.

Lemma keys_elem {A B} (c : A → B) l r : r ∈ l → c r ∈ keys c l.
Proof. intros Hr. rewrite list_elem_of_In. apply in_map. by apply list_elem_of_In. Qed.

Lemma fresh_key {A B} `{EqDecision B} (c : A → B) (b : B) l :
  exists_row (λ r, bool_decide (c r = b)) l = false → ∀ r, r ∈ l → c r ≠ b.
Proof. rewrite exists_row_false. intros H r Hr. specialize (H r Hr). by bool_to_prop. Qed.

Lemma checks_cons b e l : checks ((b, e) :: l) = None → b = true ∧ checks l = None.
Proof. by destruct b. Qed.

Lemma id_is_true {A} (col : A → uuid) id r : id_is col id r = true → id = Some (col r).
Proof. unfold id_is. intros H. apply sql_eq_true in H as (a & Ha & ->). congruence. Qed.

(** ** The invariant *)

(** A reference to a table: NULL or an existing key. *)
Definition refers {B} (ids : list B) (o : option B) : Prop := ∀ i, o = Some i → i ∈ ids.

Definition user_ids (d : DB) : list uuid := keys u_ID (users d).

Section wf.
Context `{TL : TextLib}.

Definition user_row_ok (u : User) : Prop :=
  u_Username u = pg_lower (u_UsernameDisplay u)
  ∧ re_match username_display_format (u_UsernameDisplay u) = true.

Definition identity_row_ok (a : AuthIdentity) : Prop :=
  ai_Provider a = ProviderNameEmail ↔ is_Some (ai_PasswordHash a).

Definition users_wf (d : DB) : Prop :=
  NoDup (keys u_ID (users d)) ∧ NoDup (keys u_Email (users d))
  ∧ NoDup (keys u_Username (users d)) ∧ Forall user_row_ok (users d).

Definition identities_wf (d : DB) : Prop :=
  NoDup (keys ai_ID (auth_identities d))
  ∧ NoDup (keys (λ a, (ai_Provider a, ai_ProviderUserID a)) (auth_identities d))
  ∧ Forall (λ a, identity_row_ok a ∧ refers (user_ids d) (ai_UserID a)) (auth_identities d).

Definition factors_wf (d : DB) : Prop :=
  NoDup (keys mf_ID (mfa_factors d))
  ∧ NoDup (keys (λ f, (mf_UserID f, mf_Type f)) (mfa_factors d))
  ∧ Forall (λ f, refers (user_ids d) (mf_UserID f)) (mfa_factors d).

Definition codes_wf (d : DB) : Prop :=
  NoDup (keys rc_ID (mfa_recovery_codes d)) ∧ NoDup (keys rc_CodeHash (mfa_recovery_codes d))
  ∧ Forall (λ r, rc_FactorID r ∈ keys mf_ID (mfa_factors d)) (mfa_recovery_codes d).

Definition sessions_wf (d : DB) : Prop :=
  NoDup (keys se_ID (sessions d)) ∧ Forall (λ s, refers (user_ids d) (se_UserID s)) (sessions d).

Definition resets_wf (d : DB) : Prop :=
  NoDup (keys pr_ID (password_resets d))
  ∧ Forall (λ r, refers (user_ids d) (pr_UserID r)) (password_resets d).

Definition credentials_wf (d : DB) : Prop :=
  NoDup (keys wc_ID (webauthn_credentials d)) ∧ NoDup (keys wc_CredentialID (webauthn_credentials d))
  ∧ Forall (λ w, wc_UserID w ∈ user_ids d) (webauthn_credentials d).

Record wf (d : DB) : Prop := mkWf {
  wf_users : users_wf d;
  wf_identities : identities_wf d;
  wf_factors : factors_wf d;
  wf_codes : codes_wf d;
  wf_sessions : sessions_wf d;
  wf_resets : resets_wf d;
  wf_credentials : credentials_wf d
}.
End wf.

(** ** What is never undone *)

Definition user_evolves (u u' : User) : Prop :=
  u_ID u' = u_ID u ∧ u_Email u' = u_Email u ∧ u_Username u' = u_Username u
  ∧ u_UsernameDisplay u' = u_UsernameDisplay u
  ∧ (is_valid (u_DeletedAt u) = true → u_DeletedAt u' = u_DeletedAt u)
  ∧ (u_Role u = UserRoleAdmin → u_Role u' = UserRoleAdmin).

Definition identity_evolves (a a' : AuthIdentity) : Prop :=
  ai_ID a' = ai_ID a ∧ ai_UserID a' = ai_UserID a ∧ ai_Provider a' = ai_Provider a
  ∧ ai_ProviderUserID a' = ai_ProviderUserID a.

Definition session_evolves (s s' : Session) : Prop :=
  se_ID s' = se_ID s ∧ se_UserID s' = se_UserID s
  ∧ (se_Revoked s = Some true →
     se_Revoked s' = Some true ∧ se_RefreshTokenHash s' = se_RefreshTokenHash s
     ∧ se_ExpiresAt s' = se_ExpiresAt s).

Definition grows {A} (l l' : list A) : Prop := ∃ x, l' = x ++ l.

#[export] Instance user_evolves_preorder : PreOrder user_evolves.
Proof.
  unfold user_evolves. split; [intros u; naive_solver|].
  intros u1 u2 u3 (?&?&?&?&Hd&Hr) (?&?&?&?&Hd'&Hr'). split_and!; try congruence; [|auto].
  intros Hv. specialize (Hd Hv). rewrite Hd' by congruence. done.
Qed.
#[export] Instance identity_evolves_preorder : PreOrder identity_evolves.
Proof. unfold identity_evolves. split; [intros u|intros u1 u2 u3]; intuition congruence. Qed.
#[export] Instance session_evolves_preorder : PreOrder session_evolves.
Proof.
  unfold session_evolves. split; [intros u; naive_solver|].
  intros s1 s2 s3 (?&?&H12) (?&?&H23). split_and!; try congruence.
  intros Hv. destruct (H12 Hv) as (Hv2&?&?). destruct (H23 Hv2) as (?&?&?).
  split_and!; congruence.
Qed.
#[export] Instance grows_preorder A : PreOrder (@grows A).
Proof.
  split; [intros l; by exists []|].
  intros l1 l2 l3 [x ->] [y ->]. exists (y ++ x). by rewrite app_assoc.
Qed.

Record evolves (d d' : DB) : Prop := mkEvolves {
  ev_users : carried user_evolves (users d) (users d');
  ev_identities : carried identity_evolves (auth_identities d) (auth_identities d');
  ev_sessions : carried session_evolves (sessions d) (sessions d');
  ev_audit : grows (audit_logs d) (audit_logs d')
}.

#[export] Instance evolves_preorder : PreOrder evolves.
Proof.
  split.
  - intros d. by split.
  - intros d1 d2 d3 [] []. split; by etransitivity.
Qed.

Definition safe `{TextLib} (d d' : DB) : Prop := evolves d d' ∧ (wf d → wf d').

#[export] Instance safe_preorder `{TextLib} : PreOrder safe.
Proof.
  unfold safe. split.
  - intros d. by split.
  - intros d1 d2 d3 [? ?] [? ?]. split; [by etransitivity|auto].
Qed.

(** ** The statements *)

Section statements.
Context `{TL : TextLib} `{UL : UuidLib}.

Ltac keep_evolves := split; try reflexivity; try (eexists; reflexivity).
Ltac keep_wf := intros []; split; try assumption.

Lemma user_ids_update p f d :
  (∀ u, u_ID (f u) = u_ID u) → user_ids (set_users (update p f (users d)) d) = user_ids d.
Proof. intros H. unfold user_ids. simpl. by apply update_keys. Qed.

Lemma update_users_safe p f :
  (∀ u, u_ID (f u) = u_ID u ∧ u_Email (f u) = u_Email u ∧ u_Username (f u) = u_Username u
        ∧ u_UsernameDisplay (f u) = u_UsernameDisplay u) →
  (∀ u, p u = true → is_valid (u_DeletedAt u) = true → u_DeletedAt (f u) = u_DeletedAt u) →
  st_in safe (update_users p f).
Proof.
  intros Hf Hdel c d a d'. unfold update_users.
  destruct (existsb _ _) eqn:Hdem; [done|].
  destruct (trigger_rows _ _ _ _) as [l|]; [|done]. intros [= _ <-]. split.
  - keep_evolves. simpl. apply carried_update; [typeclasses eauto|]. intros u Hu Hp.
    destruct (Hf u) as (?&?&?&?). split_and!; auto. intros Hadm.
    destruct (demotes u (f u)) eqn:E.
    + exfalso. eapply (not_true_iff_false (existsb _ _)); [exact Hdem|].
      apply existsb_exists. exists u. split; [|done].
      apply list_elem_of_In, elem_of_select. done.
    + unfold demotes in E. rewrite bool_decide_true in E by done. simpl in E. by bool_to_prop.
  - intros [Hu Hi Hfa Hco Hs Hr Hcr].
    assert (user_ids (set_users (update p f (users d)) d) = user_ids d) as Hids
      by (apply user_ids_update; intros u; apply Hf).
    split; try assumption.
    + destruct Hu as (H1&H2&H3&H4). split_and!; simpl.
      * rewrite update_keys; [done|apply Hf].
      * rewrite update_keys; [done|apply Hf].
      * rewrite update_keys; [done|apply Hf].
      * apply update_Forall; [done|]. intros u _ [Ha Hb] _.
        destruct (Hf u) as (?&?&E1&E2). unfold user_row_ok. by rewrite E1, E2.
    + unfold identities_wf in *. fold (user_ids d) in Hi. simpl. cbn in Hids.
      unfold user_ids in *. simpl in *. by rewrite Hids.
    + unfold factors_wf, user_ids in *. simpl in *. by rewrite Hids.
    + unfold sessions_wf, user_ids in *. simpl in *. by rewrite Hids.
    + unfold resets_wf, user_ids in *. simpl in *. by rewrite Hids.
    + unfold credentials_wf, user_ids in *. simpl in *. by rewrite Hids.
Qed.

Lemma refers_mono {B} (ids ids' : list B) o : (∀ i, i ∈ ids → i ∈ ids') → refers ids o → refers ids' o.
Proof. unfold refers. eauto. Qed.

Lemma user_exists_refers id d : user_exists id d = true → refers (user_ids d) id.
Proof.
  unfold user_exists, refers. destruct id as [i|]; [|done].
  intros (u & Hu & Hi)%exists_row_true j [= <-]. bool_to_prop. subst i. by apply keys_elem.
Qed.

(** Adding users keeps every reference. *)
Lemma wf_more_users d us :
  wf d → users_wf (set_users us d) → (∀ i, i ∈ user_ids d → i ∈ keys u_ID us) → wf (set_users us d).
Proof.
  intros [Hu Hi Hf Hc Hs Hr Hw] Hu' Hsub. split; try assumption.
  - destruct Hi as (?&?&H). split_and!; [done..|]. eapply Forall_impl; [exact H|].
    intros a [? ?]. split; [done|]. by eapply refers_mono.
  - destruct Hf as (?&?&H). split_and!; [done..|]. eapply Forall_impl; [exact H|].
    intros a ?. by eapply refers_mono.
  - destruct Hs as (?&H). split_and!; [done..|]. eapply Forall_impl; [exact H|].
    intros a ?. by eapply refers_mono.
  - destruct Hr as (?&H). split_and!; [done..|]. eapply Forall_impl; [exact H|].
    intros a ?. by eapply refers_mono.
  - destruct Hw as (?&?&H). split_and!; [done..|]. eapply Forall_impl; [exact H|].
    intros a ?. by apply Hsub.
Qed.

(** The facts a passed list of [checks] gives. *)
Ltac checks_facts H :=
  repeat (apply checks_cons in H; let E := fresh "Hck" in destruct H as [E H]); clear H.
Ltac negb_facts :=
  repeat match goal with H : negb _ = true |- _ => apply negb_true_iff in H end.

Lemma insert_user_safe email display role origin : st_in safe (insert_user email display role origin).
Proof.
  intros c d a d'. unfold insert_user. destruct (checks _) eqn:Hck; [done|].
  intros [= _ <-]. checks_facts Hck. negb_facts. split.
  - keep_evolves. simpl. apply carried_app. typeclasses eauto.
  - intros Hwf. apply wf_more_users; [done| |].
    + destruct (wf_users d Hwf) as (H1&H2&H3&H4). split_and!; simpl.
      * apply NoDup_keys_snoc; [done|]. by apply fresh_key.
      * apply NoDup_keys_snoc; [done|]. by apply fresh_key.
      * apply NoDup_keys_snoc; [done|]. by apply fresh_key.
      * apply Forall_app. split; [done|]. by apply Forall_singleton.
    + intros i Hi. unfold keys. rewrite map_app. apply elem_of_app. by left.
Qed.

Lemma update_identities_safe p f :
  (∀ a, identity_evolves a (f a)) →
  (∀ a, p a = true → identity_row_ok a → identity_row_ok (f a)) →
  st_in safe (update_identities p f).
Proof.
  intros Hf Hrow c d a d'. unfold update_identities.
  destruct (trigger_rows _ _ _ _) as [l|]; [|done]. intros [= _ <-]. split.
  - keep_evolves. simpl. apply carried_update; [typeclasses eauto|]. intros r _ _. apply Hf.
  - keep_wf. destruct wf_identities0 as (H1&H2&H3). split_and!; simpl.
    + rewrite update_keys; [done|]. intros r. apply Hf.
    + rewrite update_keys; [done|]. intros r. destruct (Hf r) as (_&_&->&->). done.
    + apply update_Forall; [done|]. intros r _ [Ha Hb] Hp. split; [by apply Hrow|].
      destruct (Hf r) as (_&->&_). done.
Qed.

Lemma insert_identity_safe user provider puid hash : st_in safe (insert_identity user provider puid hash).
Proof.
  intros c d a d'. unfold insert_identity. destruct (checks _) eqn:Hck; [done|].
  intros [= _ <-]. checks_facts Hck. negb_facts. split.
  - keep_evolves. simpl. apply carried_app. typeclasses eauto.
  - keep_wf. destruct wf_identities0 as (H1&H2&H3). split_and!; simpl.
    + apply NoDup_keys_snoc; [done|]. by apply fresh_key.
    + apply NoDup_keys_snoc; [done|]. simpl. intros r Hr [= E1 E2].
      rewrite exists_row_false in Hck2. specialize (Hck2 r Hr). rewrite E1, E2 in Hck2.
      by rewrite !bool_decide_true in Hck2.
    + apply Forall_app. split; [done|]. apply Forall_singleton. split; simpl; [|by apply user_exists_refers].
      unfold identity_row_ok. simpl. destruct hash; simpl in Hck0;
        rewrite ?andb_true_r, ?andb_false_r, ?orb_false_r in Hck0; bool_to_prop; naive_solver.
Qed.

Definition factor_key_kept (f : MfaFactor → MfaFactor) : Prop :=
  ∀ m, mf_ID (f m) = mf_ID m ∧ mf_UserID (f m) = mf_UserID m ∧ mf_Type (f m) = mf_Type m.

Lemma update_factors_safe p f : factor_key_kept f → st_in safe (update_factors p f).
Proof.
  intros Hf c d a d'. unfold update_factors. destruct (existsb _ _); [done|].
  destruct (trigger_rows _ _ _ _) as [l|]; [|done]. intros [= _ <-]. split; [keep_evolves|].
  keep_wf.
  - destruct wf_factors0 as (H1&H2&H3). split_and!; simpl.
    + rewrite update_keys; [done|apply Hf].
    + rewrite update_keys; [done|]. intros r. destruct (Hf r) as (_&->&->). done.
    + apply update_Forall; [done|]. intros r _ H _. destruct (Hf r) as (_&->&_). done.
  - unfold codes_wf in *. simpl. rewrite update_keys; [done|apply Hf].
Qed.

Lemma delete_factors_safe p : st_in safe (delete_factors p).
Proof.
  intros c d a d' [= _ <-]. split; [keep_evolves|]. keep_wf.
  - destruct wf_factors0 as (H1&H2&H3). split_and!; simpl.
    + by apply delete_where_proj_NoDup.
    + by apply delete_where_proj_NoDup.
    + by apply delete_where_Forall.
  - destruct wf_codes0 as (H1&H2&H3). split_and!; simpl.
    + by apply delete_where_proj_NoDup.
    + by apply delete_where_proj_NoDup.
    + apply Forall_forall. intros r [Hr Hp]%elem_of_delete_where. bool_to_prop.
      rewrite Forall_forall in H3. specialize (H3 r Hr).
      unfold keys in *. rewrite list_elem_of_In, in_map_iff in H3. destruct H3 as (m & Hm & Hin).
      rewrite list_elem_of_In, in_map_iff. exists m. split; [done|].
      apply list_elem_of_In, elem_of_delete_where. apply list_elem_of_In in Hin. split; [done|].
      destruct (p m) eqn:E; [|done]. exfalso. apply Hp. rewrite <- Hm.
      apply (keys_elem mf_ID). by apply elem_of_select.
Qed.

Lemma upsert_factor_safe n f u :
  factor_key_kept f → mf_UserID n = Some u → st_in safe (upsert_factor n f).
Proof.
  intros Hf Hn c d a d'. unfold upsert_factor. destruct (other_totp d n); [done|].
  destruct (fetch_one _ (mfa_factors d)) as [m|e] eqn:Ef.
  - destruct (update_factors _ _ c d) as [[[]|] d1] eqn:E; [|done]. intros [= _ <-].
    by eapply update_factors_safe.
  - destruct (checks _) eqn:Hck; [done|]. intros [= _ <-]. checks_facts Hck. negb_facts.
    apply fetch_one_Err in Ef as [_ Hno]. split; [keep_evolves|]. keep_wf.
    + destruct wf_factors0 as (H1&H2&H3). split_and!; simpl.
      * apply NoDup_keys_snoc; [done|]. by apply fresh_key.
      * apply NoDup_keys_snoc; [done|]. intros r Hr [= E1 E2]. specialize (Hno r Hr).
        rewrite E1, E2, Hn, sql_eq_refl in Hno. simpl in Hno. by rewrite bool_decide_true in Hno.
      * apply Forall_app. split; [done|]. apply Forall_singleton. by apply user_exists_refers.
    + destruct wf_codes0 as (H1&H2&H3). split_and!; [done..|]. simpl.
      eapply Forall_impl; [exact H3|]. intros r Hr. unfold keys in *. rewrite map_app.
      apply elem_of_app. by left.
Qed.

Lemma update_resets_safe p f :
  (∀ r, pr_ID (f r) = pr_ID r ∧ pr_UserID (f r) = pr_UserID r) → st_in safe (update_resets p f).
Proof.
  intros Hf c d a d'. unfold update_resets.
  destruct (trigger_rows _ _ _ _) as [l|]; [|done]. intros [= _ <-]. split; [keep_evolves|].
  keep_wf. destruct wf_resets0 as (H1&H2). split; simpl.
  - rewrite update_keys; [done|apply Hf].
  - apply update_Forall; [done|]. intros r _ H _. destruct (Hf r) as [_ ->]. done.
Qed.

Lemma update_sessions_safe p f d :
  (∀ s, p s = true → session_evolves s (f s)) → (∀ s, se_ID (f s) = se_ID s ∧ se_UserID (f s) = se_UserID s) →
  safe d (set_sessions (update p f (sessions d)) d).
Proof.
  intros Hp Hf. split.
  - keep_evolves. simpl. apply carried_update; [typeclasses eauto|auto].
  - keep_wf. destruct wf_sessions0 as (H1&H2). split; simpl.
    + rewrite update_keys; [done|apply Hf].
    + apply update_Forall; [done|]. intros r _ H _. destruct (Hf r) as [_ ->]. done.
Qed.

(** ** Every statement of the service *)

Lemma discard_safe {A} (st : Stmt A) : st_in safe st → st_in safe (discard st).
Proof.
  intros H c d a d'. unfold discard. destruct (st c d) as [[x|] d1] eqn:E; [|done].
  intros [= _ <-]. by eapply H.
Qed.

Lemma CreateUser_safe email display : st_in safe (CreateUser email display).
Proof. apply insert_user_safe. Qed.
Lemma CreateSSOUser_safe email display origin : st_in safe (CreateSSOUser email display origin).
Proof. apply insert_user_safe. Qed.
Lemma CreateEmailAuth_safe user email hash : st_in safe (CreateEmailAuth user email hash).
Proof. apply discard_safe, insert_identity_safe. Qed.

Lemma CreateSSOIdentity_safe user provider puid : st_in safe (CreateSSOIdentity user provider puid).
Proof.
  intros c d a d'. unfold CreateSSOIdentity.
  destruct (insert_identity _ _ _ _ c d) as [[x|] d1] eqn:E; [|done].
  intros [= _ <-]. by eapply insert_identity_safe.
Qed.

Lemma TouchUserLastLogin_safe id : st_in safe (TouchUserLastLogin id).
Proof. intros c d a d'. apply update_users_safe; [done|]. intros u _. by destruct u. Qed.

Lemma undeleted_sticky id f u :
  undeleted_user id u = true → is_valid (u_DeletedAt u) = true → u_DeletedAt (f u) = u_DeletedAt u.
Proof. unfold undeleted_user. intros H Hd. bool_to_prop. congruence. Qed.

Lemma SetUserRole_safe role id : st_in safe (SetUserRole role id).
Proof. intros c d a d'. apply update_users_safe; [done|]. intros u. apply undeleted_sticky. Qed.
Lemma SetUserStatus_safe status id : st_in safe (SetUserStatus status id).
Proof. intros c d a d'. apply update_users_safe; [done|]. intros u. apply undeleted_sticky. Qed.
Lemma SoftDeleteUser_safe id : st_in safe (SoftDeleteUser id).
Proof. intros c d a d'. apply update_users_safe; [done|]. intros u. apply undeleted_sticky. Qed.

Lemma IncrementFailedLoginAttempts_safe id : st_in safe (IncrementFailedLoginAttempts id).
Proof.
  intros c d a d'. unfold IncrementFailedLoginAttempts. destruct (fetch_one _ _) as [r|]; [|done].
  destruct (int4_overflows _); [done|].
  destruct (update_identities _ _ c d) as [[[]|] d1] eqn:E; [|done]. intros [= _ <-].
  by eapply update_identities_safe in E.
Qed.

Lemma LockAuthIdentity_safe id : st_in safe (LockAuthIdentity id).
Proof. intros c d a d'. by apply update_identities_safe. Qed.
Lemma ResetFailedLoginAttempts_safe id : st_in safe (ResetFailedLoginAttempts id).
Proof. intros c d a d'. by apply update_identities_safe. Qed.

Lemma UpdatePasswordHash_safe hash id : st_in safe (UpdatePasswordHash hash id).
Proof.
  intros c d a d'. unfold UpdatePasswordHash. destruct (forallb _ _) eqn:Hall; [|done].
  unfold update_identities. destruct (trigger_rows _ _ _ _) as [l|]; [|done]. intros [= _ <-]. split.
  - keep_evolves. simpl. apply carried_update; [typeclasses eauto|]. done.
  - keep_wf. destruct wf_identities0 as (H1&H2&H3). split_and!; simpl.
    + by rewrite update_keys.
    + by rewrite update_keys.
    + apply update_Forall; [done|]. intros r Hr [Ha Hb] Hp. split; [|done].
      rewrite forallb_forall in Hall. specialize (Hall r).
      rewrite <- list_elem_of_In, elem_of_select in Hall. specialize (Hall (conj Hr Hp)).
      apply eqb_prop in Hall. unfold identity_row_ok in *. simpl.
      destruct hash; simpl in Hall; bool_to_prop; naive_solver.
Qed.

Lemma CreateRefreshSession_safe id user expires hash ip ua :
  st_in safe (CreateRefreshSession id user expires hash ip ua).
Proof.
  intros c d a d'. unfold CreateRefreshSession. destruct (checks _) eqn:Hck; [done|].
  intros [= _ <-]. checks_facts Hck. negb_facts. split.
  - keep_evolves. simpl. apply carried_app. typeclasses eauto.
  - keep_wf. destruct wf_sessions0 as (H1&H2). split; simpl.
    + apply NoDup_keys_snoc; [done|]. by apply fresh_key.
    + apply Forall_app. split; [done|]. apply Forall_singleton. by apply user_exists_refers.
Qed.

Lemma revoke_evolves t s : se_Revoked s = Some false → session_evolves s (revoke_at t s).
Proof. intros H. unfold session_evolves. simpl. split_and!; congruence. Qed.

Lemma RevokeAllOtherUserSessions_safe user current : st_in safe (RevokeAllOtherUserSessions user current).
Proof.
  intros c d a d' [= _ <-]. apply update_sessions_safe; [|done]. intros s Hs.
  unfold active_session_of in Hs. bool_to_prop. apply revoke_evolves. congruence.
Qed.
Lemma RevokeAllUserSessions_safe user : st_in safe (RevokeAllUserSessions user).
Proof.
  intros c d a d' [= _ <-]. apply update_sessions_safe; [|done]. intros s Hs.
  unfold active_session_of in Hs. bool_to_prop. apply revoke_evolves. congruence.
Qed.
Lemma RevokeSession_safe id : st_in safe (RevokeSession id).
Proof.
  intros c d a d' [= _ <-]. apply update_sessions_safe; [|done]. intros s Hs.
  bool_to_prop. apply revoke_evolves. congruence.
Qed.
Lemma RotateRefreshSession_safe hash expires id : st_in safe (RotateRefreshSession hash expires id).
Proof.
  intros c d a d'. unfold RotateRefreshSession. destruct (fetch_one _ _); [|done].
  intros [= _ <-]. apply update_sessions_safe; [|done]. intros s Hs.
  bool_to_prop. unfold session_evolves. simpl. split_and!; congruence.
Qed.

Lemma RecordLoginAttempt_safe user ident r ip ua : st_in safe (RecordLoginAttempt user ident r ip ua).
Proof.
  intros c d a d'. unfold RecordLoginAttempt. destruct (checks _) eqn:Hck; [done|].
  intros [= _ <-]. split; [keep_evolves|keep_wf].
Qed.

Lemma CreatePasswordReset_safe user token expires source : st_in safe (CreatePasswordReset user token expires source).
Proof.
  intros c d a d'. unfold CreatePasswordReset. destruct (checks _) eqn:Hck; [done|].
  intros [= _ <-]. checks_facts Hck. negb_facts. split; [keep_evolves|]. keep_wf.
  destruct wf_resets0 as (H1&H2). split; simpl.
  - apply NoDup_keys_snoc; [done|]. by apply fresh_key.
  - apply Forall_app. split; [done|]. apply Forall_singleton. by apply user_exists_refers.
Qed.

Lemma MarkPasswordResetUsed_safe id : st_in safe (MarkPasswordResetUsed id).
Proof. intros c d a d'. by apply update_resets_safe. Qed.

Lemma CreateMFARecoveryCode_safe factor hash : st_in safe (CreateMFARecoveryCode factor hash).
Proof.
  intros c d a d'. unfold CreateMFARecoveryCode. destruct (checks _) eqn:Hck; [done|].
  intros [= _ <-]. checks_facts Hck. negb_facts. split; [keep_evolves|]. keep_wf.
  destruct wf_codes0 as (H1&H2&H3). split_and!; simpl.
  - apply NoDup_keys_snoc; [done|]. by apply fresh_key.
  - apply NoDup_keys_snoc; [done|]. by apply fresh_key.
  - apply Forall_app. split; [done|]. apply Forall_singleton. simpl.
    apply exists_row_true in Hck2 as (f & Hf & Hid). bool_to_prop. subst factor. by apply keys_elem.
Qed.

Lemma DeleteMFARecoveryCodesByFactor_safe factor : st_in safe (DeleteMFARecoveryCodesByFactor factor).
Proof.
  intros c d a d' [= _ <-]. split; [keep_evolves|]. keep_wf. destruct wf_codes0 as (H1&H2&H3).
  split_and!; simpl; [by apply delete_where_proj_NoDup..|by apply delete_where_Forall].
Qed.

Lemma MarkMFARecoveryCodeUsed_safe id : st_in safe (MarkMFARecoveryCodeUsed id).
Proof.
  intros c d a d' [= _ <-]. split; [keep_evolves|]. keep_wf. destruct wf_codes0 as (H1&H2&H3).
  split_and!; simpl; [by rewrite update_keys..|]. by apply update_Forall.
Qed.

Lemma DeleteOTPFactor_safe user ty : st_in safe (DeleteOTPFactor user ty).
Proof. apply delete_factors_safe. Qed.
Lemma DeleteTOTPFactor_safe user : st_in safe (DeleteTOTPFactor user).
Proof. apply delete_factors_safe. Qed.
Lemma IncrementOTPFactorFailedAttempts_safe id : st_in safe (IncrementOTPFactorFailedAttempts id).
Proof.
  intros c d a d'. unfold IncrementOTPFactorFailedAttempts. destruct (existsb _ _); [done|].
  by apply update_factors_safe.
Qed.
Lemma IncrementTOTPFailedAttempts_safe id : st_in safe (IncrementTOTPFailedAttempts id).
Proof. apply IncrementOTPFactorFailedAttempts_safe. Qed.
Lemma RecordOTPFactorSuccess_safe id : st_in safe (RecordOTPFactorSuccess id).
Proof. intros c d a d'. by apply update_factors_safe. Qed.
Lemma RecordTOTPSuccess_safe step id : st_in safe (RecordTOTPSuccess step id).
Proof. intros c d a d'. by apply update_factors_safe. Qed.
Lemma VerifyOTPFactor_safe id : st_in safe (VerifyOTPFactor id).
Proof. by apply update_factors_safe. Qed.
Lemma VerifyTOTPFactor_safe id : st_in safe (VerifyTOTPFactor id).
Proof. by apply update_factors_safe. Qed.
Lemma UpsertPendingOTPFactor_safe user ty : st_in safe (UpsertPendingOTPFactor (Some user) ty).
Proof. intros c d a d'. by eapply upsert_factor_safe. Qed.
Lemma UpsertPendingTOTPFactor_safe user secret : st_in safe (UpsertPendingTOTPFactor (Some user) secret).
Proof. intros c d a d'. by eapply upsert_factor_safe. Qed.

Lemma CreateWebAuthnCredential_safe user credID name cred :
  st_in safe (CreateWebAuthnCredential user credID name cred).
Proof.
  intros c d a d'. unfold CreateWebAuthnCredential. destruct (checks _) eqn:Hck; [done|].
  intros [= _ <-]. checks_facts Hck. negb_facts. split; [keep_evolves|]. keep_wf.
  destruct wf_credentials0 as (H1&H2&H3). split_and!; simpl.
  - apply NoDup_keys_snoc; [done|]. by apply fresh_key.
  - apply NoDup_keys_snoc; [done|]. by apply fresh_key.
  - apply Forall_app. split; [done|]. apply Forall_singleton. simpl.
    by apply (user_exists_refers (Some user) d).
Qed.

Lemma DeleteWebAuthnCredential_safe id user : st_in safe (DeleteWebAuthnCredential id user).
Proof.
  intros c d a d' [= _ <-]. split; [keep_evolves|]. keep_wf. destruct wf_credentials0 as (H1&H2&H3).
  split_and!; simpl; [by apply delete_where_proj_NoDup..|by apply delete_where_Forall].
Qed.
Lemma RenameWebAuthnCredential_safe name id user : st_in safe (RenameWebAuthnCredential name id user).
Proof.
  intros c d a d' [= _ <-]. split; [keep_evolves|]. keep_wf. destruct wf_credentials0 as (H1&H2&H3).
  split_and!; simpl; [by rewrite update_keys..|]. by apply update_Forall.
Qed.
Lemma UpdateWebAuthnCredential_safe cred id : st_in safe (UpdateWebAuthnCredential cred id).
Proof.
  intros c d a d' [= _ <-]. split; [keep_evolves|]. keep_wf. destruct wf_credentials0 as (H1&H2&H3).
  split_and!; simpl; [by rewrite update_keys..|]. by apply update_Forall.
Qed.

Lemma CreateAuditLog_safe p : st_in safe (CreateAuditLog p).
Proof.
  intros c d a d' [= _ <-]. split; [|keep_wf].
  split; try reflexivity. simpl. by eexists [_].
Qed.

Lemma delete_resets_safe p d : safe d (set_password_resets (delete_where p (password_resets d)) d).
Proof.
  split; [keep_evolves|]. keep_wf. destruct wf_resets0 as (H1&H2).
  split; simpl; [by apply delete_where_proj_NoDup|by apply delete_where_Forall].
Qed.

Lemma RemoveExpiredPasswordResets_safe : st_in safe RemoveExpiredPasswordResets.
Proof. intros c d a d' [= _ <-]. apply delete_resets_safe. Qed.
Lemma RemoveOldPasswordResets_safe : st_in safe RemoveOldPasswordResets.
Proof. intros c d a d' [= _ <-]. apply delete_resets_safe. Qed.
Lemma RemoveOldLoginLogs_safe : st_in safe RemoveOldLoginLogs.
Proof. intros c d a d' [= _ <-]. split; [keep_evolves|keep_wf]. Qed.
Lemma RemoveUnverifiedMFAFactors_safe : st_in safe RemoveUnverifiedMFAFactors.
Proof. intros c d a d'. apply delete_factors_safe. Qed.
Lemma RevokeExpiredSessions_safe : st_in safe RevokeExpiredSessions.
Proof.
  intros c d a d' [= _ <-]. apply update_sessions_safe; [|done]. intros s Hs.
  bool_to_prop. unfold session_evolves. simpl. split_and!; congruence.
Qed.
Lemma RevokeOldSessions_safe : st_in safe RevokeOldSessions.
Proof.
  intros c d a d' [= _ <-]. apply update_sessions_safe; [|done]. intros s Hs.
  bool_to_prop. unfold session_evolves. simpl. split_and!; congruence.
Qed.

(** ** Frames: what statements leave alone *)

(** The accounts, sessions and audit log of a store. *)
Definition changed (users' : list User) (sessions' : list Session) (audit : list AuditLog) (d : DB) : Prop :=
  users d = users' ∧ sessions d = sessions' ∧ audit_logs d = audit.

Lemma update_users_frame p f c d x d' :
  update_users p f c d = (Ok x, d') →
  ∃ l, changed (update p f (users d)) (sessions d) (l ++ audit_logs d)%list d'.
Proof.
  unfold update_users. destruct (List.existsb _ _); [done|].
  destruct (trigger_rows _ _ _ _) as [l|]; [|done]. intros [= _ <-]. by exists l.
Qed.

(** Accounts and sessions are as they were. *)
Definition untouched (d d' : DB) : Prop := users d' = users d ∧ sessions d' = sessions d.

Lemma update_identities_untouched p f : st_in untouched (update_identities p f).
Proof. intros c d a d'. unfold update_identities. destruct (trigger_rows _ _ _ _); [|done]. by intros [= _ <-]. Qed.
Lemma update_factors_untouched p f : st_in untouched (update_factors p f).
Proof.
  intros c d a d'. unfold update_factors. destruct (List.existsb _ _); [done|].
  destruct (trigger_rows _ _ _ _); [|done]. by intros [= _ <-].
Qed.
Lemma update_resets_untouched p f : st_in untouched (update_resets p f).
Proof. intros c d a d'. unfold update_resets. destruct (trigger_rows _ _ _ _); [|done]. by intros [= _ <-]. Qed.
Lemma insert_identity_untouched a b c d : st_in untouched (insert_identity a b c d).
Proof. intros x y z t. unfold insert_identity. destruct (checks _); [done|]. by intros [= _ <-]. Qed.
Lemma upsert_factor_untouched n f : st_in untouched (upsert_factor n f).
Proof.
  intros c d a d'. unfold upsert_factor. destruct (other_totp _ _); [done|].
  destruct (fetch_one _ _) as [m|].
  - destruct (update_factors _ _ _ _) as [[[]|] d1] eqn:E; [|done]. intros [= _ <-].
    exact (update_factors_untouched _ _ _ _ _ _ E).
  - destruct (checks _); [done|]. by intros [= _ <-].
Qed.
End statements.

#[export] Hint Resolve CreateUser_safe CreateSSOUser_safe CreateEmailAuth_safe CreateSSOIdentity_safe
  TouchUserLastLogin_safe SetUserRole_safe SetUserStatus_safe SoftDeleteUser_safe
  IncrementFailedLoginAttempts_safe LockAuthIdentity_safe ResetFailedLoginAttempts_safe
  UpdatePasswordHash_safe CreateRefreshSession_safe RevokeAllOtherUserSessions_safe
  RevokeAllUserSessions_safe RevokeSession_safe RotateRefreshSession_safe RecordLoginAttempt_safe
  CreatePasswordReset_safe MarkPasswordResetUsed_safe CreateMFARecoveryCode_safe
  DeleteMFARecoveryCodesByFactor_safe MarkMFARecoveryCodeUsed_safe DeleteOTPFactor_safe
  DeleteTOTPFactor_safe IncrementOTPFactorFailedAttempts_safe IncrementTOTPFailedAttempts_safe
  RecordOTPFactorSuccess_safe RecordTOTPSuccess_safe VerifyOTPFactor_safe VerifyTOTPFactor_safe
  UpsertPendingOTPFactor_safe UpsertPendingTOTPFactor_safe CreateWebAuthnCredential_safe
  DeleteWebAuthnCredential_safe RenameWebAuthnCredential_safe UpdateWebAuthnCredential_safe
  CreateAuditLog_safe RemoveExpiredPasswordResets_safe RemoveOldPasswordResets_safe
  RemoveOldLoginLogs_safe RemoveUnverifiedMFAFactors_safe RevokeExpiredSessions_safe
  RevokeOldSessions_safe : tracks.
