(* ===== verification/Password.v ===== *)
(** * internal/auth/password.go, hash.go: peppers and PHC password hashes

    The pepper set, hashing a password into a PHC string, verifying one against
    it, and the decision to rehash.  Argon2id and SHA-256 are parameters; every
    evaluation of Argon2id counts as one [burn] of the world, which is how the
    cost of a code path is observed. *)

From S2P Require Import Prelude.
From S2P Require Import GoLib.
From S2P Require Import Encoding.
From S2P Require Import Utils.
From S2P Require Import Model.
From S2P Require Import Runtime.

#[local] Open Scope string_scope.
#[local] Open Scope Z_scope.
#[local] Open Scope go_scope.

(** [golang.org/x/crypto/argon2] and [crypto/sha256]: [argon2_IDKey password salt
    time memory threads keyLen]. *)
Class HashLib := {
  argon2_IDKey : string → string → N → N → N → N → string;
  sha256_Sum256 : string → string
}.

(** Documented behaviour: a derived key has the length asked for, a digest 32
    bytes. *)
Class HashLaws (H : HashLib) := {
  argon2_length : ∀ p s t m th k, String.length (argon2_IDKey p s t m th k) = N.to_nat k;
  sha256_length : ∀ s, String.length (sha256_Sum256 s) = 32%nat
}.

(** ** Pepper managers *)

Record StaticPepperManager := mkStaticPepperManager {
  pm_activeID : string;
  pm_peppers : gmap string string
}.

Definition ActiveID (m : StaticPepperManager) : string := pm_activeID m.
Definition All (m : StaticPepperManager) : gmap string string := pm_peppers m.
Definition GetPepper (id : string) (m : StaticPepperManager) : option string := pm_peppers m !! id.
Definition ActivePepper (m : StaticPepperManager) : res string :=
  match pm_peppers m !! pm_activeID m with
  | Some p => Ok p
  | None => Err (ErrMsg "active pepper id not found")
  end.

(** The loop over the comma-separated entries. *)
Fixpoint parse_peppers (parts : list string) (acc : gmap string string) : res (gmap string string) :=
  match parts with
  | [] => Ok acc
  | part :: parts =>
      let part := TrimSpace part in
      if String.eqb part "" then parse_peppers parts acc
      else match Cut part ":" with
           | None => Err (ErrMsg "invalid pepper entry")
           | Some (id, b64) =>
               match StdEncoding_DecodeString (TrimSpace b64) with
               | None => Err (ErrMsg "decode pepper")
               | Some data =>
                   if len data <? 16 then Err (ErrMsg "pepper too short")
                   else parse_peppers parts (<[TrimSpace id := data]> acc)
               end
           end
  end.

Definition NewStaticPepperManager (raw active : string) : res StaticPepperManager :=
  if String.eqb raw "" || String.eqb active "" then
    Err (ErrMsg "PASSWORD_PEPPERS or ACTIVE_PEPPER_ID missing")
  else
    match parse_peppers (Split raw ",") ∅ with
    | Err err => Err err
    | Ok peppers =>
        match peppers !! active with
        | None => Err (ErrMsg "active pepper id not present")
        | Some _ => Ok (mkStaticPepperManager active peppers)
        end
    end.

(** The once-cached parse: the configuration never changes. *)
Definition ActivePepperManager : Go (res StaticPepperManager) :=
  cfg <- get_cfg ;;
  ret (NewStaticPepperManager (cfg_PasswordPeppersRaw cfg) (cfg_ActivePepperID cfg)).

(** ** PHC strings *)

Definition argonTime : N := 2.
Definition argonMemory : N := 128 * 1024.
Definition argonThreads : N := 4.
Definition saltLen : nat := 16.
Definition keyLen : N := 32.

Section password.
Context `{HL : HashLib}.

(** [argon2.IDKey], an observable amount of work. *)
Definition IDKey (password salt : string) (t m p k : N) : Go string :=
  burn ;;; ret (argon2_IDKey password salt t m p k).

Definition HashOpaqueToken (tok : string) : string :=
  RawURLEncoding_EncodeToString (sha256_Sum256 tok).

Definition format_phc (m t p : N) (id salt key : string) : string :=
  "$argon2id$v=19$m=" ++ print_nat m ++ ",t=" ++ print_nat t ++ ",p=" ++ print_nat p
  ++ ",pepper=" ++ id ++ "$" ++ RawStdEncoding_EncodeToString salt
  ++ "$" ++ RawStdEncoding_EncodeToString key.

Definition randomSalt (n : nat) : Go (res string) := rand_read n.

Definition HashPasswordPHC (password : string) : Go (res string) :=
  pm <- ActivePepperManager ;;
  match pm with
  | Err err => ret (Err err)
  | Ok pm =>
      if negb (IsValidPassword password) then ret (Err (ErrMsg "invalid password"))
      else match ActivePepper pm with
           | Err err => ret (Err err)
           | Ok pepper =>
               salt <- randomSalt saltLen ;;
               match salt with
               | Err err => ret (Err err)
               | Ok salt =>
                   key <- IDKey (password ++ pepper) salt argonTime argonMemory argonThreads keyLen ;;
                   ret (Ok (format_phc argonMemory argonTime argonThreads (ActiveID pm) salt key))
               end
           end
  end.

(** The parameters read from the fourth field. *)
Record phc_params := mkPhcParams { pp_mem : N; pp_time : N; pp_threads : N; pp_pepper : string }.
Definition no_params : phc_params := mkPhcParams 0 0 0 "".

(** One [key=value] item; a scan that fails leaves its variable unchanged. *)
Definition scan_param (kv : string) (p : phc_params) : phc_params :=
  if HasPrefix kv "m=" then
    mkPhcParams (default (pp_mem p) (sscanf_uint "m=" 32 kv)) (pp_time p) (pp_threads p) (pp_pepper p)
  else if HasPrefix kv "t=" then
    mkPhcParams (pp_mem p) (default (pp_time p) (sscanf_uint "t=" 32 kv)) (pp_threads p) (pp_pepper p)
  else if HasPrefix kv "p=" then
    mkPhcParams (pp_mem p) (pp_time p) (default (pp_threads p) (sscanf_uint "p=" 8 kv)) (pp_pepper p)
  else if HasPrefix kv "pepper=" then
    mkPhcParams (pp_mem p) (pp_time p) (pp_threads p) (default (pp_pepper p) (sscanf_string "pepper=" kv))
  else p.

Definition scan_params (kvs : list string) : phc_params :=
  List.fold_left (λ p kv, scan_param kv p) kvs no_params.

(** The pepper loop of migration mode; the iteration order of a Go map is
    unspecified, [map_to_list] fixes one. *)
Fixpoint try_peppers (peps : list (string * string)) (password salt want : string) (p : phc_params) : Go bool :=
  match peps with
  | [] => ret false
  | (_, pep) :: peps =>
      got <- IDKey (password ++ pep) salt (pp_time p) (pp_mem p) (pp_threads p)
               (N.of_nat (String.length want)) ;;
      if String.eqb got want then ret true else try_peppers peps password salt want p
  end.

Definition VerifyPasswordPHC (password phc : string) (tryAllIfMissing : bool) : Go (res bool) :=
  pm <- ActivePepperManager ;;
  match pm with
  | Err _ => ret (Err (ErrMsg "could not create pepper manager"))
  | Ok pm =>
      match Split phc "$" with
      | [_; algo; _; params; salt; key] =>
          if negb (String.eqb algo "argon2id") then ret (Err (ErrMsg "invalid PHC format"))
          else
            let p := scan_params (List.map TrimSpace (Split params ",")) in
            if (pp_mem p =? 0)%N || (pp_time p =? 0)%N || (pp_threads p =? 0)%N then
              ret (Err (ErrMsg "missing argon params"))
            else match RawStdEncoding_DecodeString salt with
                 | None => ret (Err (ErrMsg "decode salt"))
                 | Some salt =>
                     match RawStdEncoding_DecodeString key with
                     | None => ret (Err (ErrMsg "decode key"))
                     | Some want =>
                         match GetPepper (pp_pepper p) pm with
                         | Some pep =>
                             got <- IDKey (password ++ pep) salt (pp_time p) (pp_mem p) (pp_threads p)
                                      (N.of_nat (String.length want)) ;;
                             ret (Ok (String.eqb got want))
                         | None =>
                             if tryAllIfMissing then
                               ok <- try_peppers (map_to_list (All pm)) password salt want p ;;
                               ret (Ok ok)
                             else ret (Ok false)
                         end
                     end
                 end
      | _ => ret (Err (ErrMsg "invalid PHC format"))
      end
  end.

Definition dummyPHC : string :=
  "$argon2id$v=19$m=131072,t=2,p=4,pepper=dummy$AAAAAAAAAAAAAAAAAAAAAA$AAAAAAAAAAAAAAAAAAAAAAAAAAAAAAAAAAAAAAAAAAA".

(** [parts[i]] panics out of range; a failed decode is ignored and leaves what
    was decoded. *)
Definition VerifyDummyPassword (password : string) : Go unit :=
  match Split dummyPHC "$" with
  | _ :: _ :: _ :: _ :: p4 :: p5 :: _ =>
      let salt := default "" (RawStdEncoding_DecodeString p4) in
      let want := default "" (RawStdEncoding_DecodeString p5) in
      got <- IDKey (password ++ "dummy-pepper-value") salt argonTime argonMemory argonThreads
               (N.of_nat (String.length want)) ;;
      ret tt
  | _ => panic
  end.

(** The parameter loop of [ShouldRehash]: items are not trimmed here. *)
Definition ShouldRehash (phc : string) (pm : StaticPepperManager) : bool :=
  match Split phc "$" with
  | [_; algo; _; params; _; _] =>
      if negb (String.eqb algo "argon2id") then true
      else
        let p := scan_params (Split params ",") in
        if negb (pp_mem p =? argonMemory)%N || negb (pp_time p =? argonTime)%N
           || negb (pp_threads p =? argonThreads)%N then true
        else negb (String.eqb (pp_pepper p) (ActiveID pm))
  | _ => true
  end.

Definition ShouldRehashActive (phc : string) : Go (res bool) :=
  pm <- ActivePepperManager ;;
  match pm with
  | Err err => ret (Err err)
  | Ok pm => ret (Ok (ShouldRehash phc pm))
  end.
End password.

(** ** What the definitions compute *)

Fixpoint burn_n (k : nat) (w : World) : World :=
  match k with O => w | S k => burn_n k (burn_one w) end.

Lemma burn_n_argon k w : w_argon (burn_n k w) = (k + w_argon w)%nat.
Proof. revert w. induction k as [|k IH]; intros w; simpl; [done|]. rewrite IH. simpl. lia. Qed.

Lemma burn_n_eq k w :
  burn_n k w = mkWorld (w_db w) (w_redis w) (w_tx w) (w_mail w) (k + w_argon w) (w_tick w).
Proof.
  revert w. induction k as [|k IH]; intros w; simpl; [by destruct w|].
  rewrite IH. simpl. f_equal. lia.
Qed.

Section spec.
Context `{HL : HashLib}.

(** The candidates a PHC string is checked against, in order: the pepper it
    names, or in migration mode every pepper. *)
Definition candidates (pm : StaticPepperManager) (id : string) (tryAll : bool) : list string :=
  match GetPepper id pm with
  | Some pep => [pep]
  | None => if tryAll then List.map snd (map_to_list (All pm)) else []
  end.

Definition phc_matches (password salt want : string) (p : phc_params) (pep : string) : bool :=
  String.eqb (argon2_IDKey (password ++ pep) salt (pp_time p) (pp_mem p) (pp_threads p)
                (N.of_nat (String.length want))) want.

(** The verdict of a check and the number of Argon2id evaluations it takes. *)
Fixpoint first_match (f : string → bool) (l : list string) : bool * nat :=
  match l with
  | [] => (false, O)
  | x :: l => if f x then (true, 1%nat) else let '(b, n) := first_match f l in (b, S n)
  end.

Definition phc_check (cfg : Config) (password phc : string) (tryAll : bool) : res bool * nat :=
  match NewStaticPepperManager (cfg_PasswordPeppersRaw cfg) (cfg_ActivePepperID cfg) with
  | Err _ => (Err (ErrMsg "could not create pepper manager"), O)
  | Ok pm =>
      match Split phc "$" with
      | [_; algo; _; params; salt; key] =>
          if negb (String.eqb algo "argon2id") then (Err (ErrMsg "invalid PHC format"), O)
          else
            let p := scan_params (List.map TrimSpace (Split params ",")) in
            if (pp_mem p =? 0)%N || (pp_time p =? 0)%N || (pp_threads p =? 0)%N then
              (Err (ErrMsg "missing argon params"), O)
            else match RawStdEncoding_DecodeString salt, RawStdEncoding_DecodeString key with
                 | None, _ => (Err (ErrMsg "decode salt"), O)
                 | _, None => (Err (ErrMsg "decode key"), O)
                 | Some salt, Some want =>
                     let '(b, n) := first_match (phc_matches password salt want p)
                                      (candidates pm (pp_pepper p) tryAll) in
                     (Ok b, n)
                 end
      | _ => (Err (ErrMsg "invalid PHC format"), O)
      end
  end.

Lemma try_peppers_spec peps password salt want p e w :
  try_peppers peps password salt want p e w =
    (let '(b, n) := first_match (phc_matches password salt want p) (List.map snd peps) in
     (Some b, burn_n n w)).
Proof.
  revert w. induction peps as [|[id pep] peps IH]; intros w; [done|].
  cbn [try_peppers List.map snd first_match]. unfold IDKey, bind, burn, ret.
  fold (phc_matches password salt want p pep).
  destruct (phc_matches password salt want p pep); [done|]. rewrite IH.
  by destruct (first_match _ _).
Qed.

(** [VerifyPasswordPHC] is [phc_check], at its cost, and touches nothing else. *)
Lemma VerifyPasswordPHC_spec password phc tryAll e w :
  VerifyPasswordPHC password phc tryAll e w =
    (let '(r, n) := phc_check (e_cfg e) password phc tryAll in (Some r, burn_n n w)).
Proof.
  unfold VerifyPasswordPHC, ActivePepperManager, phc_check, bind, get_cfg.
  destruct (NewStaticPepperManager _ _) as [pm|]; [|done]. simpl.
  destruct (Split phc "$") as [|x0 [|x1 [|x2 [|x3 [|x4 [|x5 [|]]]]]]]; try done.
  destruct (negb _); [done|]. destruct (_ || _); [done|].
  destruct (RawStdEncoding_DecodeString x4) as [salt|]; [|done].
  destruct (RawStdEncoding_DecodeString x5) as [want|]; [|done].
  unfold candidates. destruct (GetPepper _ pm) as [pep|].
  - simpl. unfold IDKey, bind, burn, ret. unfold phc_matches. by destruct (String.eqb _ want).
  - destruct tryAll; [|done]. rewrite try_peppers_spec. by destruct (first_match _ _).
Qed.

Lemma VerifyDummyPassword_spec password e w :
  VerifyDummyPassword password e w = (Some tt, burn_one w).
Proof. reflexivity. Qed.
End spec.

(** ** The PHC round trip *)

Definition safe_pepper_id (id : string) : bool :=
  negb (String.eqb id "") && string_forall is_graphic id && lacks "$" id && lacks "," id.

Lemma digits_lack (c : ascii) s : is_digit c = false → string_forall is_digit s = true → lacks c s = true.
Proof.
  intros Hc. apply string_forall_impl. intros x Hx.
  destruct (Ascii.eqb_spec x c) as [->|]; [congruence|done].
Qed.

Lemma b64_lacks_dollar s : lacks "$" (RawStdEncoding_EncodeToString s) = true.
Proof.
  unfold lacks. pose proof (b64_encode_safe std_alphabet s (or_introl eq_refl)) as H.
  revert H. apply string_forall_impl. intros c. destruct c as [[] [] [] [] [] [] [] []]; by vm_compute.
Qed.

Definition phc_param_text (m t p : N) (id : string) : string :=
  "m=" ++ print_nat m ++ String "," ("t=" ++ print_nat t ++ String "," ("p=" ++ print_nat p
    ++ String "," ("pepper=" ++ id))).

Lemma lacks_cons c a s : lacks c (String a s) = negb (Ascii.eqb a c) && lacks c s.
Proof. reflexivity. Qed.

Lemma phc_param_text_lacks m t p id :
  lacks "$" id = true → lacks "$" (phc_param_text m t p id) = true.
Proof.
  intros Hid. unfold phc_param_text. simpl String.append.
  rewrite !lacks_cons, !lacks_app, !lacks_cons, !lacks_app, !lacks_cons, !lacks_app, !lacks_cons, Hid.
  rewrite !(digits_lack "$") by (done || apply print_nat_digits). done.
Qed.

Lemma split_phc m t p id salt key :
  lacks "$" id = true →
  Split (format_phc m t p id salt key) "$"
  = [""; "argon2id"; "v=19"; phc_param_text m t p id;
     RawStdEncoding_EncodeToString salt; RawStdEncoding_EncodeToString key].
Proof.
  intros Hid. unfold format_phc.
  set (s := RawStdEncoding_EncodeToString salt). set (k := RawStdEncoding_EncodeToString key).
  assert ("$argon2id$v=19$m=" ++ print_nat m ++ ",t=" ++ print_nat t ++ ",p=" ++ print_nat p
          ++ ",pepper=" ++ id ++ "$" ++ s ++ "$" ++ k
          = "" ++ String "$" ("argon2id" ++ String "$" ("v=19" ++ String "$"
              (phc_param_text m t p id ++ String "$" (s ++ String "$" k))))) as ->.
  { unfold phc_param_text. simpl. rewrite !string_app_assoc. simpl.
    rewrite !string_app_assoc. simpl. by rewrite !string_app_assoc. }
  rewrite !Split_app by (done || apply b64_lacks_dollar || by apply phc_param_text_lacks).
  by rewrite Split_lacks by apply b64_lacks_dollar.
Qed.

Lemma split_phc_params m t p id :
  lacks "," id = true →
  Split (phc_param_text m t p id) ","
  = ["m=" ++ print_nat m; "t=" ++ print_nat t; "p=" ++ print_nat p; "pepper=" ++ id].
Proof.
  intros Hid. unfold phc_param_text. rewrite <- !string_app_assoc.
  assert (∀ k n, lacks "," k = true → lacks "," (k ++ print_nat n) = true) as Hl.
  { intros k n Hk. rewrite lacks_app, Hk. by apply digits_lack, print_nat_digits. }
  rewrite !Split_app by by apply Hl. rewrite Split_lacks; [done|]. by rewrite lacks_app, Hid.
Qed.

Lemma digits_graphic s : string_forall is_digit s = true → string_forall is_graphic s = true.
Proof. apply string_forall_impl. intros c. destruct c as [[] [] [] [] [] [] [] []]; by vm_compute. Qed.

(** The fields of a PHC string written by [format_phc] read back. *)
Lemma scan_params_text m t p id :
  safe_pepper_id id = true → Z.of_N m < 2 ^ 32 → Z.of_N t < 2 ^ 32 → Z.of_N p < 2 ^ 8 →
  scan_params (Split (phc_param_text m t p id) ",") = mkPhcParams m t p id.
Proof.
  unfold safe_pepper_id. intros Hid Hm Ht Hp. bool_to_prop. rewrite split_phc_params by done.
  unfold scan_params. cbn [List.fold_left]. unfold scan_param, HasPrefix.
  rewrite !drop_prefix_app, !sscanf_uint_print, sscanf_string_graphic by done. reflexivity.
Qed.

Lemma trim_params_text m t p id :
  safe_pepper_id id = true →
  List.map TrimSpace (Split (phc_param_text m t p id) ",") = Split (phc_param_text m t p id) ",".
Proof.
  unfold safe_pepper_id. intros Hid. bool_to_prop. rewrite split_phc_params by done.
  assert (∀ k n, string_forall is_graphic k = true → TrimSpace (k ++ print_nat n) = k ++ print_nat n) as Htrim.
  { intros k n Hk. apply TrimSpace_graphic. rewrite string_forall_app, Hk.
    apply digits_graphic, print_nat_digits. }
  cbn [List.map]. rewrite !Htrim by done.
  by rewrite (TrimSpace_graphic ("pepper=" ++ id)) by (by rewrite string_forall_app).
Qed.

Section roundtrip.
Context `{HL : HashLib}.

Lemma NewStaticPepperManager_active raw active pm :
  NewStaticPepperManager raw active = Ok pm →
  pm_activeID pm = active ∧ ∃ pep, pm_peppers pm !! active = Some pep.
Proof.
  unfold NewStaticPepperManager. destruct (_ || _); [done|].
  destruct (parse_peppers _ _) as [m|]; [|done]. destruct (m !! active) eqn:E; [|done].
  intros [= <-]. simpl. eauto.
Qed.

(** The successful runs of [HashPasswordPHC]. *)
Lemma HashPasswordPHC_Ok password e w phc :
  result (HashPasswordPHC password) e w = Some (Ok phc) →
  ∃ pm pep salt,
    NewStaticPepperManager (cfg_PasswordPeppersRaw (e_cfg e)) (cfg_ActivePepperID (e_cfg e)) = Ok pm
    ∧ ActivePepper pm = Ok pep ∧ IsValidPassword password = true
    ∧ e_rand_read e (w_tick w) saltLen = Some salt
    ∧ phc = format_phc argonMemory argonTime argonThreads (ActiveID pm) salt
              (argon2_IDKey (password ++ pep) salt argonTime argonMemory argonThreads keyLen).
Proof.
  unfold result, HashPasswordPHC, ActivePepperManager, bind, get_cfg, ret, randomSalt, rand_read, IDKey, burn.
  destruct (NewStaticPepperManager _ _) as [pm|]; [|done]. simpl.
  destruct (IsValidPassword password); [|done]. simpl.
  destruct (ActivePepper pm) as [pep|] eqn:Ep; [|done]. simpl.
  destruct (e_rand_read e (w_tick w) saltLen) as [salt|] eqn:E; [|done].
  intros [= <-]. by exists pm, pep, salt.
Qed.

(** How a check reads a hash written under a known pepper. *)
Lemma phc_check_format cfg pm pep id salt key pw b :
  NewStaticPepperManager (cfg_PasswordPeppersRaw cfg) (cfg_ActivePepperID cfg) = Ok pm →
  GetPepper id pm = Some pep → safe_pepper_id id = true →
  phc_check cfg pw (format_phc argonMemory argonTime argonThreads id salt key) b =
    (Ok (String.eqb (argon2_IDKey (pw ++ pep) salt argonTime argonMemory argonThreads
                       (N.of_nat (String.length key))) key), 1%nat).
Proof.
  intros Hpm Hpep Hid. unfold phc_check. rewrite Hpm, split_phc.
  2:{ unfold safe_pepper_id in Hid. by bool_to_prop. }
  rewrite trim_params_text, scan_params_text by done. cbn [negb String.eqb].
  rewrite !RawStd_roundtrip. unfold candidates, phc_matches.
  cbn [pp_mem pp_time pp_threads pp_pepper]. rewrite Hpep. cbn. by destruct (String.eqb _ _).
Qed.
End roundtrip.
