(* ===== verification/Tokens.v ===== *)
(** * internal/auth/jwt.go and session.go: access, refresh and temporary tokens

    The signed tokens come from a JWT library ([JwtLib]); that a token is still
    honoured is a Redis key: [session:<id>] for an access token,
    [temporary_session:<id>] for a temporary one, [refresh:<id>] for the hash of
    a refresh token. *)

From S2P Require Import Prelude.
From S2P Require Import GoLib.
From S2P Require Import Encoding.
From S2P Require Import Model.
From S2P Require Import Runtime.
From S2P Require Import Queries.
From S2P Require Import Password.

#[local] Open Scope string_scope.
#[local] Open Scope Z_scope.
#[local] Open Scope go_scope.

(** ** The JWT library ([github.com/golang-jwt/jwt/v5]) *)

(** The parser options the service passes. *)
Record ParserOpts := mkParserOpts {
  WithIssuer : option string;
  WithAudience : option string;
  WithExpirationRequired : bool;
  WithoutClaimsValidation : bool
}.

(** [jwt_ParseWithClaims now keyFunc opts token]; the key function gets the
    signing method the token's header names. *)
Class JwtLib := {
  jwt_NewNumericDate : Z → Z;
  jwt_SignedString : string → string → JWTClaims → res string;
  jwt_ParseWithClaims : Z → (string → res string) → ParserOpts → string → res JWTClaims
}.

(** Documented behaviour.  Parsing validates the registered claims its options
    name; a signed token carries the claims it was signed with, and parses back
    under a key function that yields the matching key. *)
Definition claims_valid (now : Z) (o : ParserOpts) (c : JWTClaims) : Prop :=
  (∀ iss, WithIssuer o = Some iss → jc_Issuer c = iss)
  ∧ (∀ aud, WithAudience o = Some aud → aud ∈ jc_Audience c)
  ∧ (WithExpirationRequired o = true → is_Some (jc_ExpiresAt c))
  ∧ (∀ x, jc_ExpiresAt c = Some x → now < x)
  ∧ (∀ x, jc_NotBefore c = Some x → x ≤ now).

Class JwtLaws (J : JwtLib) := {
  jwt_parse_validates : ∀ now kf o tok c,
    jwt_ParseWithClaims now kf o tok = Ok c → WithoutClaimsValidation o = false →
    claims_valid now o c;
  jwt_parse_signed : ∀ alg key c tok now kf o c',
    jwt_SignedString alg key c = Ok tok →
    jwt_ParseWithClaims now kf o tok = Ok c' → c' = c
}.

(** ** session.go *)

Section session.

Definition IsValidSession (sessionID : string) (exp : Z) : Go bool :=
  t <- now ;;
  nil <- redis_is_nil ;;
  if (exp <? t) || nil then ret false
  else r <- redis_Exists ("session:" ++ sessionID) ;;
       match r with
       | Err _ => ret false
       | Ok exists_ => ret (exists_ =? 1)
       end.

Definition IsValidTemporarySession (sessionID : string) (exp : Z) : Go bool :=
  t <- now ;;
  nil <- redis_is_nil ;;
  if (exp <? t) || nil then ret false
  else r <- redis_Exists ("temporary_session:" ++ sessionID) ;;
       match r with
       | Err _ => ret false
       | Ok exists_ => ret (exists_ =? 1)
       end.

Definition GenerateSession (sessionID : string) (exp : Z) : Go (res unit) :=
  nil <- redis_is_nil ;;
  if nil then ret (Err (ErrMsg "redis client is nil"))
  else t <- now ;;
       let ttl := exp - t in
       if ttl <=? 0 then ret (Ok ())
       else redis_Set ("session:" ++ sessionID) (RStr "1") ttl.

Definition GenerateTemporarySession (sessionID : string) (exp : Z) : Go (res unit) :=
  nil <- redis_is_nil ;;
  if nil then ret (Err (ErrMsg "redis client is nil"))
  else t <- now ;;
       let ttl := exp - t in
       if ttl <=? 0 then ret (Ok ())
       else redis_Set ("temporary_session:" ++ sessionID) (RStr "1") ttl.

Definition DeleteTemporarySession (sessionID : string) : Go (res unit) :=
  nil <- redis_is_nil ;;
  if nil then ret (Err (ErrMsg "redis client is nil"))
  else redis_Del ["temporary_session:" ++ sessionID].

Definition DeleteSession (sessionID : string) : Go (res unit) :=
  nil <- redis_is_nil ;;
  if nil then ret (Err (ErrMsg "redis client is nil"))
  else redis_Del ["session:" ++ sessionID; "refresh:" ++ sessionID].
End session.

(** ** jwt.go *)

Definition jwtIssuer : string := "auth-api".
Definition jwtAudience : string := "auth-app".

Record TokenPair := mkTokenPair {
  tp_AccessToken : string;
  tp_RefreshToken : string;
  tp_SessionID : string;
  tp_AccessExp : Z;
  tp_RefreshExp : Z
}.

Section jwt.
Context `{HL : HashLib} `{JL : JwtLib} `{UL : UuidLib}.

Definition RandomToken (n : nat) : Go (res string) :=
  b <- rand_read n ;;
  match b with
  | Err err => ret (Err err)
  | Ok b => ret (Ok (RawURLEncoding_EncodeToString b))
  end.

Definition access_claims (sessionID userID username role : string) (now exp : Z) : JWTClaims :=
  mkJWTClaims userID username role userID jwtIssuer [jwtAudience] sessionID
    (Some (jwt_NewNumericDate exp)) (Some (jwt_NewNumericDate now))
    (Some (jwt_NewNumericDate (now - 5 * Second))).

Definition generateAccessJWT (sessionID userID username role : string) (ttl : Z) : Go (res (string * Z)) :=
  now <- now ;;
  let exp := now + ttl in
  let claims := access_claims sessionID userID username role now exp in
  r <- GenerateSession sessionID exp ;;
  match r with
  | Err err => ret (Err err)
  | Ok _ =>
      cfg <- get_cfg ;;
      match jwt_SignedString (cfg_JWTAlgorithm cfg) (cfg_JWTPrivateKey cfg) claims with
      | Err err => ret (Err err)
      | Ok signed => ret (Ok (signed, exp))
      end
  end.

Definition generateAndStoreRefresh (sessionID : string) (ttl : Z) : Go (res (string * Z)) :=
  nil <- redis_is_nil ;;
  if nil then ret (Err (ErrMsg "redis client is nil"))
  else
    raw <- RandomToken 32 ;;
    match raw with
    | Err err => ret (Err err)
    | Ok raw =>
        let hash := HashOpaqueToken raw in
        t <- now ;;
        let exp := t + ttl in
        t' <- now ;;
        r <- redis_Set ("refresh:" ++ sessionID) (RStr hash) (exp - t') ;;
        match r with
        | Err err => ret (Err err)
        | Ok _ => ret (Ok (raw, exp))
        end
    end.

Definition RotateSessionTokens (sessionID userID username role : string) (accessTTL refreshTTL : Z)
    : Go (res TokenPair) :=
  a <- generateAccessJWT sessionID userID username role accessTTL ;;
  match a with
  | Err err => ret (Err err)
  | Ok (access, accessExp) =>
      r <- generateAndStoreRefresh sessionID refreshTTL ;;
      match r with
      | Err err => ret (Err err)
      | Ok (refresh, refreshExp) =>
          ret (Ok (mkTokenPair access refresh sessionID accessExp refreshExp))
      end
  end.

Definition GenerateUserTokens (userID username role : string) (accessTTL refreshTTL : Z)
    : Go (res TokenPair) :=
  id <- new_uuid ;;
  let sessionID := uuid_String id in
  a <- generateAccessJWT sessionID userID username role accessTTL ;;
  match a with
  | Err err => ret (Err err)
  | Ok (access, accessExp) =>
      r <- generateAndStoreRefresh sessionID refreshTTL ;;
      match r with
      | Err err => ret (Err err)
      | Ok (refresh, refreshExp) =>
          ret (Ok (mkTokenPair access refresh sessionID accessExp refreshExp))
      end
  end.

Definition temporary_claims (sessionID subject role : string) (now exp : Z) : JWTClaims :=
  mkJWTClaims "" "" role subject jwtIssuer [jwtAudience] sessionID
    (Some (jwt_NewNumericDate exp)) (Some (jwt_NewNumericDate now))
    (Some (jwt_NewNumericDate (now - 5 * Second))).

Definition GenerateTemporaryJWT (subject role : string) (ttl : Z) : Go (res string) :=
  id <- new_uuid ;;
  let sessionID := uuid_String id in
  now <- now ;;
  let exp := now + ttl in
  let claims := temporary_claims sessionID subject role now exp in
  r <- GenerateTemporarySession sessionID exp ;;
  match r with
  | Err err => ret (Err err)
  | Ok _ =>
      cfg <- get_cfg ;;
      ret (jwt_SignedString (cfg_JWTAlgorithm cfg) (cfg_JWTPrivateKey cfg) claims)
  end.

Definition keyFunc (cfg : Config) (method : string) : res string :=
  if negb (String.eqb method (cfg_JWTAlgorithm cfg)) then Err (ErrMsg "unexpected signing method")
  else Ok (cfg_JWTPublicKey cfg).

Fixpoint has_audience (auds : list string) (want : string) : bool :=
  match auds with
  | [] => false
  | aud :: auds => if String.eqb aud want then true else has_audience auds want
  end.
Definition hasAudience (claims : JWTClaims) (want : string) : bool :=
  has_audience (jc_Audience claims) want.

Definition parseJWT (authHeader : string) (allowExpired : bool) : Go (res JWTClaims) :=
  if String.eqb authHeader "" || negb (HasPrefix authHeader "Bearer ") then
    ret (Err (ErrMsg "missing or malformed Authorization header"))
  else
    let tokenStr := TrimPrefix authHeader "Bearer " in
    cfg <- get_cfg ;;
    t <- now ;;
    if negb allowExpired then
      match jwt_ParseWithClaims t (keyFunc cfg)
              (mkParserOpts (Some jwtIssuer) (Some jwtAudience) true false) tokenStr with
      | Err _ => ret (Err (ErrMsg "invalid token"))
      | Ok claims => ret (Ok claims)
      end
    else
      match jwt_ParseWithClaims t (keyFunc cfg) (mkParserOpts None None false true) tokenStr with
      | Err _ => ret (Err (ErrMsg "invalid token"))
      | Ok claims =>
          if negb (String.eqb (jc_Issuer claims) jwtIssuer) then ret (Err (ErrMsg "invalid issuer"))
          else if negb (hasAudience claims jwtAudience) then ret (Err (ErrMsg "invalid audience"))
          else match jc_ExpiresAt claims with
               | None => ret (Err (ErrMsg "missing expiration claim"))
               | Some _ =>
                   match jc_NotBefore claims with
                   | None => ret (Ok claims)
                   | Some nbf =>
                       t <- now ;;
                       if t <? nbf then ret (Err (ErrMsg "token not yet valid"))
                       else ret (Ok claims)
                   end
               end
      end.

(** [claims.ExpiresAt.Time] dereferences a nil pointer when the claim is absent. *)
Definition VerifyAndParseJWT (authHeader : string) : Go (res UserContext) :=
  r <- parseJWT authHeader false ;;
  match r with
  | Err err => ret (Err err)
  | Ok claims =>
      if String.eqb (jc_UserID claims) "" || String.eqb (jc_ID claims) ""
         || String.eqb (jc_Role claims) RoleJoiner then
        ret (Err (ErrMsg "invalid claims"))
      else match jc_ExpiresAt claims with
           | None => panic
           | Some exp =>
               ok <- IsValidSession (jc_ID claims) exp ;;
               if negb ok then ret (Err (ErrMsg "session expired or invalid"))
               else ret (Ok (mkUserContext (jc_UserID claims) (jc_Username claims) (jc_ID claims)
                               (jc_Role claims)))
           end
  end.

Definition VerifyAndParseTemporaryJWT (authHeader wantRole : string) : Go (res (string * string)) :=
  r <- parseJWT authHeader false ;;
  match r with
  | Err err => ret (Err err)
  | Ok claims =>
      if String.eqb (jc_Subject claims) "" || String.eqb (jc_ID claims) ""
         || negb (String.eqb (jc_Role claims) wantRole) then
        ret (Err (ErrMsg "invalid claims"))
      else match jc_ExpiresAt claims with
           | None => panic
           | Some exp =>
               ok <- IsValidTemporarySession (jc_ID claims) exp ;;
               if negb ok then ret (Err (ErrMsg "session is expired or invalid"))
               else ret (Ok (jc_Subject claims, jc_ID claims))
           end
  end.

Definition VerifyAndParseExpiredJWT (authHeader : string) : Go (res (string * string)) :=
  r <- parseJWT authHeader true ;;
  match r with
  | Err err => ret (Err err)
  | Ok claims =>
      if String.eqb (jc_UserID claims) "" || String.eqb (jc_ID claims) ""
         || String.eqb (jc_Role claims) RoleJoiner then
        ret (Err (ErrMsg "invalid claims"))
      else ret (Ok (jc_ID claims, jc_UserID claims))
  end.
End jwt.
