(* ===== verification/Emails.v ===== *)
(** * The mails: internal/emailer

    The two templates, embedded in the binary, and what [html/template] makes of
    them: the escaping it puts into every field, after the context the field
    stands in, and the execution of the result.  [Codes] sends the mails. *)

From S2P Require Import Prelude.
From S2P Require Import GoLib.
From S2P Require Import Encoding.

#[local] Open Scope string_scope.
#[local] Open Scope Z_scope.

(** ** html/template *)

(** A field in element text, or in a quoted attribute that holds a URL. *)
Inductive context := InText | InURLAttr.

(** A parsed template. *)
Inductive template :=
  | TEnd
  | TText (s : string) (k : template)
  | TField (c : context) (name : string) (k : template)
  | TIf (name : string) (yes no k : template).

(** The values of the data's fields. *)
Inductive fieldval := FString (s : string) | FInt (z : Z).

Definition print_int (z : Z) : string :=
  if z <? 0 then "-" ++ print_nat (Z.to_N (- z)) else print_nat (Z.to_N z).
Definition print_field (v : fieldval) : string := match v with FString s => s | FInt z => print_int z end.
Definition truth (v : fieldval) : bool := match v with FString s => negb (String.eqb s "") | FInt z => negb (z =? 0) end.

(** [htmlReplacementTable]: NUL becomes U+FFFD. *)
Definition html_char (c : ascii) : string :=
  match N_of_ascii c with
  | 0%N => bytes [239; 191; 189]%nat
  | 34%N => "&#34;" | 38%N => "&amp;" | 39%N => "&#39;" | 43%N => "&#43;" | 60%N => "&lt;" | 62%N => "&gt;"
  | _ => String c ""
  end.
Fixpoint htmlReplacer (s : string) : string :=
  match s with "" => "" | String c s => html_char c ++ htmlReplacer s end.

(** [isSafeURL]: the scheme, if there is one, is http, https or mailto; folding
    the case also takes U+017F for an s. *)
Fixpoint fold_long_s (s : string) : string :=
  match s with
  | String "197" (String "191" s) => String "s" (fold_long_s s)
  | String c s => String (lower_char c) (fold_long_s s)
  | "" => ""
  end.
Definition isSafeURL (s : string) : bool :=
  match Cut s ":" with
  | Some (protocol, _) =>
      negb (lacks "/" protocol) || bool_decide (fold_long_s protocol ∈ ["http"; "https"; "mailto"])
  | None => true
  end.
Definition urlFilter (s : string) : string := if isSafeURL s then s else "#ZgotmplZ".

Definition is_hex (c : ascii) : bool :=
  let n := N_of_ascii c in
  ((48 <=? n) && (n <=? 57) || (65 <=? n) && (n <=? 70) || (97 <=? n) && (n <=? 102))%N.
Definition url_kept (c : ascii) : bool :=
  let n := N_of_ascii c in
  ((48 <=? n) && (n <=? 57) || (65 <=? n) && (n <=? 90) || (97 <=? n) && (n <=? 122))%N
  || negb (lacks c "!#$&*+,/:;=?@[]-._~").
Definition hex_digit (n : N) : ascii := ascii_of_N (if (n <? 10)%N then 48 + n else 87 + n).
Definition percent (c : ascii) : string :=
  let n := N_of_ascii c in String "%" (String (hex_digit (n / 16)) (String (hex_digit (n mod 16)) "")).
(** [urlNormalizer]: valid escapes are not encoded again. *)
Fixpoint urlNormalizer (s : string) : string :=
  match s with
  | "" => ""
  | String c s' =>
      let kept := if Ascii.eqb c "%" then
                    match s' with String a (String b _) => is_hex a && is_hex b | _ => false end
                  else url_kept c in
      (if kept then String c "" else percent c) ++ urlNormalizer s'
  end.

Definition escape (c : context) (s : string) : string :=
  match c with
  | InText => htmlReplacer s
  | InURLAttr => htmlReplacer (urlNormalizer (urlFilter s))
  end.

(** [tmpl.Execute]: a field the data does not have is an error. *)
Fixpoint Execute (t : template) (data : list (string * fieldval)) : res string :=
  let field name := List.find (λ f, String.eqb (fst f) name) data in
  match t with
  | TEnd => Ok ""
  | TText s k => res_map (String.append s) (Execute k data)
  | TField c name k =>
      match field name with
      | Some (_, v) => res_map (String.append (escape c (print_field v))) (Execute k data)
      | None => Err (ErrMsg "template: no such field")
      end
  | TIf name yes no k =>
      match field name with
      | Some (_, v) =>
          match (if truth v then Execute yes data else Execute no data) with
          | Ok b => res_map (String.append b) (Execute k data)
          | Err err => Err err
          end
      | None => Err (ErrMsg "template: no such field")
      end
  end.

(** ** templates/*.html.tmpl *)

(** The double quotes of the files are written as backquotes, of which they
    have none. *)
Definition backquoted (s : string) : string := string_map (λ c, if Ascii.eqb c "`" then "034"%char else c) s.

Definition verification_head : string := backquoted "<!DOCTYPE html>
<html>
<head>
  <meta charset=`UTF-8`>
  <title>auth Verification</title>
</head>
<body style=`margin: 0; padding: 5px; background-color: #f4f4f4; font-family: Arial, sans-serif;`>
  <table cellpadding=`0` cellspacing=`0` width=`100%` bgcolor=`#f4f4f4`>
    <tr>
      <td align=`center`>
        <table cellpadding=`0` cellspacing=`0` width=`600` style=`background-color: #ffffff; margin: 40px 0; border-radius: 8px;`>
          <tr>
            <td style=`padding: 30px; color: #333333;`>
              <h2>Your Verification Code</h2>
              <p>Please use the code below to complete your registration:</p>
              <table cellpadding=`0` cellspacing=`0` width=`100%` style=`margin: 20px 0;`>
                <tr>
                  <td align=`center` style=`background-color: #f0f0f0; padding: 20px; font-size: 28px; font-weight: bold; color: #000;`>
                    ".
Definition verification_tail : string := backquoted "
                  </td>
                </tr>
              </table>
              <p>This code expires in 10 minutes. If you didn't request this, please ignore this email.</p>
              <p>Thank you!</p>
            </td>
          </tr>
          <tr>
            <td bgcolor=`#eeeeee` style=`padding: 20px; text-align: center; font-size: 12px; color: #777;`>
              ©2025 auth
            </td>
          </tr>
        </table>
      </td>
    </tr>
  </table>
</body>
</html>
".
Definition reset_head : string := backquoted "<!DOCTYPE html>
<html>
<head>
  <meta charset=`UTF-8`>
  <title>Reset your password</title>
</head>
<body style=`margin: 0; padding: 5px; background-color: #f4f4f4; font-family: Arial, sans-serif;`>
  <table cellpadding=`0` cellspacing=`0` width=`100%` bgcolor=`#f4f4f4`>
    <tr>
      <td align=`center`>
        <table cellpadding=`0` cellspacing=`0` width=`600` style=`background-color: #ffffff; margin: 40px 0; border-radius: 8px;`>
          <tr>
            <td style=`padding: 30px; color: #333333;`>
              <h2>Reset your password</h2>
              <p>We received a request to reset your password. If you didn't make this request, you can safely ignore this email — your password won't change.</p>
              ".
Definition reset_before_link : string := backquoted "
              <table cellpadding=`0` cellspacing=`0` width=`100%` style=`margin: 20px 0;`>
                <tr>
                  <td align=`center`>
                    <a href=`".
Definition reset_after_link : string := backquoted "` style=`display: inline-block; background-color: #000; color: #fff; padding: 14px 28px; text-decoration: none; border-radius: 4px; font-weight: bold;`>Reset password</a>
                  </td>
                </tr>
              </table>
              <p>Or use this reset code directly: <strong>".
Definition reset_after_link_token : string := backquoted "</strong></p>
              ".
Definition reset_before_token : string := backquoted "
              <table cellpadding=`0` cellspacing=`0` width=`100%` style=`margin: 20px 0;`>
                <tr>
                  <td align=`center` style=`background-color: #f0f0f0; padding: 20px; font-size: 20px; font-weight: bold; color: #000; word-break: break-all;`>
                    ".
Definition reset_after_token : string := backquoted "
                  </td>
                </tr>
              </table>
              ".
Definition reset_before_expiry : string := backquoted "
              <p>This link expires in ".
Definition reset_tail : string := backquoted " minutes and can only be used once.</p>
              <p>Thank you!</p>
            </td>
          </tr>
          <tr>
            <td bgcolor=`#eeeeee` style=`padding: 20px; text-align: center; font-size: 12px; color: #777;`>
              ©2026 auth
            </td>
          </tr>
        </table>
      </td>
    </tr>
  </table>
</body>
</html>
".

Definition verification_email : template :=
  TText verification_head (TField InText "Code" (TText verification_tail TEnd)).
Definition password_reset_email : template :=
  TText reset_head
  (TIf "ResetLink"
     (TText reset_before_link (TField InURLAttr "ResetLink"
     (TText reset_after_link (TField InText "Token"
     (TText reset_after_link_token TEnd)))))
     (TText reset_before_token (TField InText "Token"
     (TText reset_after_token TEnd)))
  (TText reset_before_expiry (TField InText "ExpiresInMinutes"
  (TText reset_tail TEnd)))).

(** The embedded files. *)
Definition templateFS (path : string) : res template :=
  if String.eqb path "templates/verification_email.html.tmpl" then Ok verification_email
  else if String.eqb path "templates/password_reset_email.html.tmpl" then Ok password_reset_email
  else Err (ErrMsg "template: pattern matches no files").

(** ** html_render.go *)

Record VerificationTemplateData := mkVerificationTemplateData { vt_Code : string; vt_Year : Z }.
Record PasswordResetTemplateData := mkPasswordResetTemplateData {
  rt_Token : string;
  rt_ResetLink : string;
  rt_ExpiresInMinutes : Z
}.

Definition RenderHTMLFromFS (name : string) (data : list (string * fieldval)) : res string :=
  match templateFS ("templates/" ++ name) with
  | Err err => Err err
  | Ok tmpl => Execute tmpl data
  end.

(** The exported fields of the two structs, by name. *)
Definition verification_fields (d : VerificationTemplateData) : list (string * fieldval) :=
  [("Code", FString (vt_Code d)); ("Year", FInt (vt_Year d))].
Definition reset_fields (d : PasswordResetTemplateData) : list (string * fieldval) :=
  [("Token", FString (rt_Token d)); ("ResetLink", FString (rt_ResetLink d));
   ("ExpiresInMinutes", FInt (rt_ExpiresInMinutes d))].

Definition RenderVerificationHTML (code : string) : res string :=
  RenderHTMLFromFS "verification_email.html.tmpl" (verification_fields (mkVerificationTemplateData code 0)).
Definition RenderPasswordResetHTML (data : PasswordResetTemplateData) : res string :=
  RenderHTMLFromFS "password_reset_email.html.tmpl" (reset_fields data).

(** ** What the mails show *)

(** No field can open or close an element or leave its attribute. *)
Definition markup (c : ascii) : bool := negb (lacks c "<>'") || Ascii.eqb c "034".
Definition inert (s : string) : bool := string_forall (λ c, negb (markup c)) s.

Lemma html_char_inert c : inert (html_char c) = true.
Proof. by destruct c as [[] [] [] [] [] [] [] []]. Qed.
Lemma htmlReplacer_inert s : inert (htmlReplacer s) = true.
Proof.
  induction s as [|c s IH]; [done|]. unfold inert in *. cbn [htmlReplacer].
  rewrite string_forall_app, IH, andb_true_r. apply html_char_inert.
Qed.

(** What a reader of the page makes of the references. *)
Fixpoint html_unescape (s : string) : string :=
  match s with
  | String "&" (String "#" (String "3" (String "4" (String ";" s)))) => String "034" (html_unescape s)
  | String "&" (String "#" (String "3" (String "9" (String ";" s)))) => String "'" (html_unescape s)
  | String "&" (String "#" (String "4" (String "3" (String ";" s)))) => String "+" (html_unescape s)
  | String "&" (String "a" (String "m" (String "p" (String ";" s)))) => String "&" (html_unescape s)
  | String "&" (String "l" (String "t" (String ";" s))) => String "<" (html_unescape s)
  | String "&" (String "g" (String "t" (String ";" s))) => String ">" (html_unescape s)
  | String c s => String c (html_unescape s)
  | "" => ""
  end.
Lemma unescape_char c s : c ≠ "000"%char → html_unescape (html_char c ++ s) = String c (html_unescape s).
Proof. destruct c as [[] [] [] [] [] [] [] []]; intros Hc; try reflexivity. by destruct Hc. Qed.
(** The text shown is the text given, whatever it is. *)
Lemma htmlReplacer_shows s : lacks "000" s = true → html_unescape (htmlReplacer s) = s.
Proof.
  induction s as [|c s IH]; [done|]. unfold lacks in *. cbn [htmlReplacer]. intros H. cbn in H.
  apply andb_true_iff in H as [Hc Hs]. rewrite unescape_char, IH; [done..|]. intros ->. discriminate Hc.
Qed.

(** Tokens, codes and plain links stand in the page as they are. *)
Definition plain (c : ascii) : bool := url_kept c && lacks c "&+".
Lemma plain_char c : plain c = true → html_char c = String c "".
Proof. destruct c as [[] [] [] [] [] [] [] []]; intros H; first [reflexivity | discriminate H]. Qed.
Lemma htmlReplacer_plain s : string_forall plain s = true → htmlReplacer s = s.
Proof.
  induction s as [|c s IH]; [done|]. cbn. intros [Hc Hs]%andb_true_iff. by rewrite IH, plain_char.
Qed.
Lemma urlNormalizer_plain s : string_forall plain s = true → urlNormalizer s = s.
Proof.
  induction s as [|c s IH]; [done|]. cbn [string_forall urlNormalizer]. intros [Hc Hs]%andb_true_iff.
  rewrite (IH Hs). destruct (Ascii.eqb_spec c "%"%char) as [->|_]; [discriminate Hc|].
  unfold plain in Hc. apply andb_true_iff in Hc as [-> _]. done.
Qed.

Lemma RenderVerificationHTML_shows code :
  RenderVerificationHTML code = Ok (verification_head ++ htmlReplacer code ++ verification_tail).
Proof. reflexivity. Qed.

(** A link is shown exactly when there is one; the token always is. *)
Lemma RenderPasswordResetHTML_shows token link minutes :
  RenderPasswordResetHTML (mkPasswordResetTemplateData token link minutes)
  = Ok (reset_head
        ++ (if String.eqb link "" then reset_before_token ++ htmlReplacer token ++ reset_after_token
            else reset_before_link ++ escape InURLAttr link ++ reset_after_link ++ htmlReplacer token ++ reset_after_link_token)
        ++ reset_before_expiry ++ htmlReplacer (print_int minutes) ++ reset_tail).
Proof.
  unfold RenderPasswordResetHTML, RenderHTMLFromFS.
  assert (templateFS ("templates/" ++ "password_reset_email.html.tmpl") = Ok password_reset_email) as -> by reflexivity.
  by destruct link.
Qed.

(** A link made of plain characters is the target of the button, as it is. *)
Lemma link_exact link : isSafeURL link = true → string_forall plain link = true → escape InURLAttr link = link.
Proof.
  intros Hsafe Hp. unfold escape, urlFilter. by rewrite Hsafe, (urlNormalizer_plain _ Hp), (htmlReplacer_plain _ Hp).
Qed.

Example verification_mail_shows_code :
  RenderVerificationHTML "123456" = Ok (verification_head ++ "123456" ++ verification_tail)
  ∧ html_unescape (htmlReplacer "<b>&amp;</b>") = "<b>&amp;</b>"
  ∧ escape InURLAttr "https://app.example.com/reset?token=abc-_1" = "https://app.example.com/reset?token=abc-_1"
  ∧ escape InURLAttr "javascript:alert(1)" = "#ZgotmplZ".
Proof. vm_compute. done. Qed.
