(* ===== verification/Codes.v ===== *)
(** * One-time codes, TOTP, recovery codes and their delivery

    utils/randomize.go, auth/otp_code.go, auth/mfa_otp_code.go,
    auth/mfa_totp.go, auth/mfa_encryption.go and the two senders of
    internal/emailer.  The TOTP algorithm and AES-GCM are parameters. *)

From S2P Require Import Prelude.
From S2P Require Import GoLib.
From S2P Require Import Encoding.
From S2P Require Import Utils.
From S2P Require Import Model.
From S2P Require Import Runtime.
From S2P Require Import Emails.

#[local] Open Scope string_scope.
#[local] Open Scope Z_scope.
#[local] Open Scope go_scope.

(** ** randomize.go *)

Definition GenerateCode : Go string :=
  n <- rand_int ;;
  match n with
  | None => panic
  | Some n => ret (format_code n)
  end.

(** ** otp_code.go and mfa_otp_code.go: codes in Redis *)

Definition otp_of (r : res rval) : res OTPMeta :=
  match r with
  | Ok (ROTP meta) => Ok meta
  | Ok (RStr _) => Err (ErrMsg "json: cannot unmarshal")
  | Err err => Err err
  end.

Definition SaveVerificationCode (email : string) (meta : OTPMeta) : Go (res unit) :=
  cfg <- get_cfg ;;
  redis_Set ("email_code:" ++ email) (ROTP meta) (cfg_OTP_TTL cfg).

Definition GetVerificationCode (email : string) : Go (res OTPMeta) :=
  r <- redis_Get ("email_code:" ++ email) ;;
  ret (otp_of r).

Definition mfaOTPCodeKey (channel purpose userID : string) : string :=
  "mfa_otp:" ++ channel ++ ":" ++ purpose ++ ":" ++ userID.

Definition SaveMFAOTPCode (channel purpose userID : string) (meta : OTPMeta) : Go (res unit) :=
  cfg <- get_cfg ;;
  redis_Set (mfaOTPCodeKey channel purpose userID) (ROTP meta) (cfg_OTP_TTL cfg).

Definition GetMFAOTPCode (channel purpose userID : string) : Go (res OTPMeta) :=
  r <- redis_Get (mfaOTPCodeKey channel purpose userID) ;;
  ret (otp_of r).

Definition DeleteMFAOTPCode (channel purpose userID : string) : Go (res unit) :=
  redis_Del [mfaOTPCodeKey channel purpose userID].

(** ** internal/emailer: the mails, with the pages of [Emails] *)

Definition SendEmailVerificationEmail (code toEmail : string) : Go (res unit) :=
  match RenderVerificationHTML code with
  | Err err => ret (Err err)
  | Ok htmlBody =>
      cfg <- get_cfg ;;
      send_mail (mkEmail (cfg_EmailFromAddress cfg) toEmail "Verification Code"
                   ("Your auth verification code is: " ++ code) htmlBody)
  end.

(** The minutes go through a float, which is exact for whole seconds. *)
Definition SendPasswordResetEmail (rawToken toEmail : string) : Go (res unit) :=
  cfg <- get_cfg ;;
  let resetLink := if String.eqb (cfg_PasswordResetURL cfg) "" then ""
                   else cfg_PasswordResetURL cfg ++ "?token=" ++ rawToken in
  match RenderPasswordResetHTML (mkPasswordResetTemplateData rawToken resetLink (Z.quot (cfg_PasswordResetTTL cfg) Minute)) with
  | Err err => ret (Err err)
  | Ok htmlBody =>
      let text := if String.eqb resetLink "" then "Your password reset code is: " ++ rawToken
                  else "Reset your password: " ++ resetLink ++ " (or use code: " ++ rawToken ++ ")" in
      send_mail (mkEmail (cfg_EmailFromAddress cfg) toEmail "Reset your password" text htmlBody)
  end.

(** ** mfa_totp.go *)

(** [github.com/pquerna/otp/totp]: [totp_Generate random issuer account period digits]
    makes a secret and its provisioning URI, [totp_GenerateCodeCustom secret t
    period digits] the code of the period that contains [t] (in seconds). *)
Class TotpLib := {
  totp_Generate : res string → string → string → Z → Z → res (string * string);
  totp_GenerateCodeCustom : string → Z → Z → Z → res string
}.

Definition totpPeriod : Z := 30.
Definition totpSkew : Z := 1.
Definition totpDigits : Z := 6.

(** [t.Unix()] *)
Definition Unix (t : Z) : Z := t / Second.
Definition totpStep (t : Z) : Z := Z.quot (Unix t) totpPeriod.

Section totp.
Context `{TotpLib}.

Definition GenerateTOTPSecret (issuer accountName : string) : Go (res (string * string)) :=
  seed <- rand_read 20 ;;
  ret (totp_Generate seed issuer accountName totpPeriod totpDigits).

(** The loop over [current - totpSkew .. current + totpSkew]. *)
Fixpoint try_steps (secret code : string) (lastUsedStep step : Z) (n : nat) : Z * bool :=
  match n with
  | O => (0, false)
  | S n =>
      if step <=? lastUsedStep then try_steps secret code lastUsedStep (step + 1) n
      else match totp_GenerateCodeCustom secret (step * totpPeriod) totpPeriod totpDigits with
           | Err _ => try_steps secret code lastUsedStep (step + 1) n
           | Ok candidate =>
               if String.eqb candidate code then (step, true)
               else try_steps secret code lastUsedStep (step + 1) n
           end
  end.

Definition ValidateTOTPCode (secret code : string) (lastUsedStep now : Z) : Z * bool :=
  try_steps secret code lastUsedStep (totpStep now - totpSkew) (Z.to_nat (2 * totpSkew + 1)).

Lemma try_steps_sound secret code last step n s :
  try_steps secret code last step n = (s, true) →
  last < s ∧ step ≤ s < step + Z.of_nat n
  ∧ totp_GenerateCodeCustom secret (s * totpPeriod) totpPeriod totpDigits = Ok code.
Proof.
  revert step. induction n as [|n IH]; intros step; cbn [try_steps]; [done|].
  destruct (step <=? last) eqn:E.
  { intros (H1 & H2 & H3)%IH. split_and!; [lia..|done]. }
  destruct (totp_GenerateCodeCustom _ (step * _) _ _) as [c|] eqn:Ec.
  - destruct (String.eqb_spec c code) as [->|Hc].
    + intros [= <-]. bool_to_prop. split_and!; [lia..|done].
    + intros (H1 & H2 & H3)%IH. split_and!; [lia..|done].
  - intros (H1 & H2 & H3)%IH. split_and!; [lia..|done].
Qed.

Lemma try_steps_complete secret code last step n s :
  last < s → step ≤ s < step + Z.of_nat n →
  totp_GenerateCodeCustom secret (s * totpPeriod) totpPeriod totpDigits = Ok code →
  ∃ s', try_steps secret code last step n = (s', true).
Proof.
  intros Hl. revert step. induction n as [|n IH]; intros step Hs Hc; cbn [try_steps]; [lia|].
  destruct (decide (step = s)) as [->|Hne].
  - destruct (s <=? last) eqn:E; [bool_to_prop; lia|]. rewrite Hc.
    rewrite String.eqb_refl. eauto.
  - specialize (IH (step + 1) ltac:(lia) Hc).
    destruct (step <=? last); [done|]. destruct (totp_GenerateCodeCustom _ (step * _) _ _); [|done].
    destruct (String.eqb _ _); [eauto|done].
Qed.
End totp.

(** ** Recovery codes *)

Definition b32_alphabet : string := "ABCDEFGHIJKLMNOPQRSTUVWXYZ234567".

Fixpoint string_bits (s : string) : list bool :=
  match s with
  | EmptyString => []
  | String (Ascii b0 b1 b2 b3 b4 b5 b6 b7) s => [b7; b6; b5; b4; b3; b2; b1; b0] ++ string_bits s
  end%list.

(** [base32.StdEncoding.WithPadding(base32.NoPadding)]: five bits a character,
    the last group filled with zero bits. *)
Fixpoint b32_chars (l : list bool) : string :=
  let c b4 b3 b2 b1 b0 := enc_char b32_alphabet (sextet false b4 b3 b2 b1 b0) in
  match l with
  | b4 :: b3 :: b2 :: b1 :: b0 :: l => String (c b4 b3 b2 b1 b0) (b32_chars l)
  | [b4; b3; b2; b1] => String (c b4 b3 b2 b1 false) ""
  | [b4; b3; b2] => String (c b4 b3 b2 false false) ""
  | [b4; b3] => String (c b4 b3 false false false) ""
  | [b4] => String (c b4 false false false false) ""
  | [] => ""
  end.
Definition b32_EncodeToString (s : string) : string := b32_chars (string_bits s).

(** The grouping loop: slices of four characters. *)
Fixpoint groups_of_4 (s : string) : list string :=
  match s with
  | "" => []
  | String a (String b (String c (String d s))) => String a (String b (String c (String d ""))) :: groups_of_4 s
  | _ => [s]
  end.

Definition GenerateMFARecoveryCode : Go (res string) :=
  b <- rand_read 10 ;;
  match b with
  | Err err => ret (Err err)
  | Ok b => ret (Ok (Join (groups_of_4 (b32_EncodeToString b)) "-"))
  end.

(** ** mfa_encryption.go *)

(** [crypto/aes] and [crypto/cipher]: a cipher for the key or an error, and the
    AEAD operations; [Seal] appends to its first argument. *)
Class AeadLib := {
  aes_NewCipher : string → res unit;
  gcm_NonceSize : nat;
  gcm_Seal : string → string → string → string;
  gcm_Open : string → string → string → option string
}.

Class AeadLaws (A : AeadLib) := {
  gcm_Open_Seal : ∀ key nonce p,
    String.length nonce = gcm_NonceSize → gcm_Open key nonce (gcm_Seal key nonce p) = Some p
}.

Section encryption.
Context `{AL : AeadLib}.

Definition mfaGCM : Go (res string) :=
  cfg <- get_cfg ;;
  match aes_NewCipher (cfg_MFAEncryptionKey cfg) with
  | Err err => ret (Err err)
  | Ok _ => ret (Ok (cfg_MFAEncryptionKey cfg))
  end.

Definition EncryptMFASecret (plaintext : string) : Go (res string) :=
  gcm <- mfaGCM ;;
  match gcm with
  | Err err => ret (Err err)
  | Ok key =>
      nonce <- rand_read gcm_NonceSize ;;
      match nonce with
      | Err err => ret (Err err)
      | Ok nonce => ret (Ok (RawURLEncoding_EncodeToString (nonce ++ gcm_Seal key nonce plaintext)))
      end
  end.

Definition DecryptMFASecret (encoded : string) : Go (res string) :=
  gcm <- mfaGCM ;;
  match gcm with
  | Err err => ret (Err err)
  | Ok key =>
      match RawURLEncoding_DecodeString encoded with
      | None => ret (Err (ErrMsg "decoding ciphertext"))
      | Some raw =>
          if (String.length raw <? gcm_NonceSize)%nat then ret (Err (ErrMsg "ciphertext too short"))
          else
            let nonce := String.substring 0 gcm_NonceSize raw in
            let ciphertext := String.substring gcm_NonceSize (String.length raw - gcm_NonceSize) raw in
            match gcm_Open key nonce ciphertext with
            | None => ret (Err (ErrMsg "decryption failed"))
            | Some p => ret (Ok p)
            end
      end
  end.
End encryption.
