(* ===== verification/Signup.v ===== *)
(** * Email signup: the three steps

    services/start_email_verification_service.go, verify_email_code_service.go
    and complete_email_join_service.go, with auth/validations.go and
    db/postgres/user.go. *)

From S2P Require Import Prelude.
From S2P Require Import GoLib.
From S2P Require Import Utils.
From S2P Require Import Model.
From S2P Require Import Runtime.
From S2P Require Import Queries.
From S2P Require Import Password.
From S2P Require Import Tokens.
From S2P Require Import Codes.

#[local] Open Scope string_scope.
#[local] Open Scope Z_scope.
#[local] Open Scope go_scope.

Record EmailJoinResult := mkEmailJoinResult {
  ej_AccessToken : string;
  ej_RefreshToken : string;
  ej_UserID : string;
  ej_Username : string
}.

Record CreatedUser := mkCreatedUser {
  cu_ID : uuid;
  cu_Username : string;
  cu_UsernameDisplay : string;
  cu_Role : UserRole
}.

(** postgres.RefreshSessionInput *)
Record RefreshSessionInput := mkRefreshSessionInput {
  rs_SessionID : string;
  rs_UserID : option uuid;
  rs_ExpiresAt : Z;
  rs_RefreshTokenHash : string;
  rs_IP : string;
  rs_UserAgent : string
}.

Section signup.
Context `{TL : TextLib} `{UL : UuidLib} `{HL : HashLib} `{JL : JwtLib}.

(** ** Step 1 *)

(** auth.IsEmailTaken *)
Definition IsEmailTaken (email : string) : Go (res bool) :=
  WithTx (db_stmt (query (IsEmailRegistered email))).

Definition regenerateWindow : Z := Minute.

Definition StartEmailVerification (email : string) : Go (svc unit) :=
  let emailParsed := ToLower (TrimSpace email) in
  if negb (IsValidEmail emailParsed) then ret (Fail InvalidEmailFormat)
  else
    taken <- IsEmailTaken emailParsed ;;
    match taken with
    | Err _ => ret (Fail InternalServerError)
    | Ok true => ret (Fail EmailIsTaken)
    | Ok false =>
        meta <- GetVerificationCode emailParsed ;;
        soon <- match meta with
                | Ok meta => t <- now ;; ret (t - otp_CreatedAt meta <? regenerateWindow)
                | Err _ => ret false
                end ;;
        if (soon : bool) then ret (Fail TooSoonToRequest)
        else
          code <- GenerateCode ;;
          currentTime <- now ;;
          cfg <- get_cfg ;;
          let otpMeta := mkOTPMeta code currentTime (currentTime + cfg_OTP_TTL cfg) 0 5 in
          saved <- SaveVerificationCode emailParsed otpMeta ;;
          match saved with
          | Err _ => ret (Fail InternalServerError)
          | Ok _ =>
              sent <- SendEmailVerificationEmail code emailParsed ;;
              match sent with
              | Err _ => ret (Fail InternalServerError)
              | Ok _ => ret (Done ())
              end
          end
    end.

(** ** Step 2 *)

Definition VerifyEmailCode (email code : string) : Go (svc string) :=
  let emailParsed := ToLower (TrimSpace email) in
  if negb (IsValidEmail emailParsed) then ret (Fail InvalidEmailFormat)
  else
    let codeParsed := TrimSpace code in
    if negb (IsValidVerificationCode codeParsed) then ret (Fail IncorrectCode)
    else
      meta <- GetVerificationCode emailParsed ;;
      match meta with
      | Err _ => ret (Fail IncorrectCode)
      | Ok meta =>
          t <- now ;;
          if otp_ExpiresAt meta <? t then ret (Fail CodeExpired)
          else if otp_MaxAttempts meta <=? otp_Attempts meta then ret (Fail TooManyAttempts)
          else if negb (String.eqb codeParsed (otp_Code meta)) then
            SaveVerificationCode emailParsed (set_otp_Attempts (otp_Attempts meta + 1) meta) ;;;
            ret (Fail IncorrectCode)
          else
            cfg <- get_cfg ;;
            token <- GenerateTemporaryJWT emailParsed RoleJoiner (cfg_TemporaryTokenTTL cfg) ;;
            match token with
            | Err _ => ret (Fail InternalServerError)
            | Ok token =>
                redis_Del ["email_code:" ++ emailParsed] ;;;
                ret (Done token)
            end
      end.

(** ** Step 3 *)

Definition CreateEmailUserInTx (email username passwordHash : string) : Go (res CreatedUser) :=
  taken <- db_stmt (query (UsernameExists username)) ;;
  match taken with
  | Err err => ret (Err err)
  | Ok true => ret (Err (ErrMsg "username taken"))
  | Ok false =>
      user <- db_stmt (CreateUser email username) ;;
      match user with
      | Err err => ret (Err err)
      | Ok user =>
          r <- db_stmt (CreateEmailAuth (Some (u_ID user)) email (Some passwordHash)) ;;
          match r with
          | Err err => ret (Err err)
          | Ok _ => ret (Ok (mkCreatedUser (u_ID user) (u_Username user) (u_UsernameDisplay user) (u_Role user)))
          end
      end
  end.

Definition CreateEmailUser (email username passwordHash : string) : Go (res CreatedUser) :=
  WithTx (CreateEmailUserInTx email username passwordHash).

(** postgres.CreateRefreshSession: an unparsable id becomes the nil uuid. *)
Definition CreateRefreshSessionInput (in_ : RefreshSessionInput) : Go (res Session) :=
  let sid := default uuid_Nil (uuid_Parse (rs_SessionID in_)) in
  db_stmt (CreateRefreshSession sid (rs_UserID in_) (rs_ExpiresAt in_) (Some (rs_RefreshTokenHash in_))
             (textOrNull (rs_IP in_)) (textOrNull (rs_UserAgent in_))).

Definition CompleteEmailJoin (ctx : Ctx) (username password confirmPassword : string)
    : Go (svc EmailJoinResult) :=
  let email := GetContextString (ctx_EmailFromTempJWT ctx) "" in
  if String.eqb email "" || negb (IsValidEmail email) then ret (Fail Unauthorized)
  else if negb (IsValidUsername username) then ret (Fail InvalidUsernameFormat)
  else if negb (IsValidPassword password) then ret (Fail InvalidPasswordFormat)
  else if negb (String.eqb password confirmPassword) then ret (Fail InvalidPasswordFormat)
  else
    taken <- db_stmt (query (UsernameExists username)) ;;
    match taken with
    | Err _ => ret (Fail InternalServerError)
    | Ok true => ret (Fail UsernameTaken)
    | Ok false =>
        passwordHash <- HashPasswordPHC password ;;
        match passwordHash with
        | Err _ => ret (Fail InternalServerError)
        | Ok passwordHash =>
            user <- CreateEmailUser email username passwordHash ;;
            match user with
            | Err _ => ret (Fail InternalServerError)
            | Ok user =>
                cfg <- get_cfg ;;
                tokens <- GenerateUserTokens (uuid_String (cu_ID user)) (cu_Username user)
                            (UserRole_string (cu_Role user)) (cfg_AccessTTL cfg) (cfg_RefreshTTL cfg) ;;
                match tokens with
                | Err _ => ret (Fail TokenGenerationFailed)
                | Ok tokens =>
                    let refreshHash := HashOpaqueToken (tp_RefreshToken tokens) in
                    r <- CreateRefreshSessionInput
                           (mkRefreshSessionInput (tp_SessionID tokens) (Some (cu_ID user))
                              (tp_RefreshExp tokens) refreshHash (ClientIPFromCtx ctx) (UserAgentFromCtx ctx)) ;;
                    match r with
                    | Err _ =>
                        DeleteSession (tp_SessionID tokens) ;;;
                        ret (Fail TokenGenerationFailed)
                    | Ok _ =>
                        DeleteTemporarySession (GetContextString (ctx_JTIFromTempJWT ctx) "") ;;;
                        ret (Done (mkEmailJoinResult (tp_AccessToken tokens) (tp_RefreshToken tokens)
                                     (uuid_String (cu_ID user)) (cu_Username user)))
                    end
                end
            end
        end
    end.
End signup.
