(* ===== verification/Mfa.v ===== *)
(** * Multi-factor authentication: enrolment, removal, login codes

    services/mfa_service.go (all but [VerifyMFALogin], see [Login]),
    services/mfa_email_service.go and db/postgres/mfa.go. *)

From S2P Require Import Prelude.
From S2P Require Import GoLib.
From S2P Require Import Utils.
From S2P Require Import Model.
From S2P Require Import Runtime.
From S2P Require Import Queries.
From S2P Require Import Password.
From S2P Require Import Tokens.
From S2P Require Import Codes.

#[local] Open Scope string_scope.
#[local] Open Scope Z_scope.
#[local] Open Scope go_scope.

Record MFAEnrollResult := mkMFAEnrollResult { me_Secret : string; me_ProvisioningURI : string }.

Section mfa.
Context `{TL : TextLib} `{UL : UuidLib} `{HL : HashLib} `{JL : JwtLib} `{OL : TotpLib} `{AL : AeadLib}.

(** [parseUserID]; the result is a valid [pgtype.UUID] *)
Definition parseUserID (userID : string) : option uuid := uuid_Parse userID.

Definition constantTimeEqual (a b : string) : bool :=
  if negb (Nat.eqb (String.length a) (String.length b)) then false else String.eqb a b.

(** ** Re-authentication *)

Definition verifyCurrentPasswordForFactorAction (userPG : uuid) (currentPassword : string) : Go (svc unit) :=
  identity <- db_stmt (query (GetEmailAuthByUserID (Some userPG))) ;;
  match identity with
  | Err _ => ret (Fail InternalServerError)
  | Ok identity =>
      ok <- VerifyPasswordPHC currentPassword (text_String (ea_PasswordHash identity)) true ;;
      match ok with
      | Err _ => ret (Fail InternalServerError)
      | Ok ok => ret (if ok then Done () else Fail InvalidCredentials)
      end
  end.

(** ** Recovery codes *)

Fixpoint generate_recovery_codes (n : nat) (rawCodes hashes : list string) : Go (svc (list string * list string)) :=
  match n with
  | O => ret (Done (rawCodes, hashes))
  | S n =>
      rawCode <- GenerateMFARecoveryCode ;;
      match rawCode with
      | Err _ => ret (Fail InternalServerError)
      | Ok rawCode =>
          generate_recovery_codes n (rawCodes ++ [rawCode])%list (hashes ++ [HashOpaqueToken rawCode])%list
      end
  end.

(** [make([]string, 0, n)] panics for a negative capacity. *)
Definition generateRecoveryCodes (n : Z) : Go (svc (list string * list string)) :=
  if n <? 0 then panic else generate_recovery_codes (Z.to_nat n) [] [].

(** ** db/postgres/mfa.go *)

Definition CompleteMFAEnrollment (factorID : uuid) (matchedStep : Z) (recoveryCodeHashes : list string)
    : Go (res unit) :=
  WithTx (
    r <- db_stmt (VerifyTOTPFactor factorID) ;;
    match r with
    | Err err => ret (Err err)
    | Ok _ =>
        r <- db_stmt (RecordTOTPSuccess (Some matchedStep) factorID) ;;
        match r with
        | Err err => ret (Err err)
        | Ok _ =>
            r <- db_stmt (DeleteMFARecoveryCodesByFactor factorID) ;;
            match r with
            | Err err => ret (Err err)
            | Ok _ => for_each_ok (λ hash, db_stmt (CreateMFARecoveryCode factorID hash)) recoveryCodeHashes
            end
        end
    end).

Definition CompleteOTPFactorEnrollment (factorID : uuid) (recoveryCodeHashes : list string) : Go (res unit) :=
  WithTx (
    r <- db_stmt (VerifyOTPFactor factorID) ;;
    match r with
    | Err err => ret (Err err)
    | Ok _ =>
        r <- db_stmt (RecordOTPFactorSuccess factorID) ;;
        match r with
        | Err err => ret (Err err)
        | Ok _ =>
            r <- db_stmt (DeleteMFARecoveryCodesByFactor factorID) ;;
            match r with
            | Err err => ret (Err err)
            | Ok _ => for_each_ok (λ hash, db_stmt (CreateMFARecoveryCode factorID hash)) recoveryCodeHashes
            end
        end
    end).

(** ** TOTP enrolment *)

Definition EnrollMFA (userID username : string) : Go (svc MFAEnrollResult) :=
  match parseUserID userID with
  | None => ret (Fail Unauthorized)
  | Some userPG =>
      existing <- db_stmt (query (GetTOTPFactorByUserID (Some userPG))) ;;
      let start :=
        cfg <- get_cfg ;;
        key <- GenerateTOTPSecret (cfg_MFAIssuer cfg) username ;;
        match key with
        | Err _ => ret (Fail InternalServerError)
        | Ok (secret, uri) =>
            encryptedSecret <- EncryptMFASecret secret ;;
            match encryptedSecret with
            | Err _ => ret (Fail InternalServerError)
            | Ok encryptedSecret =>
                r <- db_stmt (UpsertPendingTOTPFactor (Some userPG) (Some encryptedSecret)) ;;
                match r with
                | Err _ => ret (Fail InternalServerError)
                | Ok _ => ret (Done (mkMFAEnrollResult secret uri))
                end
            end
        end in
      match existing with
      | Ok existing => if bool_Bool (mf_Enabled existing) then ret (Fail MFAAlreadyEnabled) else start
      | Err err => if is_no_rows err then start else ret (Fail InternalServerError)
      end
  end.

Definition VerifyMFAEnrollment (userID code : string) : Go (svc (list string)) :=
  match parseUserID userID with
  | None => ret (Fail Unauthorized)
  | Some userPG =>
      factor <- db_stmt (query (GetTOTPFactorByUserID (Some userPG))) ;;
      match factor with
      | Err err => ret (Fail (if is_no_rows err then MFANotEnabled else InternalServerError))
      | Ok factor =>
          if bool_Bool (mf_Verified factor) then ret (Fail MFAAlreadyEnabled)
          else
            secret <- DecryptMFASecret (text_String (mf_Secret factor)) ;;
            match secret with
            | Err _ => ret (Fail InternalServerError)
            | Ok secret =>
                t <- now ;;
                let '(step, valid) := ValidateTOTPCode secret (TrimSpace code) (int_Int (mf_LastUsedStep factor)) t in
                if negb valid then
                  db_stmt (IncrementTOTPFailedAttempts (mf_ID factor)) ;;;
                  ret (Fail InvalidMFACode)
                else
                  cfg <- get_cfg ;;
                  codes <- generateRecoveryCodes (cfg_MFARecoveryCodeCount cfg) ;;
                  match codes with
                  | Fail e => ret (Fail e)
                  | Done (rawCodes, hashes) =>
                      r <- CompleteMFAEnrollment (mf_ID factor) step hashes ;;
                      match r with
                      | Err _ => ret (Fail InternalServerError)
                      | Ok _ => ret (Done rawCodes)
                      end
                  end
            end
      end
  end.

Definition DisableMFA (userID currentPassword : string) : Go (svc unit) :=
  match parseUserID userID with
  | None => ret (Fail Unauthorized)
  | Some userPG =>
      re <- verifyCurrentPasswordForFactorAction userPG currentPassword ;;
      match re with
      | Fail e => ret (Fail e)
      | Done _ =>
          f <- db_stmt (query (GetTOTPFactorByUserID (Some userPG))) ;;
          match f with
          | Err err => ret (Fail (if is_no_rows err then MFANotEnabled else InternalServerError))
          | Ok _ =>
              r <- db_stmt (DeleteTOTPFactor (Some userPG)) ;;
              match r with
              | Err _ => ret (Fail InternalServerError)
              | Ok _ => ret (Done ())
              end
          end
      end
  end.

(** ** Email factor *)

Definition mfaOTPMaxAttempts : Z := 5.
Definition mfaOTPRegenerateWindow : Z := Minute.

Definition sendMFAEmailCode (userID email purpose : string) : Go (svc unit) :=
  existing <- GetMFAOTPCode "email" purpose userID ;;
  soon <- match existing with
          | Ok existing => t <- now ;; ret (t - otp_CreatedAt existing <? mfaOTPRegenerateWindow)
          | Err _ => ret false
          end ;;
  if (soon : bool) then ret (Fail TooSoonToRequest)
  else
    code <- GenerateCode ;;
    t <- now ;;
    cfg <- get_cfg ;;
    let meta := mkOTPMeta code t (t + cfg_OTP_TTL cfg) 0 mfaOTPMaxAttempts in
    saved <- SaveMFAOTPCode "email" purpose userID meta ;;
    match saved with
    | Err _ => ret (Fail InternalServerError)
    | Ok _ =>
        sent <- SendEmailVerificationEmail code email ;;
        match sent with
        | Err _ => ret (Fail InternalServerError)
        | Ok _ => ret (Done ())
        end
    end.

Definition verifyMFAOTPCode (channel purpose userID : string) (factorID : uuid) (code : string) : Go (svc unit) :=
  meta <- GetMFAOTPCode channel purpose userID ;;
  match meta with
  | Err _ => ret (Fail InvalidMFACode)
  | Ok meta =>
      t <- now ;;
      if otp_ExpiresAt meta <? t then ret (Fail CodeExpired)
      else if otp_MaxAttempts meta <=? otp_Attempts meta then ret (Fail TooManyAttempts)
      else if negb (constantTimeEqual (TrimSpace code) (otp_Code meta)) then
        SaveMFAOTPCode channel purpose userID (set_otp_Attempts (otp_Attempts meta + 1) meta) ;;;
        db_stmt (IncrementOTPFactorFailedAttempts factorID) ;;;
        ret (Fail InvalidMFACode)
      else ret (Done ())
  end.

Definition EnrollEmailMFA (userID : string) : Go (svc unit) :=
  match parseUserID userID with
  | None => ret (Fail Unauthorized)
  | Some userPG =>
      existing <- db_stmt (query (GetOTPFactorByUserID (Some userPG) MfaTypeEmail)) ;;
      let start :=
        email <- db_stmt (query (GetUserEmailByID (Some userPG))) ;;
        match email with
        | Err _ => ret (Fail InternalServerError)
        | Ok email =>
            sent <- sendMFAEmailCode userID email "enroll" ;;
            match sent with
            | Fail e => ret (Fail e)
            | Done _ =>
                r <- db_stmt (UpsertPendingOTPFactor (Some userPG) MfaTypeEmail) ;;
                match r with
                | Err _ => ret (Fail InternalServerError)
                | Ok _ => ret (Done ())
                end
            end
        end in
      match existing with
      | Ok existing => if bool_Bool (mf_Enabled existing) then ret (Fail MFAAlreadyEnabled) else start
      | Err err => if is_no_rows err then start else ret (Fail InternalServerError)
      end
  end.

Definition VerifyEmailMFAEnrollment (userID code : string) : Go (svc (list string)) :=
  match parseUserID userID with
  | None => ret (Fail Unauthorized)
  | Some userPG =>
      factor <- db_stmt (query (GetOTPFactorByUserID (Some userPG) MfaTypeEmail)) ;;
      match factor with
      | Err err => ret (Fail (if is_no_rows err then MFANotEnabled else InternalServerError))
      | Ok factor =>
          if bool_Bool (mf_Verified factor) then ret (Fail MFAAlreadyEnabled)
          else
            v <- verifyMFAOTPCode "email" "enroll" userID (mf_ID factor) code ;;
            match v with
            | Fail e => ret (Fail e)
            | Done _ =>
                cfg <- get_cfg ;;
                codes <- generateRecoveryCodes (cfg_MFARecoveryCodeCount cfg) ;;
                match codes with
                | Fail e => ret (Fail e)
                | Done (rawCodes, hashes) =>
                    r <- CompleteOTPFactorEnrollment (mf_ID factor) hashes ;;
                    match r with
                    | Err _ => ret (Fail InternalServerError)
                    | Ok _ =>
                        DeleteMFAOTPCode "email" "enroll" userID ;;;
                        ret (Done rawCodes)
                    end
                end
            end
      end
  end.

Definition DisableEmailMFA (userID currentPassword : string) : Go (svc unit) :=
  match parseUserID userID with
  | None => ret (Fail Unauthorized)
  | Some userPG =>
      re <- verifyCurrentPasswordForFactorAction userPG currentPassword ;;
      match re with
      | Fail e => ret (Fail e)
      | Done _ =>
          f <- db_stmt (query (GetOTPFactorByUserID (Some userPG) MfaTypeEmail)) ;;
          match f with
          | Err err => ret (Fail (if is_no_rows err then MFANotEnabled else InternalServerError))
          | Ok _ =>
              r <- db_stmt (DeleteOTPFactor (Some userPG) MfaTypeEmail) ;;
              match r with
              | Err _ => ret (Fail InternalServerError)
              | Ok _ => ret (Done ())
              end
          end
      end
  end.

(** ** Which methods a login must ask for *)

Definition listEnabledMFAMethods (userID : uuid) : Go (res (list string)) :=
  totpFactor <- db_stmt (query (GetTOTPFactorByUserID (Some userID))) ;;
  let email_part (methods : list string) :=
    emailFactor <- db_stmt (query (GetOTPFactorByUserID (Some userID) MfaTypeEmail)) ;;
    match emailFactor with
    | Ok f => ret (Ok (if bool_Bool (mf_Enabled f) then methods ++ ["email"] else methods)%list)
    | Err err => if is_no_rows err then ret (Ok methods) else ret (Err err)
    end in
  match totpFactor with
  | Ok f => email_part (if bool_Bool (mf_Enabled f) then ["totp"] else [])
  | Err err => if is_no_rows err then email_part [] else ret (Err err)
  end.

Fixpoint mfaMethodEnabled (methods : list string) (method : string) : bool :=
  match methods with
  | [] => false
  | m :: methods => if String.eqb m method then true else mfaMethodEnabled methods method
  end.

Definition SendMFALoginCode (challengeToken method : string) : Go (svc unit) :=
  r <- VerifyAndParseTemporaryJWT ("Bearer " ++ challengeToken) RoleMFAPending ;;
  match r with
  | Err _ => ret (Fail InvalidOrExpiredToken)
  | Ok (userID, _) =>
      match parseUserID userID with
      | None => ret (Fail Unauthorized)
      | Some userPG =>
          methods <- listEnabledMFAMethods userPG ;;
          match methods with
          | Err _ => ret (Fail InternalServerError)
          | Ok [] => ret (Fail MFANotEnabled)
          | Ok ((first :: _) as methods) =>
              let requested := TrimSpace method in
              let send requested :=
                if String.eqb requested "email" then
                  email <- db_stmt (query (GetUserEmailByID (Some userPG))) ;;
                  match email with
                  | Err _ => ret (Fail InternalServerError)
                  | Ok email => sendMFAEmailCode userID email "login"
                  end
                else ret (Fail InvalidPayload) in
              if String.eqb requested "" then send first
              else if negb (mfaMethodEnabled methods requested) then ret (Fail InvalidMFAMethod)
              else send requested
          end
      end
  end.
End mfa.
