(* ===== verification/Login.v ===== *)
(** * Password login and its second step

    services/login_service.go and [VerifyMFALogin] of services/mfa_service.go. *)

From S2P Require Import Prelude.
From S2P Require Import GoLib.
From S2P Require Import Utils.
From S2P Require Import Model.
From S2P Require Import Runtime.
From S2P Require Import Queries.
From S2P Require Import Password.
From S2P Require Import Tokens.
From S2P Require Import Codes.
From S2P Require Import Signup.
From S2P Require Import Mfa.

#[local] Open Scope string_scope.
#[local] Open Scope Z_scope.
#[local] Open Scope go_scope.

(** services.LoginResult *)
Record LoginOutcome := mkLoginOutcome {
  lr_AccessToken : string;
  lr_RefreshToken : string;
  lr_UserID : string;
  lr_Username : string;
  lr_MFARequired : bool;
  lr_MFAChallengeToken : string;
  lr_MFAMethods : list string
}.

Definition mfa_required (token : string) (methods : list string) : LoginOutcome :=
  mkLoginOutcome "" "" "" "" true token methods.

Section login.
Context `{TL : TextLib} `{UL : UuidLib} `{HL : HashLib} `{JL : JwtLib} `{OL : TotpLib} `{AL : AeadLib}.

Definition recordLoginAttempt (userID identityID : option uuid) (result : LoginResult) (ip ua : string) : Go unit :=
  db_stmt (RecordLoginAttempt userID identityID result (textOrNull ip) (textOrNull ua)) ;;;
  ret ().

Definition issueLoginSession (userID : uuid) (identityID : option uuid) (username : string)
    (role : UserRole) (ip ua : string) : Go (svc LoginOutcome) :=
  db_stmt (TouchUserLastLogin (Some userID)) ;;;
  let userIDStr := uuid_String userID in
  cfg <- get_cfg ;;
  tokens <- GenerateUserTokens userIDStr username (UserRole_string role) (cfg_AccessTTL cfg) (cfg_RefreshTTL cfg) ;;
  match tokens with
  | Err _ => ret (Fail TokenGenerationFailed)
  | Ok tokens =>
      let refreshHash := HashOpaqueToken (tp_RefreshToken tokens) in
      r <- CreateRefreshSessionInput
             (mkRefreshSessionInput (tp_SessionID tokens) (Some userID) (tp_RefreshExp tokens) refreshHash ip ua) ;;
      match r with
      | Err _ =>
          DeleteSession (tp_SessionID tokens) ;;;
          ret (Fail TokenGenerationFailed)
      | Ok _ =>
          recordLoginAttempt (Some userID) identityID LoginResultSuccess ip ua ;;;
          ret (Done (mkLoginOutcome (tp_AccessToken tokens) (tp_RefreshToken tokens) userIDStr username
                       false "" []))
      end
  end.

(** [identity.LockedAt.Valid && time.Since(identity.LockedAt.Time) < LoginLockDuration] *)
Definition locked_now (lockedAt : option Z) (cfg : Config) : Go bool :=
  match lockedAt with
  | None => ret false
  | Some at_ => t <- now ;; ret (t - at_ <? cfg_LoginLockDuration cfg)
  end.

(** The branch of a wrong password. *)
Definition login_wrong_password (identity : GetEmailAuthRow) (ip ua : string) : Go (svc LoginOutcome) :=
  recordLoginAttempt (Some (ea_UserID identity)) (Some (ea_IdentityID identity)) LoginResultFailed ip ua ;;;
  attempts <- db_stmt (IncrementFailedLoginAttempts (ea_IdentityID identity)) ;;
  cfg <- get_cfg ;;
  match attempts with
  | Err _ => ret (Fail InvalidCredentials)
  | Ok attempts =>
      if cfg_LoginMaxFailedAttempts cfg <=? int_Int attempts then
        db_stmt (LockAuthIdentity (ea_IdentityID identity)) ;;;
        ret (Fail InvalidCredentials)
      else ret (Fail InvalidCredentials)
  end.

(** The transparent upgrade of the stored hash, best effort. *)
Definition login_rehash (identity : GetEmailAuthRow) (password : string) : Go unit :=
  shouldRehash <- ShouldRehashActive (text_String (ea_PasswordHash identity)) ;;
  match shouldRehash with
  | Ok true =>
      newHash <- HashPasswordPHC password ;;
      match newHash with
      | Err _ => ret ()
      | Ok newHash => db_stmt (UpdatePasswordHash (Some newHash) (ea_IdentityID identity)) ;;; ret ()
      end
  | _ => ret ()
  end.

(** The part of [Login] after the password has been verified. *)
Definition login_verified (identity : GetEmailAuthRow) (password ip ua : string) : Go (svc LoginOutcome) :=
  if status_blocked (ea_Status identity) then
    recordLoginAttempt (Some (ea_UserID identity)) (Some (ea_IdentityID identity)) LoginResultFailed ip ua ;;;
    ret (Fail AccountNotUsable)
  else
    db_stmt (ResetFailedLoginAttempts (ea_IdentityID identity)) ;;;
    methods <- listEnabledMFAMethods (ea_UserID identity) ;;
    match methods with
    | Err _ => ret (Fail InternalServerError)
    | Ok [] =>
        login_rehash identity password ;;;
        issueLoginSession (ea_UserID identity) (Some (ea_IdentityID identity)) (ea_Username identity)
          (ea_Role identity) ip ua
    | Ok methods =>
        cfg <- get_cfg ;;
        challengeToken <- GenerateTemporaryJWT (uuid_String (ea_UserID identity)) RoleMFAPending
                            (cfg_MFAChallengeTTL cfg) ;;
        match challengeToken with
        | Err _ => ret (Fail InternalServerError)
        | Ok challengeToken =>
            recordLoginAttempt (Some (ea_UserID identity)) (Some (ea_IdentityID identity))
              LoginResultMfaRequired ip ua ;;;
            ret (Done (mfa_required challengeToken methods))
        end
    end.

Definition Login (ctx : Ctx) (email password : string) : Go (svc LoginOutcome) :=
  let emailParsed := ToLower (TrimSpace email) in
  let ip := ClientIPFromCtx ctx in
  let ua := UserAgentFromCtx ctx in
  if negb (IsValidEmail emailParsed) || String.eqb password "" || (256 <? len password) then
    VerifyDummyPassword password ;;;
    ret (Fail InvalidCredentials)
  else
    identity <- db_stmt (query (GetEmailAuthByEmail emailParsed)) ;;
    match identity with
    | Err err =>
        if negb (is_no_rows err) then ret (Fail InternalServerError)
        else
          VerifyDummyPassword password ;;;
          recordLoginAttempt None None LoginResultFailed ip ua ;;;
          ret (Fail InvalidCredentials)
    | Ok identity =>
        if is_valid (ea_DeletedAt identity) then
          VerifyDummyPassword password ;;;
          recordLoginAttempt (Some (ea_UserID identity)) (Some (ea_IdentityID identity)) LoginResultFailed ip ua ;;;
          ret (Fail InvalidCredentials)
        else
          cfg <- get_cfg ;;
          locked <- locked_now (ea_LockedAt identity) cfg ;;
          if (locked : bool) then
            VerifyDummyPassword password ;;;
            recordLoginAttempt (Some (ea_UserID identity)) (Some (ea_IdentityID identity)) LoginResultLocked ip ua ;;;
            ret (Fail AccountLocked)
          else
            ok <- VerifyPasswordPHC password (text_String (ea_PasswordHash identity)) true ;;
            match ok with
            | Err _ => ret (Fail InternalServerError)
            | Ok false => login_wrong_password identity ip ua
            | Ok true => login_verified identity password ip ua
            end
    end.

(** ** VerifyMFALogin *)

(** What one factor's check leaves: the answer of the whole request, or whether
    the caller is authenticated and which factor failed. *)
Inductive mfa_step :=
  | MStop (e : ErrorCode)
  | MGo (authenticated : bool) (failedFactorID : option uuid).

(** 1. TOTP *)
Definition mfa_try_totp (userPG : uuid) (codeParsed : string) : Go mfa_step :=
  totpFactor <- db_stmt (query (GetTOTPFactorByUserID (Some userPG))) ;;
  match totpFactor with
  | Err ferr => ret (if is_no_rows ferr then MGo false None else MStop InternalServerError)
  | Ok totpFactor =>
      secret <- DecryptMFASecret (text_String (mf_Secret totpFactor)) ;;
      match secret with
      | Err _ => ret (MStop InternalServerError)
      | Ok secret =>
          t <- now ;;
          let '(step, valid) := ValidateTOTPCode secret codeParsed (int_Int (mf_LastUsedStep totpFactor)) t in
          if (valid : bool) then
            db_stmt (RecordTOTPSuccess (Some step) (mf_ID totpFactor)) ;;;
            ret (MGo true None)
          else ret (MGo false (Some (mf_ID totpFactor)))
      end
  end.

(** 2. The emailed code *)
Definition mfa_try_email (userPG : uuid) (userID codeParsed : string) (failed : option uuid) : Go mfa_step :=
  emailFactor <- db_stmt (query (GetOTPFactorByUserID (Some userPG) MfaTypeEmail)) ;;
  match emailFactor with
  | Err ferr => ret (if is_no_rows ferr then MGo false failed else MStop InternalServerError)
  | Ok emailFactor =>
      meta <- GetMFAOTPCode "email" "login" userID ;;
      match meta with
      | Err _ => ret (MGo false (Some (mf_ID emailFactor)))
      | Ok meta =>
          t <- now ;;
          if otp_ExpiresAt meta <? t then ret (MGo false (Some (mf_ID emailFactor)))
          else if otp_MaxAttempts meta <=? otp_Attempts meta then ret (MGo false (Some (mf_ID emailFactor)))
          else if constantTimeEqual codeParsed (otp_Code meta) then
            db_stmt (RecordOTPFactorSuccess (mf_ID emailFactor)) ;;;
            DeleteMFAOTPCode "email" "login" userID ;;;
            ret (MGo true failed)
          else
            SaveMFAOTPCode "email" "login" userID (set_otp_Attempts (otp_Attempts meta + 1) meta) ;;;
            ret (MGo false (Some (mf_ID emailFactor)))
      end
  end.

(** 3. A recovery code *)
Definition mfa_try_recovery (codeParsed : string) (failed : option uuid) : Go mfa_step :=
  let codeHash := HashOpaqueToken (ToUpper codeParsed) in
  recoveryID <- db_stmt (query (GetUnusedMFARecoveryCode codeHash)) ;;
  match recoveryID with
  | Ok recoveryID =>
      db_stmt (MarkMFARecoveryCodeUsed recoveryID) ;;;
      ret (MGo true failed)
  | Err rcErr => ret (if is_no_rows rcErr then MGo false failed else MStop InternalServerError)
  end.

(** The three checks in their order, each skipped once one has succeeded. *)
Definition mfa_authenticate (methods : list string) (requestedMethod : string) (userPG : uuid)
    (userID codeParsed : string) : Go mfa_step :=
  let tryMethod m := String.eqb requestedMethod "" || String.eqb requestedMethod m in
  s1 <- (if tryMethod "totp" && mfaMethodEnabled methods "totp" then mfa_try_totp userPG codeParsed
         else ret (MGo false None)) ;;
  match s1 with
  | MStop e => ret (MStop e)
  | MGo authenticated failed =>
      s2 <- (if negb authenticated && tryMethod "email" && mfaMethodEnabled methods "email"
             then mfa_try_email userPG userID codeParsed failed
             else ret (MGo authenticated failed)) ;;
      match s2 with
      | MStop e => ret (MStop e)
      | MGo authenticated failed =>
          if negb authenticated then mfa_try_recovery codeParsed failed
          else ret (MGo authenticated failed)
      end
  end.

(** The tail of [VerifyMFALogin], once a factor has been checked. *)
Definition mfa_finish (ctx : Ctx) (userPG : uuid) (challengeSessionID : string) : Go (svc LoginOutcome) :=
  identity <- db_stmt (query (GetEmailAuthByUserID (Some userPG))) ;;
  match identity with
  | Err _ => ret (Fail InternalServerError)
  | Ok identity =>
      if not_usable (ea_DeletedAt identity) (ea_Status identity) then ret (Fail AccountNotUsable)
      else
        DeleteTemporarySession challengeSessionID ;;;
        issueLoginSession (ea_UserID identity) (Some (ea_IdentityID identity)) (ea_Username identity)
          (ea_Role identity) (ClientIPFromCtx ctx) (UserAgentFromCtx ctx)
  end.

Definition VerifyMFALogin (ctx : Ctx) (challengeToken method code : string) : Go (svc LoginOutcome) :=
  r <- VerifyAndParseTemporaryJWT ("Bearer " ++ challengeToken) RoleMFAPending ;;
  match r with
  | Err _ => ret (Fail InvalidOrExpiredToken)
  | Ok (userID, challengeSessionID) =>
      match parseUserID userID with
      | None => ret (Fail Unauthorized)
      | Some userPG =>
          let codeParsed := TrimSpace code in
          let requestedMethod := TrimSpace method in
          methods <- listEnabledMFAMethods userPG ;;
          match methods with
          | Err _ => ret (Fail InternalServerError)
          | Ok [] => ret (Fail MFANotEnabled)
          | Ok methods =>
              if negb (String.eqb requestedMethod "") && negb (mfaMethodEnabled methods requestedMethod) then
                ret (Fail InvalidMFAMethod)
              else
                s <- mfa_authenticate methods requestedMethod userPG userID codeParsed ;;
                match s with
                | MStop e => ret (Fail e)
                | MGo false failed =>
                    match failed with
                    | Some f => db_stmt (IncrementOTPFactorFailedAttempts f) ;;; ret (Fail InvalidMFACode)
                    | None => ret (Fail InvalidMFACode)
                    end
                | MGo true _ => mfa_finish ctx userPG challengeSessionID
                end
          end
      end
  end.
End login.
