(* ===== verification/Session.v ===== *)
(** * Sessions after login: refresh and logout

    services/refresh_token_service.go and services/logout_service.go. *)

From S2P Require Import Prelude.
From S2P Require Import GoLib.
From S2P Require Import Utils.
From S2P Require Import Model.
From S2P Require Import Runtime.
From S2P Require Import Queries.
From S2P Require Import Password.
From S2P Require Import Tokens.

#[local] Open Scope string_scope.
#[local] Open Scope Z_scope.
#[local] Open Scope go_scope.

Record RefreshTokenResult := mkRefreshTokenResult { rt_AccessToken : string; rt_RefreshToken : string }.

(** Comparing a stored value with a hash: the JSON text of a code record starts
    with a brace and is never one. *)
Definition rval_is (v : rval) (hash : string) : bool :=
  match v with RStr s => String.eqb s hash | ROTP _ => false end.

Section session_services.
Context `{UL : UuidLib} `{HL : HashLib} `{JL : JwtLib}.

Definition revokeCompromisedSession (sessionID : string) (sessionPG : uuid) : Go unit :=
  DeleteSession sessionID ;;;
  db_stmt (RevokeSession (Some sessionPG)) ;;;
  ret ().

(** The checks on the durable session row. *)
Definition session_mismatch (session : Session) (userID suppliedHash : string) : bool :=
  bool_Bool (se_Revoked session) || negb (String.eqb (ouuid_String (se_UserID session)) userID)
  || negb (String.eqb (text_String (se_RefreshTokenHash session)) suppliedHash).

Definition RefreshToken (sessionID userID rawRefreshToken : string) : Go (svc RefreshTokenResult) :=
  if String.eqb sessionID "" || String.eqb userID "" || String.eqb rawRefreshToken "" then
    ret (Fail Unauthorized)
  else match uuid_Parse sessionID with
  | None => ret (Fail Unauthorized)
  | Some sessionPG =>
      storedHash <- redis_Get ("refresh:" ++ sessionID) ;;
      match storedHash with
      | Err ErrRedisNil => ret (Fail SessionExpired)
      | Err _ => ret (Fail InternalServerError)
      | Ok storedHash =>
          let suppliedHash := HashOpaqueToken rawRefreshToken in
          if negb (rval_is storedHash suppliedHash) then
            revokeCompromisedSession sessionID sessionPG ;;;
            ret (Fail SessionExpired)
          else
            session <- db_stmt (query (GetRefreshSession (Some sessionPG))) ;;
            match session with
            | Err err => ret (Fail (if is_no_rows err then SessionExpired else InternalServerError))
            | Ok session =>
                if session_mismatch session userID suppliedHash then
                  revokeCompromisedSession sessionID sessionPG ;;;
                  ret (Fail SessionExpired)
                else
                  user <- db_stmt (query (GetUserByID (se_UserID session))) ;;
                  match user with
                  | Err err =>
                      if negb (is_no_rows err) then ret (Fail InternalServerError)
                      else revokeCompromisedSession sessionID sessionPG ;;; ret (Fail Unauthorized)
                  | Ok user =>
                      if not_usable (u_DeletedAt user) (u_Status user) then
                        revokeCompromisedSession sessionID sessionPG ;;;
                        ret (Fail AccountNotUsable)
                      else
                        cfg <- get_cfg ;;
                        tokens <- RotateSessionTokens sessionID (ouuid_String (se_UserID session))
                                    (u_Username user) (UserRole_string (u_Role user))
                                    (cfg_AccessTTL cfg) (cfg_RefreshTTL cfg) ;;
                        match tokens with
                        | Err _ => ret (Fail TokenGenerationFailed)
                        | Ok tokens =>
                            let newHash := HashOpaqueToken (tp_RefreshToken tokens) in
                            r <- db_stmt (RotateRefreshSession (Some newHash) (tp_RefreshExp tokens) (Some sessionPG)) ;;
                            match r with
                            | Err _ => ret (Fail TokenGenerationFailed)
                            | Ok _ => ret (Done (mkRefreshTokenResult (tp_AccessToken tokens) (tp_RefreshToken tokens)))
                            end
                        end
                  end
            end
      end
  end.

Definition Logout (sessionID : string) : Go (svc unit) :=
  if String.eqb sessionID "" then ret (Fail Unauthorized)
  else match uuid_Parse sessionID with
  | None => ret (Fail Unauthorized)
  | Some sessionUUID =>
      DeleteSession sessionID ;;;
      r <- db_stmt (RevokeSession (Some sessionUUID)) ;;
      match r with
      | Err _ => ret (Fail InternalServerError)
      | Ok _ => ret (Done ())
      end
  end.
End session_services.
