(* ===== verification/PasswordFlows.v ===== *)
(** * Forgotten and changed passwords

    services/password_reset_service.go, services/change_password_service.go,
    db/postgres/password_resets.go and db/postgres/change_password.go. *)

From S2P Require Import Prelude.
From S2P Require Import GoLib.
From S2P Require Import Utils.
From S2P Require Import Model.
From S2P Require Import Runtime.
From S2P Require Import Queries.
From S2P Require Import Password.
From S2P Require Import Tokens.
From S2P Require Import Codes.
From S2P Require Import Signup.
From S2P Require Import Mfa.

#[local] Open Scope string_scope.
#[local] Open Scope Z_scope.
#[local] Open Scope go_scope.

Section password_flows.
Context `{TL : TextLib} `{UL : UuidLib} `{HL : HashLib}.

Definition parsePasswordResetSource (source : string) : option ResetSource :=
  let s := ToLower (TrimSpace source) in
  if String.eqb s "" || String.eqb s "web" then Some ResetSourceWeb
  else if String.eqb s "mobile" then Some ResetSourceMobile
  else None.

(** Creating and sending the token: the part after the cooldown check. *)
Definition send_reset (userID : option uuid) (toEmail : string) (source : ResetSource) : Go (svc unit) :=
  rawToken <- RandomToken 32 ;;
  match rawToken with
  | Err _ => ret (Fail InternalServerError)
  | Ok rawToken =>
      t <- now ;;
      cfg <- get_cfg ;;
      r <- db_stmt (CreatePasswordReset userID (HashOpaqueToken rawToken) (t + cfg_PasswordResetTTL cfg) source) ;;
      match r with
      | Err _ => ret (Fail InternalServerError)
      | Ok _ =>
          sent <- SendPasswordResetEmail rawToken toEmail ;;
          match sent with
          | Err _ => ret (Fail InternalServerError)
          | Ok _ => ret (Done ())
          end
      end
  end.

Definition RequestPasswordReset (email source : string) : Go (svc unit) :=
  let emailParsed := ToLower (TrimSpace email) in
  if negb (IsValidEmail emailParsed) then ret (Fail InvalidEmailFormat)
  else match parsePasswordResetSource source with
  | None => ret (Fail InvalidPayload)
  | Some resetSource =>
      ident <- db_stmt (query (GetEmailAuthByEmail emailParsed)) ;;
      match ident with
      | Err err => ret (if negb (is_no_rows err) then Fail InternalServerError else Done ())
      | Ok ident =>
          if not_usable (ea_DeletedAt ident) (ea_Status ident) then ret (Done ())
          else
            lastCreated <- db_stmt (query (GetLatestPasswordResetForUser (Some (ea_UserID ident)))) ;;
            soon <- match lastCreated with
                    | Ok (Some created) => t <- now ;; ret (t - created <? regenerateWindow)
                    | _ => ret false
                    end ;;
            if (soon : bool) then ret (Done ())
            else send_reset (Some (ea_UserID ident)) emailParsed resetSource
      end
  end.

Definition CompletePasswordReset (resetID identityID : uuid) (userID : option uuid) (newPasswordHash : string)
    : Go (res unit) :=
  WithTx (
    r <- db_stmt (MarkPasswordResetUsed resetID) ;;
    match r with
    | Err err => ret (Err err)
    | Ok _ =>
        r <- db_stmt (UpdatePasswordHash (Some newPasswordHash) identityID) ;;
        match r with
        | Err err => ret (Err err)
        | Ok _ => db_stmt (RevokeAllUserSessions userID)
        end
    end).

Definition CompletePasswordChange (identityID userID currentSessionID : uuid) (newPasswordHash : string)
    : Go (res unit) :=
  WithTx (
    r <- db_stmt (UpdatePasswordHash (Some newPasswordHash) identityID) ;;
    match r with
    | Err err => ret (Err err)
    | Ok _ => db_stmt (RevokeAllOtherUserSessions (Some userID) (Some currentSessionID))
    end).

(** The session list of a failed lookup is nil. *)
Definition ids_of (r : res (list uuid)) : list uuid := match r with Ok l => l | Err _ => [] end.

Definition ResetPassword (rawToken newPassword confirmPassword : string) : Go (svc unit) :=
  let tokenParsed := TrimSpace rawToken in
  if String.eqb tokenParsed "" then ret (Fail InvalidOrExpiredToken)
  else if negb (IsValidPassword newPassword) then ret (Fail InvalidPasswordFormat)
  else if negb (String.eqb newPassword confirmPassword) then ret (Fail InvalidPasswordFormat)
  else
    reset <- db_stmt (query (GetActivePasswordReset (HashOpaqueToken tokenParsed))) ;;
    match reset with
    | Err err => ret (Fail (if negb (is_no_rows err) then InternalServerError else InvalidOrExpiredToken))
    | Ok reset =>
        ident <- db_stmt (query (GetEmailAuthByUserID (pr_UserID reset))) ;;
        match ident with
        | Err _ => ret (Fail InternalServerError)
        | Ok ident =>
            if not_usable (ea_DeletedAt ident) (ea_Status ident) then ret (Fail AccountNotUsable)
            else
              newHash <- HashPasswordPHC newPassword ;;
              match newHash with
              | Err _ => ret (Fail InternalServerError)
              | Ok newHash =>
                  sessionIDs <- db_stmt (query (ListActiveSessionIDs (pr_UserID reset))) ;;
                  r <- CompletePasswordReset (pr_ID reset) (ea_IdentityID ident) (pr_UserID reset) newHash ;;
                  match r with
                  | Err _ => ret (Fail InternalServerError)
                  | Ok _ =>
                      for_each (λ id, DeleteSession (uuid_String id)) (ids_of sessionIDs) ;;;
                      ret (Done ())
                  end
              end
        end
    end.

Definition ChangePassword (userID currentSessionID currentPassword newPassword confirmPassword : string)
    : Go (svc unit) :=
  if negb (IsValidPassword newPassword) then ret (Fail InvalidPasswordFormat)
  else if negb (String.eqb newPassword confirmPassword) then ret (Fail InvalidPasswordFormat)
  else match parseUserID userID, parseUserID currentSessionID with
  | Some userPG, Some sessionPG =>
      ident <- db_stmt (query (GetEmailAuthByUserID (Some userPG))) ;;
      match ident with
      | Err err => ret (Fail (if is_no_rows err then Unauthorized else InternalServerError))
      | Ok ident =>
          if not_usable (ea_DeletedAt ident) (ea_Status ident) then ret (Fail AccountNotUsable)
          else
            ok <- VerifyPasswordPHC currentPassword (text_String (ea_PasswordHash ident)) true ;;
            match ok with
            | Err _ => ret (Fail InternalServerError)
            | Ok false => ret (Fail InvalidCredentials)
            | Ok true =>
                same <- VerifyPasswordPHC newPassword (text_String (ea_PasswordHash ident)) true ;;
                if bool_decide (same = Ok true) then ret (Fail NewPasswordMatchesCurrent)
                else
                  newHash <- HashPasswordPHC newPassword ;;
                  match newHash with
                  | Err _ => ret (Fail InternalServerError)
                  | Ok newHash =>
                      sessionIDs <- db_stmt (query (ListActiveSessionIDs (Some userPG))) ;;
                      r <- CompletePasswordChange (ea_IdentityID ident) userPG sessionPG newHash ;;
                      match r with
                      | Err _ => ret (Fail InternalServerError)
                      | Ok _ =>
                          for_each (λ id, if String.eqb (uuid_String id) currentSessionID then ret (Ok ())
                                          else DeleteSession (uuid_String id)) (ids_of sessionIDs) ;;;
                          ret (Done ())
                      end
                  end
            end
      end
  | _, _ => ret (Fail Unauthorized)
  end.
End password_flows.
