(* ===== verification/Sso.v ===== *)
(** * Single sign-on

    auth/oidc.go, services/sso_service.go and db/postgres/sso.go. *)

From S2P Require Import Prelude.
From S2P Require Import GoLib.
From S2P Require Import Encoding.
From S2P Require Import Utils.
From S2P Require Import Model.
From S2P Require Import Runtime.
From S2P Require Import Queries.
From S2P Require Import Password.
From S2P Require Import Tokens.
From S2P Require Import Codes.
From S2P Require Import Login.

#[local] Open Scope string_scope.
#[local] Open Scope Z_scope.
#[local] Open Scope go_scope.

(** ** oidc.go *)

Definition GoogleIssuer : string := "https://accounts.google.com".
Definition AppleIssuer : string := "https://appleid.apple.com".

Record OIDCClaims := mkOIDCClaims { oc_Subject : string; oc_Email : string; oc_EmailVerified : bool }.

(** oidcRawClaims: the registered claims it reads, and the raw JSON of
    [email_verified] (empty when absent). *)
Record oidcRawClaims := mkOidcRawClaims { or_Subject : string; or_Email : string; or_EmailVerified : string }.

(** A provider key set, the JWT library applied to it ([oidc_Parse keySet now opts
    token]), and decoding of a JSON boolean or string. *)
Class OidcLib := {
  oidc_KeySet : Type;
  oidc_Parse : oidc_KeySet → Z → ParserOpts → string → res oidcRawClaims;
  json_bool : string → option bool;
  json_string : string → option string
}.

Section oidc.
Context `{OidcLib}.

Definition emailVerifiedBool (c : oidcRawClaims) : bool :=
  if Nat.eqb (String.length (or_EmailVerified c)) 0 then false
  else match json_bool (or_EmailVerified c) with
       | Some asBool => asBool
       | None => match json_string (or_EmailVerified c) with
                 | Some asString => String.eqb asString "true"
                 | None => false
                 end
       end.

Definition VerifyOIDCToken (idToken : string) (kf : oidc_KeySet) (wantIssuer wantAudience : string)
    : Go (res OIDCClaims) :=
  t <- now ;;
  match oidc_Parse kf t (mkParserOpts (Some wantIssuer) (Some wantAudience) true false) idToken with
  | Err _ => ret (Err (ErrMsg "invalid OIDC token"))
  | Ok claims =>
      if String.eqb (or_Subject claims) "" then ret (Err (ErrMsg "OIDC token missing subject claim"))
      else ret (Ok (mkOIDCClaims (or_Subject claims) (or_Email claims) (emailVerifiedBool claims)))
  end.
End oidc.

(** ** db/postgres/sso.go *)

Record CreatedSSOUser := mkCreatedSSOUser { cs_UserID : uuid; cs_IdentityID : uuid; cs_Username : string }.

Section sso.
Context `{TL : TextLib} `{UL : UuidLib} `{HL : HashLib} `{JL : JwtLib}.

Definition CreateSSOUserAndIdentity (email usernameDisplay : string) (origin : UserOrigin)
    (provider : ProviderName) (providerUserID : string) : Go (res CreatedSSOUser) :=
  WithTx (
    user <- db_stmt (CreateSSOUser email usernameDisplay (Some origin)) ;;
    match user with
    | Err err => ret (Err err)
    | Ok user =>
        identityID <- db_stmt (CreateSSOIdentity (Some (u_ID user)) provider providerUserID) ;;
        match identityID with
        | Err err => ret (Err err)
        | Ok identityID => ret (Ok (mkCreatedSSOUser (u_ID user) identityID (u_Username user)))
        end
    end).

(** ** sso_service.go *)

(** [usernameSanitizeRegexp.ReplaceAllString(s, "")]: drop what is not
    [a-zA-Z0-9._] *)
Definition usernameSanitize (s : string) : string := string_filter username_char s.

Definition username_base (email : string) : string :=
  let localPart := match Cut email "@" with
                   | Some (localPart, _) => if String.eqb localPart "" then "user" else localPart
                   | None => "user"
                   end in
  let base := usernameSanitize localPart in
  let base := Trim base "._" in
  let base := if 24 <? len base then String.substring 0 24 base else base in
  if len base <? 2 then "user" ++ base else base.

(** The loop from [attempt] on, [n] attempts left. *)
Fixpoint try_usernames (base : string) (attempt : N) (n : nat) : Go (res string) :=
  match n with
  | O => ret (Err (ErrMsg "could not generate a unique username after 20 attempts"))
  | S n =>
      let candidate := if (0 <? attempt)%N then base ++ print_nat attempt else base in
      taken <- db_stmt (query (UsernameExists candidate)) ;;
      match taken with
      | Err err => ret (Err err)
      | Ok false => ret (Ok candidate)
      | Ok true => try_usernames base (attempt + 1) n
      end
  end.

Definition generateUniqueUsernameFromEmail (email : string) : Go (res string) :=
  try_usernames (username_base email) 0 20.

Definition SSOLogin (ctx : Ctx) (provider : ProviderName) (origin : UserOrigin) (claims : OIDCClaims)
    : Go (svc LoginOutcome) :=
  if negb (oc_EmailVerified claims) then ret (Fail SSOEmailNotVerified)
  else
    let ip := ClientIPFromCtx ctx in
    let ua := UserAgentFromCtx ctx in
    identity <- db_stmt (query (GetIdentityByProvider provider (oc_Subject claims))) ;;
    match identity with
    | Ok identity =>
        if not_usable (ip_DeletedAt identity) (ip_Status identity) then ret (Fail AccountNotUsable)
        else issueLoginSession (ip_UserID identity) (Some (ip_IdentityID identity)) (ip_Username identity)
               (ip_Role identity) ip ua
    | Err err =>
        if negb (is_no_rows err) then ret (Fail InternalServerError)
        else
          r <- db_stmt (query (GetUserIDByEmail (oc_Email claims))) ;;
          match r with
          | Ok _ => ret (Fail SSOAccountConflict)
          | Err err =>
              if negb (is_no_rows err) then ret (Fail InternalServerError)
              else
                username <- generateUniqueUsernameFromEmail (oc_Email claims) ;;
                match username with
                | Err _ => ret (Fail InternalServerError)
                | Ok username =>
                    created <- CreateSSOUserAndIdentity (oc_Email claims) username origin provider
                                 (oc_Subject claims) ;;
                    match created with
                    | Err _ => ret (Fail InternalServerError)
                    | Ok created =>
                        issueLoginSession (cs_UserID created) (Some (cs_IdentityID created))
                          (cs_Username created) UserRoleUser ip ua
                    end
                end
          end
    end.
End sso.
