(* ===== verification/Maintenance.v ===== *)
(** * Scheduled maintenance: services/maintenance_service.go *)

From S2P Require Import Prelude.
From S2P Require Import GoLib.
From S2P Require Import Encoding.
From S2P Require Import Model.
From S2P Require Import Runtime.
From S2P Require Import Queries.

#[local] Open Scope string_scope.
#[local] Open Scope Z_scope.
#[local] Open Scope go_scope.

Record maintenanceJob := mkMaintenanceJob { job_name : string; job_run : Stmt unit }.

Definition jobs : list maintenanceJob :=
  [ mkMaintenanceJob "remove_expired_password_resets" RemoveExpiredPasswordResets;
    mkMaintenanceJob "remove_old_password_resets" RemoveOldPasswordResets;
    mkMaintenanceJob "remove_old_login_logs" RemoveOldLoginLogs;
    mkMaintenanceJob "remove_unverified_mfa_factors" RemoveUnverifiedMFAFactors;
    mkMaintenanceJob "revoke_expired_sessions" RevokeExpiredSessions;
    mkMaintenanceJob "revoke_old_sessions" RevokeOldSessions ].

(** The loop, with the names collected so far. *)
Fixpoint run_jobs (js : list maintenanceJob) (failed : list string) : Go (list string) :=
  match js with
  | [] => ret failed
  | job :: js =>
      r <- db_stmt (job_run job) ;;
      match r with
      | Err _ => run_jobs js (failed ++ [job_name job])%list
      | Ok _ => run_jobs js failed
      end
  end.

(** [fmt.Errorf("%d maintenance job(s) failed: %v", ...)] *)
Definition maintenance_error (failed : list string) : error :=
  ErrMsg (print_nat (N.of_nat (length failed)) ++ " maintenance job(s) failed: ["
          ++ Join failed " " ++ "]").

Definition RunMaintenance : Go (res unit) :=
  failed <- run_jobs jobs [] ;;
  if (0 <? length failed)%nat then ret (Err (maintenance_error failed)) else ret (Ok ()).
