(* ===== verification/Admin.v ===== *)
(** * The admin API: services/admin_service.go and db/postgres/admin.go *)

From S2P Require Import Prelude.
From S2P Require Import GoLib.
From S2P Require Import Utils.
From S2P Require Import Model.
From S2P Require Import Runtime.
From S2P Require Import Queries.
From S2P Require Import Password.
From S2P Require Import Tokens.
From S2P Require Import Codes.
From S2P Require Import Mfa.
From S2P Require Import PasswordFlows.

#[local] Open Scope string_scope.
#[local] Open Scope Z_scope.
#[local] Open Scope go_scope.

Definition defaultAdminPageLimit : Z := 25.
Definition maxAdminPageLimit : Z := 100.

Record AdminUser := mkAdminUser {
  au_ID : string;
  au_Email : string;
  au_Username : string;
  au_DisplayName : string;
  au_Status : string;
  au_Role : string;
  au_CreatedAt : string;
  au_LastLogin : string;
  au_DeletedAt : string
}.

Record AdminListUsersParams := mkAdminListUsersParams {
  lp_Search : string;
  lp_Status : string;
  lp_Role : string;
  lp_Limit : Z;
  lp_Offset : Z
}.

Record AdminListUsersResult := mkAdminListUsersResult { lu_Users : list AdminUser; lu_Total : Z }.

Record AuditLogEntry := mkAuditLogEntry {
  ale_ID : string;
  ale_ActorID : string;
  ale_ActorUsername : string;
  ale_ActorEmail : string;
  ale_TargetUserID : string;
  ale_TargetUsername : string;
  ale_TargetEmail : string;
  ale_Action : AuditAction;
  ale_Changes : option changes;
  ale_Reason : string;
  ale_IP : string;
  ale_UserAgent : string;
  ale_CreatedAt : string
}.

Record AdminListAuditLogsResult := mkAdminListAuditLogsResult { la_Entries : list AuditLogEntry; la_Total : Z }.

(** [t.Format(time.RFC3339)] *)
Class TimeLib := { format_RFC3339 : Z → string }.

Section admin.
Context `{TL : TextLib} `{UL : UuidLib} `{HL : HashLib} `{CL : TimeLib}.

(** ** Helpers *)

Definition formatTimestamptz (t : option Z) : string :=
  match t with None => "" | Some t => format_RFC3339 t end.

Definition uuidOrEmpty (id : option uuid) : string :=
  match id with None => "" | Some id => uuid_String id end.

Definition parseUserStatus (s : string) : option UserStatus :=
  let s := ToLower (TrimSpace s) in
  if String.eqb s "active" then Some UserStatusActive
  else if String.eqb s "offline" then Some UserStatusOffline
  else if String.eqb s "disabled" then Some UserStatusDisabled
  else if String.eqb s "banned" then Some UserStatusBanned
  else None.

Definition parseUserRole (s : string) : option UserRole :=
  let s := ToLower (TrimSpace s) in
  if String.eqb s "user" then Some UserRoleUser
  else if String.eqb s "moderator" then Some UserRoleModerator
  else if String.eqb s "admin" then Some UserRoleAdmin
  else None.

Definition auditRequestMeta (ctx : Ctx) : option string * option string :=
  (textOrNull (ClientIPFromCtx ctx), textOrNull (UserAgentFromCtx ctx)).

Definition status_text (s : option UserStatus) : string := default "" (UserStatus_string <$> s).

Definition adminUserFromRow (row : User) : AdminUser :=
  mkAdminUser (uuid_String (u_ID row)) (u_Email row) (u_Username row) (u_UsernameDisplay row)
    (status_text (u_Status row)) (UserRole_string (u_Role row)) (formatTimestamptz (u_CreatedAt row))
    (formatTimestamptz (u_LastLogin row)) (formatTimestamptz (u_DeletedAt row)).

(** ** Reading *)

(** The page size and offset both listings use. *)
Definition page_limit (limit : Z) : Z :=
  if (limit <=? 0) || (maxAdminPageLimit <? limit) then defaultAdminPageLimit else limit.
Definition page_offset (offset : Z) : Z := if offset <? 0 then 0 else offset.
Definition int32 (x : Z) : Z := wrap_signed 32 x.

Definition ListUsers (params : AdminListUsersParams) : Go (svc AdminListUsersResult) :=
  let limit := page_limit (lp_Limit params) in
  let offset := page_offset (lp_Offset params) in
  let status := TrimSpace (lp_Status params) in
  let statusFilter := if String.eqb status "" then Some None else Some <$> parseUserStatus status in
  match statusFilter with
  | None => ret (Fail InvalidPayload)
  | Some statusFilter =>
      let role := TrimSpace (lp_Role params) in
      let roleFilter := if String.eqb role "" then Some None else Some <$> parseUserRole role in
      match roleFilter with
      | None => ret (Fail InvalidRole)
      | Some roleFilter =>
          let f := mkUserFilter (textOrNull (TrimSpace (lp_Search params))) statusFilter roleFilter in
          rows <- db_stmt (query (Queries.ListUsers f (int32 offset) (int32 limit))) ;;
          match rows with
          | Err _ => ret (Fail InternalServerError)
          | Ok rows =>
              total <- db_stmt (query (CountUsers f)) ;;
              match total with
              | Err _ => ret (Fail InternalServerError)
              | Ok total => ret (Done (mkAdminListUsersResult (List.map adminUserFromRow rows) total))
              end
          end
      end
  end.

Definition GetUser (targetUserID : string) : Go (svc AdminUser) :=
  match parseUserID targetUserID with
  | None => ret (Fail UserNotFound)
  | Some targetPG =>
      row <- db_stmt (query (GetUserByIDAdmin (Some targetPG))) ;;
      match row with
      | Err err => ret (Fail (if is_no_rows err then UserNotFound else InternalServerError))
      | Ok row => ret (Done (adminUserFromRow row))
      end
  end.

Definition audit_entry (row : AuditLog) : AuditLogEntry :=
  mkAuditLogEntry (uuid_String (al_ID row)) (uuidOrEmpty (al_ActorID row)) (text_String (al_ActorUsername row))
    (text_String (al_ActorEmail row)) (uuidOrEmpty (al_TargetUserID row)) (text_String (al_TargetUsername row))
    (text_String (al_TargetEmail row)) (al_Action row) (al_Changes row) (text_String (al_Reason row))
    (text_String (al_Ip row)) (text_String (al_UserAgent row)) (formatTimestamptz (al_CreatedAt row)).

Definition ListAuditLogs (targetUserID : string) (limit offset : Z) : Go (svc AdminListAuditLogsResult) :=
  let limit := page_limit limit in
  let offset := page_offset offset in
  let targetFilter := if String.eqb targetUserID "" then Some None else Some <$> parseUserID targetUserID in
  match targetFilter with
  | None => ret (Fail UserNotFound)
  | Some targetFilter =>
      rows <- db_stmt (query (Queries.ListAuditLogs targetFilter (int32 offset) (int32 limit))) ;;
      match rows with
      | Err _ => ret (Fail InternalServerError)
      | Ok rows =>
          total <- db_stmt (query (CountAuditLogs targetFilter)) ;;
          match total with
          | Err _ => ret (Fail InternalServerError)
          | Ok total => ret (Done (mkAdminListAuditLogsResult (List.map audit_entry rows) total))
          end
      end
  end.

(** ** Mutations *)

Definition loadAdminTarget (actorID targetUserID : string) : Go (svc (User * uuid)) :=
  match parseUserID targetUserID with
  | None => ret (Fail UserNotFound)
  | Some targetPG =>
      if bool_decide (parseUserID actorID = Some targetPG) then ret (Fail CannotTargetSelf)
      else
        target <- db_stmt (query (GetUserByIDAdmin (Some targetPG))) ;;
        match target with
        | Err err => ret (Fail (if is_no_rows err then UserNotFound else InternalServerError))
        | Ok target =>
            if bool_decide (u_Role target = UserRoleAdmin) then ret (Fail AdminProtected)
            else ret (Done (target, targetPG))
        end
  end.

(** The audit row of an admin action. *)
Definition admin_audit (ctx : Ctx) (actorID actorUsername : string) (target : User) (targetPG : uuid)
    (action : AuditAction) (reason : option string) : CreateAuditLogParams :=
  let '(ip, ua) := auditRequestMeta ctx in
  mkCreateAuditLogParams (parseUserID actorID) (textOrNull actorUsername) (Some targetPG)
    (textOrNull (u_Username target)) (textOrNull (u_Email target)) action reason ip ua.

(** The loop that clears the Redis entries of revoked sessions. *)
Definition delete_sessions (ids : list uuid) : Go unit :=
  for_each (λ id, DeleteSession (uuid_String id)) ids.

Definition setUserStatusAction (ctx : Ctx) (actorID actorUsername targetUserID reason : string)
    (status : UserStatus) (action : AuditAction) (revokeSessions : bool) : Go (svc unit) :=
  t <- loadAdminTarget actorID targetUserID ;;
  match t with
  | Fail e => ret (Fail e)
  | Done (target, targetPG) =>
      sessionIDs <- (if revokeSessions then db_stmt (query (ListActiveSessionIDs (Some targetPG)))
                     else ret (Ok [])) ;;
      let reasonText := textOrNull (TrimSpace reason) in
      r <- WithActor actorID (
             r <- db_stmt (SetUserStatus (Some status) (Some targetPG)) ;;
             match r with
             | Err err => ret (Err err)
             | Ok _ =>
                 r <- (if revokeSessions then db_stmt (RevokeAllUserSessions (Some targetPG)) else ret (Ok ())) ;;
                 match r with
                 | Err err => ret (Err err)
                 | Ok _ => db_stmt (CreateAuditLog (admin_audit ctx actorID actorUsername target targetPG action reasonText))
                 end
             end) ;;
      match r with
      | Err _ => ret (Fail InternalServerError)
      | Ok _ => delete_sessions (ids_of sessionIDs) ;;; ret (Done ())
      end
  end.

Definition BanUser (ctx : Ctx) (actorID actorUsername targetUserID reason : string) : Go (svc unit) :=
  setUserStatusAction ctx actorID actorUsername targetUserID reason UserStatusBanned AuditActionUserBan true.
Definition UnbanUser (ctx : Ctx) (actorID actorUsername targetUserID reason : string) : Go (svc unit) :=
  setUserStatusAction ctx actorID actorUsername targetUserID reason UserStatusActive AuditActionUserUnban false.
Definition DisableUser (ctx : Ctx) (actorID actorUsername targetUserID reason : string) : Go (svc unit) :=
  setUserStatusAction ctx actorID actorUsername targetUserID reason UserStatusDisabled AuditActionChangeStatus true.
Definition EnableUser (ctx : Ctx) (actorID actorUsername targetUserID reason : string) : Go (svc unit) :=
  setUserStatusAction ctx actorID actorUsername targetUserID reason UserStatusActive AuditActionChangeStatus false.

Definition ForceLogoutUser (ctx : Ctx) (actorID actorUsername targetUserID reason : string) : Go (svc unit) :=
  t <- loadAdminTarget actorID targetUserID ;;
  match t with
  | Fail e => ret (Fail e)
  | Done (target, targetPG) =>
      sessionIDs <- db_stmt (query (ListActiveSessionIDs (Some targetPG))) ;;
      let reasonText := match textOrNull (TrimSpace reason) with
                        | None => Some "All sessions revoked by admin"
                        | Some s => Some s
                        end in
      r <- WithActor actorID (
             r <- db_stmt (RevokeAllUserSessions (Some targetPG)) ;;
             match r with
             | Err err => ret (Err err)
             | Ok _ => db_stmt (CreateAuditLog (admin_audit ctx actorID actorUsername target targetPG AuditActionAdminNote reasonText))
             end) ;;
      match r with
      | Err _ => ret (Fail InternalServerError)
      | Ok _ => delete_sessions (ids_of sessionIDs) ;;; ret (Done ())
      end
  end.

Definition ChangeUserRole (ctx : Ctx) (actorID actorUsername targetUserID newRole : string) : Go (svc unit) :=
  match parseUserRole newRole with
  | None => ret (Fail InvalidRole)
  | Some role =>
      t <- loadAdminTarget actorID targetUserID ;;
      match t with
      | Fail e => ret (Fail e)
      | Done (target, targetPG) =>
          if bool_decide (role = UserRoleAdmin) then ret (Fail AdminProtected)
          else
            r <- WithActor actorID (
                   r <- db_stmt (SetUserRole role (Some targetPG)) ;;
                   match r with
                   | Err err => ret (Err err)
                   | Ok _ =>
                       db_stmt (CreateAuditLog (admin_audit ctx actorID actorUsername target targetPG
                         AuditActionChangeRole
                         (textOrNull ("Role changed to " ++ UserRole_string role ++ " by admin"))))
                   end) ;;
            match r with
            | Err _ => ret (Fail InternalServerError)
            | Ok _ => ret (Done ())
            end
      end
  end.

Definition DeleteUser (ctx : Ctx) (actorID actorUsername targetUserID reason : string) : Go (svc unit) :=
  t <- loadAdminTarget actorID targetUserID ;;
  match t with
  | Fail e => ret (Fail e)
  | Done (target, targetPG) =>
      sessionIDs <- db_stmt (query (ListActiveSessionIDs (Some targetPG))) ;;
      let reasonText := textOrNull (TrimSpace reason) in
      r <- WithActor actorID (
             r <- db_stmt (SoftDeleteUser (Some targetPG)) ;;
             match r with
             | Err err => ret (Err err)
             | Ok _ =>
                 r <- db_stmt (RevokeAllUserSessions (Some targetPG)) ;;
                 match r with
                 | Err err => ret (Err err)
                 | Ok _ => db_stmt (CreateAuditLog (admin_audit ctx actorID actorUsername target targetPG AuditActionUserDeleted reasonText))
                 end
             end) ;;
      match r with
      | Err _ => ret (Fail InternalServerError)
      | Ok _ => delete_sessions (ids_of sessionIDs) ;;; ret (Done ())
      end
  end.

Definition AdminResetUserPassword (ctx : Ctx) (actorID actorUsername targetUserID : string) : Go (svc unit) :=
  t <- loadAdminTarget actorID targetUserID ;;
  match t with
  | Fail e => ret (Fail e)
  | Done (target, targetPG) =>
      rawToken <- RandomToken 32 ;;
      match rawToken with
      | Err _ => ret (Fail InternalServerError)
      | Ok rawToken =>
          t <- now ;;
          cfg <- get_cfg ;;
          r <- db_stmt (CreatePasswordReset (Some targetPG) (HashOpaqueToken rawToken)
                          (t + cfg_PasswordResetTTL cfg) ResetSourceAdmin) ;;
          match r with
          | Err _ => ret (Fail InternalServerError)
          | Ok _ =>
              db_stmt (CreateAuditLog (admin_audit ctx actorID actorUsername target targetPG AuditActionAdminNote
                                         (textOrNull "Password reset link sent by admin"))) ;;;
              sent <- SendPasswordResetEmail rawToken (u_Email target) ;;
              match sent with
              | Err _ => ret (Fail InternalServerError)
              | Ok _ => ret (Done ())
              end
          end
      end
  end.
End admin.
