(* ===== verification/Passkey.v ===== *)
(** * Passkeys

    auth/webauthn_session.go, auth/webauthn_user.go and
    services/passkey_service.go.  The WebAuthn library is a parameter; its
    login ceremony is an interaction, since it calls back into the service to
    find the account the authenticator names. *)

From S2P Require Import Prelude.
From S2P Require Import GoLib.
From S2P Require Import Utils.
From S2P Require Import Model.
From S2P Require Import Runtime.
From S2P Require Import Queries.
From S2P Require Import Password.
From S2P Require Import Tokens.
From S2P Require Import Codes.
From S2P Require Import Mfa.
From S2P Require Import Login.
From S2P Require Import Admin.

#[local] Open Scope string_scope.
#[local] Open Scope Z_scope.
#[local] Open Scope go_scope.

(** auth.WebAuthnUser *)
Record WebAuthnUser (Credential : Type) := mkWebAuthnUser {
  wu_ID : string;
  wu_Username : string;
  wu_DisplayName : string;
  wu_Credentials : list Credential
}.
Arguments mkWebAuthnUser {_}.
Arguments wu_ID {_}.
Arguments wu_Username {_}.
Arguments wu_DisplayName {_}.
Arguments wu_Credentials {_}.

(** The login ceremony of the library either fails on its own or calls the
    handler once, with the credential id and the user handle, and goes on with
    the user it answers. *)
Inductive PasskeyCall (Credential : Type) :=
  | PkFail (err : error)
  | PkCall (rawID userHandle : string) (k : WebAuthnUser Credential → res Credential).
Arguments PkFail {_} _.
Arguments PkCall {_} _ _ _.

(** [github.com/go-webauthn/webauthn] and the JSON of its types. *)
Class WebAuthnLib := {
  WebAuthn : Type;
  SessionData : Type;
  Credential : Type;
  CredentialDescriptor : Type;
  CredentialCreation : Type;
  CredentialAssertion : Type;
  Request : Type;
  session_Marshal : SessionData → res string;
  session_Unmarshal : string → res SessionData;
  cred_Marshal : Credential → res string;
  cred_Unmarshal : string → res Credential;
  cred_ID : Credential → string;
  cred_Descriptor : Credential → CredentialDescriptor;
  wa_BeginRegistration : WebAuthn → res string → WebAuthnUser Credential → list CredentialDescriptor →
    res (CredentialCreation * SessionData);
  wa_FinishRegistration : WebAuthn → Z → WebAuthnUser Credential → SessionData → Request → res Credential;
  wa_BeginDiscoverableLogin : WebAuthn → res string → res (CredentialAssertion * SessionData);
  wa_FinishPasskeyLogin : WebAuthn → Z → SessionData → Request → PasskeyCall Credential
}.

(** Documented behaviour: a login is accepted only for the account the handle
    names, with one of its credentials. *)
Class WebAuthnLaws (W : WebAuthnLib) := {
  wa_login_owned : ∀ wa t s r raw handle k u c,
    wa_FinishPasskeyLogin wa t s r = PkCall raw handle k → k u = Ok c →
    wu_ID u = handle ∧ ∃ c0, c0 ∈ wu_Credentials u ∧ cred_ID c0 = cred_ID c
}.

Record PasskeyLoginChallenge `{WebAuthnLib} := mkPasskeyLoginChallenge {
  plc_CeremonyID : string;
  plc_Options : CredentialAssertion
}.

Record PasskeyInfo := mkPasskeyInfo {
  pi_ID : string;
  pi_Name : string;
  pi_CreatedAt : string;
  pi_LastUsedAt : string
}.

Section passkey.
Context `{TL : TextLib} `{UL : UuidLib} `{HL : HashLib} `{JL : JwtLib} `{WL : WebAuthnLib} `{CL : TimeLib}.

(** ** webauthn_session.go *)

Definition webauthnSessionTTL : Z := 5 * Minute.

Definition saveWebAuthnSession (key : string) (session : SessionData) : Go (res unit) :=
  match session_Marshal session with
  | Err err => ret (Err err)
  | Ok data => redis_Set key (RStr data) webauthnSessionTTL
  end.

Definition getWebAuthnSession (key : string) : Go (res SessionData) :=
  r <- redis_Get key ;;
  match r with
  | Err err => ret (Err err)
  | Ok (RStr val) => ret (session_Unmarshal val)
  | Ok (ROTP _) => ret (Err (ErrMsg "json: cannot unmarshal"))
  end.

Definition SaveWebAuthnRegistrationSession (userID : string) := saveWebAuthnSession ("webauthn_reg:" ++ userID).
Definition GetWebAuthnRegistrationSession (userID : string) := getWebAuthnSession ("webauthn_reg:" ++ userID).
Definition DeleteWebAuthnRegistrationSession (userID : string) : Go (res unit) :=
  redis_Del ["webauthn_reg:" ++ userID].
Definition SaveWebAuthnLoginSession (ceremonyID : string) := saveWebAuthnSession ("webauthn_login:" ++ ceremonyID).
Definition GetWebAuthnLoginSession (ceremonyID : string) := getWebAuthnSession ("webauthn_login:" ++ ceremonyID).
Definition DeleteWebAuthnLoginSession (ceremonyID : string) : Go (res unit) :=
  redis_Del ["webauthn_login:" ++ ceremonyID].

(** ** passkey_service.go *)

Fixpoint unmarshal_credentials (rows : list WebauthnCredential) : res (list Credential) :=
  match rows with
  | [] => Ok []
  | row :: rows =>
      match cred_Unmarshal (wc_Credential row) with
      | Err err => Err err
      | Ok c => match unmarshal_credentials rows with
                | Err err => Err err
                | Ok l => Ok (c :: l)
                end
      end
  end.

Definition loadWebAuthnUser (userID : uuid) (username : string)
    : Go (res (WebAuthnUser Credential * list WebauthnCredential)) :=
  rows <- db_stmt (query (GetWebAuthnCredentialsByUserID (Some userID))) ;;
  match rows with
  | Err err => ret (Err err)
  | Ok rows =>
      match unmarshal_credentials rows with
      | Err err => ret (Err err)
      | Ok creds => ret (Ok (mkWebAuthnUser (uuid_Bytes userID) username username creds, rows))
      end
  end.

Definition BeginPasskeyRegistration (webAuthn : option WebAuthn) (userID username : string)
    : Go (svc CredentialCreation) :=
  match webAuthn with
  | None => ret (Fail PasskeyNotConfigured)
  | Some webAuthn =>
      match parseUserID userID with
      | None => ret (Fail Unauthorized)
      | Some userPG =>
          waUser <- loadWebAuthnUser userPG username ;;
          match waUser with
          | Err _ => ret (Fail InternalServerError)
          | Ok (waUser, _) =>
              let exclusions := List.map cred_Descriptor (wu_Credentials waUser) in
              seed <- rand_read 32 ;;
              match wa_BeginRegistration webAuthn seed waUser exclusions with
              | Err _ => ret (Fail InternalServerError)
              | Ok (creation, session) =>
                  r <- SaveWebAuthnRegistrationSession userID session ;;
                  match r with
                  | Err _ => ret (Fail InternalServerError)
                  | Ok _ => ret (Done creation)
                  end
              end
          end
      end
  end.

Definition isUniqueViolation (err : error) : bool := bool_decide (err = ErrUniqueViolation).

Definition self_audit (userPG : uuid) (username : option string) (reason : string) : CreateAuditLogParams :=
  mkCreateAuditLogParams None None (Some userPG) username None AuditActionMfaChange (textOrNull reason) None None.

Definition FinishPasskeyRegistration (webAuthn : option WebAuthn) (userID username name : string) (r : Request)
    : Go (svc unit) :=
  match webAuthn with
  | None => ret (Fail PasskeyNotConfigured)
  | Some webAuthn =>
      match parseUserID userID with
      | None => ret (Fail Unauthorized)
      | Some userPG =>
          session <- GetWebAuthnRegistrationSession userID ;;
          match session with
          | Err _ => ret (Fail InvalidOrExpiredToken)
          | Ok session =>
              waUser <- loadWebAuthnUser userPG username ;;
              match waUser with
              | Err _ => ret (Fail InternalServerError)
              | Ok (waUser, _) =>
                  t <- now ;;
                  match wa_FinishRegistration webAuthn t waUser session r with
                  | Err _ => ret (Fail PasskeyChallengeFailed)
                  | Ok cred =>
                      match cred_Marshal cred with
                      | Err _ => ret (Fail InternalServerError)
                      | Ok credJSON =>
                          c <- db_stmt (CreateWebAuthnCredential userPG (cred_ID cred)
                                          (textOrNull (TrimSpace name)) credJSON) ;;
                          match c with
                          | Err err => ret (Fail (if isUniqueViolation err then PasskeyAlreadyRegistered
                                                  else InternalServerError))
                          | Ok _ =>
                              DeleteWebAuthnRegistrationSession userID ;;;
                              db_stmt (CreateAuditLog (self_audit userPG (textOrNull username) "Passkey registered")) ;;;
                              ret (Done ())
                          end
                      end
                  end
              end
          end
      end
  end.

Definition BeginPasskeyLogin (webAuthn : option WebAuthn) : Go (svc PasskeyLoginChallenge) :=
  match webAuthn with
  | None => ret (Fail PasskeyNotConfigured)
  | Some webAuthn =>
      seed <- rand_read 32 ;;
      match wa_BeginDiscoverableLogin webAuthn seed with
      | Err _ => ret (Fail InternalServerError)
      | Ok (assertion, session) =>
          ceremonyID <- RandomToken 32 ;;
          match ceremonyID with
          | Err _ => ret (Fail InternalServerError)
          | Ok ceremonyID =>
              r <- SaveWebAuthnLoginSession ceremonyID session ;;
              match r with
              | Err _ => ret (Fail InternalServerError)
              | Ok _ => ret (Done (mkPasskeyLoginChallenge _ ceremonyID assertion))
              end
          end
      end
  end.

(** The [handler] closure: what it answers and, through its captured variables,
    the resolved account or the lookup error. *)
Inductive handler_result :=
  | HandleBadLength
  | HandleLookupErr (err : error)
  | HandleUser (u : WebAuthnUser Credential) (user : User) (uid : uuid) (rows : list WebauthnCredential).

Definition passkey_handler (userHandle : string) : Go handler_result :=
  if negb (Nat.eqb (String.length userHandle) 16) then ret HandleBadLength
  else
    let uid := MkUUID userHandle in
    userRow <- db_stmt (query (GetUserForWebAuthnLogin (Some uid))) ;;
    match userRow with
    | Err err => ret (HandleLookupErr err)
    | Ok userRow =>
        r <- loadWebAuthnUser uid (u_Username userRow) ;;
        match r with
        | Err err => ret (HandleLookupErr err)
        | Ok (waUser, rows) => ret (HandleUser waUser userRow uid rows)
        end
    end.

(** The loop that writes the updated credential back to its row. *)
Fixpoint update_used_credential (rows : list WebauthnCredential) (id credJSON : string) : Go unit :=
  match rows with
  | [] => ret ()
  | row :: rows =>
      if String.eqb (wc_CredentialID row) id then
        db_stmt (UpdateWebAuthnCredential credJSON (wc_ID row)) ;;; ret ()
      else update_used_credential rows id credJSON
  end.

(** The part of [FinishPasskeyLogin] after the assertion has been verified. *)
Definition passkey_finish (ctx : Ctx) (ceremonyID : string) (user : User) (uid : uuid)
    (rows : list WebauthnCredential) (cred : Credential) : Go (svc LoginOutcome) :=
  if not_usable (u_DeletedAt user) (u_Status user) then ret (Fail AccountNotUsable)
  else match cred_Marshal cred with
  | Err _ => ret (Fail InternalServerError)
  | Ok credJSON =>
      update_used_credential rows (cred_ID cred) credJSON ;;;
      DeleteWebAuthnLoginSession ceremonyID ;;;
      issueLoginSession uid None (u_Username user) (u_Role user) (ClientIPFromCtx ctx) (UserAgentFromCtx ctx)
  end.

Definition FinishPasskeyLogin (ctx : Ctx) (webAuthn : option WebAuthn) (ceremonyID : string) (r : Request)
    : Go (svc LoginOutcome) :=
  match webAuthn with
  | None => ret (Fail PasskeyNotConfigured)
  | Some webAuthn =>
      session <- GetWebAuthnLoginSession ceremonyID ;;
      match session with
      | Err _ => ret (Fail InvalidOrExpiredToken)
      | Ok session =>
          t <- now ;;
          match wa_FinishPasskeyLogin webAuthn t session r with
          | PkFail _ => ret (Fail PasskeyChallengeFailed)
          | PkCall rawID userHandle k =>
              h <- passkey_handler userHandle ;;
              match h with
              | HandleBadLength => ret (Fail PasskeyChallengeFailed)
              | HandleLookupErr _ => ret (Fail InternalServerError)
              | HandleUser waUser user uid rows =>
                  match k waUser with
                  | Err _ => ret (Fail PasskeyChallengeFailed)
                  | Ok cred => passkey_finish ctx ceremonyID user uid rows cred
                  end
              end
          end
      end
  end.

Definition ListPasskeys (userID : string) : Go (svc (list PasskeyInfo)) :=
  match parseUserID userID with
  | None => ret (Fail Unauthorized)
  | Some userPG =>
      rows <- db_stmt (query (GetWebAuthnCredentialsByUserID (Some userPG))) ;;
      match rows with
      | Err _ => ret (Fail InternalServerError)
      | Ok rows =>
          ret (Done (List.map (λ row, mkPasskeyInfo (uuid_String (wc_ID row)) (text_String (wc_Name row))
                                (formatTimestamptz (wc_CreatedAt row))
                                (formatTimestamptz (wc_LastUsedAt row))) rows))
      end
  end.

Fixpoint owns_row (rows : list WebauthnCredential) (pkPG : uuid) : bool :=
  match rows with
  | [] => false
  | row :: rows => if decide (wc_ID row = pkPG) then true else owns_row rows pkPG
  end.

Definition userOwnsPasskey (userPG pkPG : uuid) : Go bool :=
  rows <- db_stmt (query (GetWebAuthnCredentialsByUserID (Some userPG))) ;;
  match rows with
  | Err _ => ret false
  | Ok rows => ret (owns_row rows pkPG)
  end.

Definition RenamePasskey (userID passkeyID name : string) : Go (svc unit) :=
  match parseUserID userID with
  | None => ret (Fail Unauthorized)
  | Some userPG =>
      match parseUserID passkeyID with
      | None => ret (Fail PasskeyNotFound)
      | Some pkPG =>
          let nameTrimmed := TrimSpace name in
          if String.eqb nameTrimmed "" then ret (Fail InvalidPayload)
          else
            owns <- userOwnsPasskey userPG pkPG ;;
            if negb owns then ret (Fail PasskeyNotFound)
            else
              r <- db_stmt (RenameWebAuthnCredential (Some nameTrimmed) (Some pkPG) (Some userPG)) ;;
              match r with
              | Err _ => ret (Fail InternalServerError)
              | Ok _ => ret (Done ())
              end
      end
  end.

Definition DeletePasskey (userID currentPassword passkeyID : string) : Go (svc unit) :=
  match parseUserID userID with
  | None => ret (Fail Unauthorized)
  | Some userPG =>
      match parseUserID passkeyID with
      | None => ret (Fail PasskeyNotFound)
      | Some pkPG =>
          re <- verifyCurrentPasswordForFactorAction userPG currentPassword ;;
          match re with
          | Fail e => ret (Fail e)
          | Done _ =>
              owns <- userOwnsPasskey userPG pkPG ;;
              if negb owns then ret (Fail PasskeyNotFound)
              else
                r <- db_stmt (DeleteWebAuthnCredential (Some pkPG) (Some userPG)) ;;
                match r with
                | Err _ => ret (Fail InternalServerError)
                | Ok _ =>
                    db_stmt (CreateAuditLog (self_audit userPG None "Passkey removed")) ;;;
                    ret (Done ())
                end
          end
      end
  end.
End passkey.
