(* ===== verification/Frames.v ===== *)
(** * Calls that leave the store alone

    The helpers of the services that talk to Redis, the mail provider or a
    library but not to Postgres keep any relation on the store; the lemmas are
    [tracks] hints, so that a walk along a service stops at them. *)

From S2P Require Import Prelude.
From S2P Require Import GoLib.
From S2P Require Import Model.
From S2P Require Import Runtime.
From S2P Require Import Logic.
From S2P Require Import Queries.
From S2P Require Import Password.
From S2P Require Import Tokens.
From S2P Require Import Codes.
From S2P Require Import Mfa.
From S2P Require Import Login.
From S2P Require Import Sso.
From S2P Require Import Admin.
From S2P Require Import Passkey.

#[local] Open Scope Z_scope.
#[local] Open Scope go_scope.

Section frames.
Context `{TL : TextLib} `{UL : UuidLib} `{HL : HashLib} `{JL : JwtLib} `{OL : TotpLib} `{AL : AeadLib}
  `{WL : WebAuthnLib} `{CL : TimeLib} `{OI : OidcLib}.
Context (R : relation DB) `{!PreOrder R}.

Lemma ActivePepperManager_db : db_tracks R ActivePepperManager.
Proof. unfold ActivePepperManager. db_tracks. Qed.
Lemma IDKey_db a b c d e f : db_tracks R (IDKey a b c d e f).
Proof. unfold IDKey. db_tracks. Qed.
Hint Resolve ActivePepperManager_db IDKey_db : tracks.
Lemma HashPasswordPHC_db p : db_tracks R (HashPasswordPHC p).
Proof. unfold HashPasswordPHC, randomSalt. db_tracks. Qed.
Lemma VerifyPasswordPHC_db p phc b : db_tracks R (VerifyPasswordPHC p phc b).
Proof. intros e w. rewrite VerifyPasswordPHC_spec. destruct (phc_check _ _ _ _). rewrite burn_n_eq. simpl. reflexivity. Qed.
Lemma VerifyDummyPassword_db p : db_tracks R (VerifyDummyPassword p).
Proof. intros e w. rewrite VerifyDummyPassword_spec. simpl. reflexivity. Qed.
Lemma ShouldRehashActive_db p : db_tracks R (ShouldRehashActive p).
Proof. unfold ShouldRehashActive. db_tracks. Qed.
Lemma redis_Get_db k : db_tracks R (redis_Get k).
Proof. unfold redis_Get. db_tracks. Qed.
Lemma redis_Exists_db k : db_tracks R (redis_Exists k).
Proof. unfold redis_Exists. db_tracks. Qed.
Lemma redis_Set_db k v t : db_tracks R (redis_Set k v t).
Proof. unfold redis_Set. db_tracks. Qed.
Lemma redis_Del_db ks : db_tracks R (redis_Del ks).
Proof. unfold redis_Del. db_tracks. Qed.
Hint Resolve redis_Get_db redis_Exists_db redis_Set_db redis_Del_db : tracks.
Lemma IsValidTemporarySession_db id x : db_tracks R (IsValidTemporarySession id x).
Proof. unfold IsValidTemporarySession. db_tracks. Qed.
Lemma GenerateSession_db id x : db_tracks R (GenerateSession id x).
Proof. unfold GenerateSession. db_tracks. Qed.
Lemma GenerateTemporarySession_db id x : db_tracks R (GenerateTemporarySession id x).
Proof. unfold GenerateTemporarySession. db_tracks. Qed.
Lemma DeleteTemporarySession_db id : db_tracks R (DeleteTemporarySession id).
Proof. unfold DeleteTemporarySession. db_tracks. Qed.
Lemma DeleteSession_db id : db_tracks R (DeleteSession id).
Proof. unfold DeleteSession. db_tracks. Qed.
Lemma RandomToken_db n : db_tracks R (RandomToken n).
Proof. unfold RandomToken. db_tracks. Qed.
Hint Resolve IsValidTemporarySession_db GenerateSession_db GenerateTemporarySession_db RandomToken_db : tracks.
Lemma generateAccessJWT_db a b c d t : db_tracks R (generateAccessJWT a b c d t).
Proof. unfold generateAccessJWT. db_tracks. Qed.
Lemma generateAndStoreRefresh_db a t : db_tracks R (generateAndStoreRefresh a t).
Proof. unfold generateAndStoreRefresh. db_tracks. Qed.
Hint Resolve generateAccessJWT_db generateAndStoreRefresh_db : tracks.
Lemma GenerateUserTokens_db a b c t t' : db_tracks R (GenerateUserTokens a b c t t').
Proof. unfold GenerateUserTokens. db_tracks. Qed.
Lemma RotateSessionTokens_db a b c d t t' : db_tracks R (RotateSessionTokens a b c d t t').
Proof. unfold RotateSessionTokens. db_tracks. Qed.
Lemma GenerateTemporaryJWT_db a b t : db_tracks R (GenerateTemporaryJWT a b t).
Proof. unfold GenerateTemporaryJWT. db_tracks. Qed.
Lemma parseJWT_db a b : db_tracks R (parseJWT a b).
Proof. unfold parseJWT. db_tracks. Qed.
Hint Resolve parseJWT_db : tracks.
Lemma VerifyAndParseTemporaryJWT_db a b : db_tracks R (VerifyAndParseTemporaryJWT a b).
Proof. unfold VerifyAndParseTemporaryJWT. db_tracks. Qed.
Lemma GenerateCode_db : db_tracks R GenerateCode.
Proof. unfold GenerateCode. db_tracks. Qed.
Lemma SaveVerificationCode_db a m : db_tracks R (SaveVerificationCode a m).
Proof. unfold SaveVerificationCode. db_tracks. Qed.
Lemma GetVerificationCode_db a : db_tracks R (GetVerificationCode a).
Proof. unfold GetVerificationCode. db_tracks. Qed.
Lemma SaveMFAOTPCode_db a b c m : db_tracks R (SaveMFAOTPCode a b c m).
Proof. unfold SaveMFAOTPCode. db_tracks. Qed.
Lemma GetMFAOTPCode_db a b c : db_tracks R (GetMFAOTPCode a b c).
Proof. unfold GetMFAOTPCode. db_tracks. Qed.
Lemma DeleteMFAOTPCode_db a b c : db_tracks R (DeleteMFAOTPCode a b c).
Proof. unfold DeleteMFAOTPCode. db_tracks. Qed.
Lemma SendEmailVerificationEmail_db a b : db_tracks R (SendEmailVerificationEmail a b).
Proof. unfold SendEmailVerificationEmail. db_tracks. Qed.
Lemma SendPasswordResetEmail_db a b : db_tracks R (SendPasswordResetEmail a b).
Proof. unfold SendPasswordResetEmail. db_tracks. Qed.
Lemma GenerateTOTPSecret_db a b : db_tracks R (GenerateTOTPSecret a b).
Proof. unfold GenerateTOTPSecret. db_tracks. Qed.
Lemma GenerateMFARecoveryCode_db : db_tracks R GenerateMFARecoveryCode.
Proof. unfold GenerateMFARecoveryCode. db_tracks. Qed.
Lemma EncryptMFASecret_db a : db_tracks R (EncryptMFASecret a).
Proof. unfold EncryptMFASecret, mfaGCM. db_tracks. Qed.
Lemma DecryptMFASecret_db a : db_tracks R (DecryptMFASecret a).
Proof. unfold DecryptMFASecret, mfaGCM. db_tracks. Qed.
Lemma VerifyOIDCToken_db a k i au : db_tracks R (VerifyOIDCToken a k i au).
Proof. unfold VerifyOIDCToken. db_tracks. Qed.
Lemma locked_now_db a c : db_tracks R (locked_now a c).
Proof. unfold locked_now. db_tracks. Qed.
Lemma saveWebAuthnSession_db k s : db_tracks R (saveWebAuthnSession k s).
Proof. unfold saveWebAuthnSession. db_tracks. Qed.
Lemma getWebAuthnSession_db k : db_tracks R (getWebAuthnSession k).
Proof. unfold getWebAuthnSession. db_tracks. Qed.
Hint Resolve GenerateMFARecoveryCode_db : tracks.
Lemma generate_recovery_codes_db n a b : db_tracks R (generate_recovery_codes n a b).
Proof. revert a b. induction n as [|n IH]; intros a b; cbn [generate_recovery_codes]; db_tracks. Qed.
Hint Resolve generate_recovery_codes_db : tracks.
Lemma generateRecoveryCodes_db n : db_tracks R (generateRecoveryCodes n).
Proof. unfold generateRecoveryCodes. db_tracks. Qed.
Lemma delete_sessions_db ids : db_tracks R (delete_sessions ids).
Proof. unfold delete_sessions. pose proof DeleteSession_db. db_tracks. Qed.
Lemma try_usernames_db a b n : db_tracks R (try_usernames a b n).
Proof. revert b. induction n as [|n IH]; intros b; cbn [try_usernames]; db_tracks. Qed.
Hint Resolve try_usernames_db : tracks.
Lemma generateUniqueUsernameFromEmail_db a : db_tracks R (generateUniqueUsernameFromEmail a).
Proof. unfold generateUniqueUsernameFromEmail. db_tracks. Qed.
End frames.

#[export] Hint Resolve ActivePepperManager_db IDKey_db HashPasswordPHC_db VerifyPasswordPHC_db
  VerifyDummyPassword_db ShouldRehashActive_db redis_Get_db redis_Exists_db
  redis_Set_db redis_Del_db IsValidTemporarySession_db GenerateSession_db
  GenerateTemporarySession_db DeleteTemporarySession_db DeleteSession_db RandomToken_db
  generateAccessJWT_db generateAndStoreRefresh_db GenerateUserTokens_db RotateSessionTokens_db
  GenerateTemporaryJWT_db parseJWT_db VerifyAndParseTemporaryJWT_db GenerateCode_db
  SaveVerificationCode_db GetVerificationCode_db SaveMFAOTPCode_db GetMFAOTPCode_db
  DeleteMFAOTPCode_db SendEmailVerificationEmail_db SendPasswordResetEmail_db GenerateTOTPSecret_db
  GenerateMFARecoveryCode_db EncryptMFASecret_db DecryptMFASecret_db VerifyOIDCToken_db
  locked_now_db saveWebAuthnSession_db getWebAuthnSession_db generate_recovery_codes_db
  generateRecoveryCodes_db delete_sessions_db try_usernames_db generateUniqueUsernameFromEmail_db : tracks.
