(* ===== verification/Walks.v ===== *)
(** * The services against an interface to the store

    [Plain R] states what a relation on stores must allow: every statement of
    [Queries] but those that open a session, rotate its token, make an account
    or change its status, role or deletion; [Opens R], [Rotates R], [Joins R],
    [SetsStatus R], [SetsRole R] and [DeletesUsers R] add these.  Every service
    moves the store along [R], whatever fails, where [R] allows the statements it
    runs; the relations of interest implement the interfaces they need. *)

From S2P Require Import Prelude.
From S2P Require Import GoLib.
From S2P Require Import Utils.
From S2P Require Import Model.
From S2P Require Import Runtime.
From S2P Require Import Logic.
From S2P Require Import Queries.
From S2P Require Import Store.
From S2P Require Import Password.
From S2P Require Import Tokens.
From S2P Require Import Codes.
From S2P Require Import Signup.
From S2P Require Import Mfa.
From S2P Require Import Login.
From S2P Require Import Session.
From S2P Require Import PasswordFlows.
From S2P Require Import Sso.
From S2P Require Import Maintenance.
From S2P Require Import Admin.
From S2P Require Import Passkey.
From S2P Require Import Frames.

#[local] Open Scope Z_scope.
#[local] Open Scope go_scope.

Class Plain `{TL : TextLib} `{UL : UuidLib} (R : relation DB) : Prop := {
  plain_preorder :: PreOrder R;
  plain_CreateEmailAuth user email hash : st_in R (CreateEmailAuth user email hash);
  plain_CreateSSOIdentity user provider puid : st_in R (CreateSSOIdentity user provider puid);
  plain_TouchUserLastLogin id : st_in R (TouchUserLastLogin id);
  plain_IncrementFailedLoginAttempts id : st_in R (IncrementFailedLoginAttempts id);
  plain_LockAuthIdentity id : st_in R (LockAuthIdentity id);
  plain_ResetFailedLoginAttempts id : st_in R (ResetFailedLoginAttempts id);
  plain_UpdatePasswordHash hash id : st_in R (UpdatePasswordHash hash id);
  plain_RevokeAllOtherUserSessions user current : st_in R (RevokeAllOtherUserSessions user current);
  plain_RevokeAllUserSessions user : st_in R (RevokeAllUserSessions user);
  plain_RevokeSession id : st_in R (RevokeSession id);
  plain_RecordLoginAttempt user ident r ip ua : st_in R (RecordLoginAttempt user ident r ip ua);
  plain_CreatePasswordReset user token expires source : st_in R (CreatePasswordReset user token expires source);
  plain_MarkPasswordResetUsed id : st_in R (MarkPasswordResetUsed id);
  plain_CreateMFARecoveryCode factor hash : st_in R (CreateMFARecoveryCode factor hash);
  plain_DeleteMFARecoveryCodesByFactor factor : st_in R (DeleteMFARecoveryCodesByFactor factor);
  plain_MarkMFARecoveryCodeUsed id : st_in R (MarkMFARecoveryCodeUsed id);
  plain_DeleteOTPFactor user ty : st_in R (DeleteOTPFactor user ty);
  plain_DeleteTOTPFactor user : st_in R (DeleteTOTPFactor user);
  plain_IncrementOTPFactorFailedAttempts id : st_in R (IncrementOTPFactorFailedAttempts id);
  plain_IncrementTOTPFailedAttempts id : st_in R (IncrementTOTPFailedAttempts id);
  plain_RecordOTPFactorSuccess id : st_in R (RecordOTPFactorSuccess id);
  plain_RecordTOTPSuccess step id : st_in R (RecordTOTPSuccess step id);
  plain_VerifyOTPFactor id : st_in R (VerifyOTPFactor id);
  plain_VerifyTOTPFactor id : st_in R (VerifyTOTPFactor id);
  plain_UpsertPendingOTPFactor user ty : st_in R (UpsertPendingOTPFactor (Some user) ty);
  plain_UpsertPendingTOTPFactor user secret : st_in R (UpsertPendingTOTPFactor (Some user) secret);
  plain_CreateWebAuthnCredential user credID name cred : st_in R (CreateWebAuthnCredential user credID name cred);
  plain_DeleteWebAuthnCredential id user : st_in R (DeleteWebAuthnCredential id user);
  plain_RenameWebAuthnCredential name id user : st_in R (RenameWebAuthnCredential name id user);
  plain_UpdateWebAuthnCredential cred id : st_in R (UpdateWebAuthnCredential cred id);
  plain_CreateAuditLog p : st_in R (CreateAuditLog p);
  plain_RemoveExpiredPasswordResets : st_in R RemoveExpiredPasswordResets;
  plain_RemoveOldPasswordResets : st_in R RemoveOldPasswordResets;
  plain_RemoveOldLoginLogs : st_in R RemoveOldLoginLogs;
  plain_RemoveUnverifiedMFAFactors : st_in R RemoveUnverifiedMFAFactors;
  plain_RevokeExpiredSessions : st_in R RevokeExpiredSessions;
  plain_RevokeOldSessions : st_in R RevokeOldSessions
}.

Class Opens (R : relation DB) : Prop :=
  opens_session id user expires hash ip ua : st_in R (CreateRefreshSession id user expires hash ip ua).
Class Rotates (R : relation DB) : Prop :=
  rotates_session hash expires id : st_in R (RotateRefreshSession hash expires id).
Class SetsStatus `{UL : UuidLib} (R : relation DB) : Prop :=
  sets_status status id : st_in R (SetUserStatus status id).

Class Joins `{TL : TextLib} (R : relation DB) : Prop := {
  joins_CreateUser email display : st_in R (CreateUser email display);
  joins_CreateSSOUser email display origin : st_in R (CreateSSOUser email display origin)
}.
Class SetsRole `{UL : UuidLib} (R : relation DB) : Prop :=
  sets_role role id : st_in R (SetUserRole role id).
Class DeletesUsers `{UL : UuidLib} (R : relation DB) : Prop :=
  deletes_user id : st_in R (SoftDeleteUser id).

#[export] Hint Resolve opens_session rotates_session sets_status joins_CreateUser joins_CreateSSOUser
  sets_role deletes_user : tracks.
#[export] Hint Resolve plain_CreateEmailAuth plain_CreateSSOIdentity plain_TouchUserLastLogin
  plain_IncrementFailedLoginAttempts
  plain_LockAuthIdentity plain_ResetFailedLoginAttempts plain_UpdatePasswordHash
  plain_RevokeAllOtherUserSessions plain_RevokeAllUserSessions plain_RevokeSession
  plain_RecordLoginAttempt plain_CreatePasswordReset
  plain_MarkPasswordResetUsed plain_CreateMFARecoveryCode plain_DeleteMFARecoveryCodesByFactor
  plain_MarkMFARecoveryCodeUsed plain_DeleteOTPFactor plain_DeleteTOTPFactor
  plain_IncrementOTPFactorFailedAttempts plain_IncrementTOTPFailedAttempts
  plain_RecordOTPFactorSuccess plain_RecordTOTPSuccess plain_VerifyOTPFactor plain_VerifyTOTPFactor
  plain_UpsertPendingOTPFactor plain_UpsertPendingTOTPFactor plain_CreateWebAuthnCredential
  plain_DeleteWebAuthnCredential plain_RenameWebAuthnCredential plain_UpdateWebAuthnCredential
  plain_CreateAuditLog plain_RemoveExpiredPasswordResets plain_RemoveOldPasswordResets
  plain_RemoveOldLoginLogs plain_RemoveUnverifiedMFAFactors plain_RevokeExpiredSessions
  plain_RevokeOldSessions : tracks.

(** ** Opening the statements

    What a statement does to the accounts and sessions: it updates one of them,
    or leaves both alone. *)
Create HintDb statements.
#[export] Hint Unfold CreateEmailAuth res_map discard CreateSSOIdentity IncrementFailedLoginAttempts LockAuthIdentity
  ResetFailedLoginAttempts UpdatePasswordHash RevokeAllOtherUserSessions RevokeAllUserSessions RevokeSession
  RotateRefreshSession RecordLoginAttempt CreatePasswordReset MarkPasswordResetUsed CreateMFARecoveryCode
  DeleteMFARecoveryCodesByFactor MarkMFARecoveryCodeUsed DeleteOTPFactor DeleteTOTPFactor delete_factors
  IncrementOTPFactorFailedAttempts IncrementTOTPFailedAttempts RecordOTPFactorSuccess RecordTOTPSuccess
  VerifyOTPFactor VerifyTOTPFactor UpsertPendingOTPFactor UpsertPendingTOTPFactor CreateWebAuthnCredential
  DeleteWebAuthnCredential RenameWebAuthnCredential UpdateWebAuthnCredential CreateAuditLog
  RemoveExpiredPasswordResets RemoveOldPasswordResets RemoveOldLoginLogs RemoveUnverifiedMFAFactors
  RevokeExpiredSessions RevokeOldSessions : statements.

Ltac open_stmt :=
  let H := fresh "H" in intros; intros ? ? ? ? H; autounfold with statements in H; cbv zeta in H;
  simplify_eq/=; repeat (case_match; simplify_eq/=).
Ltac stmt_untouched :=
  match goal with
  | E : update_identities _ _ _ _ = (Ok _, _) |- _ => exact (update_identities_untouched _ _ _ _ _ _ E)
  | E : update_factors _ _ _ _ = (Ok _, _) |- _ => exact (update_factors_untouched _ _ _ _ _ _ E)
  | E : update_resets _ _ _ _ = (Ok _, _) |- _ => exact (update_resets_untouched _ _ _ _ _ _ E)
  | E : insert_identity _ _ _ _ _ _ = (Ok _, _) |- _ => exact (insert_identity_untouched _ _ _ _ _ _ _ _ E)
  | E : upsert_factor _ _ _ _ = (Ok _, _) |- _ => exact (upsert_factor_untouched _ _ _ _ _ _ E)
  end.

(** The account an admin action names, not the actor's own. *)
Definition targets `{UL : UuidLib} (actorID targetUserID : string) (pg : uuid) : Prop :=
  parseUserID targetUserID = Some pg ∧ parseUserID actorID ≠ Some pg.

Section services.
Context `{TL : TextLib} `{UL : UuidLib} `{HL : HashLib} `{JL : JwtLib} `{OL : TotpLib} `{AL : AeadLib}
  `{WL : WebAuthnLib} `{CL : TimeLib} `{OI : OidcLib}.
Context (R : relation DB) `{!Plain R}.

Lemma recordLoginAttempt_in a b c d e : db_tracks R (recordLoginAttempt a b c d e).
Proof. unfold recordLoginAttempt. db_tracks. Qed.
Hint Resolve recordLoginAttempt_in : tracks.
Lemma listEnabledMFAMethods_in a : db_tracks R (listEnabledMFAMethods a).
Proof. unfold listEnabledMFAMethods. db_tracks. Qed.
Hint Resolve listEnabledMFAMethods_in : tracks.
Lemma verifyCurrentPassword_in a b : db_tracks R (verifyCurrentPasswordForFactorAction a b).
Proof. unfold verifyCurrentPasswordForFactorAction. db_tracks. Qed.
Hint Resolve verifyCurrentPassword_in : tracks.
Lemma sendMFAEmailCode_in a b c : db_tracks R (sendMFAEmailCode a b c).
Proof. unfold sendMFAEmailCode. db_tracks. Qed.
Hint Resolve sendMFAEmailCode_in : tracks.
Lemma verifyMFAOTPCode_in a b c d e : db_tracks R (verifyMFAOTPCode a b c d e).
Proof. unfold verifyMFAOTPCode. db_tracks. Qed.
Hint Resolve verifyMFAOTPCode_in : tracks.
Lemma loadAdminTarget_in a b : db_tracks R (loadAdminTarget a b).
Proof. unfold loadAdminTarget. db_tracks. Qed.
Hint Resolve loadAdminTarget_in : tracks.
Lemma loadWebAuthnUser_in a b : db_tracks R (loadWebAuthnUser a b).
Proof. unfold loadWebAuthnUser. db_tracks. Qed.
Hint Resolve loadWebAuthnUser_in : tracks.
Lemma userOwnsPasskey_in a b : db_tracks R (userOwnsPasskey a b).
Proof. unfold userOwnsPasskey. db_tracks. Qed.
Hint Resolve userOwnsPasskey_in : tracks.
Lemma revokeCompromisedSession_in a b : db_tracks R (revokeCompromisedSession a b).
Proof. unfold revokeCompromisedSession. db_tracks. Qed.
Hint Resolve revokeCompromisedSession_in : tracks.
Lemma StartEmailVerification_in a : db_tracks R (StartEmailVerification a).
Proof. unfold StartEmailVerification, IsEmailTaken. db_tracks. Qed.
Hint Resolve StartEmailVerification_in : tracks.
Lemma VerifyEmailCode_in a b : db_tracks R (VerifyEmailCode a b).
Proof. unfold VerifyEmailCode. db_tracks. Qed.
Hint Resolve VerifyEmailCode_in : tracks.
Lemma login_wrong_password_in a b c : db_tracks R (login_wrong_password a b c).
Proof. unfold login_wrong_password. db_tracks. Qed.
Hint Resolve login_wrong_password_in : tracks.
Lemma login_rehash_in a b : db_tracks R (login_rehash a b).
Proof. unfold login_rehash. db_tracks. Qed.
Hint Resolve login_rehash_in : tracks.
Lemma mfa_try_totp_in a b : db_tracks R (mfa_try_totp a b).
Proof. unfold mfa_try_totp. db_tracks. Qed.
Hint Resolve mfa_try_totp_in : tracks.
Lemma mfa_try_email_in a b c d : db_tracks R (mfa_try_email a b c d).
Proof. unfold mfa_try_email. db_tracks. Qed.
Hint Resolve mfa_try_email_in : tracks.
Lemma mfa_try_recovery_in a b : db_tracks R (mfa_try_recovery a b).
Proof. unfold mfa_try_recovery. db_tracks. Qed.
Hint Resolve mfa_try_recovery_in : tracks.
Lemma mfa_authenticate_in a b c d e : db_tracks R (mfa_authenticate a b c d e).
Proof. unfold mfa_authenticate. db_tracks. Qed.
Hint Resolve mfa_authenticate_in : tracks.
Lemma RefreshToken_in `{!Rotates R} a b c : db_tracks R (RefreshToken a b c).
Proof. unfold RefreshToken. db_tracks. Qed.

(** The actions on an account reach only the target they name, which is not the
    actor. *)
Lemma loadAdminTarget_targets actorID targetUserID e w :
  wp (loadAdminTarget actorID targetUserID) e (λ o _, ∀ r, o = Some r →
    match r with Done (_, pg) => targets actorID targetUserID pg | Fail _ => True end) w.
Proof.
  unfold loadAdminTarget, targets. destruct (parseUserID targetUserID) as [pg|]; [|wp_step; by intros ? [= <-]].
  destruct (bool_decide_reflect (parseUserID actorID = Some pg)); [wp_step; by intros ? [= <-]|].
  wp_step. wp_step; [wp_step; by intros ? [= <-]|]. destruct (bool_decide _); wp_step; by intros ? [= <-].
Qed.
Lemma with_target {A} actorID targetUserID (k : svc (User * uuid) → Go A) :
  (∀ err, db_tracks R (k (Fail err))) →
  (∀ u pg, targets actorID targetUserID pg → db_tracks R (k (Done (u, pg)))) →
  db_tracks R (bind (loadAdminTarget actorID targetUserID) k).
Proof.
  intros Hf Hd. eapply db_tracks_bind_post; [typeclasses eauto|tracked|apply loadAdminTarget_targets|].
  intros [[u pg]|err]; auto.
Qed.
Lemma setUserStatusAction_in ctx actorID name targetUserID reason status action revoke :
  (∀ pg, targets actorID targetUserID pg → st_in R (SetUserStatus (Some status) (Some pg))) →
  db_tracks R (setUserStatusAction ctx actorID name targetUserID reason status action revoke).
Proof.
  intros H. unfold setUserStatusAction. apply with_target; [db_tracks|]. intros u pg Hpg. specialize (H pg Hpg). db_tracks.
Qed.
Lemma ChangeUserRole_in ctx actorID name targetUserID newRole :
  (∀ pg role, targets actorID targetUserID pg → parseUserRole newRole = Some role → role ≠ UserRoleAdmin →
     st_in R (SetUserRole role (Some pg))) →
  db_tracks R (ChangeUserRole ctx actorID name targetUserID newRole).
Proof.
  intros H. unfold ChangeUserRole. destruct (parseUserRole newRole) as [role|]; [|db_tracks].
  apply with_target; [db_tracks|]. intros u pg Hpg.
  destruct (bool_decide_reflect (role = UserRoleAdmin)); [db_tracks|]. specialize (H pg role Hpg eq_refl). db_tracks.
Qed.
Lemma DeleteUser_in ctx actorID name targetUserID reason :
  (∀ pg, targets actorID targetUserID pg → st_in R (SoftDeleteUser (Some pg))) →
  db_tracks R (DeleteUser ctx actorID name targetUserID reason).
Proof.
  intros H. unfold DeleteUser. apply with_target; [db_tracks|]. intros u pg Hpg. specialize (H pg Hpg). db_tracks.
Qed.
Lemma Logout_in a : db_tracks R (Logout a).
Proof. unfold Logout. db_tracks. Qed.
Hint Resolve Logout_in : tracks.
Lemma CompleteMFAEnrollment_in a b c : db_tracks R (CompleteMFAEnrollment a b c).
Proof. unfold CompleteMFAEnrollment. db_tracks. Qed.
Hint Resolve CompleteMFAEnrollment_in : tracks.
Lemma CompleteOTPFactorEnrollment_in a b : db_tracks R (CompleteOTPFactorEnrollment a b).
Proof. unfold CompleteOTPFactorEnrollment. db_tracks. Qed.
Hint Resolve CompleteOTPFactorEnrollment_in : tracks.
Lemma EnrollMFA_in a b : db_tracks R (EnrollMFA a b).
Proof. unfold EnrollMFA. db_tracks. Qed.
Hint Resolve EnrollMFA_in : tracks.
Lemma VerifyMFAEnrollment_in a b : db_tracks R (VerifyMFAEnrollment a b).
Proof. unfold VerifyMFAEnrollment. db_tracks. Qed.
Hint Resolve VerifyMFAEnrollment_in : tracks.
Lemma DisableMFA_in a b : db_tracks R (DisableMFA a b).
Proof. unfold DisableMFA. db_tracks. Qed.
Hint Resolve DisableMFA_in : tracks.
Lemma EnrollEmailMFA_in a : db_tracks R (EnrollEmailMFA a).
Proof. unfold EnrollEmailMFA. db_tracks. Qed.
Hint Resolve EnrollEmailMFA_in : tracks.
Lemma VerifyEmailMFAEnrollment_in a b : db_tracks R (VerifyEmailMFAEnrollment a b).
Proof. unfold VerifyEmailMFAEnrollment. db_tracks. Qed.
Hint Resolve VerifyEmailMFAEnrollment_in : tracks.
Lemma DisableEmailMFA_in a b : db_tracks R (DisableEmailMFA a b).
Proof. unfold DisableEmailMFA. db_tracks. Qed.
Hint Resolve DisableEmailMFA_in : tracks.
Lemma SendMFALoginCode_in a b : db_tracks R (SendMFALoginCode a b).
Proof. unfold SendMFALoginCode. db_tracks. Qed.
Hint Resolve SendMFALoginCode_in : tracks.
Lemma RequestPasswordReset_in a b : db_tracks R (RequestPasswordReset a b).
Proof. unfold RequestPasswordReset, send_reset. db_tracks. Qed.
Hint Resolve RequestPasswordReset_in : tracks.
Lemma ResetPassword_in a b c : db_tracks R (ResetPassword a b c).
Proof. unfold ResetPassword, CompletePasswordReset. db_tracks. Qed.
Hint Resolve ResetPassword_in : tracks.
Lemma ChangePassword_in a b c d e : db_tracks R (ChangePassword a b c d e).
Proof. unfold ChangePassword, CompletePasswordChange. db_tracks. Qed.
Hint Resolve ChangePassword_in : tracks.
Lemma ForceLogoutUser_in a b c d e : db_tracks R (ForceLogoutUser a b c d e).
Proof. unfold ForceLogoutUser. db_tracks. Qed.
Hint Resolve ForceLogoutUser_in : tracks.
Lemma AdminResetUserPassword_in a b c d : db_tracks R (AdminResetUserPassword a b c d).
Proof. unfold AdminResetUserPassword. db_tracks. Qed.
Hint Resolve AdminResetUserPassword_in : tracks.
Lemma ListUsers_in a : db_tracks R (ListUsers a).
Proof. unfold ListUsers. db_tracks. Qed.
Hint Resolve ListUsers_in : tracks.
Lemma GetUser_in a : db_tracks R (GetUser a).
Proof. unfold GetUser. db_tracks. Qed.
Hint Resolve GetUser_in : tracks.
Lemma ListAuditLogs_in a b c : db_tracks R (ListAuditLogs a b c).
Proof. unfold ListAuditLogs. db_tracks. Qed.
Hint Resolve ListAuditLogs_in : tracks.
Lemma BeginPasskeyRegistration_in a b c : db_tracks R (BeginPasskeyRegistration a b c).
Proof. unfold BeginPasskeyRegistration, SaveWebAuthnRegistrationSession. db_tracks. Qed.
Hint Resolve BeginPasskeyRegistration_in : tracks.
Lemma FinishPasskeyRegistration_in a b c d e : db_tracks R (FinishPasskeyRegistration a b c d e).
Proof.
  unfold FinishPasskeyRegistration, GetWebAuthnRegistrationSession, DeleteWebAuthnRegistrationSession.
  db_tracks.
Qed.
Hint Resolve FinishPasskeyRegistration_in : tracks.
Lemma BeginPasskeyLogin_in a : db_tracks R (BeginPasskeyLogin a).
Proof. unfold BeginPasskeyLogin, SaveWebAuthnLoginSession. db_tracks. Qed.
Hint Resolve BeginPasskeyLogin_in : tracks.
Lemma update_used_credential_in rows a b : db_tracks R (update_used_credential rows a b).
Proof. induction rows as [|r rows IH]; cbn [update_used_credential]; db_tracks. Qed.
Hint Resolve update_used_credential_in : tracks.
Lemma ListPasskeys_in a : db_tracks R (ListPasskeys a).
Proof. unfold ListPasskeys. db_tracks. Qed.
Hint Resolve ListPasskeys_in : tracks.
Lemma RenamePasskey_in a b c : db_tracks R (RenamePasskey a b c).
Proof. unfold RenamePasskey. db_tracks. Qed.
Hint Resolve RenamePasskey_in : tracks.
Lemma DeletePasskey_in a b c : db_tracks R (DeletePasskey a b c).
Proof. unfold DeletePasskey. db_tracks. Qed.
Hint Resolve DeletePasskey_in : tracks.
Lemma RunMaintenance_in : db_tracks R RunMaintenance.
Proof.
  unfold RunMaintenance, jobs. cbn [run_jobs job_run]. db_tracks.
Qed.
Hint Resolve RunMaintenance_in : tracks.

(** ** The services that open sessions *)

Section opening.
Context `{!Opens R}.
Lemma CreateRefreshSessionInput_in x : db_tracks R (CreateRefreshSessionInput x).
Proof. unfold CreateRefreshSessionInput. db_tracks. Qed.
Hint Resolve CreateRefreshSessionInput_in : tracks.
Lemma issueLoginSession_in a b c d e f : db_tracks R (issueLoginSession a b c d e f).
Proof. unfold issueLoginSession. db_tracks. Qed.
Hint Resolve issueLoginSession_in : tracks.
Lemma CompleteEmailJoin_in `{!Joins R} a b c d : db_tracks R (CompleteEmailJoin a b c d).
Proof. unfold CompleteEmailJoin, CreateEmailUser, CreateEmailUserInTx. db_tracks. Qed.
Hint Resolve CompleteEmailJoin_in : tracks.
Lemma login_verified_in a b c d : db_tracks R (login_verified a b c d).
Proof. unfold login_verified. db_tracks. Qed.
Hint Resolve login_verified_in : tracks.
Lemma Login_in a b c : db_tracks R (Login a b c).
Proof. unfold Login. db_tracks. Qed.
Hint Resolve Login_in : tracks.
Lemma mfa_finish_in a b c : db_tracks R (mfa_finish a b c).
Proof. unfold mfa_finish. db_tracks. Qed.
Hint Resolve mfa_finish_in : tracks.
Lemma VerifyMFALogin_in a b c d : db_tracks R (VerifyMFALogin a b c d).
Proof. unfold VerifyMFALogin. db_tracks. Qed.
Hint Resolve VerifyMFALogin_in : tracks.
Lemma SSOLogin_in `{!Joins R} a b c d : db_tracks R (SSOLogin a b c d).
Proof. unfold SSOLogin, CreateSSOUserAndIdentity. db_tracks. Qed.
Hint Resolve SSOLogin_in : tracks.
Lemma FinishPasskeyLogin_in a b c d : db_tracks R (FinishPasskeyLogin a b c d).
Proof.
  unfold FinishPasskeyLogin, GetWebAuthnLoginSession, passkey_handler, passkey_finish,
    DeleteWebAuthnLoginSession. db_tracks.
Qed.
Hint Resolve FinishPasskeyLogin_in : tracks.
End opening.
End services.

#[export] Hint Resolve recordLoginAttempt_in listEnabledMFAMethods_in verifyCurrentPassword_in sendMFAEmailCode_in
  verifyMFAOTPCode_in loadAdminTarget_in loadWebAuthnUser_in userOwnsPasskey_in
  revokeCompromisedSession_in StartEmailVerification_in VerifyEmailCode_in login_wrong_password_in
  login_rehash_in mfa_try_totp_in mfa_try_email_in mfa_try_recovery_in mfa_authenticate_in
  Logout_in CompleteMFAEnrollment_in CompleteOTPFactorEnrollment_in EnrollMFA_in
  VerifyMFAEnrollment_in DisableMFA_in EnrollEmailMFA_in VerifyEmailMFAEnrollment_in
  DisableEmailMFA_in SendMFALoginCode_in RequestPasswordReset_in ResetPassword_in ChangePassword_in
  ForceLogoutUser_in AdminResetUserPassword_in
  ListUsers_in GetUser_in ListAuditLogs_in BeginPasskeyRegistration_in FinishPasskeyRegistration_in
  BeginPasskeyLogin_in update_used_credential_in ListPasskeys_in RenamePasskey_in DeletePasskey_in
  RunMaintenance_in
  RefreshToken_in setUserStatusAction_in ChangeUserRole_in DeleteUser_in CreateRefreshSessionInput_in issueLoginSession_in CompleteEmailJoin_in
  login_verified_in Login_in mfa_finish_in VerifyMFALogin_in SSOLogin_in FinishPasskeyLogin_in : tracks.
