(* ===== verification/Toy.v ===== *)
(** * Concrete libraries

    One executable instance of every library parameter, with its laws: the
    hypotheses of the theorems can all hold at once, and the examples run. *)

From S2P Require Import Prelude.
From S2P Require Import GoLib.
From S2P Require Import Encoding.
From S2P Require Import Utils.
From S2P Require Import Model.
From S2P Require Import Runtime.
From S2P Require Import Queries.
From S2P Require Import Password.
From S2P Require Import Tokens.
From S2P Require Import Codes.
From S2P Require Import Sso.
From S2P Require Import Admin.
From S2P Require Import Passkey.

#[local] Open Scope string_scope.
#[local] Open Scope Z_scope.

Module Toy.

#[export] Instance text : TextLib := {
  unicode_ToLower s := s; unicode_ToUpper s := s; pg_unicode_lower s := s }.

(** Identifiers are written as their bytes. *)
#[export] Instance uuids : UuidLib := {
  uuid_Parse s := Some (MkUUID s); uuid_String := uuid_Bytes; pg_uuid_in s := Some (MkUUID s) }.
#[export] Instance uuid_laws : UuidLaws uuids.
Proof. split; by intros []. Qed.

(** A "hash" is the text padded or cut to the length asked for. *)
Definition pad (s : string) (k : nat) : string :=
  String.substring 0 k (s ++ String.string_of_list_ascii (List.repeat "="%char k)).

Lemma pad_length s k : String.length (pad s k) = k.
Proof.
  unfold pad. apply substring_length. rewrite string_length_app.
  assert (String.length (String.string_of_list_ascii (List.repeat "="%char k)) = k) as ->; [|lia].
  induction k as [|k IH]; simpl; congruence.
Qed.

#[export] Instance hash : HashLib := {
  argon2_IDKey p s t m th k := pad p (N.to_nat k); sha256_Sum256 s := pad s 32 }.
#[export] Instance hash_laws : HashLaws hash.
Proof. split; intros; apply pad_length. Qed.

(** A token is its algorithm, key and claims, separated by bars. *)
Definition field_ok (s : string) : bool := lacks "|" s.
Definition print_date (o : option Z) : option string :=
  match o with
  | None => Some ""
  | Some z => if 0 <=? z then Some (print_nat (Z.to_N z)) else None
  end.
Definition parse_date (s : string) : option Z := Z.of_N <$> parse_digits s.

Definition sign (alg key : string) (c : JWTClaims) : res string :=
  match jc_Audience c, print_date (jc_ExpiresAt c), print_date (jc_IssuedAt c), print_date (jc_NotBefore c) with
  | [aud], Some exp, Some iat, Some nbf =>
      let fields := [alg; key; jc_UserID c; jc_Username c; jc_Role c; jc_Subject c; jc_Issuer c; aud;
                     jc_ID c; exp; iat; nbf] in
      if List.forallb field_ok fields then Ok (Join fields "|") else Err (ErrMsg "sign")
  | _, _, _, _ => Err (ErrMsg "sign")
  end.

Definition decode (kf : string → res string) (tok : string) : res JWTClaims :=
  match Split tok "|" with
  | [alg; key; uid; name; role; sub; iss; aud; id; exp; iat; nbf] =>
      match kf alg with
      | Ok pub => if String.eqb pub key
                  then Ok (mkJWTClaims uid name role sub iss [aud] id (parse_date exp) (parse_date iat) (parse_date nbf))
                  else Err (ErrMsg "signature")
      | Err err => Err err
      end
  | _ => Err (ErrMsg "malformed")
  end.

Definition opt_all {A} (p : A → bool) (o : option A) : bool :=
  match o with Some a => p a | None => true end.

Definition valid (now : Z) (o : ParserOpts) (c : JWTClaims) : bool :=
  opt_all (λ iss, bool_decide (jc_Issuer c = iss)) (WithIssuer o)
  && opt_all (λ aud, bool_decide (aud ∈ jc_Audience c)) (WithAudience o)
  && (negb (WithExpirationRequired o) || is_valid (jc_ExpiresAt c))
  && opt_all (λ x, now <? x) (jc_ExpiresAt c) && opt_all (λ x, x <=? now) (jc_NotBefore c).

#[export] Instance jwt : JwtLib := {
  jwt_NewNumericDate t := t;
  jwt_SignedString := sign;
  jwt_ParseWithClaims now kf o tok :=
    match decode kf tok with
    | Ok c => if WithoutClaimsValidation o || valid now o c then Ok c else Err (ErrMsg "invalid claims")
    | Err err => Err err
    end }.

Lemma print_date_lacks o s : print_date o = Some s → parse_date s = o.
Proof.
  unfold print_date, parse_date. destruct o as [z|]; [|by intros [= <-]].
  destruct (0 <=? z) eqn:E; [|done]. bool_to_prop. intros [= <-]. rewrite parse_print_nat. simpl.
  f_equal. lia.
Qed.

Lemma opt_all_true {A} (p : A → bool) o x : opt_all p o = true → o = Some x → p x = true.
Proof. intros H ->. done. Qed.

#[export] Instance jwt_laws : JwtLaws jwt.
Proof.
  split.
  - intros now kf o tok c. simpl. destruct (decode kf tok) as [c'|]; [|done].
    destruct (WithoutClaimsValidation o); [done|]. simpl. destruct (valid now o c') eqn:E; [|done].
    intros [= <-] _. unfold valid in E. bool_to_prop. unfold claims_valid. split_and!.
    + intros iss Hi. eapply opt_all_true in Hi; [|done]. cbv beta in Hi. by bool_to_prop.
    + intros aud Hi. eapply opt_all_true in Hi; [|done]. cbv beta in Hi. by bool_to_prop.
    + intros Hr. rewrite Hr in *. simpl in *. destruct (jc_ExpiresAt c'); [eauto|done].
    + intros x Hx. eapply opt_all_true in Hx; [|done]. cbv beta in Hx. by bool_to_prop.
    + intros x Hx. eapply opt_all_true in Hx; [|done]. cbv beta in Hx. by bool_to_prop.
  - intros alg key c tok now kf o c' Hs Hp. unfold jwt_SignedString, jwt_ParseWithClaims, jwt in *.
    unfold sign in Hs. destruct (jc_Audience c) as [|aud []] eqn:Ea; try done.
    destruct (print_date (jc_ExpiresAt c)) as [x1|] eqn:E1; [|done].
    destruct (print_date (jc_IssuedAt c)) as [x2|] eqn:E2; [|done].
    destruct (print_date (jc_NotBefore c)) as [x3|] eqn:E3; [|done].
    apply print_date_lacks in E1, E2, E3. cbv zeta in Hs.
    destruct (forallb field_ok _) eqn:Hf; [|done]. injection Hs as <-.
    unfold field_ok in Hf. cbn [List.forallb] in Hf. bool_to_prop.
    unfold decode in Hp. cbn [Join String.append] in Hp.
    rewrite !Split_app in Hp by done. rewrite Split_lacks in Hp by done.
    destruct (kf alg); [|done]. destruct (String.eqb _ _); [|done].
    destruct (_ || _); [|done]. injection Hp as <-. rewrite E1, E2, E3, <- Ea. by destruct c.
Qed.

#[export] Instance totp : TotpLib := {
  totp_Generate seed issuer account period digits :=
    match seed with Ok s => Ok (s, issuer ++ account) | Err err => Err err end;
  totp_GenerateCodeCustom secret t period digits := Ok (print_padded 6 (Z.to_N (t / period) mod 1000000)) }.

#[export] Instance aead : AeadLib := {
  aes_NewCipher key := Ok (); gcm_NonceSize := 12; gcm_Seal key nonce p := p; gcm_Open key nonce c := Some c }.
#[export] Instance aead_laws : AeadLaws aead.
Proof. split. done. Qed.

#[export] Instance time : TimeLib := { format_RFC3339 t := print_nat (Z.to_N t) }.

(** A credential is its id; a request is a credential id and a user handle. *)
#[export] Instance webauthn : WebAuthnLib := {
  WebAuthn := unit; SessionData := string; Credential := string; CredentialDescriptor := string;
  CredentialCreation := string; CredentialAssertion := string; Request := string * string;
  session_Marshal := Ok; session_Unmarshal := Ok; cred_Marshal := Ok; cred_Unmarshal := Ok;
  cred_ID s := s; cred_Descriptor s := s;
  wa_BeginRegistration wa seed u ex := match seed with Ok s => Ok (s, s) | Err err => Err err end;
  wa_FinishRegistration wa t u s r := Ok (fst r);
  wa_BeginDiscoverableLogin wa seed := match seed with Ok s => Ok (s, s) | Err err => Err err end;
  wa_FinishPasskeyLogin wa t s r :=
    PkCall (fst r) (snd r) (λ u,
      if bool_decide (wu_ID u = snd r) && bool_decide (fst r ∈ wu_Credentials u)
      then Ok (fst r) else Err (ErrMsg "mismatch")) }.
#[export] Instance webauthn_laws : WebAuthnLaws webauthn.
Proof.
  split. intros wa t s r raw handle k u c. simpl. intros [= <- <- <-].
  destruct (_ && _) eqn:E; [|done]. intros [= <-]. bool_to_prop. eauto.
Qed.

#[export] Instance oidc : OidcLib := {
  oidc_KeySet := unit;
  oidc_Parse ks t o tok := Ok (mkOidcRawClaims tok (tok ++ "@example.com") "true");
  json_bool s := if String.eqb s "true" then Some true else None;
  json_string s := None }.

(** ** A quiet environment *)

Definition cfg : Config :=
  mkConfig "test" "p1:AAAAAAAAAAAAAAAAAAAAAA==" "p1" [] (10 * Minute) (15 * Minute) (720 * Hour)
    (15 * Minute) 3 (15 * Minute) Hour "" "auth" (5 * Minute) 2 "key" "EdDSA" "jwt-key" "jwt-key" "" ""
    "8080" "postgres:" (10 * Second) (mkRate Second 10) "redis:6379" "resend" "auth" "" "auth-api" [].

Definition id_of (n : nat) : uuid := MkUUID (pad ("id" ++ print_nat (N.of_nat n)) 16).

(** The clock starts at an hour past the epoch and advances a millisecond a
    call; identifiers are numbered. *)
Definition env : Env :=
  mkEnv cfg false (λ n, Hour + Z.of_nat n * 1000000) (λ _, FNone) (λ n, id_of (1000 + n))
    (λ n k, Some (pad ("r" ++ print_nat (N.of_nat n)) k)) (λ n, Some (N.of_nat n))
    (λ n k, id_of (100 * n + k)).

Lemma env_quiet : no_faults env.
Proof. by split. Qed.

Definition empty_db : DB := mkDB [] [] [] [] [] [] [] [] [].
Definition world (d : DB) : World := mkWorld d ∅ None [] 0 0.
Definition world_at (d : DB) (r : gmap string (rval * option Z)) : World := mkWorld d r None [] 0 0.
End Toy.
