(* ===== verification/Requests.v ===== *)
(** * The service as a state machine

    One constructor per service operation the handlers, and the maintenance
    command, can run; a step runs one of them from any Redis, mail and
    transaction state, under any clock, any randomness and any pattern of
    failing calls.  What every statement preserves holds of every history. *)

From S2P Require Import Prelude.
From S2P Require Import GoLib.
From S2P Require Import Utils.
From S2P Require Import Model.
From S2P Require Import Runtime.
From S2P Require Import Logic.
From S2P Require Import Queries.
From S2P Require Import Store.
From S2P Require Import Password.
From S2P Require Import Tokens.
From S2P Require Import Codes.
From S2P Require Import Signup.
From S2P Require Import Mfa.
From S2P Require Import Login.
From S2P Require Import Session.
From S2P Require Import PasswordFlows.
From S2P Require Import Sso.
From S2P Require Import Maintenance.
From S2P Require Import Admin.
From S2P Require Import Passkey.
From S2P Require Import Frames.
From S2P Require Import Walks.
From S2P Require Import Toy.
From stdpp Require Import relations.

#[local] Open Scope Z_scope.
#[local] Open Scope go_scope.

#[export] Instance safe_plain `{TL : TextLib} `{UL : UuidLib} : Plain safe.
Proof. split; [typeclasses eauto|eauto with tracks..]. Qed.
#[export] Instance safe_opens `{TL : TextLib} : Opens safe.
Proof. intros ??????. apply CreateRefreshSession_safe. Qed.
#[export] Instance safe_rotates `{TL : TextLib} : Rotates safe.
Proof. intros ???. apply RotateRefreshSession_safe. Qed.
#[export] Instance safe_sets_status `{TL : TextLib} `{UL : UuidLib} : SetsStatus safe.
Proof. intros ??. apply SetUserStatus_safe. Qed.
#[export] Instance safe_joins `{TL : TextLib} : Joins safe.
Proof. split; eauto with tracks. Qed.
#[export] Instance safe_sets_role `{TL : TextLib} `{UL : UuidLib} : SetsRole safe.
Proof. intros ??. apply SetUserRole_safe. Qed.
#[export] Instance safe_deletes_users `{TL : TextLib} `{UL : UuidLib} : DeletesUsers safe.
Proof. intros ?. apply SoftDeleteUser_safe. Qed.

Section tracks.
Context `{TL : TextLib} `{UL : UuidLib} `{HL : HashLib} `{JL : JwtLib} `{OL : TotpLib} `{AL : AeadLib}
  `{WL : WebAuthnLib} `{CL : TimeLib} `{OI : OidcLib}.

(** ** Requests and histories *)

Inductive request :=
  | RStartEmailVerification (email : string)
  | RVerifyEmailCode (email code : string)
  | RCompleteEmailJoin (ctx : Ctx) (username password confirmPassword : string)
  | RLogin (ctx : Ctx) (email password : string)
  | RVerifyMFALogin (ctx : Ctx) (challengeToken method code : string)
  | RSendMFALoginCode (challengeToken method : string)
  | RRefreshToken (sessionID userID rawRefreshToken : string)
  | RLogout (sessionID : string)
  | RRequestPasswordReset (email source : string)
  | RResetPassword (rawToken newPassword confirmPassword : string)
  | RChangePassword (userID currentSessionID currentPassword newPassword confirmPassword : string)
  | REnrollMFA (userID username : string)
  | RVerifyMFAEnrollment (userID code : string)
  | RDisableMFA (userID currentPassword : string)
  | REnrollEmailMFA (userID : string)
  | RVerifyEmailMFAEnrollment (userID code : string)
  | RDisableEmailMFA (userID currentPassword : string)
  | RSSOLogin (ctx : Ctx) (provider : ProviderName) (origin : UserOrigin) (claims : OIDCClaims)
  | RListUsers (params : AdminListUsersParams)
  | RGetUser (targetUserID : string)
  | RBanUser (ctx : Ctx) (actorID actorUsername targetUserID reason : string)
  | RUnbanUser (ctx : Ctx) (actorID actorUsername targetUserID reason : string)
  | RDisableUser (ctx : Ctx) (actorID actorUsername targetUserID reason : string)
  | REnableUser (ctx : Ctx) (actorID actorUsername targetUserID reason : string)
  | RForceLogoutUser (ctx : Ctx) (actorID actorUsername targetUserID reason : string)
  | RChangeUserRole (ctx : Ctx) (actorID actorUsername targetUserID newRole : string)
  | RDeleteUser (ctx : Ctx) (actorID actorUsername targetUserID reason : string)
  | RAdminResetUserPassword (ctx : Ctx) (actorID actorUsername targetUserID : string)
  | RListAuditLogs (targetUserID : string) (limit offset : Z)
  | RBeginPasskeyRegistration (wa : option WebAuthn) (userID username : string)
  | RFinishPasskeyRegistration (wa : option WebAuthn) (userID username name : string) (r : Request)
  | RBeginPasskeyLogin (wa : option WebAuthn)
  | RFinishPasskeyLogin (ctx : Ctx) (wa : option WebAuthn) (ceremonyID : string) (r : Request)
  | RListPasskeys (userID : string)
  | RRenamePasskey (userID passkeyID name : string)
  | RDeletePasskey (userID currentPassword passkeyID : string)
  | RRunMaintenance.

(** The run of a request, its answer dropped. *)
Definition run_request (r : request) : Go unit :=
  match r with
  | RStartEmailVerification a => StartEmailVerification a ;;; ret ()
  | RVerifyEmailCode a b => VerifyEmailCode a b ;;; ret ()
  | RCompleteEmailJoin a b c d => CompleteEmailJoin a b c d ;;; ret ()
  | RLogin a b c => Login a b c ;;; ret ()
  | RVerifyMFALogin a b c d => VerifyMFALogin a b c d ;;; ret ()
  | RSendMFALoginCode a b => SendMFALoginCode a b ;;; ret ()
  | RRefreshToken a b c => RefreshToken a b c ;;; ret ()
  | RLogout a => Logout a ;;; ret ()
  | RRequestPasswordReset a b => RequestPasswordReset a b ;;; ret ()
  | RResetPassword a b c => ResetPassword a b c ;;; ret ()
  | RChangePassword a b c d e => ChangePassword a b c d e ;;; ret ()
  | REnrollMFA a b => EnrollMFA a b ;;; ret ()
  | RVerifyMFAEnrollment a b => VerifyMFAEnrollment a b ;;; ret ()
  | RDisableMFA a b => DisableMFA a b ;;; ret ()
  | REnrollEmailMFA a => EnrollEmailMFA a ;;; ret ()
  | RVerifyEmailMFAEnrollment a b => VerifyEmailMFAEnrollment a b ;;; ret ()
  | RDisableEmailMFA a b => DisableEmailMFA a b ;;; ret ()
  | RSSOLogin a b c d => SSOLogin a b c d ;;; ret ()
  | RListUsers a => ListUsers a ;;; ret ()
  | RGetUser a => GetUser a ;;; ret ()
  | RBanUser a b c d e => BanUser a b c d e ;;; ret ()
  | RUnbanUser a b c d e => UnbanUser a b c d e ;;; ret ()
  | RDisableUser a b c d e => DisableUser a b c d e ;;; ret ()
  | REnableUser a b c d e => EnableUser a b c d e ;;; ret ()
  | RForceLogoutUser a b c d e => ForceLogoutUser a b c d e ;;; ret ()
  | RChangeUserRole a b c d e => ChangeUserRole a b c d e ;;; ret ()
  | RDeleteUser a b c d e => DeleteUser a b c d e ;;; ret ()
  | RAdminResetUserPassword a b c d => AdminResetUserPassword a b c d ;;; ret ()
  | RListAuditLogs a b c => ListAuditLogs a b c ;;; ret ()
  | RBeginPasskeyRegistration a b c => BeginPasskeyRegistration a b c ;;; ret ()
  | RFinishPasskeyRegistration a b c d e => FinishPasskeyRegistration a b c d e ;;; ret ()
  | RBeginPasskeyLogin a => BeginPasskeyLogin a ;;; ret ()
  | RFinishPasskeyLogin a b c d => FinishPasskeyLogin a b c d ;;; ret ()
  | RListPasskeys a => ListPasskeys a ;;; ret ()
  | RRenamePasskey a b c => RenamePasskey a b c ;;; ret ()
  | RDeletePasskey a b c => DeletePasskey a b c ;;; ret ()
  | RRunMaintenance => RunMaintenance ;;; ret ()
  end.

Lemma run_request_safe r : db_tracks safe (run_request r).
Proof. destruct r; cbn [run_request]; unfold BanUser, UnbanUser, DisableUser, EnableUser; db_tracks. Qed.

(** One request moves the store from [d] to [d']. *)
Inductive serve (d d' : DB) : Prop :=
  | Serve r e w : w_db w = d → w_db (final (run_request r) e w) = d' → serve d d'.

(** Everything a sequence of requests can make of a store. *)
Definition reachable : relation DB := rtc serve.

Lemma reachable_safe d d' : reachable d d' → safe d d'.
Proof.
  induction 1 as [d|d1 d2 d3 [r e w <- <-] _ IH]; [reflexivity|].
  etransitivity; [apply run_request_safe|exact IH].
Qed.
End tracks.

(** The request a service call runs. *)
Ltac request_of m :=
  lazymatch m with
  | StartEmailVerification ?a => constr:(RStartEmailVerification a)
  | VerifyEmailCode ?a ?b => constr:(RVerifyEmailCode a b)
  | CompleteEmailJoin ?a ?b ?c ?d => constr:(RCompleteEmailJoin a b c d)
  | Login.Login ?a ?b ?c => constr:(RLogin a b c)
  | VerifyMFALogin ?a ?b ?c ?d => constr:(RVerifyMFALogin a b c d)
  | SendMFALoginCode ?a ?b => constr:(RSendMFALoginCode a b)
  | RefreshToken ?a ?b ?c => constr:(RRefreshToken a b c)
  | Logout ?a => constr:(RLogout a)
  | RequestPasswordReset ?a ?b => constr:(RRequestPasswordReset a b)
  | PasswordFlows.ResetPassword ?a ?b ?c => constr:(RResetPassword a b c)
  | ChangePassword ?a ?b ?c ?d ?e => constr:(RChangePassword a b c d e)
  | EnrollMFA ?a ?b => constr:(REnrollMFA a b)
  | VerifyMFAEnrollment ?a ?b => constr:(RVerifyMFAEnrollment a b)
  | DisableMFA ?a ?b => constr:(RDisableMFA a b)
  | EnrollEmailMFA ?a => constr:(REnrollEmailMFA a)
  | VerifyEmailMFAEnrollment ?a ?b => constr:(RVerifyEmailMFAEnrollment a b)
  | DisableEmailMFA ?a ?b => constr:(RDisableEmailMFA a b)
  | SSOLogin ?a ?b ?c ?d => constr:(RSSOLogin a b c d)
  | ListUsers ?a => constr:(RListUsers a)
  | GetUser ?a => constr:(RGetUser a)
  | BanUser ?a ?b ?c ?d ?e => constr:(RBanUser a b c d e)
  | UnbanUser ?a ?b ?c ?d ?e => constr:(RUnbanUser a b c d e)
  | DisableUser ?a ?b ?c ?d ?e => constr:(RDisableUser a b c d e)
  | EnableUser ?a ?b ?c ?d ?e => constr:(REnableUser a b c d e)
  | ForceLogoutUser ?a ?b ?c ?d ?e => constr:(RForceLogoutUser a b c d e)
  | ChangeUserRole ?a ?b ?c ?d ?e => constr:(RChangeUserRole a b c d e)
  | DeleteUser ?a ?b ?c ?d ?e => constr:(RDeleteUser a b c d e)
  | AdminResetUserPassword ?a ?b ?c ?d => constr:(RAdminResetUserPassword a b c d)
  | Admin.ListAuditLogs ?a ?b ?c => constr:(RListAuditLogs a b c)
  | BeginPasskeyRegistration ?a ?b ?c => constr:(RBeginPasskeyRegistration a b c)
  | FinishPasskeyRegistration ?a ?b ?c ?d ?e => constr:(RFinishPasskeyRegistration a b c d e)
  | BeginPasskeyLogin ?a => constr:(RBeginPasskeyLogin a)
  | FinishPasskeyLogin ?a ?b ?c ?d => constr:(RFinishPasskeyLogin a b c d)
  | ListPasskeys ?a => constr:(RListPasskeys a)
  | RenamePasskey ?a ?b ?c => constr:(RRenamePasskey a b c)
  | DeletePasskey ?a ?b ?c => constr:(RDeletePasskey a b c)
  end.

Section histories.
Context `{TL : TextLib} `{UL : UuidLib} `{HL : HashLib} `{JL : JwtLib} `{OL : TotpLib} `{AL : AeadLib}
  `{WL : WebAuthnLib} `{CL : TimeLib}.

(** The schema's constraints - unique keys, references, checks - hold after
    any history of requests, whichever calls fail and wherever they fail. *)
Lemma history_keeps_invariant d d' : reachable d d' → wf d → wf d'.
Proof. intros H. by destruct (reachable_safe _ _ H). Qed.

(** No history of requests removes an account, changes its id, email or
    username, restores a deleted one, or demotes an admin; and a revoked session
    stays in the store, revoked and with the hash and expiry it had. *)
Lemma history_is_permanent d d' :
  reachable d d' →
  (∀ u, u ∈ users d → ∃ u', u' ∈ users d' ∧ u_ID u' = u_ID u ∧ u_Email u' = u_Email u
      ∧ u_Username u' = u_Username u
      ∧ (is_valid (u_DeletedAt u) = true → u_DeletedAt u' = u_DeletedAt u)
      ∧ (u_Role u = UserRoleAdmin → u_Role u' = UserRoleAdmin))
  ∧ (∀ s, s ∈ sessions d → ∃ s', s' ∈ sessions d' ∧ se_ID s' = se_ID s ∧ se_UserID s' = se_UserID s
      ∧ (se_Revoked s = Some true → se_Revoked s' = Some true
         ∧ se_RefreshTokenHash s' = se_RefreshTokenHash s ∧ se_ExpiresAt s' = se_ExpiresAt s)).
Proof.
  intros H. destruct (reachable_safe _ _ H) as [[Hu _ Hs _] _]. split.
  - intros u Hin. destruct (Hu u Hin) as (u' & Hin' & ?&?&?&?&?&?). eauto 10.
  - intros s Hin. destruct (Hs s Hin) as (s' & Hin' & ?&?&?). eauto 10.
Qed.

(** The audit log is append-only: after any history its older part is what
    it was. *)
Lemma history_appends_audit d d' :
  reachable d d' → ∃ new, audit_logs d' = (new ++ audit_logs d)%list.
Proof. intros H. by destruct (reachable_safe _ _ H) as [[_ _ _ Ha] _]. Qed.
End histories.

(** ** Examples *)

Import Toy.

Lemma wf_empty `{TextLib} : wf empty_db.
Proof. repeat split; constructor. Qed.

Definition nobody : Ctx := mkCtx None None None None None None None.

(** An account made through single sign-on, then banned by an admin. *)
Definition example_join : request :=
  RSSOLogin nobody ProviderNameGoogle UserOriginGoogle (mkOIDCClaims "sub" "ann@example.com" true).
Definition joined_db : DB := w_db (final (run_request example_join) env (world empty_db)).
Definition joined_id : string :=
  match users joined_db with u :: _ => uuid_Bytes (u_ID u) | [] => EmptyString end.
Definition example_ban : request := RBanUser nobody "admin" "root" joined_id "spam".
Definition banned_db : DB := w_db (final (run_request example_ban) env (world joined_db)).

Lemma serve_run r e d : serve d (w_db (final (run_request r) e (world d))).
Proof. exact (Serve d _ r e (world d) eq_refl eq_refl). Defined.
Lemma example_join_serves : serve empty_db joined_db.
Proof. unfold joined_db. apply serve_run. Defined.
Lemma example_ban_serves : serve joined_db banned_db.
Proof. unfold banned_db. apply serve_run. Defined.
Lemma banned_reachable : reachable empty_db banned_db.
Proof. exact (rtc_l _ _ _ _ example_join_serves (rtc_l _ _ _ _ example_ban_serves (rtc_refl _ _))). Defined.

Lemma history_keeps_invariant_witness : length (users banned_db) = 1%nat ∧ wf banned_db.
Proof.
  split; [by vm_compute|]. exact (history_keeps_invariant empty_db banned_db banned_reachable wf_empty).
Defined.

Lemma history_is_permanent_witness :
  length (sessions joined_db) = 1%nat
  ∧ ∀ s, s ∈ sessions joined_db → ∃ s', s' ∈ sessions banned_db ∧ se_ID s' = se_ID s.
Proof.
  split; [by vm_compute|]. intros s Hs.
  destruct (proj2 (history_is_permanent joined_db banned_db
                     (rtc_l _ _ _ _ example_ban_serves (rtc_refl _ _))) s Hs) as (s' & ? & ? & _).
  eauto.
Defined.

Lemma history_appends_audit_witness :
  length (audit_logs banned_db) = 2%nat ∧ ∃ new, audit_logs banned_db = (new ++ [])%list.
Proof.
  split; [by vm_compute|]. exact (history_appends_audit empty_db banned_db banned_reachable).
Defined.
