(* ===== verification/Scenes.v ===== *)
(** * Scenes: concrete states reached by running the service

    An account is created by the three sign-up steps, then signed in; the
    witnesses evaluate the theorems there. *)

From S2P Require Import Prelude.
From S2P Require Import GoLib.
From S2P Require Import Utils.
From S2P Require Import Model.
From S2P Require Import Runtime.
From S2P Require Import Logic.
From S2P Require Import Queries.
From S2P Require Import Password.
From S2P Require Import Tokens.
From S2P Require Import Codes.
From S2P Require Import Signup.
From S2P Require Import Mfa.
From S2P Require Import Login.
From S2P Require Import Session.
From S2P Require Import PasswordFlows.
From S2P Require Import Store.
From S2P Require Import Toy.
From S2P Require Import Walks.
From S2P Require Import Requests.

#[local] Open Scope string_scope.
#[local] Open Scope Z_scope.
#[local] Open Scope go_scope.

Import Toy.

(** The value of a run that succeeds. *)
Definition outcome {A} (d : A) (r : option (svc A)) : A :=
  match r with Some (Done a) => a | _ => d end.

Definition ann : string := "ann@example.com".
Definition ann_password : string := "correct horse battery".

(** ** Sign-up *)
Definition w_started : World := final (StartEmailVerification ann) env (world empty_db).
Definition ann_code : string :=
  match w_redis w_started !! ("email_code:" ++ ann) with
  | Some (ROTP m, _) => otp_Code m
  | _ => ""
  end.
Definition w_verified : World := final (VerifyEmailCode ann ann_code) env w_started.
Definition join_ctx : Ctx := mkCtx None (Some ann) None None None None None.
Definition w_joined : World :=
  final (CompleteEmailJoin join_ctx "ann" ann_password ann_password) env w_verified.

(** ** Login *)
Definition ann_login : Go (svc LoginOutcome) := Login.Login nobody ann ann_password.
Definition w_in : World := final ann_login env w_joined.
Definition ann_out : LoginOutcome := outcome (mkLoginOutcome "" "" "" "" false "" []) (result ann_login env w_joined).

Definition ann_identity_in (d : DB) : AuthIdentity :=
  List.hd (mkAuthIdentity uuid_Nil None ProviderNameEmail "" None None None None None None) (auth_identities d).
Definition ann_user_in (d : DB) : User :=
  List.hd (mkUser uuid_Nil "" "" "" None None None None UserRoleUser None None None None None) (users d).

Lemma hd_elem {A} (x : A) (l : list A) : negb (Nat.eqb (length l) 0) = true → List.hd x l ∈ l.
Proof. destruct l; [done|]. intros _. left. Qed.

Definition ann_user : User := List.hd (mkUser uuid_Nil "" "" "" None None None None UserRoleUser None None None None None) (users (w_db w_in)).
Definition ann_session : Session :=
  List.last (sessions (w_db w_in)) (mkSession uuid_Nil None None 0 None None None None None None None).

Lemma run_keeps_wf {A} (m : Go A) e w : db_tracks safe m → wf (w_db w) → wf (w_db (final m e w)).
Proof. intros H Hw. by apply (H e w). Qed.

Lemma joined_wf : wf (w_db w_joined).
Proof.
  apply run_keeps_wf; [apply CompleteEmailJoin_in; tracked|]. apply run_keeps_wf; [tracked|].
  apply run_keeps_wf; [tracked|]. exact wf_empty.
Qed.
Lemma in_wf : wf (w_db w_in).
Proof. apply run_keeps_wf; [apply Login_in; tracked|exact joined_wf]. Qed.

(** The scenes are evaluated by the virtual machine only. *)
#[global] Opaque w_started w_verified w_joined w_in ann_out ann_code.
