(* ===== verification/Calls.v ===== *)
(** * Computations as trees of calls

    A goroutine gives up control only where it talks to something outside of it.
    [call] lists these points - a statement, a transaction, a Redis command, a
    mail, the clock, the random sources - and [prog] is the tree of calls a
    computation makes.  [Steps m] is such a tree together with the proof that
    running it alone is [m]; the tactic [steps] finds it by walking the code. *)

From S2P Require Import Prelude.
From S2P Require Import GoLib.
From S2P Require Import Model.
From S2P Require Import Runtime.
From S2P Require Import Logic.

#[local] Open Scope string_scope.
#[local] Open Scope Z_scope.
#[local] Open Scope go_scope.

(** ** Calls *)

Inductive call : Type → Type :=
  | CStmt {A} (st : Stmt A) : call (res A)
  | CTx {A} (fn : Go (res A)) : call (res A)
  | CRedis {A} (f : Z → gmap string (rval * option Z) → res A * gmap string (rval * option Z)) : call (res A)
  | CMail (m : Email) : call (res unit)
  | CNow : call Z
  | CUuid : call uuid
  | CRandRead (n : nat) : call (res string)
  | CRandInt : call (option N)
  | CArgon : call unit
  | CCfg : call Config
  | CRedisNil : call bool
  | CLimiter (m : Go (res bool)) : call (res bool)
  | CCatch {X} (c : call X) : call (option X).

(** The limiter is a library, whose answer is one step.  A call that panics where
    panics are recovered answers [None]. *)
Definition catch_call {X} (m : Go X) : Go (option X) := λ e w, let '(o, w') := m e w in (Some o, w').
Fixpoint perform {X} (c : call X) : Go X :=
  match c with
  | CStmt st => db_stmt st
  | CTx fn => WithTx fn
  | CRedis f => redis_call f
  | CMail m => send_mail m
  | CNow => now
  | CUuid => new_uuid
  | CRandRead n => rand_read n
  | CRandInt => rand_int
  | CArgon => burn
  | CCfg => get_cfg
  | CRedisNil => redis_is_nil
  | CLimiter m => m
  | CCatch c => catch_call (perform c)
  end.

(** ** Trees of calls *)

Inductive prog (A : Type) : Type :=
  | Ret (a : A)
  | Panic
  | Do {X} (c : call X) (k : X → prog A).
Arguments Ret {A} a.
Arguments Panic {A}.
Arguments Do {A X} c k.

Fixpoint pbind {A B} (p : prog A) (q : A → prog B) : prog B :=
  match p with
  | Ret a => q a
  | Panic => Panic
  | Do c k => Do c (λ x, pbind (k x) q)
  end.

(** The run of a tree that is not disturbed. *)
Fixpoint run {A} (p : prog A) : Go A :=
  match p with
  | Ret a => ret a
  | Panic => panic
  | Do c k => bind (perform c) (λ x, run (k x))
  end.

Lemma run_pbind {A B} (p : prog A) (q : A → prog B) e w :
  run (pbind p q) e w = bind (run p) (λ a, run (q a)) e w.
Proof.
  revert w. induction p as [a| |X c k IH]; intros w; [done..|]. cbn [pbind run]. unfold bind.
  destruct (perform c e w) as [[x|] w']; [apply IH|done].
Qed.

(** A tree that runs as [m]. *)
Record Steps {A} (m : Go A) : Type := mkSteps {
  steps_of : prog A;
  steps_run : ∀ e w, run steps_of e w = m e w
}.
Arguments steps_of {A m} s.
Arguments steps_run {A m} s e w.

Section rules.
Context {A : Type}.

Definition s_ret (a : A) : Steps (ret a) := mkSteps _ _ (Ret a) (λ _ _, eq_refl).
Definition s_panic : Steps (@panic A) := mkSteps _ _ Panic (λ _ _, eq_refl).

Lemma run_call {X} (c : call X) e w : run (Do c Ret) e w = perform c e w.
Proof. cbn [run]. unfold bind, ret. by destruct (perform c e w) as [[x|] w']. Qed.
Definition s_call {X} (c : call X) : Steps (perform c) := mkSteps _ _ (Do c Ret) (run_call c).

Lemma run_s_bind {B} (m : Go A) (k : A → Go B) (p : prog A) (q : A → prog B) :
  (∀ e w, run p e w = m e w) → (∀ a e w, run (q a) e w = k a e w) →
  ∀ e w, run (pbind p q) e w = bind m k e w.
Proof.
  intros Hm Hk e w. rewrite run_pbind. unfold bind. rewrite Hm. by destruct (m e w) as [[a|] w'].
Qed.
Definition s_bind {B} {m : Go A} {k : A → Go B} (p : Steps m) (q : ∀ a, Steps (k a)) : Steps (bind m k) :=
  mkSteps _ _ (pbind (steps_of p) (λ a, steps_of (q a)))
    (run_s_bind m k _ _ (steps_run p) (λ a, steps_run (q a))).
End rules.

Definition s_stmt {A} (st : Stmt A) : Steps (db_stmt st) := s_call (CStmt st).
Definition s_tx {A} (fn : Go (res A)) : Steps (WithTx fn) := s_call (CTx fn).
Definition s_actor {A} a (fn : Go (res A)) : Steps (WithActor a fn) := s_call (CTx _).
Definition s_redis {A} f : Steps (@redis_call A f) := s_call (CRedis f).
Definition s_mail m : Steps (send_mail m) := s_call (CMail m).
Definition s_now : Steps now := s_call CNow.
Definition s_uuid : Steps new_uuid := s_call CUuid.
Definition s_rand_read n : Steps (rand_read n) := s_call (CRandRead n).
Definition s_rand_int : Steps rand_int := s_call CRandInt.
Definition s_argon : Steps burn := s_call CArgon.
Definition s_cfg : Steps get_cfg := s_call CCfg.
Definition s_redis_nil : Steps redis_is_nil := s_call CRedisNil.

Fixpoint s_for_each {A B} {f : A → Go B} (p : ∀ a, Steps (f a)) (l : list A) : Steps (for_each f l) :=
  match l with
  | [] => s_ret tt
  | a :: l => s_bind (p a) (λ _, s_for_each p l)
  end.

(** Walk along the code, opening the functions it calls. *)
Create HintDb steps.
Ltac steps_step :=
  lazymatch goal with
  | |- Steps (bind _ _) => apply s_bind; [|intros ?]
  | |- Steps (ret _) => apply s_ret
  | |- Steps panic => apply s_panic
  | |- Steps (db_stmt _) => apply s_stmt
  | |- Steps (WithActor _ _) => apply s_actor
  | |- Steps (WithTx _) => apply s_tx
  | |- Steps (redis_call _) => apply s_redis
  | |- Steps (send_mail _) => apply s_mail
  | |- Steps now => apply s_now
  | |- Steps new_uuid => apply s_uuid
  | |- Steps (rand_read _) => apply s_rand_read
  | |- Steps rand_int => apply s_rand_int
  | |- Steps burn => apply s_argon
  | |- Steps get_cfg => apply s_cfg
  | |- Steps redis_is_nil => apply s_redis_nil
  | |- Steps (for_each _ _) => apply s_for_each; intros ?
  | |- Steps (match ?x with _ => _ end) => destruct x
  | |- Steps ?m => first [solve [eauto with steps nocore] | let h := head_of m in unfold h; cbv beta zeta]
  end.
Ltac steps := intros; repeat steps_step.
