(* ===== verification/Steps.v ===== *)
(** * The services as trees of calls

    Every service, and with it every request, has a tree of calls that runs as it
    does; so what is proved of the services carries over to runs in which the
    calls of several requests alternate ([Interleave]). *)

From S2P Require Import Prelude.
From S2P Require Import GoLib.
From S2P Require Import Utils.
From S2P Require Import Model.
From S2P Require Import Runtime.
From S2P Require Import Logic.
From S2P Require Import Queries.
From S2P Require Import Password.
From S2P Require Import Tokens.
From S2P Require Import Codes.
From S2P Require Import Signup.
From S2P Require Import Mfa.
From S2P Require Import Login.
From S2P Require Import Session.
From S2P Require Import PasswordFlows.
From S2P Require Import Sso.
From S2P Require Import Maintenance.
From S2P Require Import Admin.
From S2P Require Import Passkey.
From S2P Require Import Requests.
From S2P Require Import Calls.

#[local] Open Scope string_scope.
#[local] Open Scope Z_scope.
#[local] Open Scope go_scope.

(** ** The trees of the services *)

Section services.
Context `{TL : TextLib} `{UL : UuidLib} `{HL : HashLib} `{JL : JwtLib} `{OL : TotpLib} `{AL : AeadLib}
  `{WL : WebAuthnLib} `{CL : TimeLib} `{OI : OidcLib}.

Definition s_try_peppers password salt want p : ∀ peps, Steps (try_peppers peps password salt want p).
Proof. induction peps as [|[id pep] peps IH]; cbn [try_peppers]; [apply s_ret|]. steps. Defined.
#[local] Hint Resolve s_try_peppers : steps.
Definition s_recovery_codes : ∀ n a b, Steps (generate_recovery_codes n a b).
Proof.
  induction n as [|n IH]; intros a b; cbn [generate_recovery_codes]; [apply s_ret|].
  apply s_bind; [steps|]. intros [x|err]; [apply IH|apply s_ret].
Defined.
#[local] Hint Resolve s_recovery_codes : steps.
Definition s_try_usernames base : ∀ n a, Steps (try_usernames base a n).
Proof. induction n as [|n IH]; intros a; cbn [try_usernames]; [apply s_ret|]. steps; apply IH. Defined.
#[local] Hint Resolve s_try_usernames : steps.
Definition s_update_used a b : ∀ rows, Steps (update_used_credential rows a b).
Proof. induction rows as [|r rows IH]; cbn [update_used_credential]; steps. Defined.
#[local] Hint Resolve s_update_used : steps.
Definition s_jobs : ∀ js failed, Steps (run_jobs js failed).
Proof. induction js as [|j js IH]; intros failed; cbn [run_jobs]; steps; apply IH. Defined.
#[local] Hint Resolve s_jobs : steps.
Definition s_loadAdminTarget a b : Steps (loadAdminTarget a b).
Proof. steps. Defined.
#[local] Hint Resolve s_loadAdminTarget : steps.

Definition s_CreateRefreshSessionInput a : Steps (CreateRefreshSessionInput a).
Proof. steps. Defined.
#[local] Hint Resolve s_CreateRefreshSessionInput : steps.
Definition s_issueLoginSession a b c d e f : Steps (issueLoginSession a b c d e f).
Proof. steps. Defined.
#[local] Hint Resolve s_issueLoginSession : steps.
Definition s_login_verified a b c d : Steps (login_verified a b c d).
Proof. steps. Defined.
#[local] Hint Resolve s_login_verified : steps.
Definition s_mfa_finish a b c : Steps (mfa_finish a b c).
Proof. steps. Defined.
#[local] Hint Resolve s_mfa_finish : steps.
Definition s_loadWebAuthnUser a b : Steps (loadWebAuthnUser a b).
Proof. steps. Defined.
#[local] Hint Resolve s_loadWebAuthnUser : steps.
Definition s_passkey_handler a : Steps (passkey_handler a).
Proof. steps. Defined.
#[local] Hint Resolve s_passkey_handler : steps.
Definition s_passkey_finish a b c d e f : Steps (passkey_finish a b c d e f).
Proof. steps. Defined.
#[local] Hint Resolve s_passkey_finish : steps.

(** The services, one by one. *)
Definition s_StartEmailVerification a : Steps (StartEmailVerification a).
Proof. steps. Defined.
Definition s_VerifyEmailCode a b : Steps (VerifyEmailCode a b).
Proof. steps. Defined.
Definition s_CompleteEmailJoin a b c d : Steps (CompleteEmailJoin a b c d).
Proof. steps. Defined.
Definition s_Login a b c : Steps (Login.Login a b c).
Proof. steps. Defined.
Definition s_VerifyMFALogin a b c d : Steps (VerifyMFALogin a b c d).
Proof. steps. Defined.
Definition s_SendMFALoginCode a b : Steps (SendMFALoginCode a b).
Proof. steps. Defined.
Definition s_RefreshToken a b c : Steps (RefreshToken a b c).
Proof. steps. Defined.
Definition s_Logout a : Steps (Logout a).
Proof. steps. Defined.
Definition s_RequestPasswordReset a b : Steps (RequestPasswordReset a b).
Proof. steps. Defined.
Definition s_ResetPassword a b c : Steps (PasswordFlows.ResetPassword a b c).
Proof. steps. Defined.
Definition s_ChangePassword a b c d e : Steps (ChangePassword a b c d e).
Proof. steps. Defined.
Definition s_EnrollMFA a b : Steps (EnrollMFA a b).
Proof. steps. Defined.
Definition s_VerifyMFAEnrollment a b : Steps (VerifyMFAEnrollment a b).
Proof. steps. Defined.
Definition s_DisableMFA a b : Steps (DisableMFA a b).
Proof. steps. Defined.
Definition s_EnrollEmailMFA a : Steps (EnrollEmailMFA a).
Proof. steps. Defined.
Definition s_VerifyEmailMFAEnrollment a b : Steps (VerifyEmailMFAEnrollment a b).
Proof. steps. Defined.
Definition s_DisableEmailMFA a b : Steps (DisableEmailMFA a b).
Proof. steps. Defined.
Definition s_SSOLogin a b c d : Steps (SSOLogin a b c d).
Proof. steps. Defined.
Definition s_ListUsers a : Steps (ListUsers a).
Proof. steps. Defined.
Definition s_GetUser a : Steps (GetUser a).
Proof. steps. Defined.
Definition s_BanUser a b c d e : Steps (BanUser a b c d e).
Proof. steps. Defined.
Definition s_UnbanUser a b c d e : Steps (UnbanUser a b c d e).
Proof. steps. Defined.
Definition s_DisableUser a b c d e : Steps (DisableUser a b c d e).
Proof. steps. Defined.
Definition s_EnableUser a b c d e : Steps (EnableUser a b c d e).
Proof. steps. Defined.
Definition s_ForceLogoutUser a b c d e : Steps (ForceLogoutUser a b c d e).
Proof. steps. Defined.
Definition s_ChangeUserRole a b c d e : Steps (ChangeUserRole a b c d e).
Proof. steps. Defined.
Definition s_DeleteUser a b c d e : Steps (DeleteUser a b c d e).
Proof. steps. Defined.
Definition s_AdminResetUserPassword a b c d : Steps (AdminResetUserPassword a b c d).
Proof. steps. Defined.
Definition s_ListAuditLogs a b c : Steps (Admin.ListAuditLogs a b c).
Proof. steps. Defined.
Definition s_BeginPasskeyRegistration a b c : Steps (BeginPasskeyRegistration a b c).
Proof. steps. Defined.
Definition s_FinishPasskeyRegistration a b c d e : Steps (FinishPasskeyRegistration a b c d e).
Proof. steps. Defined.
Definition s_BeginPasskeyLogin a : Steps (BeginPasskeyLogin a).
Proof. steps. Defined.
Definition s_FinishPasskeyLogin a b c d : Steps (FinishPasskeyLogin a b c d).
Proof. steps. Defined.
Definition s_ListPasskeys a : Steps (ListPasskeys a).
Proof. steps. Defined.
Definition s_RenamePasskey a b c : Steps (RenamePasskey a b c).
Proof. steps. Defined.
Definition s_DeletePasskey a b c : Steps (DeletePasskey a b c).
Proof. steps. Defined.
Definition s_RunMaintenance : Steps (RunMaintenance).
Proof. steps. Defined.
#[local] Hint Resolve s_StartEmailVerification s_VerifyEmailCode s_CompleteEmailJoin s_Login
  s_VerifyMFALogin s_SendMFALoginCode s_RefreshToken s_Logout s_RequestPasswordReset s_ResetPassword
  s_ChangePassword s_EnrollMFA s_VerifyMFAEnrollment s_DisableMFA s_EnrollEmailMFA
  s_VerifyEmailMFAEnrollment s_DisableEmailMFA s_SSOLogin s_ListUsers s_GetUser s_BanUser s_UnbanUser
  s_DisableUser s_EnableUser s_ForceLogoutUser s_ChangeUserRole s_DeleteUser s_AdminResetUserPassword
  s_ListAuditLogs s_BeginPasskeyRegistration s_FinishPasskeyRegistration s_BeginPasskeyLogin
  s_FinishPasskeyLogin s_ListPasskeys s_RenamePasskey s_DeletePasskey s_RunMaintenance : steps.

(** What a request comes to: served, refused with an error code, or, for the
    maintenance command, with jobs that failed. *)
Inductive verdict :=
  | Served
  | Refused (err : ErrorCode)
  | JobsFailed.
Definition judged {A} (m : Go (svc A)) : Go verdict :=
  r <- m ;; ret (match r with Done _ => Served | Fail err => Refused err end).
Definition swept (m : Go (res unit)) : Go verdict :=
  r <- m ;; ret (match r with Ok _ => Served | Err _ => JobsFailed end).

Definition verdict_of (r : request) : Go verdict :=
  match r with
  | RStartEmailVerification a => judged (StartEmailVerification a)
  | RVerifyEmailCode a b => judged (VerifyEmailCode a b)
  | RCompleteEmailJoin a b c d => judged (CompleteEmailJoin a b c d)
  | RLogin a b c => judged (Login a b c)
  | RVerifyMFALogin a b c d => judged (VerifyMFALogin a b c d)
  | RSendMFALoginCode a b => judged (SendMFALoginCode a b)
  | RRefreshToken a b c => judged (RefreshToken a b c)
  | RLogout a => judged (Logout a)
  | RRequestPasswordReset a b => judged (RequestPasswordReset a b)
  | RResetPassword a b c => judged (ResetPassword a b c)
  | RChangePassword a b c d e => judged (ChangePassword a b c d e)
  | REnrollMFA a b => judged (EnrollMFA a b)
  | RVerifyMFAEnrollment a b => judged (VerifyMFAEnrollment a b)
  | RDisableMFA a b => judged (DisableMFA a b)
  | REnrollEmailMFA a => judged (EnrollEmailMFA a)
  | RVerifyEmailMFAEnrollment a b => judged (VerifyEmailMFAEnrollment a b)
  | RDisableEmailMFA a b => judged (DisableEmailMFA a b)
  | RSSOLogin a b c d => judged (SSOLogin a b c d)
  | RListUsers a => judged (ListUsers a)
  | RGetUser a => judged (GetUser a)
  | RBanUser a b c d e => judged (BanUser a b c d e)
  | RUnbanUser a b c d e => judged (UnbanUser a b c d e)
  | RDisableUser a b c d e => judged (DisableUser a b c d e)
  | REnableUser a b c d e => judged (EnableUser a b c d e)
  | RForceLogoutUser a b c d e => judged (ForceLogoutUser a b c d e)
  | RChangeUserRole a b c d e => judged (ChangeUserRole a b c d e)
  | RDeleteUser a b c d e => judged (DeleteUser a b c d e)
  | RAdminResetUserPassword a b c d => judged (AdminResetUserPassword a b c d)
  | RListAuditLogs a b c => judged (ListAuditLogs a b c)
  | RBeginPasskeyRegistration a b c => judged (BeginPasskeyRegistration a b c)
  | RFinishPasskeyRegistration a b c d e => judged (FinishPasskeyRegistration a b c d e)
  | RBeginPasskeyLogin a => judged (BeginPasskeyLogin a)
  | RFinishPasskeyLogin a b c d => judged (FinishPasskeyLogin a b c d)
  | RListPasskeys a => judged (ListPasskeys a)
  | RRenamePasskey a b c => judged (RenamePasskey a b c)
  | RDeletePasskey a b c => judged (DeletePasskey a b c)
  | RRunMaintenance => swept RunMaintenance
  end.

Lemma verdict_request r e w : bind (verdict_of r) (λ _, ret ()) e w = run_request r e w.
Proof.
  destruct r; cbn [verdict_of run_request]; unfold judged, swept, bind, ret;
    match goal with |- context [?m e w] => by destruct (m e w) as [[?|] ?] end.
Qed.

Lemma verdict_final r e w : final (verdict_of r) e w = final (run_request r) e w.
Proof. unfold final. rewrite <- verdict_request. unfold bind, ret. by destruct (verdict_of r e w) as [[v|] w']. Qed.

Definition s_judged {A} {m : Go (svc A)} (s : Steps m) : Steps (judged m) := s_bind s (λ _, s_ret _).
Definition s_request (r : request) : Steps (verdict_of r).
Proof. destruct r; cbn [verdict_of]; [> apply s_judged.. | unfold swept]; steps. Defined.

(** The tree of calls of a request. *)
Definition program (r : request) : prog verdict := steps_of (s_request r).

Lemma run_program r e w : run (program r) e w = verdict_of r e w.
Proof. apply steps_run. Qed.
End services.
#[export] Hint Resolve s_try_peppers s_recovery_codes s_try_usernames s_update_used s_jobs : steps.
#[export] Hint Resolve s_StartEmailVerification s_VerifyEmailCode s_CompleteEmailJoin s_Login
  s_VerifyMFALogin s_SendMFALoginCode s_RefreshToken s_Logout s_RequestPasswordReset s_ResetPassword
  s_ChangePassword s_EnrollMFA s_VerifyMFAEnrollment s_DisableMFA s_EnrollEmailMFA
  s_VerifyEmailMFAEnrollment s_DisableEmailMFA s_SSOLogin s_ListUsers s_GetUser s_BanUser s_UnbanUser
  s_DisableUser s_EnableUser s_ForceLogoutUser s_ChangeUserRole s_DeleteUser s_AdminResetUserPassword
  s_ListAuditLogs s_BeginPasskeyRegistration s_FinishPasskeyRegistration s_BeginPasskeyLogin
  s_FinishPasskeyLogin s_ListPasskeys s_RenamePasskey s_DeletePasskey s_RunMaintenance : steps.
