(* ===== verification/Pool.v ===== *)
(** * Jobs that run at the same time

    The server answers every request in a goroutine of its own.  A [pool] is the
    store, Redis and mailbox with the jobs under way, each with the calls it has
    still to make; a step starts a job, makes one call of one of them under any
    environment, or drops one.  [along] follows a tree of calls: what every call
    of a job may do to the store, whatever the others do in between.  A
    transaction is one call: it is taken to be serialised against the others. *)

From S2P Require Import Prelude.
From S2P Require Import GoLib.
From S2P Require Import Model.
From S2P Require Import Runtime.
From S2P Require Import Logic.
From S2P Require Import Calls.
From Stdlib Require Import Wellfounded.
From stdpp Require Import relations list.

#[local] Open Scope string_scope.
#[local] Open Scope Z_scope.
#[local] Open Scope go_scope.

(** ** The calls of a tree, one by one *)

(** The environments calls are made in: all, or those of a process, whose
    configuration is fixed. *)
Class Setting := setting : Env → Prop.
#[export] Instance any_setting : Setting | 100 := λ _, True.
Definition configured (cfg : Config) : Setting := λ e, e_cfg e = cfg.

(** Between the calls of a request the others run; all that is known of the store
    a call finds is [I], which nothing ends.  [along I R p Q]: on such stores
    every call of [p] moves the store along [R], and what [p] returns satisfies
    [Q], whatever its calls may answer there. *)
Definition answers `{Setting} {X} (I : DB → Prop) (c : call X) (x : X) : Prop :=
  ∃ e w, setting e ∧ I (w_db w) ∧ (perform c e w).1 = Some x.
Fixpoint along `{Setting} {A} (I : DB → Prop) (R : relation DB) (p : prog A) (Q : A → Prop) : Prop :=
  match p with
  | Ret a => Q a
  | Panic => True
  | Do c k => db_tracks R (perform c) ∧ ∀ x, answers I c x → along I R (k x) Q
  end.
Definition any {A} (_ : A) : Prop := True.

Section along.
Context `{ST : Setting} (I : DB → Prop) (R : relation DB).

Lemma along_mono {A} (p : prog A) (P Q : A → Prop) : along I R p P → (∀ a, P a → Q a) → along I R p Q.
Proof. intros H HQ. induction p as [a| |X c k IH]; cbn in *; [auto|done|]. destruct H as [Hc Hk]. split; eauto. Qed.
Lemma along_pbind {A B} (P : A → Prop) Q (p : prog A) (q : A → prog B) :
  along I R p P → (∀ a, P a → along I R (q a) Q) → along I R (pbind p q) Q.
Proof. intros Hp Hq. induction p as [a| |X c k IH]; cbn in *; [auto|done|]. destruct Hp as [Hc Hk]. split; eauto. Qed.

(** Knowing more of the stores the calls find leaves fewer answers. *)
Lemma along_weaken {A} (J : DB → Prop) (p : prog A) Q : (∀ d, I d → J d) → along J R p Q → along I R p Q.
Proof.
  intros HIJ H. induction p as [a| |X c k IH]; cbn in *; [done..|]. destruct H as [Hc Hk]. split; [done|].
  intros x (e & w & He & HI & Hx). apply IH, Hk. exists e, w. auto.
Qed.

Definition tracks {A} {m : Go A} (s : Steps m) : Prop := along I R (steps_of s) any.
Lemma tracks_ret {A} (a : A) : tracks (s_ret a).
Proof. done. Qed.
Lemma tracks_panic {A} : tracks (@s_panic A).
Proof. done. Qed.
Lemma tracks_call {X} (c : call X) : db_tracks R (perform c) → tracks (s_call c).
Proof. by split. Qed.
Lemma tracks_bind {A B} {m : Go A} {k : A → Go B} (p : Steps m) (q : ∀ a, Steps (k a)) :
  tracks p → (∀ a, tracks (q a)) → tracks (s_bind p q).
Proof. intros Hp Hq. apply (along_pbind any); [done|]. intros a _. apply Hq. Qed.
(** The same when something is known of what the first part returns ... *)
Lemma tracks_bind_post {A B} (P : A → Prop) {m : Go A} {k : A → Go B} (p : Steps m) (q : ∀ a, Steps (k a)) :
  along I R (steps_of p) P → (∀ a, P a → tracks (q a)) → tracks (s_bind p q).
Proof. intros Hp Hq. by apply (along_pbind P). Qed.
(** ... of what a call answers on a store that satisfies [I] ... *)
Lemma along_call {X} (P : X → Prop) (c : call X) :
  db_tracks R (perform c) →
  (∀ e w, setting e → I (w_db w) → wp (perform c) e (λ o _, ∀ x, o = Some x → P x) w) →
  along I R (steps_of (s_call c)) P.
Proof. intros Hc HP. split; [done|]. intros x (e & w & He & HI & Hx). cbn. exact (HP e w He HI x Hx). Qed.
(** ... or of what a read finds there. *)
Lemma along_query `{!PreOrder R} {A} (P : A → Prop) (q : SCtx → DB → res A) :
  (∀ c d a, I d → q c d = Ok a → P a) →
  along I R (steps_of (s_stmt (query q))) (λ r, match r with Ok a => P a | Err _ => True end).
Proof.
  intros Hq. apply along_call; [cbn [perform]; tracked|]. intros e w _ HI. cbn [perform].
  apply wp_query; [by intros err _ ? [= <-]|]. intros a Ha ? [= <-]. by eapply Hq.
Qed.
Lemma tracks_bind_query `{!PreOrder R} {A B} (P : A → Prop) q {k : res A → Go B} (s : ∀ r, Steps (k r)) :
  (∀ c d a, I d → q c d = Ok a → P a) →
  (∀ a, P a → tracks (s (Ok a))) → (∀ err, tracks (s (Err err))) → tracks (s_bind (s_stmt (query q)) s).
Proof. intros Hq Hok Herr. eapply tracks_bind_post; [by apply along_query|]. intros [a|err]; auto. Qed.
Lemma tracks_for_each {A B} {f : A → Go B} (p : ∀ a, Steps (f a)) l :
  (∀ a, tracks (p a)) → tracks (s_for_each p l).
Proof. intros H. induction l as [|a l IH]; [done|]. by apply tracks_bind. Qed.
(** A branch on a test that comes back further down the tree. *)
Lemma tracks_if {A} (M : bool → Go A) (b : bool) (p : Steps (M true)) (q : Steps (M false)) :
  tracks p → tracks q → tracks (if b as b return Steps (M b) then p else q).
Proof. by destruct b. Qed.
End along.

(** ** What a tree comes to

    [ends panics p Q]: whatever its calls answer, [p] comes to a result that
    satisfies [Q], or panics, where [panics] allows it. *)
Fixpoint ends {A} (panics : Prop) (p : prog A) (Q : A → Prop) : Prop :=
  match p with
  | Ret a => Q a
  | Panic => panics
  | Do c k => (panics ∨ ∀ e w, (perform c e w).1 ≠ None) ∧ ∀ x, ends panics (k x) Q
  end.
Definition s_ends (panics : Prop) {A} {m : Go A} (s : Steps m) (Q : A → Prop) : Prop := ends panics (steps_of s) Q.

Lemma ends_pbind {A B} panics (p : prog A) (q : A → prog B) P Q :
  ends panics p P → (∀ a, P a → ends panics (q a) Q) → ends panics (pbind p q) Q.
Proof. intros Hp Hq. induction p as [a| |X c k IH]; cbn in *; [auto..|]. destruct Hp as [Hc Hk]. split; [done|]. intros x. by apply IH. Qed.
Lemma ends_mono {A} panics (p : prog A) (P Q : A → Prop) : (∀ a, P a → Q a) → ends panics p P → ends panics p Q.
Proof. intros HQ H. induction p as [a| |X c k IH]; cbn in *; [auto..|]. destruct H as [Hc Hk]. split; auto. Qed.
Lemma ends_any {A} (p : prog A) : ends True p any.
Proof. induction p as [a| |X c k IH]; [done..|]. split; [by left|done]. Qed.
Lemma ends_run {A} (p : prog A) Q e w : ends False p Q → ∃ a, (run p e w).1 = Some a ∧ Q a.
Proof.
  revert w. induction p as [a| |X c k IH]; intros w H; [by exists a|done|]. destruct H as [[[]|Hc] Hk]. cbn. unfold bind.
  specialize (Hc e w). destruct (perform c e w) as [[x|] w']; [by apply IH|done].
Qed.

Section s_ends.
Context (panics : Prop) {A B : Type}.
Implicit Types (Q : B → Prop).
Lemma s_ends_ret Q (b : B) : Q b → s_ends panics (s_ret b) Q.
Proof. done. Qed.
Lemma s_ends_bind P Q {m : Go A} {k : A → Go B} (s : Steps m) (t : ∀ a, Steps (k a)) :
  s_ends panics s P → (∀ a, P a → s_ends panics (t a) Q) → s_ends panics (s_bind s t) Q.
Proof. apply ends_pbind. Qed.
(** A call that does not panic, whatever it answers. *)
Lemma s_ends_call Q {k : A → Go B} (c : call A) (t : ∀ a, Steps (k a)) :
  (∀ e w, (perform c e w).1 ≠ None) → (∀ a, s_ends panics (t a) Q) → s_ends panics (s_bind (s_call c) t) Q.
Proof. intros Hc Ht. apply (s_ends_bind any); [|auto]. split; [by right|done]. Qed.
End s_ends.
Lemma s_ends_bind_any {A B} Q {m : Go A} {k : A → Go B} (s : Steps m) (t : ∀ a, Steps (k a)) :
  (∀ a, s_ends True (t a) Q) → s_ends True (s_bind s t) Q.
Proof. intros Ht. apply (s_ends_bind True any); [apply ends_any|auto]. Qed.

(** Give a branching tree the computation of its own branches. *)
Ltac retype :=
  lazymatch goal with
  | |- @tracks ?S ?I ?R ?A _ ?s =>
      let T := type of s in
      lazymatch eval cbv beta in T with @Steps _ ?m => change (@tracks S I R A m s) end
  | |- @s_ends ?P ?A _ ?s ?Q =>
      let T := type of s in
      lazymatch eval cbv beta in T with @Steps _ ?m => change (@s_ends P A m s Q) end
  end.

Ltac branch :=
  lazymatch goal with
  | |- @tracks ?S ?I ?R ?A (if ?b then ?m1 else ?m2) (if _ then ?p else ?q) =>
      refine (@tracks_if S I R A (λ y : bool, if y then m1 else m2) b p q _ _); cbv beta iota
  end.

(** Open the service of a request. *)
Ltac open_service :=
  apply tracks_bind; [|intros ?; apply tracks_ret];
  lazymatch goal with |- tracks _ _ ?s => let h := head_of s in unfold h end; retype.

(** Follow the tree the walk along the code has built, closing every call with a
    hint of the store. *)
Ltac tracks_step :=
  lazymatch goal with
  | |- tracks _ _ (s_bind _ _) => apply tracks_bind; [|intros ?]
  | |- tracks _ _ (s_ret _) => apply tracks_ret
  | |- tracks _ _ s_panic => apply tracks_panic
  | |- tracks _ _ (s_for_each _ _) => apply tracks_for_each; intros ?
  | |- tracks _ _ (match ?x with _ => _ end) => retype; first [branch | destruct x]
  | |- tracks _ _ (s_call _) => apply tracks_call; cbn [perform]; solve [db_tracks]
  | |- tracks _ _ ?s => first [solve [eauto with steps typeclass_instances nocore] | let h := head_of s in unfold h; cbv beta iota zeta]
  end.
Ltac tracks := intros; repeat tracks_step.

(** ** Pools *)

(** What can be under way, and the tree of calls of each. *)
Class Jobs (J A : Type) := job_prog : J → prog A.

(** A job under way, with the calls it has still to make. *)
Record thread (J A : Type) := mkThread { th_job : J; th_rest : prog A }.
Arguments mkThread {J A} _ _.
Arguments th_job {J A} _.
Arguments th_rest {J A} _.
Record pool (J A : Type) := mkPool { po_threads : list (thread J A); po_world : World }.
Arguments mkPool {J A} _ _.
Arguments po_threads {J A} _.
Arguments po_world {J A} _.

(** The next call of a tree; a call that panics ends the job. *)
Definition advance {A} (e : Env) (p : prog A) (w : World) : prog A * World :=
  match p with
  | Do c k =>
      let '(o, w') := perform c e w in
      (match o with Some x => k x | None => Panic end, w')
  | p => (p, w)
  end.

Section pools.
Context {J A : Type} `{JP : !Jobs J A} `{ST : Setting}.
Implicit Types po : pool J A.

Definition start (r : J) : thread J A := mkThread r (job_prog r).
Definition po_db (po : pool J A) : DB := w_db (po_world po).
Definition accepted (po : pool J A) : list J := th_job <$> po_threads po.

(** Thread [i] makes its next call. *)
Definition call_of (e : Env) (i : nat) (po : pool J A) : pool J A :=
  match po_threads po !! i with
  | Some th =>
      let '(p, w) := advance e (th_rest th) (po_world po) in
      mkPool (<[i := mkThread (th_job th) p]> (po_threads po)) w
  | None => po
  end.

(** A job arrives, a job makes a call, or a job is abandoned, as all
    are when the process stops. *)
Inductive pool_step : relation (pool J A) :=
  | step_accept r po : pool_step po (mkPool (po_threads po ++ [start r]) (po_world po))
  | step_call e i po : setting e → pool_step po (call_of e i po)
  | step_drop i th po :
      po_threads po !! i = Some th →
      pool_step po (mkPool (<[i := mkThread (th_job th) Panic]> (po_threads po)) (po_world po)).

Definition pool_steps : relation (pool J A) := rtc pool_step.

(** The pools a server comes to, from any store. *)
Definition running (po : pool J A) : Prop := ∃ w, pool_steps (mkPool [] w) po.

(** The calls of a pool in a given order, undisturbed by arrivals. *)
Definition play (e : Env) (order : list nat) (po : pool J A) : pool J A := foldl (λ po i, call_of e i po) po order.

Lemma play_steps e order po : setting e → pool_steps po (play e order po).
Proof.
  intros He. revert po. induction order as [|i order IH]; intros po; [apply rtc_refl|].
  eapply rtc_l; [by apply (step_call e i)|apply IH].
Qed.
Lemma accept_more rs po : pool_steps po (mkPool (po_threads po ++ (start <$> rs)) (po_world po)).
Proof.
  induction rs as [|r rs IH] using rev_ind; [destruct po; cbn; rewrite app_nil_r; apply rtc_refl|].
  eapply rtc_r; [exact IH|]. rewrite fmap_app, app_assoc.
  exact (step_accept r (mkPool (po_threads po ++ (start <$> rs)) (po_world po))).
Qed.
Lemma accept_all rs w : pool_steps (mkPool [] w) (mkPool (start <$> rs) w).
Proof. apply (accept_more rs (mkPool [] w)). Qed.
Lemma play_running e order rs w : setting e → running (play e order (mkPool (start <$> rs) w)).
Proof. exists w. eapply rtc_trans; [apply accept_all|by apply play_steps]. Qed.

(** ** One job alone *)

Lemma play_alone e r p w :
  ∃ n, play e (replicate n 0%nat) (mkPool [mkThread r p] w)
       = mkPool [mkThread r (match (run p e w).1 with Some v => Ret v | None => Panic end)] (run p e w).2.
Proof.
  revert w. induction p as [a| |X c k IH]; intros w; [by exists 0%nat..|]. cbn [run]. unfold bind.
  destruct (perform c e w) as [[x|] w'] eqn:E.
  - destruct (IH x w') as [n Hn]. exists (S n). unfold play in *. cbn [replicate foldl]. rewrite <- Hn.
    f_equal. unfold call_of, advance. cbn. by rewrite E.
  - exists 1%nat. unfold play, call_of, advance. cbn. by rewrite E.
Qed.

(** ** What every call keeps, every pool keeps *)

Lemma accepted_insert i th p (l : list (thread J A)) :
  l !! i = Some th → th_job <$> <[i := mkThread (th_job th) p]> l = th_job <$> l.
Proof.
  intros H. rewrite list_fmap_insert. apply list_insert_id. by rewrite list_lookup_fmap, H.
Qed.
Lemma accepted_step po po' : pool_step po po' → accepted po `prefix_of` accepted po'.
Proof.
  unfold accepted. intros [r po1|e i po1 He|i th po1 H]; cbn.
  - rewrite fmap_app. by apply prefix_app_r.
  - unfold call_of. destruct (po_threads po1 !! i) as [th|] eqn:E; [|done].
    destruct (advance e (th_rest th) (po_world po1)). cbn. by rewrite (accepted_insert _ _ _ _ E).
  - by rewrite (accepted_insert _ _ _ _ H).
Qed.
Lemma accepted_steps po po' : pool_steps po po' → accepted po `prefix_of` accepted po'.
Proof. induction 1; [done|]. etransitivity; [by eapply accepted_step|done]. Qed.

(** What is left of a tree after some of its calls. *)
Inductive left_of {B} : prog B → prog B → Prop :=
  | left_all p : left_of p p
  | left_dropped p : left_of p Panic
  | left_after {X} (c : call X) k x q : answers any c x → left_of (k x) q → left_of (Do c k) q.

Lemma left_of_trans {B} (p q r : prog B) : left_of p q → left_of q r → left_of p r.
Proof.
  induction 1 as [p|p|X c k x q Hx H IH]; [done| |].
  - inversion 1; constructor.
  - intros Hr. apply (left_after c k x); auto.
Qed.
Lemma advance_left {B} e (p : prog B) w : setting e → left_of p (advance e p w).1.
Proof.
  intros He. destruct p as [a| |X c k]; cbn; [constructor..|].
  destruct (perform c e w) as [[x|] w'] eqn:E; cbn; [|constructor].
  apply (left_after c k x); [|constructor]. exists e, w. by rewrite E.
Qed.
Lemma left_along R {B} (p q : prog B) : left_of p q → along any R p any → along any R q any.
Proof.
  induction 1 as [p|p|X c k x q Hx H IH]; [done..|]. intros [_ Hk]. by apply IH, Hk.
Qed.

Definition pool_left (po : pool J A) : Prop := Forall (λ th, left_of (job_prog (th_job th)) (th_rest th)) (po_threads po).
Lemma pool_step_left po po' : pool_step po po' → pool_left po → pool_left po'.
Proof.
  intros Hs Hpo. destruct Hs as [r po|e i po He|i th po Hi].
  - apply Forall_app. split; [done|]. apply Forall_singleton. constructor.
  - unfold call_of. destruct (po_threads po !! i) as [th|] eqn:Hi; [|done].
    pose proof (Forall_lookup_1 _ _ _ _ Hpo Hi) as Hth. pose proof (advance_left e (th_rest th) (po_world po) He) as Hl.
    destruct (advance e (th_rest th) (po_world po)) as [p w]. apply Forall_insert; [done|]. cbn. eapply left_of_trans; [exact Hth|exact Hl].
  - apply Forall_insert; [done|]. constructor.
Qed.
Lemma running_left po th : running po → th ∈ po_threads po → left_of (job_prog (th_job th)) (th_rest th).
Proof.
  intros [w Hw]. revert th. apply Forall_forall. change (pool_left po).
  assert (pool_left (mkPool [] w)) as H by exact (Forall_nil_2 _).
  revert H. induction Hw as [|po1 po2 po3 H12 _ IH]; [done|]. intros H. by eapply IH, pool_step_left.
Qed.

(** The jobs that arrived on the way from a pool to another. *)
Definition arrived (po po' : pool J A) : list J := drop (length (accepted po)) (accepted po').
Lemma elem_of_arrived po po' r : r ∈ arrived po po' → r ∈ accepted po'.
Proof. unfold arrived. rewrite <- (take_drop (length (accepted po)) (accepted po')) at 2. rewrite elem_of_app. auto. Qed.
Lemma arrived_trans po1 po2 po3 :
  accepted po1 `prefix_of` accepted po2 → accepted po2 `prefix_of` accepted po3 →
  arrived po1 po3 = (arrived po1 po2 ++ arrived po2 po3)%list.
Proof.
  unfold arrived. intros [l1 H1] [l2 H2]. rewrite H2, H1, <- app_assoc, !drop_app_length.
  f_equal. by rewrite app_assoc, drop_app_length.
Qed.

(** [I] is an invariant of [R]: the others, which move the store along [R], do
    not end it. *)
Section kept.
Context (I : DB → Prop) (R : relation DB) `{!PreOrder R} (Hkept : ∀ d d', R d d' → I d → I d').

Lemma advance_along {B} e (p : prog B) w :
  setting e → I (w_db w) → along I R p any →
  along I R (advance e p w).1 any ∧ R (w_db w) (w_db (advance e p w).2).
Proof.
  intros He HI. destruct p as [a| |X c k]; cbn; [by split..|]. intros [Hc Hk]. specialize (Hc e w).
  specialize (λ x H, Hk x (ex_intro _ e (ex_intro _ w (conj He (conj HI H))))).
  destruct (perform c e w) as [[x|] w']; cbn; [|done]. split; [|done]. by apply Hk.
Qed.

(** Alone, the tree does to the store what its calls do. *)
Lemma run_along {B} (p : prog B) e w : setting e → I (w_db w) → along I R p any → R (w_db w) (w_db (run p e w).2).
Proof.
  intros He. revert w. induction p as [a| |X c k IH]; intros w HI; cbn; [reflexivity..|]. intros [Hc Hk]. specialize (Hc e w).
  specialize (λ x H, Hk x (ex_intro _ e (ex_intro _ w (conj He (conj HI H))))). unfold bind.
  destruct (perform c e w) as [[x|] w'] eqn:E; cbn in *; [|done].
  transitivity (w_db w'); [done|]. apply IH; [by eapply Hkept|by apply Hk].
Qed.

Definition pool_along (po : pool J A) : Prop := Forall (λ th, along I R (th_rest th) any) (po_threads po).

Lemma pool_step_along po po' :
  pool_step po po' → (∀ r, r ∈ arrived po po' → along I R (job_prog r) any) → I (po_db po) → pool_along po →
  pool_along po' ∧ R (po_db po) (po_db po').
Proof.
  intros Hs Hrs HI Hpo. destruct Hs as [r po|e i po He|i th po Hi].
  - split; [|reflexivity]. apply Forall_app. split; [done|]. apply Forall_singleton, Hrs.
    unfold arrived, accepted. cbn. rewrite fmap_app, drop_app_length. by apply list_elem_of_singleton.
  - unfold call_of. destruct (po_threads po !! i) as [th|] eqn:Hi; [|by split].
    pose proof (Forall_lookup_1 _ _ _ _ Hpo Hi) as Hth. apply (advance_along e _ (po_world po)) in Hth; [|done..].
    destruct (advance e (th_rest th) (po_world po)) as [p w]. destruct Hth as [Hp Hw].
    split; [|exact Hw]. by apply Forall_insert.
  - split; [|reflexivity]. by apply Forall_insert.
Qed.
Lemma pool_steps_along po po' :
  pool_steps po po' → (∀ r, r ∈ arrived po po' → along I R (job_prog r) any) → I (po_db po) → pool_along po →
  pool_along po' ∧ R (po_db po) (po_db po').
Proof.
  intros Hs. induction Hs as [po|po1 po2 po3 H12 H23 IH]; intros Hrs HI Hpo; [by split|].
  pose proof (arrived_trans _ _ _ (accepted_step _ _ H12) (accepted_steps _ _ H23)) as Harr.
  setoid_rewrite Harr in Hrs. setoid_rewrite elem_of_app in Hrs.
  destruct (pool_step_along po1 po2 H12) as [Hpo2 H2]; [auto..|].
  destruct IH as [? ?]; [auto|by eapply Hkept|done|]. split; [done|]. by transitivity (po_db po2).
Qed.
End kept.

(** From any pool a server comes to on: a relation that all jobs keep to. *)
Lemma running_along I R (Hkept : ∀ d d', R d d' → I d → I d') `{!PreOrder R} po po' :
  running po → pool_steps po po' → I (po_db po) →
  (∀ th, th ∈ po_threads po → along I R (th_rest th) any ∨ along any R (job_prog (th_job th)) any) →
  (∀ r, r ∈ arrived po po' → along I R (job_prog r) any) →
  R (po_db po) (po_db po').
Proof.
  intros Hrun Hs HI Hth Hrs. apply (pool_steps_along I R Hkept po po'); [done..|].
  apply Forall_forall. intros th Hin. destruct (Hth th Hin) as [H|H]; [done|].
  apply (along_weaken I R any); [done|]. exact (left_along R _ _ (running_left po th Hrun Hin) H).
Qed.
Lemma running_all R (HR : PreOrder R) po po' :
  running po → pool_steps po po' → (∀ r, r ∈ accepted po' → along any R (job_prog r) any) → R (po_db po) (po_db po').
Proof.
  intros Hrun Hs Hal. apply (running_along any R); [done..| |].
  - intros th Hth. right. apply Hal. destruct (accepted_steps _ _ Hs) as [l ->]. apply elem_of_app. left.
    unfold accepted. apply list_elem_of_fmap. eauto.
  - intros r Hr%elem_of_arrived. auto.
Qed.

(** ** Every job comes to an end

    Whatever its calls answer, a tree has fewer of them left after each; so no
    order of calls goes on for ever. *)

Definition finished {B} (p : prog B) : bool := match p with Do _ _ => false | _ => true end.
Definition smaller {B} (q p : prog B) : Prop := match p with Do c k => q = Panic ∨ ∃ x, q = k x | _ => False end.
Lemma smaller_acc {B} (p : prog B) : Acc smaller p.
Proof.
  induction p as [a| |X c k IH]; constructor; [done..|]. intros q [->|[x ->]]; [by constructor|apply IH].
Qed.
Lemma advance_smaller {B} e (p : prog B) w : finished p = false → smaller (advance e p w).1 p.
Proof. destruct p as [| |X c k]; [done..|]. intros _. cbn. destruct (perform c e w) as [[x|] w']; cbn; eauto. Qed.

(** A job that has not finished makes a call. *)
Definition busy_step : relation (pool J A) := λ po po',
  ∃ e i th, setting e ∧ po_threads po !! i = Some th ∧ finished (th_rest th) = false ∧ po' = call_of e i po.
Definition shorter : relation (list (thread J A)) := λ l' l,
  ∃ i th p, l !! i = Some th ∧ smaller p (th_rest th) ∧ l' = <[i := mkThread (th_job th) p]> l.

Lemma shorter_cons p j l : Acc smaller p → Acc shorter l → Acc shorter (mkThread j p :: l).
Proof.
  intros Hp. revert l. induction Hp as [p _ IHp]. intros l Hl. induction Hl as [l Hl IHl]. constructor.
  intros l' ([|i] & th & q & Hi & Hq & ->).
  - injection Hi as <-. apply IHp; [done|by constructor].
  - apply IHl. exists i, th, q. done.
Qed.
Lemma shorter_acc l : Acc shorter l.
Proof.
  induction l as [|[j p] l IH]; [|apply shorter_cons; [apply smaller_acc|done]].
  constructor. intros l' (i & th & p & Hi & _). by rewrite lookup_nil in Hi.
Qed.
Lemma busy_sn po : sn busy_step po.
Proof.
  eapply Acc_impl; [apply (Acc_inverse_image _ _ shorter po_threads), shorter_acc|].
  intros po2 po1 (e & i & th & _ & Hi & Hf & ->). exists i, th, (advance e (th_rest th) (po_world po1)).1.
  split; [done|]. split; [by apply advance_smaller|]. unfold call_of. rewrite Hi.
  by destruct (advance e (th_rest th) (po_world po1)).
Qed.
(** Where no call is left to make, all have finished. *)
Lemma idle_finished po e : setting e → nf busy_step po → ∀ th, th ∈ po_threads po → finished (th_rest th) = true.
Proof.
  intros He Hno th [i Hi]%list_elem_of_lookup. destruct (finished (th_rest th)) eqn:E; [done|].
  destruct Hno. exists (call_of e i po), e, i, th. done.
Qed.
Definition busy_dec (e : Env) (He : setting e) (po : pool J A) : Decision (red busy_step po).
Proof.
  destruct (decide (Exists (λ th, finished (th_rest th) = false) (po_threads po))) as [H|H].
  - left. apply Exists_exists in H as (th & [i Hi]%list_elem_of_lookup & Hf). exists (call_of e i po), e, i, th. done.
  - right. intros (po' & e' & i & th & _ & Hi & Hf & _). apply H, Exists_exists. exists th.
    split; [by eapply list_elem_of_lookup_2|done].
Qed.
Lemma busy_wn (e : Env) po : setting e → wn busy_step po.
Proof. intros He. pose (busy_dec e He). apply sn_wn, busy_sn. Qed.
Lemma busy_steps po po' : rtc busy_step po po' → pool_steps po po'.
Proof. apply rtc_subrel. intros po1 po2 (e & i & th & He & _ & _ & ->). by apply step_call. Qed.

(** A job that is not dropped goes on to what its tree comes to. *)
Lemma advance_ends {B} e (p : prog B) w Q : ends False p Q → ends False (advance e p w).1 Q.
Proof.
  destruct p as [b| |X c k]; [done..|]. intros [[[]|Hc] Hk]. cbn. specialize (Hc e w).
  destruct (perform c e w) as [[x|] w']; [apply Hk|done].
Qed.

(** Jobs that are cut off. *)
Definition stopped {B} (p : prog B) : prog B := if finished p then p else Panic.
Definition cut (P : J → bool) (th : thread J A) : thread J A :=
  if P (th_job th) then mkThread (th_job th) (stopped (th_rest th)) else th.
Lemma cut_steps P l1 l2 w : pool_steps (mkPool (l1 ++ l2) w) (mkPool (l1 ++ (cut P <$> l2)) w).
Proof.
  revert l1. induction l2 as [|th l2 IH]; intros l1; [apply rtc_refl|].
  assert (pool_steps (mkPool (l1 ++ th :: l2) w) (mkPool (l1 ++ cut P th :: l2) w)) as H.
  { unfold cut, stopped. destruct th as [j p]. cbn. destruct (P j); [|apply rtc_refl].
    destruct (finished p); [apply rtc_refl|]. apply rtc_once.
    pose proof (step_drop (length l1) (mkThread j p) (mkPool (l1 ++ mkThread j p :: l2) w)) as H.
    cbn in H. rewrite list_lookup_middle, insert_app_r_alt, Nat.sub_diag in H by done. by apply H. }
  eapply rtc_trans; [exact H|]. rewrite fmap_cons. specialize (IH (l1 ++ [cut P th])%list).
  rewrite <- !app_assoc in IH. exact IH.
Qed.
End pools.
