(* ===== verification/Interleave.v ===== *)
(** * Requests that run at the same time

    Every call of every request moves the store along a relation that permits it
    ([permits]): the walk of [Walks], call by call, along the trees of [Steps].
    With it, what all requests permit holds of any pool of requests. *)

From S2P Require Import Prelude.
From S2P Require Import GoLib.
From S2P Require Import Utils.
From S2P Require Import Model.
From S2P Require Import Runtime.
From S2P Require Import Logic.
From S2P Require Import Queries.
From S2P Require Import Store.
From S2P Require Import Password.
From S2P Require Import Tokens.
From S2P Require Import Codes.
From S2P Require Import Mfa.
From S2P Require Import Sso.
From S2P Require Import Maintenance.
From S2P Require Import Admin.
From S2P Require Import Passkey.
From S2P Require Import Frames.
From S2P Require Import Walks.
From S2P Require Import Requests.
From S2P Require Import Calls.
From S2P Require Import Steps.
From S2P Require Import Pool.
From stdpp Require Import relations list.

#[local] Open Scope string_scope.
#[local] Open Scope Z_scope.
#[local] Open Scope go_scope.

Section services.
Context `{TL : TextLib} `{UL : UuidLib} `{HL : HashLib} `{JL : JwtLib} `{OL : TotpLib} `{AL : AeadLib}
  `{WL : WebAuthnLib} `{CL : TimeLib} `{OI : OidcLib}.
Context `{ST : Setting} (I : DB → Prop) (R : relation DB) `{!Plain R}.

Lemma tracks_try_peppers a b c d l : tracks I R (s_try_peppers a b c d l).
Proof. unfold s_try_peppers. induction l as [|[id pep] l IH]; cbn [list_rect]; tracks. Qed.
#[local] Hint Resolve tracks_try_peppers : steps.
Lemma tracks_recovery_codes n a b : tracks I R (s_recovery_codes n a b).
Proof. revert a b. unfold s_recovery_codes. induction n as [|n IH]; intros a b; cbn [nat_rect]; tracks; apply IH. Qed.
#[local] Hint Resolve tracks_recovery_codes : steps.
Lemma tracks_try_usernames a n b : tracks I R (s_try_usernames a n b).
Proof. revert b. unfold s_try_usernames. induction n as [|n IH]; intros b; cbn [nat_rect]; tracks; apply IH. Qed.
#[local] Hint Resolve tracks_try_usernames : steps.
Lemma tracks_update_used a b l : tracks I R (s_update_used a b l).
Proof. unfold s_update_used. induction l as [|r l IH]; cbn [list_rect]; tracks. Qed.
#[local] Hint Resolve tracks_update_used : steps.
Lemma tracks_jobs failed : tracks I R (s_jobs jobs failed).
Proof. unfold s_jobs, jobs. cbn [list_rect job_run]. tracks. Qed.
#[local] Hint Resolve tracks_jobs : steps.

(** The target an admin request has loaded is the account it names. *)
Lemma along_loadAdminTarget actorID targetUserID :
  along I R (steps_of (s_loadAdminTarget actorID targetUserID))
    (λ r, match r with Done (_, pg) => targets actorID targetUserID pg | Fail _ => True end).
Proof.
  unfold s_loadAdminTarget, loadAdminTarget, targets. destruct (parseUserID targetUserID) as [pg|]; [|done].
  destruct (bool_decide_reflect (parseUserID actorID = Some pg)); [done|]. cbn.
  split; [tracked|]. intros [u|err]; [|done]. by destruct (bool_decide _).
Qed.
Lemma tracks_loadAdminTarget a b : tracks I R (s_loadAdminTarget a b).
Proof. eapply along_mono; [apply along_loadAdminTarget|done]. Qed.
#[local] Hint Resolve tracks_loadAdminTarget : steps.
Lemma tracks_target {A} actorID targetUserID (k : svc (User * uuid) → Go A) (q : ∀ r, Steps (k r)) :
  (∀ err, tracks I R (q (Fail err))) →
  (∀ u pg, targets actorID targetUserID pg → tracks I R (q (Done (u, pg)))) →
  tracks I R (s_bind (s_loadAdminTarget actorID targetUserID) q).
Proof.
  intros Hf Hd. eapply tracks_bind_post; [apply along_loadAdminTarget|]. intros [[u pg]|err]; auto.
Qed.

(** What a request needs of [R] besides [Plain R]. *)
Definition permits (r : request) : Prop :=
  match r with
  | RCompleteEmailJoin _ _ _ _ | RSSOLogin _ _ _ _ => Opens R ∧ Joins R
  | RLogin _ _ _ | RVerifyMFALogin _ _ _ _ | RFinishPasskeyLogin _ _ _ _ => Opens R
  | RRefreshToken s _ _ => ∀ h x id, uuid_Parse s = Some id → st_in R (RotateRefreshSession h x (Some id))
  | RBanUser _ a _ t _ => ∀ pg, targets a t pg → st_in R (SetUserStatus (Some UserStatusBanned) (Some pg))
  | RDisableUser _ a _ t _ => ∀ pg, targets a t pg → st_in R (SetUserStatus (Some UserStatusDisabled) (Some pg))
  | RUnbanUser _ a _ t _ | REnableUser _ a _ t _ =>
      ∀ pg, targets a t pg → st_in R (SetUserStatus (Some UserStatusActive) (Some pg))
  | RChangeUserRole _ a _ t new =>
      ∀ pg role, targets a t pg → parseUserRole new = Some role → role ≠ UserRoleAdmin → st_in R (SetUserRole role (Some pg))
  | RDeleteUser _ a _ t _ => ∀ pg, targets a t pg → st_in R (SoftDeleteUser (Some pg))
  | _ => True
  end.

(** Every call of every request moves the store along a relation that permits it. *)
Ltac target := open_service; apply tracks_target; [tracks|].
Lemma tracks_request r : permits r → tracks I R (s_request r).
Proof.
  intros Hp. destruct r; cbn [s_request permits] in *; try match type of Hp with _ ∧ _ => destruct Hp as [Ho Hj] end.
  all: try solve [tracks].
  1: { tracks. apply tracks_call. cbn [perform]. unfold Signup.CreateEmailUserInTx. db_tracks. }
  1-4, 6: by target; intros u pg Hpg; specialize (Hp pg Hpg); tracks.
  open_service. destruct (parseUserRole newRole) as [role|]; [|tracks].
  apply tracks_target; [tracks|]. intros u pg Hpg.
  retype. destruct (bool_decide_reflect (role = UserRoleAdmin)); [tracks|]. specialize (Hp pg role Hpg eq_refl). tracks.
Qed.
Lemma program_along r : permits r → along I R (program r) any.
Proof. apply tracks_request. Qed.
End services.
#[export] Hint Resolve tracks_try_peppers tracks_recovery_codes tracks_try_usernames tracks_update_used tracks_jobs
  tracks_loadAdminTarget : steps.


(** ** Pools of requests *)

Section requests.
Context `{TL : TextLib} `{UL : UuidLib} `{HL : HashLib} `{JL : JwtLib} `{OL : TotpLib} `{AL : AeadLib}
  `{WL : WebAuthnLib} `{CL : TimeLib} `{OI : OidcLib}.
#[export] Instance request_jobs : Jobs request verdict := program.

Lemma running_tracks `{ST : Setting} R `{!Plain R} (po po' : pool request verdict) :
  running po → pool_steps po po' → (∀ r, r ∈ accepted po' → permits R r) → R (po_db po) (po_db po').
Proof.
  intros Hrun Hs Hrs. apply running_all; [typeclasses eauto|done..|]. intros r Hr. apply program_along; auto.
Qed.
End requests.
#[export] Existing Instance request_jobs.
