(* ===== verification/TokenSpec.v ===== *)
(** * What tokens promise: what an accepted access token proves, and that the
    kinds of tokens do not mix *)

From S2P Require Import Prelude.
From S2P Require Import GoLib.
From S2P Require Import Utils.
From S2P Require Import Model.
From S2P Require Import Runtime.
From S2P Require Import Logic.
From S2P Require Import Queries.
From S2P Require Import Password.
From S2P Require Import Tokens.
From S2P Require Import Login.
From S2P Require Import Frames.
From S2P Require Import Toy.
From S2P Require Import Scenes.

#[local] Open Scope string_scope.
#[local] Open Scope Z_scope.
#[local] Open Scope go_scope.

Section tokens.
Context `{UL : UuidLib} `{HL : HashLib} `{JL : JwtLib} `{JLaws : !JwtLaws JL}.

(** The options and the time of a strict parse. *)
Definition strict : ParserOpts := mkParserOpts (Some jwtIssuer) (Some jwtAudience) true false.

Lemma parseJWT_strict hdr e w :
  wp (parseJWT hdr false) e (λ o w', ∀ c, o = Some (Ok c) → w' = tick w ∧ ∃ tok, hdr = "Bearer " ++ tok
      ∧ jwt_ParseWithClaims (e_clock e (w_tick w)) (keyFunc (e_cfg e)) strict tok = Ok c) w.
Proof.
  unfold parseJWT. wp_walk. intros c [= ->]. split; [done|]. bool_to_prop.
  unfold HasPrefix, TrimPrefix in *. destruct (drop_prefix "Bearer " hdr) eqn:E; [|done].
  apply drop_prefix_Some in E as ->. eauto.
Qed.

Definition redis_live (e : Env) (w : World) (k : string) : Prop :=
  is_Some (rlookup (w_redis w) (e_clock e (w_tick w)) k).

Lemma IsValidSession_true sid exp e w :
  wp (IsValidSession sid exp) e (λ o w', o = Some true →
      e_clock e (w_tick w) ≤ exp ∧ redis_live e (tick w) ("session:" ++ sid)) w.
Proof.
  unfold IsValidSession. wp_walk. bool_to_prop. split; [done|]. unfold redis_live. eauto.
Qed.

Lemma parseJWT_frame hdr e w :
  wp (parseJWT hdr false) e (λ _ w', w_db w' = w_db w ∧ w_redis w' = w_redis w) w.
Proof. unfold parseJWT. repeat wp_step; done. Qed.

(** What an accepted temporary token proves. *)
Definition temporary_grounds (e : Env) (w : World) (hdr want sub id : string) : Prop :=
  ∃ tok c, hdr = "Bearer " ++ tok
    ∧ jwt_ParseWithClaims (e_clock e (w_tick w)) (keyFunc (e_cfg e)) strict tok = Ok c
    ∧ jc_Role c = want ∧ jc_Subject c = sub ∧ jc_ID c = id ∧ sub ≠ "" ∧ id ≠ ""
    ∧ redis_live e (tick (tick w)) ("temporary_session:" ++ id).

Lemma VerifyAndParseTemporaryJWT_wp hdr want e w :
  wp (VerifyAndParseTemporaryJWT hdr want) e (λ o w', w_db w' = w_db w ∧ w_redis w' = w_redis w
      ∧ ∀ sub id, o = Some (Ok (sub, id)) → temporary_grounds e w hdr want sub id) w.
Proof.
  unfold VerifyAndParseTemporaryJWT. wp_step.
  eapply wp_mono; [exact (wp_and _ _ _ _ _ (parseJWT_strict hdr e w) (parseJWT_frame hdr e w))|].
  cbv beta. intros [[c|]|] w1 [H [Hd Hr]]; [|repeat wp_step; done..].
  unfold IsValidTemporarySession. repeat wp_step; (split; [exact Hd|split; [exact Hr|]]); intros sub id ?; simplify_eq.
  destruct (H c eq_refl) as (-> & tok & -> & Hp). bool_to_prop. exists tok, c.
  unfold redis_live. split_and!; done.
Qed.

(** C12: an access token is accepted only if it parses under the service's key and
    algorithm with the service's issuer and audience, is inside its validity
    times, names an account and a session, is not a sign-up token, and the
    session's key is alive in Redis; the caller gets the claims it carries. *)
Theorem VerifyAndParseJWT_accepts hdr e w uc :
  result (VerifyAndParseJWT hdr) e w = Some (Ok uc) →
  ∃ tok c, hdr = "Bearer " ++ tok
    ∧ jwt_ParseWithClaims (e_clock e (w_tick w)) (keyFunc (e_cfg e)) strict tok = Ok c
    ∧ claims_valid (e_clock e (w_tick w)) strict c
    ∧ jc_UserID c ≠ "" ∧ jc_ID c ≠ "" ∧ jc_Role c ≠ RoleJoiner
    ∧ redis_live e (tick (tick w)) ("session:" ++ jc_ID c)
    ∧ uc = mkUserContext (jc_UserID c) (jc_Username c) (jc_ID c) (jc_Role c).
Proof.
  to_wp. unfold VerifyAndParseJWT. wp_step. eapply wp_mono; [apply parseJWT_strict|]. cbv beta.
  intros [[c|]|] w1 H; wp_walk. destruct (H c eq_refl) as (-> & tok & -> & Hp). clear H.
  eapply wp_mono; [apply IsValidSession_true|]. cbv beta.
  intros [[]|] w2 H; wp_walk. intros [= <-]. bool_to_prop. destruct (H eq_refl) as [_ Hk].
  exists tok, c. split_and!; try done. eapply jwt_parse_validates; [exact Hp|done].
Qed.

(** ** The kinds of tokens do not mix *)

Lemma GenerateTemporaryJWT_signs sub role ttl e w :
  wp (GenerateTemporaryJWT sub role ttl) e (λ o _, ∀ tok, o = Some (Ok tok) →
      ∃ alg key id t x, jwt_SignedString alg key (temporary_claims id sub role t x) = Ok tok) w.
Proof. unfold GenerateTemporaryJWT. wp_walk. wp_skip; wp_walk. intros tok [= H]. eauto 10. Qed.

Lemma generateAccessJWT_signs sid uid name role ttl e w :
  wp (generateAccessJWT sid uid name role ttl) e (λ o _, ∀ tok x, o = Some (Ok (tok, x)) →
      ∃ alg key t, jwt_SignedString alg key (access_claims sid uid name role t x) = Ok tok) w.
Proof. unfold generateAccessJWT. wp_walk. wp_skip; wp_walk. intros tok x ?; simplify_eq; eauto. Qed.

(** The claims of a token the service signed are what the parser finds in it. *)
Lemma parse_own_token alg key c tok e w :
  jwt_SignedString alg key c = Ok tok →
  wp (parseJWT ("Bearer " ++ tok) false) e (λ o _, ∀ c', o = Some (Ok c') → c' = c) w.
Proof.
  intros Hs. eapply wp_mono; [apply parseJWT_strict|]. cbv beta.
  intros o w1 H c' (-> & tok' & Heq & Hp)%H. simpl in Heq. injection Heq as <-.
  eapply jwt_parse_signed; eauto.
Qed.

(** C13: a token of one kind is never accepted as another: a temporary token is no
    access token whatever its role, a temporary token of one flow is refused by
    the other, and an access token is no temporary token. *)
Theorem token_kinds_disjoint tok e w :
  (∀ sub role ttl e0 w0, result (GenerateTemporaryJWT sub role ttl) e0 w0 = Some (Ok tok) →
     (∀ uc, result (VerifyAndParseJWT ("Bearer " ++ tok)) e w ≠ Some (Ok uc))
     ∧ ∀ want r, want ≠ role → result (VerifyAndParseTemporaryJWT ("Bearer " ++ tok) want) e w ≠ Some (Ok r))
  ∧ (∀ sid uid name role ttl x e0 w0,
       result (generateAccessJWT sid uid name (UserRole_string role) ttl) e0 w0 = Some (Ok (tok, x)) →
       ∀ want r, want = RoleJoiner ∨ want = RoleMFAPending →
         result (VerifyAndParseTemporaryJWT ("Bearer " ++ tok) want) e w ≠ Some (Ok r)).
Proof.
  split.
  - intros sub role ttl e0 w0 (alg & key & id & t & x & Hs)%GenerateTemporaryJWT_signs. split.
    + intros uc. to_wp. unfold VerifyAndParseJWT. wp_step.
      eapply wp_mono; [by eapply parse_own_token|]. cbv beta.
      intros [[c|]|] w1 H; wp_walk. by rewrite (H c eq_refl) in *.
    + intros want r Hne. to_wp. unfold VerifyAndParseTemporaryJWT. wp_step.
      eapply wp_mono; [by eapply parse_own_token|]. cbv beta.
      intros [[c|]|] w1 H; wp_walk. bool_to_prop. by rewrite (H c eq_refl) in *.
  - intros sid uid name role ttl x e0 w0 (alg & key & t & Hs)%generateAccessJWT_signs want r Hwant.
    to_wp. unfold VerifyAndParseTemporaryJWT. wp_step.
    eapply wp_mono; [by eapply parse_own_token|]. cbv beta.
    intros [[c|]|] w1 H; wp_walk. bool_to_prop. rewrite (H c eq_refl) in *. simpl in *.
    subst want. by destruct role, Hwant.
Qed.
End tokens.

(** ** A new pair is honoured *)

Section pairs.
Context `{UL : UuidLib} `{HL : HashLib} `{JL : JwtLib}.

Definition refresh_key_holds (w : World) (sid raw : string) : Prop :=
  ∃ x, w_redis w !! ("refresh:" ++ sid) = Some (RStr (HashOpaqueToken raw), x).

Lemma generateAndStoreRefresh_wp sid ttl e w :
  wp (generateAndStoreRefresh sid ttl) e
    (λ o w', ∀ raw x, o = Some (Ok (raw, x)) → refresh_key_holds w' sid raw) w.
Proof.
  unfold generateAndStoreRefresh. wp_walk. wp_skip; wp_walk; intros; simplify_eq.
  eexists. simpl. by rewrite lookup_insert_eq.
Qed.

Lemma RotateSessionTokens_wp sid uid name role t t' e w :
  wp (RotateSessionTokens sid uid name role t t') e
    (λ o w', w_db w = w_db w' ∧
       ∀ tp, o = Some (Ok tp) → refresh_key_holds w' sid (tp_RefreshToken tp)) w.
Proof.
  apply wp_and; [by apply (RotateSessionTokens_db eq)|].
  unfold RotateSessionTokens. wp_step. wp_skip; [|wp_walk]. wp_step; [|wp_walk]. wp_step. wp_step. eapply wp_mono; [apply generateAndStoreRefresh_wp|]. cbv beta.
  intros [[[? ?]|]|] ? H; wp_walk; intros; simplify_eq; simpl; eauto.
Qed.

Lemma GenerateUserTokens_wp uid name role t t' e w :
  wp (GenerateUserTokens uid name role t t') e
    (λ o w', w_db w = w_db w' ∧ ∀ tp, o = Some (Ok tp) →
       (∃ id, tp_SessionID tp = uuid_String id) ∧ refresh_key_holds w' (tp_SessionID tp) (tp_RefreshToken tp)) w.
Proof.
  apply wp_and; [by apply (GenerateUserTokens_db eq)|].
  unfold GenerateUserTokens. wp_step. wp_step. wp_step. wp_skip; [|wp_walk]. wp_step; [|wp_walk].
  wp_step. wp_step. eapply wp_mono; [apply generateAndStoreRefresh_wp|]. cbv beta.
  intros [[[? ?]|]|] ? H; wp_walk; intros; simplify_eq; simpl; eauto.
Qed.
End pairs.

(** ** Examples *)

Import Toy.

Definition ann_context : UserContext :=
  match result (VerifyAndParseJWT ("Bearer " ++ lr_AccessToken ann_out)) env w_in with
  | Some (Ok uc) => uc | _ => mkUserContext "" "" "" "" end.

Lemma ann_context_parsed :
  result (VerifyAndParseJWT ("Bearer " ++ lr_AccessToken ann_out)) env w_in = Some (Ok ann_context).
Proof. by vm_compute. Qed.

Lemma VerifyAndParseJWT_accepts_witness :
  ∃ tok c, "Bearer " ++ lr_AccessToken ann_out = "Bearer " ++ tok ∧ jc_Role c ≠ RoleJoiner
    ∧ redis_live env (tick (tick w_in)) ("session:" ++ jc_ID c).
Proof.
  destruct (VerifyAndParseJWT_accepts _ env w_in ann_context ann_context_parsed)
    as (tok & c & H1 & _ & _ & _ & _ & H2 & H3 & _).
  exact (ex_intro _ tok (ex_intro _ c (conj H1 (conj H2 H3)))).
Defined.

Definition challenge : string :=
  match result (GenerateTemporaryJWT "ann" RoleMFAPending Hour) env (world empty_db) with
  | Some (Ok tok) => tok | _ => "" end.

Lemma token_kinds_disjoint_witness :
  String.length challenge ≠ 0%nat
  ∧ (∀ uc, result (VerifyAndParseJWT ("Bearer " ++ challenge)) env (world empty_db) ≠ Some (Ok uc))
  ∧ ∀ r, result (VerifyAndParseTemporaryJWT ("Bearer " ++ challenge) RoleJoiner) env (world empty_db)
         ≠ Some (Ok r).
Proof.
  split; [by vm_compute|].
  assert (result (GenerateTemporaryJWT "ann" RoleMFAPending Hour) env (world empty_db) = Some (Ok challenge))
    as H by (by vm_compute).
  destruct (proj1 (token_kinds_disjoint challenge env (world empty_db)) _ _ _ _ _ H) as [H1 H2].
  split; [exact H1|]. intros r. by apply H2.
Defined.
