(* ===== verification/SessionSpec.v ===== *)
(** * What sessions promise: refresh, rotation, revocation, access checks *)

From S2P Require Import Prelude.
From S2P Require Import GoLib.
From S2P Require Import Encoding.
From S2P Require Import Utils.
From S2P Require Import Model.
From S2P Require Import Runtime.
From S2P Require Import Logic.
From S2P Require Import Queries.
From S2P Require Import Store.
From S2P Require Import Password.
From S2P Require Import Tokens.
From S2P Require Import TokenSpec.
From S2P Require Import Session.
From S2P Require Import Frames.
From S2P Require Import Walks.
From S2P Require Import Login.
From S2P Require Import Toy.
From S2P Require Import Requests.
From S2P Require Import Scenes.

#[local] Open Scope string_scope.
#[local] Open Scope Z_scope.
#[local] Open Scope go_scope.

Section refresh.
Context `{UL : UuidLib} `{HL : HashLib} `{JL : JwtLib}.

Lemma rval_is_eq v h : rval_is v h = true → v = RStr h.
Proof. destruct v; simpl; [|done]. intros. bool_to_prop. congruence. Qed.

Lemma session_mismatch_false s uid h :
  session_mismatch s uid h = false →
  se_Revoked s ≠ Some true ∧ ouuid_String (se_UserID s) = uid ∧ text_String (se_RefreshTokenHash s) = h.
Proof.
  unfold session_mismatch. intros H. bool_to_prop. split_and!; [|done..].
  intros E. by rewrite E in *.
Qed.

(** The state a refresh must find to succeed. *)
Record refresh_grounds (w : World) (sid uid raw : string) (spg : uuid) (s : Session) (u : User) : Prop := {
  rg_id : uuid_Parse sid = Some spg;
  rg_row : s ∈ sessions (w_db w) ∧ se_ID s = spg;
  rg_live : se_Revoked s ≠ Some true;
  rg_owner : ouuid_String (se_UserID s) = uid;
  rg_hash : text_String (se_RefreshTokenHash s) = HashOpaqueToken raw;
  rg_redis : ∃ x, w_redis w !! ("refresh:" ++ sid) = Some (RStr (HashOpaqueToken raw), x);
  rg_user : u ∈ users (w_db w) ∧ se_UserID s = Some (u_ID u) ∧ not_usable (u_DeletedAt u) (u_Status u) = false
}.

(** C8: a refresh that succeeds was asked for with the token whose hash both
    Redis and the session row hold, for a session that is not revoked, belongs
    to the user named by the access token and whose account is usable; and it
    leaves the row with the hash of the token it hands out. *)
Theorem RefreshToken_success sid uid raw e w out :
  result (RefreshToken sid uid raw) e w = Some (Done out) →
  ∃ spg s u, refresh_grounds w sid uid raw spg s u
    ∧ (∃ s', s' ∈ sessions (w_db (final (RefreshToken sid uid raw) e w)) ∧ se_ID s' = spg
        ∧ se_RefreshTokenHash s' = Some (HashOpaqueToken (rt_RefreshToken out)))
    ∧ refresh_key_holds (final (RefreshToken sid uid raw) e w) sid (rt_RefreshToken out).
Proof.
  to_wp. unfold RefreshToken. wp_walk. rename u into spg, a into s, a0 into u.
  bool_to_prop. apply fetch_one_Ok in H0 as [Hs Hsid%id_is_true].
  apply fetch_one_Ok in H1 as [Hu Huid%id_is_true].
  apply session_mismatch_false in Heqb1 as (Hrev & Hown & Hhash).
  apply rval_is_eq in Heqb0 as ->. injection Hsid as ->.
  eapply wp_mono; [apply RotateSessionTokens_wp|]. cbv beta.
  intros [[tp|]|] w1 [Hdb Hkey]; cbv beta iota; [|wp_walk..]. wp_walk.
  intros [= <-]. rename a into s', d into d', H0 into Hrot.
  exists (se_ID s), s, u. split_and!.
  - split; auto. by eapply rlookup_Some.
  - revert Hrot. rewrite <- Hdb. simpl. unfold RotateRefreshSession. destruct (fetch_one _ _) as [s0|] eqn:Ef; [|done].
    intros [= _ <-]. simpl. apply fetch_one_Ok in Ef as [Hin Hp].
    eexists. split; [apply elem_of_update; exists s0; split; [done|]; by rewrite Hp|].
    apply andb_true_iff in Hp as [Hp%id_is_true _]. simpl. split; [congruence|done].
  - exact (Hkey _ eq_refl).
Qed.

(** A refresh for a revoked session never succeeds, whatever token and
    account it names and whichever calls fail. *)
Lemma RefreshToken_revoked sid uid raw e w spg :
  sessions_wf (w_db w) → uuid_Parse sid = Some spg →
  (∃ s, s ∈ sessions (w_db w) ∧ se_ID s = spg ∧ se_Revoked s = Some true) →
  ∀ out, result (RefreshToken sid uid raw) e w ≠ Some (Done out).
Proof.
  intros [Hnd _] Hid (s & Hs & Hsid & Hrev) out. to_wp. unfold RefreshToken. rewrite Hid.
  wp_walk. apply fetch_one_Ok in H0 as [Ha Haid%id_is_true]. injection Haid as Haid.
  assert (a = s) as -> by (eapply (NoDup_proj_eq se_ID); eauto; congruence).
  apply session_mismatch_false in Heqb1 as (Hn & _). done.
Qed.

(** ** Reuse detection *)

(** A stored refresh hash that the key still holds at the time of the call. *)
Definition redis_holds (e : Env) (w : World) (k : string) (v : rval) : Prop :=
  rlookup (w_redis w) (e_clock e (w_tick w)) k = Some v.

Definition revoked_in (d : DB) (id : uuid) : Prop :=
  ∀ s, s ∈ sessions d → se_ID s = id → se_Revoked s ≠ Some false.

Lemma RevokeSession_revokes c d id r d' :
  RevokeSession (Some id) c d = (r, d') → revoked_in d' id ∧ users d' = users d.
Proof.
  intros [= _ <-]. split; [|done]. intros s (s0 & Hs0 & ->)%elem_of_update Hid.
  destruct (id_is se_ID (Some id) s0 && sql_eq (se_Revoked s0) (Some false)) eqn:E; [done|].
  apply andb_false_iff in E as [E|E].
  - unfold id_is in E. rewrite Hid, sql_eq_refl in E. done.
  - intros Hr. rewrite Hr, sql_eq_refl in E. done.
Qed.

Lemma run_DeleteSession sid e w :
  no_faults e →
  DeleteSession sid e w = (Some (Ok ()), tick (set_w_redis
     (delete ("session:" ++ sid) (delete ("refresh:" ++ sid) (w_redis w))) w)).
Proof.
  intros Hf. unfold DeleteSession, bind, redis_is_nil. rewrite (proj2 Hf).
  unfold redis_Del. by rewrite run_redis_call.
Qed.

Lemma run_revokeCompromisedSession sid spg e w :
  no_faults e →
  ∃ w', revokeCompromisedSession sid spg e w = (Some (), w')
    ∧ revoked_in (w_db w') spg
    ∧ w_redis w' = delete ("session:" ++ sid) (delete ("refresh:" ++ sid) (w_redis w)).
Proof.
  intros Hf. unfold revokeCompromisedSession.
  erewrite run_bind by by apply run_DeleteSession. unfold bind at 1. rewrite run_db_stmt by done.
  unfold run_stmt. destruct (RevokeSession _ _ _) as [r d'] eqn:E.
  assert (r = Ok ()) as -> by (by injection E). eexists. split; [reflexivity|].
  by apply RevokeSession_revokes in E as [? _].
Qed.

Lemma run_refresh_mismatch sid uid raw e w spg stored :
  no_faults e → uuid_Parse sid = Some spg → sid ≠ "" → uid ≠ "" → raw ≠ "" →
  redis_holds e w ("refresh:" ++ sid) (RStr stored) → stored ≠ HashOpaqueToken raw →
  ∃ w', RefreshToken sid uid raw e w = (Some (Fail SessionExpired), w')
    ∧ revoked_in (w_db w') spg
    ∧ w_redis w' = delete ("session:" ++ sid) (delete ("refresh:" ++ sid) (w_redis w)).
Proof.
  intros Hf Hid H1 H2 H3 Hheld Hne.
  destruct (run_revokeCompromisedSession sid spg e (tick w) Hf) as (w' & Hrun & Hrev & Hredis).
  exists w'. split; [|done].
  unfold RefreshToken. rewrite !(proj2 (String.eqb_neq _ _)) by done. cbv beta iota delta [orb]. rewrite Hid. cbv iota.
  erewrite run_bind by by apply run_redis_Get. unfold redis_holds in Hheld. rewrite Hheld. simpl.
  rewrite (proj2 (String.eqb_neq _ _)) by done. simpl. by erewrite run_bind.
Qed.

Lemma run_refresh_missing sid uid raw e w spg :
  no_faults e → uuid_Parse sid = Some spg → sid ≠ "" → uid ≠ "" → raw ≠ "" →
  rlookup (w_redis w) (e_clock e (w_tick w)) ("refresh:" ++ sid) = None →
  RefreshToken sid uid raw e w = (Some (Fail SessionExpired), tick w).
Proof.
  intros Hf Hid H1 H2 H3 Hno.
  unfold RefreshToken. rewrite !(proj2 (String.eqb_neq _ _)) by done. cbv beta iota delta [orb]. rewrite Hid. cbv iota.
  erewrite run_bind by by apply run_redis_Get. by rewrite Hno.
Qed.

Lemma refresh_done sid uid raw e w out :
  result (RefreshToken sid uid raw) e w = Some (Done out) →
  (sid ≠ "" ∧ uid ≠ "" ∧ raw ≠ "" ∧ is_Some (uuid_Parse sid))
  ∧ refresh_key_holds (final (RefreshToken sid uid raw) e w) sid (rt_RefreshToken out).
Proof.
  to_wp. unfold RefreshToken. wp_walk. bool_to_prop.
  eapply wp_mono; [apply RotateSessionTokens_wp|]. cbv beta.
  intros [[tp|]|] w1 [Hdb Hkey]; cbv beta iota; [|wp_walk..]. wp_walk.
  intros [= <-]. split; [done|]. exact (Hkey _ eq_refl).
Qed.

(** C9: presenting any other token for a live session is taken for a replay: the
    request fails, the session row is revoked and both Redis keys of the
    session are gone. *)
Theorem RefreshToken_reuse_detected sid uid raw e w spg stored :
  no_faults e → uuid_Parse sid = Some spg → sid ≠ "" → uid ≠ "" → raw ≠ "" →
  redis_holds e w ("refresh:" ++ sid) (RStr stored) → stored ≠ HashOpaqueToken raw →
  result (RefreshToken sid uid raw) e w = Some (Fail SessionExpired)
  ∧ revoked_in (w_db (final (RefreshToken sid uid raw) e w)) spg
  ∧ w_redis (final (RefreshToken sid uid raw) e w) !! ("session:" ++ sid) = None
  ∧ w_redis (final (RefreshToken sid uid raw) e w) !! ("refresh:" ++ sid) = None.
Proof.
  intros Hf Hid H1 H2 H3 Hheld Hne.
  destruct (run_refresh_mismatch sid uid raw e w spg stored) as (w' & E & Hrev & Hredis); [done..|].
  unfold result, final. rewrite E. simpl. rewrite Hredis. split_and!; [done|done|..].
  - by rewrite lookup_delete_eq.
  - by rewrite lookup_delete_ne, lookup_delete_eq.
Qed.

(** C10: a refresh token works once: after a refresh that succeeded, under
    whatever faults, the same token is refused from then on, at any time. *)
Theorem RefreshToken_single_use sid uid raw e w out e' :
  result (RefreshToken sid uid raw) e w = Some (Done out) →
  HashOpaqueToken (rt_RefreshToken out) ≠ HashOpaqueToken raw → no_faults e' →
  result (RefreshToken sid uid raw) e' (final (RefreshToken sid uid raw) e w) = Some (Fail SessionExpired).
Proof.
  intros ((H1 & H2 & H3 & spg & Hid) & x & Hkey)%refresh_done Hne Hf.
  set (w1 := final _ _ _) in *. unfold result.
  destruct (rlookup (w_redis w1) (e_clock e' (w_tick w1)) ("refresh:" ++ sid)) as [v|] eqn:E.
  - assert (v = RStr (HashOpaqueToken (rt_RefreshToken out))) as ->.
    { unfold rlookup in E. rewrite Hkey in E. destruct (rlive _ _); [by simplify_eq/=|done]. }
    by edestruct run_refresh_mismatch as (w' & -> & _).
  - by erewrite run_refresh_missing.
Qed.

(** ** Logout *)

Lemma run_IsValidSession_missing sid exp e w :
  no_faults e → w_redis w !! ("session:" ++ sid) = None → result (IsValidSession sid exp) e w = Some false.
Proof.
  intros Hf Hno. unfold result, IsValidSession, bind, now, redis_is_nil. rewrite (proj2 Hf).
  destruct (_ <? _); [done|]. cbv beta iota delta [orb]. unfold redis_Exists. rewrite run_redis_call by done.
  unfold rlookup, tick. cbn [w_redis]. by rewrite Hno.
Qed.

(** C16: a logout ends the session for good: it succeeds, the row is revoked, and
    from then on neither the access token nor the refresh token of the session
    is accepted. *)
Theorem Logout_ends_session sid spg e w e' uid raw exp :
  no_faults e → no_faults e' → sid ≠ "" → uid ≠ "" → raw ≠ "" → uuid_Parse sid = Some spg →
  result (Logout sid) e w = Some (Done ())
  ∧ revoked_in (w_db (final (Logout sid) e w)) spg
  ∧ result (IsValidSession sid exp) e' (final (Logout sid) e w) = Some false
  ∧ result (RefreshToken sid uid raw) e' (final (Logout sid) e w) = Some (Fail SessionExpired).
Proof.
  intros Hf Hf' H1 H2 H3 Hid.
  destruct (run_revokeCompromisedSession sid spg e w Hf) as (w' & Hrun & Hrev & Hredis).
  assert (Logout sid e w = (Some (Done ()), w')) as E.
  { revert Hrun. unfold Logout, revokeCompromisedSession. rewrite (proj2 (String.eqb_neq _ _)) by done.
    rewrite Hid. unfold bind. rewrite !run_DeleteSession by done.
    rewrite run_db_stmt by done. unfold run_stmt, RevokeSession. simpl. by intros [= <-]. }
  unfold result, final. rewrite E. cbn [fst snd]. split_and!; [done|done|..].
  - apply run_IsValidSession_missing; [done|]. by rewrite Hredis, lookup_delete_eq.
  - erewrite run_refresh_missing; try done. unfold rlookup.
    by rewrite Hredis, lookup_delete_ne, lookup_delete_eq.
Qed.
End refresh.

(** ** Examples *)

Import Toy.

Definition ann_sid : string := uuid_String (se_ID ann_session).
Definition ann_uid : string := uuid_String (u_ID ann_user).
Definition ann_raw : string := lr_RefreshToken ann_out.
#[local] Abbreviation ann_refresh := (RefreshToken ann_sid ann_uid ann_raw).
Definition ann_refreshed : RefreshTokenResult := outcome (mkRefreshTokenResult "" "") (result ann_refresh env w_in).

Lemma ann_refresh_runs : result ann_refresh env w_in = Some (Done ann_refreshed).
Proof. vm_compute. reflexivity. Qed.

Lemma RefreshToken_success_witness :
  ∃ spg s u, refresh_grounds w_in ann_sid ann_uid ann_raw spg s u.
Proof.
  destruct (RefreshToken_success ann_sid ann_uid ann_raw env w_in ann_refreshed ann_refresh_runs)
    as (spg & s & u & H & _). eauto.
Defined.

Lemma ann_hashes_differ : HashOpaqueToken (rt_RefreshToken ann_refreshed) ≠ HashOpaqueToken ann_raw.
Proof. by vm_compute. Qed.

Lemma RefreshToken_single_use_witness :
  result ann_refresh env (final ann_refresh env w_in) = Some (Fail SessionExpired).
Proof.
  exact (RefreshToken_single_use ann_sid ann_uid ann_raw env w_in ann_refreshed env
           ann_refresh_runs ann_hashes_differ env_quiet).
Defined.

Definition w_out : World := final (Logout ann_sid) env w_in.

Lemma out_wf : sessions_wf (w_db w_out).
Proof. unfold w_out. apply wf_sessions, run_keeps_wf; [tracked|exact in_wf]. Qed.

Lemma out_revoked :
  ∃ s, s ∈ sessions (w_db w_out) ∧ se_ID s = se_ID ann_session ∧ se_Revoked s = Some true.
Proof.
  assert (exists_row (λ s, bool_decide (se_ID s = se_ID ann_session) && bool_decide (se_Revoked s = Some true))
            (sessions (w_db w_out)) = true) as H by (by vm_compute).
  apply exists_row_true in H as (s & Hs & H). bool_to_prop. eauto.
Qed.

Lemma RefreshToken_revoked_witness :
  length (sessions (w_db w_out)) = length (sessions (w_db w_in))
  ∧ ∀ out, result ann_refresh env w_out ≠ Some (Done out).
Proof.
  split; [by vm_compute|].
  exact (RefreshToken_revoked ann_sid ann_uid ann_raw env w_out (se_ID ann_session) out_wf
           ltac:(by vm_compute) out_revoked).
Defined.

Lemma RefreshToken_reuse_detected_witness :
  result (RefreshToken ann_sid ann_uid "stolen") env w_in = Some (Fail SessionExpired).
Proof.
  refine (proj1 (RefreshToken_reuse_detected ann_sid ann_uid "stolen" env w_in (se_ID ann_session)
            (HashOpaqueToken ann_raw) env_quiet _ _ _ _ _ _)); by vm_compute.
Defined.

Lemma Logout_ends_session_witness :
  result (Logout ann_sid) env w_in = Some (Done ())
  ∧ result (IsValidSession ann_sid 0) env w_out = Some false.
Proof.
  destruct (Logout_ends_session ann_sid (se_ID ann_session) env w_in env ann_uid ann_raw 0
              env_quiet env_quiet) as (H & _ & H' & _); [by vm_compute..|].
  split; [exact H|exact H'].
Defined.
