(* ===== verification/LoginSpec.v ===== *)
(** * What a password login promises *)

From S2P Require Import Prelude.
From S2P Require Import GoLib.
From S2P Require Import Encoding.
From S2P Require Import Utils.
From S2P Require Import Model.
From S2P Require Import Runtime.
From S2P Require Import Logic.
From S2P Require Import Queries.
From S2P Require Import Store.
From S2P Require Import Password.
From S2P Require Import Tokens.
From S2P Require Import Codes.
From S2P Require Import Signup.
From S2P Require Import Mfa.
From S2P Require Import Login.
From S2P Require Import Frames.
From S2P Require Import TokenSpec.
From S2P Require Import Toy.
From S2P Require Import Walks.
From S2P Require Import Requests.
From S2P Require Import Scenes.

#[local] Open Scope string_scope.
#[local] Open Scope Z_scope.
#[local] Open Scope go_scope.

Section login.
Context `{TL : TextLib} `{UL : UuidLib} `{HL : HashLib} `{JL : JwtLib} `{OL : TotpLib} `{AL : AeadLib}.

(** ** Lookups *)

(** Account [u] signs in with email [email] through identity [a]. *)
Record signs_in_with (d : DB) (email : string) (a : AuthIdentity) (u : User) : Prop := {
  si_identity : a ∈ auth_identities d;
  si_user : u ∈ users d;
  si_owner : ai_UserID a = Some (u_ID u);
  si_provider : ai_Provider a = ProviderNameEmail;
  si_email : ai_ProviderUserID a = pg_lower email
}.

Lemma elem_of_join d a u :
  (a, u) ∈ identities_join_users d ↔ a ∈ auth_identities d ∧ u ∈ users d ∧ ai_UserID a = Some (u_ID u).
Proof.
  unfold identities_join_users. rewrite list_elem_of_In, in_flat_map. split.
  - intros (a' & Ha & Hu). apply in_map_iff in Hu as (u' & [= -> ->] & Hu%list_elem_of_In).
    apply elem_of_select in Hu as [Hu H]. rewrite <- list_elem_of_In in Ha.
    split_and!; [done..|]. by apply id_is_true in H.
  - intros (Ha & Hu & H). exists a. rewrite <- list_elem_of_In. split; [done|].
    apply in_map, list_elem_of_In, elem_of_select. split; [done|]. rewrite H. apply sql_eq_refl.
Qed.

Lemma GetEmailAuthByEmail_Ok email c d row :
  GetEmailAuthByEmail email c d = Ok row → ∃ a u, signs_in_with d email a u ∧ row = email_auth_row (a, u).
Proof.
  unfold GetEmailAuthByEmail. destruct (fetch_one _ _) as [[a u]|] eqn:E; [|done].
  intros [= <-]. apply fetch_one_Ok in E as [(?&?&?)%elem_of_join ?]. bool_to_prop. by exists a, u.
Qed.

(** The invariant makes the lookup a function of the account. *)
Lemma GetEmailAuthByEmail_found email c d a u :
  wf d → signs_in_with d email a u → GetEmailAuthByEmail email c d = Ok (email_auth_row (a, u)).
Proof.
  intros W [Ha Hu Ho Hp Hm]. unfold GetEmailAuthByEmail.
  rewrite (fetch_one_unique _ _ (a, u)); [done|..].
  - by apply elem_of_join.
  - apply andb_true_iff. by rewrite !bool_decide_eq_true.
  - intros [a' u'] (Ha' & Hu' & Ho')%elem_of_join H. bool_to_prop.
    assert (a' = a) as ->.
    { destruct (wf_identities _ W) as (_ & Hnd & _). eapply (NoDup_proj_eq _ _ _ _ Hnd); try done. simpl. congruence. }
    f_equal. destruct (wf_users _ W) as (Hnd & _). eapply (NoDup_proj_eq u_ID); eauto. congruence.
Qed.

(** ** The enabled factors of an account *)

Definition factor_enabled (d : DB) (uid : uuid) (ty : MfaType) : bool :=
  exists_row (λ f, factor_of (Some uid) ty f && bool_Bool (mf_Enabled f)) (mfa_factors d).
Definition enabled_methods (d : DB) (uid : uuid) : list string :=
  ((if factor_enabled d uid MfaTypeTotp then ["totp"] else [])
   ++ if factor_enabled d uid MfaTypeEmail then ["email"] else [])%list.

Lemma factor_enabled_spec d uid ty :
  factors_wf d →
  factor_enabled d uid ty = match fetch_one (factor_of (Some uid) ty) (mfa_factors d) with
                            | Ok f => bool_Bool (mf_Enabled f) | Err _ => false end.
Proof.
  intros (_ & Hnd & _). unfold factor_enabled.
  destruct (fetch_one _ _) as [f|] eqn:E.
  - apply fetch_one_Ok in E as [Hf Hp]. destruct (bool_Bool (mf_Enabled f)) eqn:Hb.
    + apply exists_row_true. exists f. by rewrite Hp, Hb.
    + apply exists_row_false. intros f' Hf'. destruct (factor_of _ _ f') eqn:Hp'; [|done].
      assert (f' = f) as ->; [|done]. eapply (NoDup_proj_eq _ _ _ _ Hnd); try done. simpl.
      unfold factor_of in *. bool_to_prop. congruence.
  - apply fetch_one_Err in E as [_ H]. apply exists_row_false. intros f Hf. by rewrite (H f Hf).
Qed.

Lemma listEnabledMFAMethods_wp uid e w :
  wp (listEnabledMFAMethods uid) e (λ o w', w_db w' = w_db w ∧ ∀ ms, o = Some (Ok ms) →
      factors_wf (w_db w) → ms = enabled_methods (w_db w) uid) w.
Proof.
  unfold listEnabledMFAMethods, enabled_methods.
  assert (∀ err, is_no_rows err = true → err = ErrNoRows) as Hn.
  { intros err. unfold is_no_rows. by rewrite bool_decide_eq_true. }
  repeat wp_step; split; try done; intros ms Hms Hwf; simplify_eq;
    rewrite !factor_enabled_spec by done;
    repeat match goal with
      | H : GetTOTPFactorByUserID _ _ _ = _ |- _ => unfold GetTOTPFactorByUserID in H; rewrite H
      | H : GetOTPFactorByUserID _ _ _ _ = _ |- _ => unfold GetOTPFactorByUserID in H; simpl in H; rewrite H
      | H : is_no_rows _ = true |- _ => apply Hn in H
      | H : _ ∨ _ |- _ => destruct H; [by simplify_eq|]
      end; by repeat case_match.
Qed.

(** ** Sessions issued *)

Definition session_issued (w : World) (uid : uuid) (refresh : string) : Prop :=
  ∃ s sid, s ∈ sessions (w_db w) ∧ se_UserID s = Some uid ∧ se_Revoked s = Some false
    ∧ se_RefreshTokenHash s = Some (HashOpaqueToken refresh)
    ∧ se_ID s = default uuid_Nil (uuid_Parse sid) ∧ refresh_key_holds w sid refresh.

Lemma RecordLoginAttempt_frame uid iid r ip ua c d x d' :
  RecordLoginAttempt uid iid r ip ua c d = (Ok x, d') → d' = set_logins (logins d') d.
Proof. unfold RecordLoginAttempt. destruct (checks _); [done|]. by intros [= _ <-]. Qed.

Lemma CreateRefreshSession_Ok id user exp hash ip ua c d s d' :
  CreateRefreshSession id user exp hash ip ua c d = (Ok s, d') →
  s ∈ sessions d' ∧ se_ID s = id ∧ se_UserID s = user ∧ se_Revoked s = Some false ∧ se_RefreshTokenHash s = hash.
Proof.
  unfold CreateRefreshSession. destruct (checks _); [done|]. intros [= <- <-]. split_and!; try done.
  simpl. set_solver.
Qed.

Lemma issueLoginSession_wp uid iid name role ip ua e w :
  wp (issueLoginSession uid iid name role ip ua) e (λ o w', ∀ out, o = Some (Done out) →
      lr_MFARequired out = false ∧ lr_UserID out = uuid_String uid ∧ lr_Username out = name
      ∧ session_issued w' uid (lr_RefreshToken out)) w.
Proof.
  unfold issueLoginSession. wp_step. wp_skip; [|wp_walk]. wp_step. wp_step.
  wp_step. eapply wp_mono; [apply GenerateUserTokens_wp|]. cbv beta.
  intros [[tp|]|] w1 [Hdb H]; cbv beta iota; [|wp_walk..].
  destruct (H tp eq_refl) as [_ (x & Hkey)]. unfold CreateRefreshSessionInput, recordLoginAttempt.
  wp_walk; intros out [= <-]; (split_and!; [done..|]);
    apply CreateRefreshSession_Ok in H0 as (?&?&?&?&?);
    exists a, (tp_SessionID tp); unfold refresh_key_holds; simpl; split_and!; eauto;
    apply RecordLoginAttempt_frame in H1; by rewrite H1.
Qed.

(** ** What a successful login proves *)

(** The normal form of the email a request names. *)
Definition email_key (email : string) : string := ToLower (TrimSpace email).

Record login_grounds (e : Env) (w : World) (email password : string) (a : AuthIdentity) (u : User) : Prop := {
  lg_account : signs_in_with (w_db w) (email_key email) a u;
  lg_usable : not_usable (u_DeletedAt u) (u_Status u) = false;
  lg_unlocked : ∀ t0, ai_LockedAt a = Some t0 → ∃ n, cfg_LoginLockDuration (e_cfg e) ≤ e_clock e n - t0;
  lg_password : (phc_check (e_cfg e) password (text_String (ai_PasswordHash a)) true).1 = Ok true
}.

Lemma VerifyPasswordPHC_wp password phc b e (Q : option (res bool) → World → Prop) w :
  Q (Some (phc_check (e_cfg e) password phc b).1) (burn_n (phc_check (e_cfg e) password phc b).2 w) →
  wp (VerifyPasswordPHC password phc b) e Q w.
Proof. unfold wp. rewrite VerifyPasswordPHC_spec. by destruct (phc_check _ _ _ _). Qed.

Lemma locked_now_false at_ cfg e w :
  wp (locked_now at_ cfg) e (λ o w', w_db w' = w_db w ∧ w_argon w' = w_argon w ∧ ∃ b, o = Some b ∧
      (b = false → ∀ t0, at_ = Some t0 → ∃ n, cfg_LoginLockDuration cfg ≤ e_clock e n - t0)) w.
Proof.
  unfold locked_now. destruct at_ as [t0|]; repeat wp_step; split_and!; try done; eexists; (split; [done|]);
    intros Hb t1 [= <-]. bool_to_prop. eauto.
Qed.

Lemma update_identities_frame p f c d x d' :
  update_identities p f c d = (Ok x, d') →
  users d' = users d ∧ mfa_factors d' = mfa_factors d ∧ sessions d' = sessions d
  ∧ auth_identities d' = update p f (auth_identities d).
Proof. unfold update_identities. destruct (trigger_rows _ _ _ _); [|done]. by intros [= _ <-]. Qed.

Definition same_factors (d d' : DB) : Prop := mfa_factors d' = mfa_factors d ∧ users d' = users d.

#[local] Instance same_factors_preorder : PreOrder same_factors.
Proof. split; [done|]. intros d1 d2 d3 [H1 H2] [H3 H4]. split; congruence. Qed.

Lemma login_verified_wp row password ip ua e w :
  wp (login_verified row password ip ua) e (λ o w', ∀ out, o = Some (Done out) → factors_wf (w_db w) →
      status_blocked (ea_Status row) = false
      ∧ lr_MFARequired out = negb (bool_decide (enabled_methods (w_db w) (ea_UserID row) = []))
      ∧ if lr_MFARequired out
        then lr_AccessToken out = "" ∧ lr_RefreshToken out = ""
             ∧ lr_MFAMethods out = enabled_methods (w_db w) (ea_UserID row)
        else session_issued w' (ea_UserID row) (lr_RefreshToken out)) w.
Proof.
  unfold login_verified. wp_step; [wp_dead|]. wp_step.
  apply (wp_db_tracks same_factors).
  { apply db_tracks_stmt; [typeclasses eauto|]. intros c d x d' H.
    by apply update_identities_frame in H as (?&?&_). }
  intros [r|] w1 [Hf Hu]; cbv beta iota; [|wp_absurd].
  wp_step. eapply wp_mono; [apply listEnabledMFAMethods_wp|]. cbv beta.
  intros [[ms|]|] w2 [Hw2 Hms]; cbv beta iota; [|wp_walk..].
  assert (factors_wf (w_db w) → ms = enabled_methods (w_db w) (ea_UserID row)) as Hm.
  { unfold enabled_methods, factor_enabled. rewrite <- Hf. intros Hwf. apply Hms; [done|].
    unfold factors_wf, user_ids in *. by rewrite Hf, Hu. }
  destruct ms as [|m ms].
  - wp_step. wp_skip; [|wp_absurd]. eapply wp_mono; [apply issueLoginSession_wp|]. cbv beta.
    intros o w4 H out Hout Hwf. destruct (H out Hout) as (-> & _ & _ & Hs).
    rewrite <- (Hm Hwf). done.
  - wp_step. wp_step. wp_step. wp_skip; [|wp_absurd]. wp_walk. wp_skip; [|wp_absurd]. wp_walk.
    intros out [= <-] Hwf. rewrite <- (Hm Hwf). done.
Qed.

(** C6: a login that succeeds was made with the password of a usable account that
    is not locked.  It hands out a session exactly when the account has no
    enabled factor; otherwise it hands out no token but the challenge, with the
    list of the enabled factors - whichever calls fail. *)
Theorem Login_success ctx email password e w out :
  wf (w_db w) → result (Login.Login ctx email password) e w = Some (Done out) →
  ∃ a u, login_grounds e w email password a u
    ∧ lr_MFARequired out = negb (bool_decide (enabled_methods (w_db w) (u_ID u) = []))
    ∧ if lr_MFARequired out
      then lr_AccessToken out = "" ∧ lr_RefreshToken out = ""
           ∧ lr_MFAMethods out = enabled_methods (w_db w) (u_ID u)
      else session_issued (final (Login.Login ctx email password) e w) (u_ID u) (lr_RefreshToken out).
Proof.
  intros W. to_wp. unfold Login.Login. wp_walk.
  apply GetEmailAuthByEmail_Ok in H as (au & u & Hsi & ->).
  eapply wp_mono; [apply locked_now_false|]. cbv beta.
  intros o w1 (Hw1 & _ & b & -> & Hb). cbv beta iota. wp_step; [wp_dead|]. specialize (Hb eq_refl).
  wp_step. apply VerifyPasswordPHC_wp. cbv beta iota.
  destruct (phc_check _ _ _ _) as [r n] eqn:Hphc. cbn [fst snd].
  destruct r as [[]|]; [|unfold login_wrong_password; wp_dead..].
  eapply wp_mono; [apply login_verified_wp|]. cbv beta. rewrite burn_n_eq. cbn [w_db]. rewrite Hw1.
  intros o w2 H ->. destruct (H out eq_refl (wf_factors _ W)) as (Hst & Hreq & Hout).
  exists au, u. split; [|done]. split; [exact Hsi| |exact Hb|simpl in *; by rewrite Hphc].
  unfold not_usable. simpl in *. by rewrite Heqb0, Hst.
Qed.

(** ** Rejections *)

(** A rejection the caller gets before having proven the password. *)
Definition rejected (o : option (svc LoginOutcome)) : Prop :=
  o = Some (Fail InvalidCredentials) ∨ o = Some (Fail AccountLocked).

Ltac not_rejected := try (intros [?|?]; simplify_eq; fail).

Lemma issueLoginSession_not_rejected uid iid name role ip ua e w :
  wp (issueLoginSession uid iid name role ip ua) e (λ o _, ¬ rejected o) w.
Proof.
  unfold issueLoginSession. wp_step. wp_skip; [|by intros [|]]. wp_step. wp_step. wp_step.
  wp_skip; [|by intros [|]]. wp_step; [|wp_step; by intros [|]]. wp_step. wp_skip; [|by intros [|]].
  wp_step; wp_step; (wp_skip; [|by intros [|]]); wp_step; by intros [|].
Qed.

Lemma login_verified_not_rejected row password ip ua e w :
  wp (login_verified row password ip ua) e (λ o _, ¬ rejected o) w.
Proof.
  unfold login_verified. wp_step.
  { wp_step. wp_skip; [wp_step; by intros [|]|by intros [|]]. }
  wp_step. wp_skip; [|by intros [|]]. wp_step. wp_skip; [|by intros [|]].
  wp_step; [|wp_step; by intros [|]]. wp_step.
  - wp_step. wp_skip; [|by intros [|]]. apply issueLoginSession_not_rejected.
  - wp_step. wp_step. wp_step. wp_skip; [|by intros [|]]. wp_step; [|wp_step; by intros [|]].
    wp_step. wp_skip; [|by intros [|]]. wp_step; by intros [|].
Qed.

(** A hash written under a pepper the configuration still has. *)
Definition known_hash (cfg : Config) (h : string) : Prop :=
  ∃ pm pep id salt key,
    NewStaticPepperManager (cfg_PasswordPeppersRaw cfg) (cfg_ActivePepperID cfg) = Ok pm
    ∧ GetPepper id pm = Some pep ∧ safe_pepper_id id = true
    ∧ h = format_phc argonMemory argonTime argonThreads id salt key.

Lemma known_hash_cost cfg h password : known_hash cfg h → (phc_check cfg password h true).2 = 1%nat.
Proof. intros (pm & pep & id & salt & key & H1 & H2 & H3 & ->). by erewrite phc_check_format. Qed.

Lemma recordLoginAttempt_argon a b r ip ua e w :
  wp (recordLoginAttempt a b r ip ua) e (λ o w', is_Some o ∧ w_argon w' = w_argon w) w.
Proof. unfold recordLoginAttempt. repeat wp_step; eauto. Qed.

Lemma rejection_after_dummy password a b r ip ua code e w :
  wp (VerifyDummyPassword password ;;; recordLoginAttempt a b r ip ua ;;; ret (Fail code : svc LoginOutcome)) e
    (λ _ w', w_argon w' = S (w_argon w)) w.
Proof.
  wp_step. unfold wp at 1. rewrite VerifyDummyPassword_spec. cbn [fst snd]. wp_step.
  eapply wp_mono; [apply recordLoginAttempt_argon|]. cbv beta. intros o w' [[? ->] H]. wp_step. by rewrite H.
Qed.

(** C17: a login answered with invalid credentials or a locked account - malformed
    input, unknown email, deleted account, locked account, wrong password - has
    cost exactly one Argon2id evaluation, so the work done does not tell these
    apart, as long as every stored hash is one the service wrote under a pepper it
    still has.  A locked account pays for the dummy hash, too, where a comment and
    the README say that it costs none. *)
Theorem Login_rejections_cost_one_hash ctx email password e w :
  wf (w_db w) →
  (∀ a h, a ∈ auth_identities (w_db w) → ai_PasswordHash a = Some h → known_hash (e_cfg e) h) →
  rejected (result (Login.Login ctx email password) e w) →
  w_argon (final (Login.Login ctx email password) e w) = S (w_argon w).
Proof.
  intros W Hk. enough (wp (Login.Login ctx email password) e
    (λ o w', rejected o → w_argon w' = S (w_argon w)) w) as H by exact H.
  unfold Login.Login. wp_step.
  { wp_step. unfold wp at 1. rewrite VerifyDummyPassword_spec. cbn [fst snd]. by wp_step. }
  wp_step. wp_step.
  { wp_step; [wp_step; by intros [|]|].
    eapply wp_mono; [apply rejection_after_dummy|]. by intros ? ? ->. }
  wp_step.
  { eapply wp_mono; [apply rejection_after_dummy|]. by intros ? ? ->. }
  wp_step. wp_step. wp_step. eapply wp_mono; [apply locked_now_false|]. cbv beta.
  intros o w1 (_ & Hw1 & b & -> & _). cbv beta iota. wp_step.
  { eapply wp_mono; [apply rejection_after_dummy|]. intros ? ? ->. by rewrite Hw1. }
  apply GetEmailAuthByEmail_Ok in H as (au & u & Hsi & ->). destruct Hsi as [Ha _ _ Hp _].
  destruct (wf_identities _ W) as (_ & _ & Hrows). rewrite Forall_forall in Hrows.
  destruct (Hrows au Ha) as [[Hh _] _]. destruct (Hh Hp) as [h Hhash].
  wp_step. apply VerifyPasswordPHC_wp. cbv beta iota. simpl ea_PasswordHash. rewrite Hhash.
  pose proof (known_hash_cost _ _ password (Hk au h Ha Hhash)) as Hcost. simpl text_String.
  destruct (phc_check _ _ _ _) as [r n]. cbn [fst snd] in *. subst n.
  destruct r as [[]|]; [| |wp_step; by intros [|]].
  - eapply wp_mono; [apply login_verified_not_rejected|]. by intros ? ? ?.
  - unfold login_wrong_password. wp_step. eapply wp_mono; [apply recordLoginAttempt_argon|]. cbv beta.
    intros o w2 [[? ->] H2]. rewrite burn_n_argon in H2. repeat wp_step; intros _; simpl; by rewrite H2, Hw1.
Qed.

(** ** Lockout *)

(** Outside of a transaction no actor is set, and the audit triggers cannot
    fail. *)
Lemma trigger_rows_quiet {A} c (row : nat → option uuid → A → option AuditLog) k hit :
  s_actor c = "" → ∃ l, trigger_rows c row k hit = Ok l.
Proof.
  intros Hc. revert k. induction hit as [|r hit IH]; intros k; simpl; [eauto|].
  destruct (IH (S k)) as [l Hl]. unfold current_actor. rewrite Hc, Hl. simpl.
  destruct (row k None r); eauto.
Qed.

Lemma update_identities_quiet p f c d :
  s_actor c = "" → ∃ d', update_identities p f c d = (Ok (), d')
    ∧ auth_identities d' = update p f (auth_identities d).
Proof.
  intros Hc. unfold update_identities.
  destruct (trigger_rows_quiet c (identity_audit c d f) 0 (select p (auth_identities d)) Hc) as [l ->].
  eexists. split; [reflexivity|done].
Qed.

Lemma updated_identity f d a :
  a ∈ auth_identities d → f a ∈ update (id_is ai_ID (Some (ai_ID a))) f (auth_identities d).
Proof.
  intros Ha. apply elem_of_update. exists a. split; [done|]. unfold id_is. by rewrite sql_eq_refl.
Qed.

Lemma IncrementFailedLoginAttempts_quiet c d a n :
  s_actor c = "" → identities_wf d → a ∈ auth_identities d → ai_FailedAttempts a = Some n → n < int4_max →
  ∃ d' a', run_stmt (IncrementFailedLoginAttempts (ai_ID a)) c d = (Ok (Some (n + 1)), d')
    ∧ a' ∈ auth_identities d' ∧ ai_ID a' = ai_ID a ∧ ai_FailedAttempts a' = Some (n + 1)
    ∧ ai_LockedAt a' = ai_LockedAt a.
Proof.
  intros Hc (Hnd & _) Ha Hn Hmax. unfold run_stmt, IncrementFailedLoginAttempts.
  rewrite (fetch_one_unique _ _ a); [|done|by apply sql_eq_refl|].
  2:{ intros a' Ha' H%id_is_true. eapply (NoDup_proj_eq ai_ID); eauto. congruence. }
  rewrite Hn. unfold int4_overflows. destruct (int4_max <? n + 1) eqn:E; [bool_to_prop; lia|].
  edestruct update_identities_quiet as (d' & -> & Hd'); [exact Hc|]. simpl.
  eexists _, _. split; [reflexivity|]. rewrite Hd'.
  split; [exact (updated_identity _ _ _ Ha)|]. simpl. by rewrite Hn.
Qed.

Lemma run_recordLoginAttempt a b r ip ua e w :
  no_faults e → ∃ l, recordLoginAttempt a b r ip ua e w = (Some tt, tick (set_w_db (set_logins l (w_db w)) w)).
Proof.
  intros Hf. unfold recordLoginAttempt, bind. rewrite run_db_stmt by done. unfold run_stmt, RecordLoginAttempt.
  destruct (checks _); [exists (logins (w_db w))|eexists; reflexivity].
  unfold ret. by destruct w as [[] ? ? ? ? ?].
Qed.

(** The request is well formed and names an account that is not deleted. *)
Record attempt_on (w : World) (email password : string) (a : AuthIdentity) (u : User) : Prop := {
  at_wf : wf (w_db w);
  at_account : signs_in_with (w_db w) (email_key email) a u;
  at_live : u_DeletedAt u = None;
  at_email : IsValidEmail (email_key email) = true;
  at_password : password ≠ "" ∧ len password ≤ 256
}.

Lemma run_Login_to_lock ctx email password e w a u Q :
  no_faults e → attempt_on w email password a u →
  wp (locked <- locked_now (ai_LockedAt a) (e_cfg e) ;;
      if (locked : bool) then
        VerifyDummyPassword password ;;;
        recordLoginAttempt (Some (u_ID u)) (Some (ai_ID a)) LoginResultLocked (ClientIPFromCtx ctx) (UserAgentFromCtx ctx) ;;;
        ret (Fail AccountLocked)
      else
        ok <- VerifyPasswordPHC password (text_String (ai_PasswordHash a)) true ;;
        match ok with
        | Err _ => ret (Fail InternalServerError)
        | Ok false => login_wrong_password (email_auth_row (a, u)) (ClientIPFromCtx ctx) (UserAgentFromCtx ctx)
        | Ok true => login_verified (email_auth_row (a, u)) password (ClientIPFromCtx ctx) (UserAgentFromCtx ctx)
        end) e Q (tick w) →
  wp (Login.Login ctx email password) e Q w.
Proof.
  intros Hf [W Hsi Hlive Hmail [Hp Hlen]] H. unfold Login.Login. unfold email_key in *.
  rewrite Hmail, (proj2 (String.eqb_neq _ _) Hp). destruct (256 <? len password) eqn:E; [bool_to_prop; lia|].
  cbv beta iota delta [negb orb]. wp_step. apply (quiet_query _ Hf). cbv beta.
  rewrite (GetEmailAuthByEmail_found _ _ _ a u W Hsi). simpl ea_DeletedAt. rewrite Hlive.
  cbn [is_valid]. wp_step. wp_step. exact H.
Qed.

(** While an account is locked a login with any password, the right one
    included, is answered [AccountLocked], and changes nothing but the log of
    attempts. *)
Lemma Login_locked_refused ctx email password e w a u t0 :
  no_faults e → attempt_on w email password a u →
  ai_LockedAt a = Some t0 → e_clock e (S (w_tick w)) - t0 < cfg_LoginLockDuration (e_cfg e) →
  result (Login.Login ctx email password) e w = Some (Fail AccountLocked)
  ∧ ∃ l, w_db (final (Login.Login ctx email password) e w) = set_logins l (w_db w).
Proof.
  intros Hf Hat Hl Ht. apply (run_Login_to_lock ctx email password e w a u (λ o w',
    o = Some (Fail AccountLocked) ∧ ∃ l, w_db w' = set_logins l (w_db w)) Hf Hat).
  rewrite Hl. unfold locked_now. do 4 wp_step. cbn [tick w_tick].
  destruct (_ <? _) eqn:E; [|bool_to_prop; lia].
  wp_step. unfold wp at 1. rewrite VerifyDummyPassword_spec. cbn [fst snd]. wp_step.
  unfold wp at 1. edestruct (run_recordLoginAttempt) as [l ->]; [done|]. cbn [fst snd].
  wp_step. split; [done|]. by exists l.
Qed.

Lemma run_locked_now_unlocked at_ cfg e w :
  (∀ t0, at_ = Some t0 → cfg_LoginLockDuration cfg ≤ e_clock e (w_tick w) - t0) →
  ∃ w', locked_now at_ cfg e w = (Some false, w') ∧ w_db w' = w_db w ∧ w_tx w' = w_tx w.
Proof.
  intros H. destruct at_ as [t0|]; [|by exists w]. specialize (H t0 eq_refl).
  exists (tick w). unfold locked_now, bind, now. destruct (_ <? _) eqn:E; [bool_to_prop; lia|done].
Qed.

(** The counters after a wrong password. *)
Definition counted (e : Env) (a : AuthIdentity) (n : Z) (o : option (svc LoginOutcome)) (w : World) : Prop :=
  o = Some (Fail InvalidCredentials)
  ∧ ∃ a', a' ∈ auth_identities (w_db w) ∧ ai_ID a' = ai_ID a ∧ ai_FailedAttempts a' = Some (n + 1)
    ∧ if cfg_LoginMaxFailedAttempts (e_cfg e) <=? n + 1
      then ∃ k, ai_LockedAt a' = Some (us (e_clock e k)) else ai_LockedAt a' = ai_LockedAt a.

Lemma login_wrong_password_counts row ip ua e w a n :
  no_faults e → w_tx w = None → identities_wf (w_db w) → a ∈ auth_identities (w_db w) →
  ea_IdentityID row = ai_ID a → ai_FailedAttempts a = Some n → n < int4_max →
  wp (login_wrong_password row ip ua) e (counted e a n) w.
Proof.
  intros Hf Htx Hids Ha Hid Hn Hmax. unfold login_wrong_password. wp_step. unfold wp at 1.
  edestruct (run_recordLoginAttempt) as [l ->]; [done|]. cbn [fst snd]. wp_step.
  set (w1 := tick _). assert (s_actor (sctx e w1) = "") as Hc by (unfold sctx; simpl; by rewrite Htx).
  destruct (IncrementFailedLoginAttempts_quiet (sctx e w1) (w_db w1) a n Hc Hids Ha Hn Hmax)
    as (d & a' & Hrun & Ha' & Hid' & Hn' & Hl').
  rewrite Hid. eapply (quiet_stmt _ Hf); [exact Hrun|]. cbv beta iota. wp_step. wp_step. unfold counted.
  simpl int_Int. destruct (cfg_LoginMaxFailedAttempts (e_cfg e) <=? n + 1) eqn:E.
  - wp_step. set (w2 := tick _).
    assert (s_actor (sctx e w2) = "") as Hc2 by (unfold sctx; simpl; by rewrite Htx).
    destruct (update_identities_quiet (id_is ai_ID (Some (ai_ID a)))
                (set_ai_LockedAt (Some (s_now (sctx e w2)))) _ d Hc2) as (d2 & Hrun2 & Hd2).
    eapply (quiet_stmt _ Hf). { unfold run_stmt, LockAuthIdentity. simpl w_db. by rewrite Hrun2. }
    cbv beta iota. wp_step. split; [done|]. simpl. rewrite Hd2, <- Hid'.
    eexists. split; [exact (updated_identity _ _ _ Ha')|]. simpl. split_and!; try done.
    exists (w_tick w2). unfold sctx. simpl. by rewrite Htx.
  - wp_step. split; [done|]. eauto.
Qed.

(** C18: a wrong password on an account that is not locked adds one to its failed
    attempts, and locks the account exactly when the configured number is
    reached. *)
Theorem Login_wrong_password_counts ctx email password e w a u n :
  no_faults e → attempt_on w email password a u → w_tx w = None →
  (∀ t0, ai_LockedAt a = Some t0 → cfg_LoginLockDuration (e_cfg e) ≤ e_clock e (S (w_tick w)) - t0) →
  (phc_check (e_cfg e) password (text_String (ai_PasswordHash a)) true).1 = Ok false →
  ai_FailedAttempts a = Some n → n < int4_max →
  result (Login.Login ctx email password) e w = Some (Fail InvalidCredentials)
  ∧ ∃ a', a' ∈ auth_identities (w_db (final (Login.Login ctx email password) e w)) ∧ ai_ID a' = ai_ID a
    ∧ ai_FailedAttempts a' = Some (n + 1)
    ∧ if cfg_LoginMaxFailedAttempts (e_cfg e) <=? n + 1
      then ∃ k, ai_LockedAt a' = Some (us (e_clock e k)) else ai_LockedAt a' = ai_LockedAt a.
Proof.
  intros Hf Hat Htx Hl Hphc Hn Hmax.
  apply (run_Login_to_lock ctx email password e w a u (counted e a n) Hf Hat).
  destruct (at_account _ _ _ _ _ Hat) as [Ha _ _ _ _].
  pose proof (wf_identities _ (at_wf _ _ _ _ _ Hat)) as Hids.
  destruct (run_locked_now_unlocked (ai_LockedAt a) (e_cfg e) e (tick w) Hl) as (w1 & Hrun & Hdb & Htx1).
  wp_step. unfold wp at 1. rewrite Hrun. cbn [fst snd]. wp_step. apply VerifyPasswordPHC_wp.
  rewrite Hphc. cbv beta iota. rewrite burn_n_eq.
  apply login_wrong_password_counts; simpl; rewrite ?Hdb, ?Htx1; done.
Qed.
End login.

(** ** Examples *)

Import Toy.

Lemma ann_signs_in : signs_in_with (w_db w_joined) (email_key ann) (ann_identity_in (w_db w_joined)) (ann_user_in (w_db w_joined)).
Proof. split; first [apply hd_elem; by vm_compute|by vm_compute]. Qed.

Lemma ann_logs_in : result (Login.Login nobody ann ann_password) env w_joined = Some (Done ann_out).
Proof. by vm_compute. Qed.

Lemma Login_success_witness :
  ∃ a u, login_grounds env w_joined ann ann_password a u
    ∧ lr_MFARequired ann_out = negb (bool_decide (enabled_methods (w_db w_joined) (u_ID u) = [])).
Proof.
  destruct (Login_success nobody ann ann_password env w_joined ann_out joined_wf ann_logs_in)
    as (a & u & H & H' & _). exact (ex_intro _ a (ex_intro _ u (conj H H'))).
Defined.

Definition ann_peppers : StaticPepperManager :=
  match NewStaticPepperManager (cfg_PasswordPeppersRaw cfg) (cfg_ActivePepperID cfg) with
  | Ok pm => pm | Err _ => mkStaticPepperManager "" ∅ end.
Definition ann_hash : string := text_String (ai_PasswordHash (ann_identity_in (w_db w_joined))).
Definition ann_hash_part (k : nat) : string :=
  default "" (RawStdEncoding_DecodeString (List.nth k (Split ann_hash "$") "")).

Lemma ann_hash_known : known_hash (e_cfg env) ann_hash.
Proof.
  exists ann_peppers, (default "" (GetPepper "p1" ann_peppers)), "p1", (ann_hash_part 4), (ann_hash_part 5).
  repeat split; by vm_compute.
Qed.

Lemma joined_hashes :
  keys ai_PasswordHash (auth_identities (w_db w_joined)) = [Some ann_hash].
Proof. by vm_compute. Qed.

Lemma single_Some {A} (x y : A) : Some x ∈ [Some y] → x = y.
Proof. intros H%list_elem_of_singleton. congruence. Qed.

Lemma joined_known_hashes a h :
  a ∈ auth_identities (w_db w_joined) → ai_PasswordHash a = Some h → known_hash (e_cfg env) h.
Proof.
  intros Ha Hh. pose proof (keys_elem ai_PasswordHash _ _ Ha) as H. rewrite joined_hashes, Hh in H.
  apply single_Some in H as ->. exact ann_hash_known.
Qed.

Lemma wrong_password_rejected : rejected (result (Login.Login nobody ann "wrong") env w_joined).
Proof. left. by vm_compute. Qed.

Lemma Login_rejections_cost_one_hash_witness :
  w_argon (final (Login.Login nobody ann "wrong") env w_joined) = S (w_argon w_joined).
Proof.
  exact (Login_rejections_cost_one_hash nobody ann "wrong" env w_joined joined_wf
           joined_known_hashes wrong_password_rejected).
Defined.

Lemma ann_attempt password :
  password ≠ "" → len password ≤ 256 →
  attempt_on w_joined ann password (ann_identity_in (w_db w_joined)) (ann_user_in (w_db w_joined)).
Proof. intros H1 H2. split; [exact joined_wf|exact ann_signs_in|by vm_compute|by vm_compute|done]. Qed.

Lemma ann_unlocked : ai_LockedAt (ann_identity_in (w_db w_joined)) = None.
Proof. by vm_compute. Qed.

Lemma Login_wrong_password_counts_witness :
  ∃ a', a' ∈ auth_identities (w_db (final (Login.Login nobody ann "wrong") env w_joined))
    ∧ ai_FailedAttempts a' = Some 1.
Proof.
  destruct (Login_wrong_password_counts nobody ann "wrong" env w_joined _ _ 0 env_quiet
              (ann_attempt "wrong" ltac:(done) ltac:(by vm_compute)) ltac:(by vm_compute)
              ltac:(intros t0 H; rewrite ann_unlocked in H; discriminate H)
              ltac:(by vm_compute) ltac:(by vm_compute) ltac:(by vm_compute))
    as (_ & a' & H & _ & H' & _).
  exact (ex_intro _ a' (conj H H')).
Defined.

(** After three wrong passwords. *)
Definition wrong_login : Go (svc LoginOutcome) := Login.Login nobody ann "wrong".
Definition w_locked : World := final wrong_login env (final wrong_login env (final wrong_login env w_joined)).

Lemma locked_wf : wf (w_db w_locked).
Proof. unfold w_locked, wrong_login. do 3 (apply run_keeps_wf; [apply Login_in; tracked|]). exact joined_wf. Qed.

Lemma locked_attempt :
  attempt_on w_locked ann ann_password (ann_identity_in (w_db w_locked)) (ann_user_in (w_db w_locked)).
Proof.
  split; [exact locked_wf| |by vm_compute|by vm_compute|by vm_compute].
  split; first [apply hd_elem; by vm_compute|by vm_compute].
Qed.

Definition locked_time : Z := default 0 (ai_LockedAt (ann_identity_in (w_db w_locked))).

Lemma Login_locked_refused_witness :
  result (Login.Login nobody ann ann_password) env w_locked = Some (Fail AccountLocked).
Proof.
  exact (proj1 (Login_locked_refused nobody ann ann_password env w_locked _ _ locked_time env_quiet
                  locked_attempt ltac:(by vm_compute) ltac:(by vm_compute))).
Defined.
