(* ===== verification/MfaSpec.v ===== *)
(** * What multi-factor authentication promises *)

From S2P Require Import Prelude.
From S2P Require Import GoLib.
From S2P Require Import Encoding.
From S2P Require Import Utils.
From S2P Require Import Model.
From S2P Require Import Runtime.
From S2P Require Import Logic.
From S2P Require Import Queries.
From S2P Require Import Store.
From S2P Require Import Password.
From S2P Require Import Tokens.
From S2P Require Import Codes.
From S2P Require Import Signup.
From S2P Require Import Mfa.
From S2P Require Import Login.
From S2P Require Import Frames.
From S2P Require Import Walks.
From S2P Require Import TokenSpec.
From S2P Require Import LoginSpec.
From S2P Require Import Toy.
From S2P Require Import Requests.
From S2P Require Import Scenes.

#[local] Open Scope string_scope.
#[local] Open Scope Z_scope.
#[local] Open Scope go_scope.

(** ** TOTP *)

Section totp.
Context `{OL : TotpLib}.

(** [code] is the code of step [s], which the window allows at [t] and which is
    later than the last step used. *)
Definition totp_accepts (secret code : string) (last t s : Z) : Prop :=
  last < s ∧ totpStep t - totpSkew ≤ s ≤ totpStep t + totpSkew
  ∧ totp_GenerateCodeCustom secret (s * totpPeriod) totpPeriod totpDigits = Ok code.

Lemma try_steps_first secret code last step n s s' :
  try_steps secret code last step n = (s, true) → last < s' → step ≤ s' < step + Z.of_nat n →
  totp_GenerateCodeCustom secret (s' * totpPeriod) totpPeriod totpDigits = Ok code → s ≤ s'.
Proof.
  revert step. induction n as [|n IH]; intros step; cbn [try_steps]; [done|].
  intros H Hl Hs Hc. destruct (decide (step = s')) as [<-|Hne].
  - destruct (step <=? last) eqn:E; [bool_to_prop; lia|]. rewrite Hc, String.eqb_refl in H.
    injection H as <-. lia.
  - destruct (step <=? last) eqn:E; [apply (IH (step + 1)); auto; lia|].
    destruct (totp_GenerateCodeCustom secret (step * _) _ _) as [c|]; [|apply (IH (step + 1)); auto; lia].
    destruct (String.eqb c code); [injection H as <-; lia|apply (IH (step + 1)); auto; lia].
Qed.

(** C21: a TOTP code is accepted exactly when it is the code of some step of the
    window - one step either way - later than the last step used, and the step
    reported is the earliest such: so a code is never accepted twice for the
    same step, and a wrong code never. *)
Theorem ValidateTOTPCode_exact secret code last t :
  match ValidateTOTPCode secret code last t with
  | (s, true) => totp_accepts secret code last t s ∧ ∀ s', totp_accepts secret code last t s' → s ≤ s'
  | (_, false) => ∀ s', ¬ totp_accepts secret code last t s'
  end.
Proof.
  unfold ValidateTOTPCode, totp_accepts, totpSkew.
  destruct (try_steps _ _ _ _ _) as [s []] eqn:E.
  - split.
    + apply try_steps_sound in E as (?&?&?). split_and!; [lia..|done].
    + intros s' (?&?&?). eapply try_steps_first; eauto; lia.
  - intros s' (?&?&?). eapply try_steps_complete in H as [s2 H]; [|shelve|eassumption].
    rewrite E in H. done. Unshelve. simpl. lia.
Qed.
End totp.

(** ** Secrets at rest *)

Section secrets.
Context `{AL : AeadLib} `{ALaws : !AeadLaws AL}.

(** [rand.Read] fills its buffer. *)
Definition full_reads (e : Env) : Prop := ∀ k n s, e_rand_read e k n = Some s → String.length s = n.

(** A secret that was encrypted decrypts to itself, later and in any state,
    as long as the key is the same. *)
Lemma MFASecret_roundtrip plaintext e w enc e' w' :
  full_reads e → cfg_MFAEncryptionKey (e_cfg e') = cfg_MFAEncryptionKey (e_cfg e) →
  result (EncryptMFASecret plaintext) e w = Some (Ok enc) →
  result (DecryptMFASecret enc) e' w' = Some (Ok plaintext).
Proof.
  intros Hr Hk. unfold result, EncryptMFASecret, DecryptMFASecret, mfaGCM, bind, get_cfg, ret, rand_read.
  rewrite Hk. destruct (aes_NewCipher _); [|done]. cbn [fst].
  destruct (e_rand_read e (w_tick w) gcm_NonceSize) as [nonce|] eqn:E; [|done].
  apply Hr in E. intros [= <-]. rewrite RawURL_roundtrip, string_length_app, E.
  rewrite (proj2 (Nat.ltb_ge _ _)) by lia. rewrite substring_front, substring_rest by done.
  by rewrite gcm_Open_Seal.
Qed.
End secrets.

(** ** Emailed codes: the number of guesses is bounded *)

(** The three checks of an emailed code: the sign-up, the enrolment of a factor, and
    the second step of a login. *)
Inductive code_check :=
  | CheckSignup (email : string)
  | CheckFactor (channel purpose userID : string) (factorID : uuid)
  | CheckLogin (userPG : uuid) (userID : string).

Section guesses.
Context `{TL : TextLib} `{UL : UuidLib} `{JL : JwtLib}.
Context (e : Env) (Hq : no_faults e) (Hmono : ∀ n m, (n ≤ m)%nat → e_clock e n ≤ e_clock e m).

(** Where the code is kept, and whether a guess at it succeeds. *)
Definition check_key (f : code_check) : string :=
  match f with
  | CheckSignup email => "email_code:" ++ ToLower (TrimSpace email)
  | CheckFactor channel purpose userID _ => mfaOTPCodeKey channel purpose userID
  | CheckLogin _ userID => mfaOTPCodeKey "email" "login" userID
  end.
Definition guess (f : code_check) (code : string) : Go bool :=
  match f with
  | CheckSignup email => r <- VerifyEmailCode email code ;; ret (match r with Done _ => true | Fail _ => false end)
  | CheckFactor channel purpose userID factorID =>
      r <- verifyMFAOTPCode channel purpose userID factorID code ;;
      ret (match r with Done _ => true | Fail _ => false end)
  | CheckLogin userPG userID =>
      r <- mfa_try_email userPG userID (TrimSpace code) None ;;
      ret (match r with MGo ok _ => ok | MStop _ => false end)
  end.
(** A wrong guess; the sign-up turns away what is not six digits without counting. *)
Definition wrong (f : code_check) (m0 : OTPMeta) (code : string) : Prop :=
  TrimSpace code ≠ otp_Code m0
  ∧ match f with
    | CheckSignup email => IsValidEmail (ToLower (TrimSpace email)) = true ∧ IsValidVerificationCode (TrimSpace code) = true
    | _ => True
    end.

Context (f : code_check).
#[local] Abbreviation key := (check_key f).

(** What is left of the code that started as [m0] after [k] wrong guesses. *)
Definition worn (m0 : OTPMeta) (k : Z) (w : World) : Prop :=
  ∀ v, rlookup (w_redis w) (e_clock e (w_tick w)) key = Some v →
    ∃ m, v = ROTP m ∧ otp_Code m = otp_Code m0 ∧ otp_MaxAttempts m = otp_MaxAttempts m0
      ∧ (otp_ExpiresAt m < e_clock e (w_tick w)
         ∨ Z.min (otp_MaxAttempts m0) (otp_Attempts m0 + k) ≤ otp_Attempts m).
(** The login has no emailed factor to check: no guess is looked at. *)
Definition unchecked (d : DB) : Prop :=
  match f with
  | CheckLogin userPG _ => ∃ err, fetch_one (factor_of (Some userPG) MfaTypeEmail) (mfa_factors d) = Err err
  | _ => False
  end.
Definition spent_by (m0 : OTPMeta) (k : Z) (w : World) : Prop := unchecked (w_db w) ∨ worn m0 k w.

Lemma rlookup_later r t t' k v : t ≤ t' → rlookup r t' k = Some v → rlookup r t k = Some v.
Proof.
  intros Ht. unfold rlookup. destruct (r !! k) as [[v' [x|]]|]; [|done..]. unfold rlive. simpl.
  destruct (t' <? x) eqn:E; [|done]. destruct (t <? x) eqn:E2; [done|]. bool_to_prop. lia.
Qed.
Lemma worn_later m0 k w w' : w_redis w' = w_redis w → (w_tick w ≤ w_tick w')%nat → worn m0 k w → worn m0 k w'.
Proof.
  intros Hr Ht H v Hv. rewrite Hr in Hv. pose proof (Hmono _ _ Ht) as Hle.
  destruct (H v) as (m & -> & Hc & Hm & Ha); [by eapply rlookup_later|]. exists m. split_and!; try done.
  destruct Ha; [left; lia|by right].
Qed.
(** What the key held is all it can hold later, when nobody writes it. *)
Lemma worn_kept m0 k m w w' :
  w_redis w' = w_redis w → (w_tick w ≤ w_tick w')%nat →
  rlookup (w_redis w) (e_clock e (w_tick w)) key = Some (ROTP m) →
  otp_Code m = otp_Code m0 → otp_MaxAttempts m = otp_MaxAttempts m0 →
  (otp_ExpiresAt m < e_clock e (w_tick w')
   ∨ Z.min (otp_MaxAttempts m0) (otp_Attempts m0 + k) ≤ otp_Attempts m) → worn m0 k w'.
Proof.
  intros Hr Ht E Hc Hx Hm v Hv. rewrite Hr in Hv.
  apply (rlookup_later _ (e_clock e (w_tick w))) in Hv; [|by apply Hmono].
  rewrite E in Hv. injection Hv as <-. eauto.
Qed.
(** The count written back after a wrong guess. *)
Lemma worn_counted m0 k m exp w r :
  w_redis w = <[key := (ROTP (set_otp_Attempts (otp_Attempts m + 1) m), exp)]> r →
  otp_Code m = otp_Code m0 → otp_MaxAttempts m = otp_MaxAttempts m0 →
  Z.min (otp_MaxAttempts m0) (otp_Attempts m0 + k) ≤ otp_Attempts m → worn m0 (k + 1) w.
Proof.
  intros Hr Hc Hx Hm v. unfold rlookup. rewrite Hr, lookup_insert_eq. destruct (rlive _ _); [|done].
  intros [= <-]. eexists. split_and!; [reflexivity|done..|right; simpl; lia].
Qed.

(** The shape the three checks share, once a code was found: out of time, out of
    guesses, or compared. *)
Definition found (m0 : OTPMeta) (k : Z) (w : World) (m : OTPMeta) : Prop :=
  rlookup (w_redis w) (e_clock e (w_tick w)) key = Some (ROTP m)
  ∧ otp_Code m = otp_Code m0 ∧ otp_MaxAttempts m = otp_MaxAttempts m0
  ∧ (otp_ExpiresAt m < e_clock e (w_tick w) ∨ Z.min (otp_MaxAttempts m0) (otp_Attempts m0 + k) ≤ otp_Attempts m).
Lemma checked_wrong {A} (Q : option A → World → Prop) m0 k w m (late used rest : Go A) :
  found m0 k w m →
  (∀ w', w_db w' = w_db w → worn m0 (k + 1) w' → wp late e Q w' ∧ wp used e Q w') →
  (∀ w', w_db w' = w_db w → w_redis w' = w_redis w →
     Z.min (otp_MaxAttempts m0) (otp_Attempts m0 + k) ≤ otp_Attempts m → wp rest e Q w') →
  wp (t <- now ;;
      if otp_ExpiresAt m <? t then late
      else if otp_MaxAttempts m <=? otp_Attempts m then used else rest) e Q (tick w).
Proof.
  intros (E & Hc & Hx & Ha) Hout Hrest. wp_step. wp_step. simpl.
  assert (e_clock e (w_tick w) ≤ e_clock e (S (w_tick w))) as Ht by (apply Hmono; lia).
  assert (e_clock e (S (w_tick w)) ≤ e_clock e (S (S (w_tick w)))) as Ht2 by (apply Hmono; lia).
  destruct (otp_ExpiresAt m <? _) eqn:Ex; [|destruct (otp_MaxAttempts m <=? _) eqn:Eu]; bool_to_prop; simpl in *.
  - apply Hout; [done|]. eapply (worn_kept m0 (k + 1) m w); simpl; try done; [lia|left; lia].
  - apply Hout; [done|]. eapply (worn_kept m0 (k + 1) m w); simpl; try done; [lia|right; lia].
  - apply Hrest; [done..|]. destruct Ha; [lia|done].
Qed.
Lemma checked_refused {A} (Q : option A → World → Prop) m0 k w m (late used rest : Go A) :
  found m0 k w m → otp_MaxAttempts m0 ≤ otp_Attempts m0 + k →
  (∀ w', wp late e Q w' ∧ wp used e Q w') →
  wp (t <- now ;;
      if otp_ExpiresAt m <? t then late
      else if otp_MaxAttempts m <=? otp_Attempts m then used else rest) e Q (tick w).
Proof.
  intros (E & Hc & Hx & Ha) Hk Hout. wp_step. wp_step. simpl.
  assert (e_clock e (w_tick w) ≤ e_clock e (S (w_tick w))) as Ht by (apply Hmono; lia).
  destruct (otp_ExpiresAt m <? _) eqn:Ex; [apply Hout|].
  destruct (otp_MaxAttempts m <=? _) eqn:Eu; [apply Hout|]. bool_to_prop. simpl in *. lia.
Qed.
(** The code is there, or there is none. *)
Lemma lookup_code m0 k w :
  worn m0 k w →
  let r := otp_of (match rlookup (w_redis w) (e_clock e (w_tick w)) key with Some v => Ok v | None => Err ErrRedisNil end) in
  (∃ err, r = Err err ∧ ∀ k', worn m0 k' (tick w)) ∨ ∃ m, r = Ok m ∧ found m0 k w m.
Proof.
  intros H. cbv zeta. destruct (rlookup _ _ _) as [v|] eqn:E.
  - destruct (H v E) as (m & -> & Hm). right. exists m. split; [done|]. by split.
  - left. eexists. split; [reflexivity|]. intros k' v Hv.
    apply (rlookup_later _ (e_clock e (w_tick w))) in Hv; [|apply Hmono; simpl; lia]. simpl in Hv. by rewrite E in Hv.
Qed.
Lemma not_equal code m0 m : TrimSpace code ≠ otp_Code m0 → otp_Code m = otp_Code m0 →
  constantTimeEqual (TrimSpace code) (otp_Code m) = false ∧ String.eqb (TrimSpace code) (otp_Code m) = false.
Proof.
  intros Hne Hc. assert (TrimSpace code ≠ otp_Code m) by congruence. split; [|by apply String.eqb_neq].
  unfold constantTimeEqual. destruct (negb _); [done|]. by apply String.eqb_neq.
Qed.
End guesses.

Section bounded.
Context `{TL : TextLib} `{UL : UuidLib} `{JL : JwtLib}.
Context (e : Env) (Hq : no_faults e) (Hmono : ∀ n m, (n ≤ m)%nat → e_clock e n ≤ e_clock e m).
#[local] Abbreviation missed f m0 k := (λ o w', o = Some false ∧ spent_by e f m0 k w').

Ltac lookup_key f := lazymatch goal with |- context [rlookup ?r ?t ?k] => change k with (check_key f) end.

(** One wrong guess, of each kind. *)
Lemma signup_wrong email m0 k code w :
  let f := CheckSignup email in
  worn e f m0 k w → wrong f m0 code → wp (guess f code) e (missed f m0 (k + 1)) w.
Proof.
  intros f H (Hne & Hem & Hcode). cbn [guess f]. wp_step. unfold VerifyEmailCode. rewrite Hem, Hcode. cbn [negb].
  wp_step. unfold GetVerificationCode. wp_step. apply (quiet_redis_Get _ Hq). cbv beta iota. wp_step.
  lookup_key f. destruct (lookup_code e Hmono f m0 k w H) as [(err & -> & Hnone)|(m & -> & Hf)]; cbv beta iota.
  { wp_step. wp_step. split; [done|]. right. by apply Hnone. }
  destruct (not_equal code m0 m Hne) as [_ ->]; [by apply Hf|]. cbn [negb].
  apply (checked_wrong e Hmono f _ m0 k w m); [done| |].
  - intros w' Hw' Hworn. split; wp_step; wp_step; (split; [done|by right]).
  - intros w' Hw' Hr Ha. unfold SaveVerificationCode. wp_step. wp_step. wp_step. apply (quiet_redis_Set _ Hq). cbv beta iota.
    wp_step. wp_step. split; [done|]. right. destruct Hf as (_ & Hc & Hx & _).
    by eapply (worn_counted e f m0 k m).
Qed.
Lemma factor_wrong channel purpose userID factorID m0 k code w :
  let f := CheckFactor channel purpose userID factorID in
  worn e f m0 k w → wrong f m0 code → wp (guess f code) e (missed f m0 (k + 1)) w.
Proof.
  intros f H (Hne & _). cbn [guess f]. wp_step. unfold verifyMFAOTPCode.
  wp_step. unfold GetMFAOTPCode. wp_step. apply (quiet_redis_Get _ Hq). cbv beta iota. wp_step.
  lookup_key f. destruct (lookup_code e Hmono f m0 k w H) as [(err & -> & Hnone)|(m & -> & Hf)]; cbv beta iota.
  { wp_step. wp_step. split; [done|]. right. by apply Hnone. }
  destruct (not_equal code m0 m Hne) as [-> _]; [by apply Hf|]. cbn [negb].
  apply (checked_wrong e Hmono f _ m0 k w m); [done| |].
  - intros w' Hw' Hworn. split; wp_step; wp_step; (split; [done|by right]).
  - intros w' Hw' Hr Ha. unfold SaveMFAOTPCode. wp_step. wp_step. wp_step. apply (quiet_redis_Set _ Hq). cbv beta iota.
    destruct Hf as (_ & Hc & Hx & _).
    wp_step. wp_step; wp_step; wp_step; (split; [done|]); right; by eapply (worn_counted e f m0 k m).
Qed.
Lemma login_wrong userPG userID m0 k code w :
  let f := CheckLogin userPG userID in
  spent_by e f m0 k w → wrong f m0 code → wp (guess f code) e (missed f m0 (k + 1)) w.
Proof.
  intros f H (Hne & _). cbn [guess f]. wp_step. unfold mfa_try_email. wp_step. apply (quiet_query _ Hq).
  unfold GetOTPFactorByUserID. destruct (fetch_one _ _) as [fa|err] eqn:Ef; cbv beta iota.
  2:{ wp_step. destruct (is_no_rows err); wp_step; (split; [done|left; by exists err]). }
  assert (worn e f m0 k (tick w)) as H1.
  { destruct H as [[err Hu]|H]; [congruence|]. eapply (worn_later e Hmono f); [| |exact H]; [done|simpl; lia]. }
  wp_step. unfold GetMFAOTPCode. wp_step. apply (quiet_redis_Get _ Hq). cbv beta iota. wp_step.
  lookup_key f. destruct (lookup_code e Hmono f m0 k (tick w) H1) as [(err & -> & Hnone)|(m & -> & Hf)]; cbv beta iota.
  { wp_step. wp_step. split; [done|]. right. by apply Hnone. }
  destruct (not_equal code m0 m Hne) as [-> _]; [by apply Hf|].
  apply (checked_wrong e Hmono f _ m0 k (tick w) m); [done| |].
  - intros w' Hw' Hworn. split; wp_step; wp_step; (split; [done|by right]).
  - intros w' Hw' Hr Ha. unfold SaveMFAOTPCode. wp_step. wp_step. wp_step. apply (quiet_redis_Set _ Hq). cbv beta iota.
    destruct Hf as (_ & Hc & Hx & _). wp_step. wp_step. split; [done|]. right. by eapply (worn_counted e f m0 k m).
Qed.
Lemma guess_wrong f m0 k code w :
  spent_by e f m0 k w → wrong f m0 code → wp (guess f code) e (missed f m0 (k + 1)) w.
Proof.
  destruct f; [intros [[]|H]; by apply signup_wrong|intros [[]|H]; by apply factor_wrong|apply login_wrong].
Qed.

(** A worn-out code is refused, right or wrong. *)
Lemma guess_refused f m0 k code w :
  spent_by e f m0 k w → otp_MaxAttempts m0 ≤ otp_Attempts m0 + k →
  wp (guess f code) e (λ o _, o = Some false) w.
Proof.
  intros H Hk. destruct f as [email|channel purpose userID factorID|userPG userID]; cbn [guess]; wp_step;
    [set (f := CheckSignup email) in *|set (f := CheckFactor channel purpose userID factorID) in *|set (f := CheckLogin userPG userID) in *].
  - destruct H as [[]|H]. unfold VerifyEmailCode. wp_step; [by wp_step; wp_step|]. wp_step; [by wp_step; wp_step|].
    wp_step. unfold GetVerificationCode. wp_step. apply (quiet_redis_Get _ Hq). cbv beta iota. wp_step.
    lookup_key f. destruct (lookup_code e Hmono f m0 k w H) as [(err & -> & _)|(m & -> & Hf)]; cbv beta iota.
    { by wp_step; wp_step. }
    apply (checked_refused e Hmono f _ m0 k w m); [done..|]. intros w'. split; by wp_step; wp_step.
  - destruct H as [[]|H]. unfold verifyMFAOTPCode.
    wp_step. unfold GetMFAOTPCode. wp_step. apply (quiet_redis_Get _ Hq). cbv beta iota. wp_step.
    lookup_key f.
    destruct (lookup_code e Hmono f m0 k w H) as [(err & -> & _)|(m & -> & Hf)]; cbv beta iota.
    { by wp_step; wp_step. }
    apply (checked_refused e Hmono f _ m0 k w m); [done..|]. intros w'. split; by wp_step; wp_step.
  - unfold mfa_try_email. wp_step. apply (quiet_query _ Hq).
    unfold GetOTPFactorByUserID. destruct (fetch_one _ _) as [fa|err] eqn:Ef; cbv beta iota.
    2:{ wp_step. destruct (is_no_rows err); by wp_step. }
    destruct H as [[err Hu]|H]; [congruence|].
    apply (worn_later e Hmono f m0 k w (tick w)) in H; [|done|simpl; lia].
    wp_step. unfold GetMFAOTPCode. wp_step. apply (quiet_redis_Get _ Hq). cbv beta iota. wp_step.
    lookup_key f.
    destruct (lookup_code e Hmono f m0 k (tick w) H) as [(err & -> & _)|(m & -> & Hf)]; cbv beta iota.
    { by wp_step; wp_step. }
    apply (checked_refused e Hmono f _ m0 k (tick w) m); [done..|]. intros w'. split; by wp_step; wp_step.
Qed.

(** C22: an emailed code cannot be found by trying, be it the code of a sign-up, of a
    factor's enrolment, or of the second step of a login: after as many wrong
    guesses as it allows, no guess at it succeeds any more, the right code
    included.  The guesses come one after the other and no call fails; guesses at
    the same time are not bounded, which is a finding. *)
Theorem MFA_code_guesses_bounded f m0 codes w code :
  rlookup (w_redis w) (e_clock e (w_tick w)) (check_key f) = Some (ROTP m0) →
  Forall (wrong f m0) codes →
  otp_MaxAttempts m0 - otp_Attempts m0 ≤ Z.of_nat (length codes) →
  result (guess f code) e (final (for_each (guess f) codes) e w) = Some false.
Proof.
  intros Hv Hwrong Hlen.
  assert (spent_by e f m0 0 w) as Hw.
  { right. intros v H. rewrite Hv in H. injection H as <-. exists m0. split_and!; try done. right. lia. }
  enough (∀ k w, spent_by e f m0 k w → spent_by e f m0 (k + Z.of_nat (length codes)) (final (for_each (guess f) codes) e w)) as H.
  { apply (guess_refused f m0 _ code _ (H 0 w Hw)). lia. }
  clear Hlen Hw Hv w. induction Hwrong as [|c codes Hc _ IH]; intros k w Hw.
  - by rewrite Z.add_0_r.
  - enough (wp (for_each (guess f) (c :: codes)) e (λ _ w', spent_by e f m0 (k + Z.of_nat (S (length codes))) w') w) as H by exact H.
    cbn [for_each]. wp_step. eapply wp_mono; [by apply guess_wrong|]. cbv beta.
    intros o w1 [-> H1]. replace (k + _) with (k + 1 + Z.of_nat (length codes)) by lia.
    by apply IH.
Qed.
End bounded.

(** ** Recovery codes *)

Section recovery.
Context `{TL : TextLib} `{UL : UuidLib} `{HL : HashLib}.

(** Every row with this hash has been used. *)
Definition spent (h : string) (d : DB) : Prop :=
  ∀ r, r ∈ mfa_recovery_codes d → rc_CodeHash r = h → is_valid (rc_UsedAt r) = true.

Lemma MarkMFARecoveryCodeUsed_spends c d r :
  NoDup (keys rc_CodeHash (mfa_recovery_codes d)) → r ∈ mfa_recovery_codes d →
  spent (rc_CodeHash r) (MarkMFARecoveryCodeUsed (rc_ID r) c d).2.
Proof.
  intros Hnd Hr r' (r0 & Hr0 & ->)%elem_of_update Hh. unfold id_is in *.
  destruct (sql_eq _ _) eqn:Es; [done|].
  assert (r0 = r) as -> by (eapply (NoDup_proj_eq rc_CodeHash); eauto).
  by rewrite sql_eq_refl in Es.
Qed.

Lemma mfa_try_recovery_spends code failed e w :
  no_faults e → NoDup (keys rc_CodeHash (mfa_recovery_codes (w_db w))) →
  wp (mfa_try_recovery code failed) e (λ o w', ∀ f, o = Some (MGo true f) →
      spent (HashOpaqueToken (ToUpper code)) (w_db w')) w.
Proof.
  intros Hf Hnd. unfold mfa_try_recovery. wp_step. apply (quiet_query _ Hf). cbv beta iota.
  unfold GetUnusedMFARecoveryCode. destruct (fetch_one _ _) as [r|err] eqn:E; cbn [res_map].
  - wp_step. eapply (quiet_stmt _ Hf); [reflexivity|]. wp_step. intros f _.
    apply fetch_one_Ok in E as [Hr Hp]. bool_to_prop. rewrite <- H.
    exact (MarkMFARecoveryCodeUsed_spends (sctx e (tick w)) _ _ Hnd Hr).
  - wp_step. intros f. by destruct (is_no_rows err).
Qed.

Lemma mfa_try_recovery_spent code failed e w :
  spent (HashOpaqueToken (ToUpper code)) (w_db w) →
  wp (mfa_try_recovery code failed) e (λ o _, ∀ f, o ≠ Some (MGo true f)) w.
Proof.
  intros Hs. unfold mfa_try_recovery. wp_step. apply wp_query; cbv beta iota.
  - intros err _. wp_step. intros f. by destruct (is_no_rows err).
  - intros id H. exfalso. unfold GetUnusedMFARecoveryCode in H.
    destruct (fetch_one _ _) as [r|] eqn:E; [|done]. apply fetch_one_Ok in E as [Hr Hp]. bool_to_prop.
    specialize (Hs r Hr). rewrite Hs in *; done.
Qed.

(** C23: a recovery code works once: when it has authenticated a login, no later
    attempt with it does, in any environment. *)
Theorem recovery_code_single_use code failed e w f failed' e' f' :
  no_faults e → codes_wf (w_db w) →
  result (mfa_try_recovery code failed) e w = Some (MGo true f) →
  result (mfa_try_recovery code failed') e' (final (mfa_try_recovery code failed) e w) ≠ Some (MGo true f').
Proof.
  intros Hf (_ & Hnd & _) H. apply mfa_try_recovery_spent.
  exact (mfa_try_recovery_spends code failed e w Hf Hnd f H).
Qed.
End recovery.

(** ** The second step of a login *)

Section second_step.
Context `{TL : TextLib} `{UL : UuidLib} `{HL : HashLib} `{JL : JwtLib} `{OL : TotpLib} `{AL : AeadLib}.
Context `{JLaws : !JwtLaws JL}.

(** What authenticates the second step for account [uid]. *)
Inductive factor_passed (e : Env) (w : World) (uid : uuid) (userID code : string) : Prop :=
  | PassedTotp f secret n s :
      f ∈ mfa_factors (w_db w) → factor_of (Some uid) MfaTypeTotp f = true →
      result (DecryptMFASecret (text_String (mf_Secret f))) e w = Some (Ok secret) →
      ValidateTOTPCode secret code (int_Int (mf_LastUsedStep f)) (e_clock e n) = (s, true) →
      factor_passed e w uid userID code
  | PassedEmail f m x n :
      f ∈ mfa_factors (w_db w) → factor_of (Some uid) MfaTypeEmail f = true →
      w_redis w !! mfaOTPCodeKey "email" "login" userID = Some (ROTP m, x) →
      e_clock e n ≤ otp_ExpiresAt m → otp_Attempts m < otp_MaxAttempts m → otp_Code m = code →
      factor_passed e w uid userID code
  | PassedRecovery r :
      r ∈ mfa_recovery_codes (w_db w) → rc_CodeHash r = HashOpaqueToken (ToUpper code) → rc_UsedAt r = None →
      factor_passed e w uid userID code.

Definition same_accounts (d d' : DB) : Prop :=
  users d' = users d ∧ auth_identities d' = auth_identities d.

Lemma DecryptMFASecret_wp enc e w :
  wp (DecryptMFASecret enc) e (λ o w', w' = w ∧ ∀ w0, o = result (DecryptMFASecret enc) e w0) w.
Proof. unfold DecryptMFASecret, mfaGCM, result. repeat wp_step; split; try done; intros w0;
  unfold bind, get_cfg, ret; by repeat (case_match; simplify_eq/=). Qed.

Lemma update_factors_frame p f c d x d' :
  update_factors p f c d = (Ok x, d') → same_accounts d d' ∧ sessions d' = sessions d
  ∧ mfa_recovery_codes d' = mfa_recovery_codes d.
Proof.
  unfold update_factors. destruct (List.existsb _ _); [done|].
  destruct (trigger_rows _ _ _ _); [|done]. by intros [= _ <-].
Qed.

Lemma factor_passed_frame e w w' uid userID code :
  w_db w' = w_db w → w_redis w' = w_redis w →
  factor_passed e w' uid userID code → factor_passed e w uid userID code.
Proof.
  intros Hd Hr []; rewrite ?Hd, ?Hr in *.
  - eapply PassedTotp; eauto. pose proof (DecryptMFASecret_wp (text_String (mf_Secret f)) e w') as [_ Hw].
    by rewrite <- (Hw w).
  - eapply PassedEmail; eauto.
  - eapply PassedRecovery; eauto.
Qed.

(** What a factor's check leaves behind. *)
Definition step_post (e : Env) (w : World) (uid : uuid) (userID code : string) (o : option mfa_step) (w' : World) : Prop :=
  match o with
  | Some (MGo true _) => factor_passed e w uid userID code ∧ same_accounts (w_db w) (w_db w')
  | Some (MGo false _) => w_db w' = w_db w
  | _ => True
  end.

Lemma mfa_try_totp_wp uid userID code e w :
  wp (mfa_try_totp uid code) e (λ o w', step_post e w uid userID code o w'
      ∧ ∀ f, o = Some (MGo false f) → w_redis w' = w_redis w) w.
Proof.
  unfold mfa_try_totp. wp_step. wp_step; [wp_step; by destruct (is_no_rows err)|]. wp_step.
  eapply wp_mono; [apply DecryptMFASecret_wp|]. cbv beta.
  intros o w1 [-> Ho]. destruct o as [[secret|]|]; [|by wp_step|by split].
  apply fetch_one_Ok in H as [Hin Hp].
  repeat wp_step; (split; [|by intros]); try done; simpl; (split; [by eapply PassedTotp|]);
    try done; by apply update_factors_frame in H as [? _].
Qed.

Lemma constantTimeEqual_true a b : constantTimeEqual a b = true → a = b.
Proof. unfold constantTimeEqual. destruct (negb _); [done|]. apply String.eqb_eq. Qed.

Lemma GetMFAOTPCode_wp channel purpose userID e w :
  wp (GetMFAOTPCode channel purpose userID) e (λ o w', w_db w' = w_db w ∧ ∀ m, o = Some (Ok m) →
      ∃ x, w_redis w !! mfaOTPCodeKey channel purpose userID = Some (ROTP m, x)) w.
Proof.
  unfold GetMFAOTPCode. repeat wp_step; (split; [done|]); intros m; try done.
  destruct v; [done|]. intros [= <-]. by apply rlookup_Some in H.
Qed.

Lemma mfa_try_email_wp uid userID code failed e w0 w :
  w_db w = w_db w0 → w_redis w = w_redis w0 →
  wp (mfa_try_email uid userID code failed) e (step_post e w0 uid userID code) w.
Proof.
  intros Hd Hr. unfold mfa_try_email. wp_step. wp_step; [wp_step; by destruct (is_no_rows err)|]. wp_step.
  eapply wp_mono; [apply GetMFAOTPCode_wp|]. cbv beta. intros [[m|]|] w1 [Hw1 Hm]; [| |done].
  2:{ wp_step. simpl in *. congruence. }
  destruct (Hm m eq_refl) as [x Hx]. apply fetch_one_Ok in H as [Hin Hp]. simpl in Hx. rewrite Hr in Hx.
  unfold DeleteMFAOTPCode, SaveMFAOTPCode.
  repeat wp_step; try done; simpl in *; try congruence; bool_to_prop;
    (assert (factor_passed e w0 uid userID code) as Hpass by
      (eapply (PassedEmail _ _ _ _ _ a m x (w_tick w1)); try done; [congruence|];
       symmetry; by apply constantTimeEqual_true));
    (split; [exact Hpass|]); try (rewrite <- Hd; apply update_factors_frame in H as [? _]);
    unfold same_accounts in *; simpl; rewrite ?Hw1, ?Hd in *; done.
Qed.

Lemma mfa_try_recovery_wp uid userID code failed e w0 w :
  w_db w = w_db w0 → wp (mfa_try_recovery code failed) e (step_post e w0 uid userID code) w.
Proof.
  intros Hd. unfold mfa_try_recovery. wp_step.
  apply wp_query; cbv beta iota; [intros err _; wp_step; by destruct (is_no_rows err)|].
  intros id H. unfold GetUnusedMFARecoveryCode in H. destruct (fetch_one _ _) as [r|] eqn:E; [|done].
  apply fetch_one_Ok in E as [Hin Hp]. bool_to_prop.
  assert (factor_passed e w0 uid userID code) as Hpass.
  { eapply (PassedRecovery _ _ _ _ _ r); [congruence|done|]. by destruct (rc_UsedAt r). }
  repeat wp_step; (split; [exact Hpass|]); simpl; unfold same_accounts; try (by rewrite Hd);
    unfold MarkMFARecoveryCodeUsed in *; simplify_eq/=; by rewrite Hd.
Qed.

Lemma mfa_authenticate_wp methods requested uid userID code e w :
  wp (mfa_authenticate methods requested uid userID code) e (step_post e w uid userID code) w.
Proof.
  unfold mfa_authenticate. wp_step.
  apply (wp_mono _ (λ o w', step_post e w uid userID code o w' ∧ ∀ f, o = Some (MGo false f) → w_redis w' = w_redis w)).
  { wp_step; [apply mfa_try_totp_wp|wp_step; by split]. }
  intros [[err|b f]|] w1 [H1 Hr]; [by wp_step| |done]. wp_step.
  destruct b; cbn [negb andb].
  { wp_step. by wp_step. }
  specialize (Hr f eq_refl). simpl in H1.
  apply (wp_mono _ (step_post e w uid userID code)).
  { wp_step; [by apply mfa_try_email_wp|by wp_step]. }
  intros [[err|[] f2]|] w2 H2; cbv beta iota; cbn [negb]; [by wp_step..| |done].
  by apply mfa_try_recovery_wp.
Qed.

Lemma mfa_finish_wp ctx uid cid e w :
  wp (mfa_finish ctx uid cid) e (λ o w', ∀ out, o = Some (Done out) →
      ∃ a u, a ∈ auth_identities (w_db w) ∧ u ∈ users (w_db w) ∧ ai_UserID a = Some (u_ID u) ∧ u_ID u = uid
        ∧ not_usable (u_DeletedAt u) (u_Status u) = false
        ∧ session_issued w' uid (lr_RefreshToken out)) w.
Proof.
  unfold mfa_finish. wp_step. apply wp_query; cbv beta iota; [intros ? ?; wp_walk|].
  intros row H. unfold GetEmailAuthByUserID in H. destruct (fetch_one _ _) as [[a u]|] eqn:E; [|done].
  injection H as <-. apply fetch_one_Ok in E as [(Ha & Hu & Ho)%elem_of_join Hp]. bool_to_prop.
  apply id_is_true in H0. injection H0 as ->. simpl ea_DeletedAt. wp_step; [wp_walk|]. wp_step. wp_skip; [|wp_absurd].
  eapply wp_mono; [apply issueLoginSession_wp|]. cbv beta. intros o w2 Hout out (_ & _ & _ & Hs)%Hout.
  by exists a, u.
Qed.

Lemma listEnabledMFAMethods_frame uid e w :
  wp (listEnabledMFAMethods uid) e (λ _ w', w_db w' = w_db w ∧ w_redis w' = w_redis w) w.
Proof. unfold listEnabledMFAMethods. repeat wp_step; done. Qed.

(** C11: the second step of a login succeeds only with a live challenge of the
    account the challenge names, while the account is usable, and with a factor
    that checks: a fresh TOTP code, the emailed code in time and under its
    guesses, or an unused recovery code; and then it issues the session. *)
Theorem VerifyMFALogin_success ctx token method code e w out :
  result (VerifyMFALogin ctx token method code) e w = Some (Done out) →
  ∃ userID cid uid u,
    temporary_grounds e w ("Bearer " ++ token) RoleMFAPending userID cid ∧ uuid_Parse userID = Some uid
    ∧ factor_passed e w uid userID (TrimSpace code)
    ∧ u ∈ users (w_db w) ∧ u_ID u = uid ∧ not_usable (u_DeletedAt u) (u_Status u) = false
    ∧ session_issued (final (VerifyMFALogin ctx token method code) e w) uid (lr_RefreshToken out).
Proof.
  to_wp. unfold VerifyMFALogin. wp_step. eapply wp_mono; [apply VerifyAndParseTemporaryJWT_wp|]. cbv beta.
  intros [[[userID cid]|]|] w1 (Hd1 & Hr1 & H1); [|wp_walk..]. specialize (H1 _ _ eq_refl).
  unfold parseUserID. destruct (uuid_Parse userID) as [uid|] eqn:Hid; [|wp_walk].
  wp_step. eapply wp_mono; [apply listEnabledMFAMethods_frame|]. cbv beta.
  intros [[ms|]|] w2 [Hd2 Hr2]; [|wp_walk..]. destruct ms as [|m0 ms]; [wp_walk|].
  wp_step; [wp_walk|]. wp_step. eapply wp_mono; [apply mfa_authenticate_wp|]. cbv beta.
  intros [[err|[] f]|] w3 H3; [wp_walk| |wp_dead|wp_walk].
  destruct H3 as [Hpass [Hu Hi]]. eapply wp_mono; [apply mfa_finish_wp|]. cbv beta.
  intros o w4 H ->. destruct (H _ eq_refl) as (a & u & Ha & Hin & Ho & Huid & Hok & Hs).
  exists userID, cid, uid, u. split_and!; try done.
  - eapply factor_passed_frame; [..|exact Hpass]; congruence.
  - congruence.
Qed.
End second_step.

(** ** Examples *)

Import Toy.

(** Ann and Bob both turn on the emailed code. *)
Definition bob : string := "bob@example.com".
Definition code_at (w : World) (k : string) : string :=
  match w_redis w !! k with Some (ROTP m, _) => otp_Code m | _ => "" end.

Definition w_bob1 : World := final (StartEmailVerification bob) env w_joined.
Definition w_bob2 : World := final (VerifyEmailCode bob (code_at w_bob1 ("email_code:" ++ bob))) env w_bob1.
Definition bob_join : Go (svc EmailJoinResult) :=
  CompleteEmailJoin (mkCtx None (Some bob) None None None None None) "bob" ann_password ann_password.
Definition w_bob : World := final bob_join env w_bob2.
Definition ann_id : string := uuid_String (u_ID (ann_user_in (w_db w_joined))).
Definition bob_id : string := ej_UserID (outcome (mkEmailJoinResult "" "" "" "") (result bob_join env w_bob2)).

Definition enroll (id : string) (w : World) : World :=
  let w1 := final (EnrollEmailMFA id) env w in
  final (VerifyEmailMFAEnrollment id (code_at w1 (mfaOTPCodeKey "email" "enroll" id))) env w1.
Definition w_mfa1 : World := enroll bob_id w_bob.
Definition w_mfa2 : World := final (EnrollEmailMFA ann_id) env w_mfa1.
Definition ann_enroll_code : string := code_at w_mfa2 (mfaOTPCodeKey "email" "enroll" ann_id).
Definition w_mfa : World := final (VerifyEmailMFAEnrollment ann_id ann_enroll_code) env w_mfa2.
Definition bob_recovery : string :=
  let w1 := final (EnrollEmailMFA bob_id) env w_bob in
  List.hd "" (outcome [] (result (VerifyEmailMFAEnrollment bob_id (code_at w1 (mfaOTPCodeKey "email" "enroll" bob_id))) env w1)).
Definition ann_challenged : LoginOutcome :=
  outcome (mkLoginOutcome "" "" "" "" false "" []) (result (Login.Login nobody ann ann_password) env w_mfa).
Definition w_challenged : World := final (Login.Login nobody ann ann_password) env w_mfa.
Definition w_sent : World := final (SendMFALoginCode (lr_MFAChallengeToken ann_challenged) "") env w_challenged.
Definition ann_login_code : string := code_at w_sent (mfaOTPCodeKey "email" "login" ann_id).
#[local] Abbreviation second_step :=
  (VerifyMFALogin nobody (lr_MFAChallengeToken ann_challenged) "" ann_login_code).
Definition ann_second : LoginOutcome :=
  outcome (mkLoginOutcome "" "" "" "" false "" []) (result second_step env w_sent).

Lemma mfa_wf : codes_wf (w_db w_mfa).
Proof.
  apply wf_codes. unfold w_mfa, w_mfa2, w_mfa1, enroll, w_bob, bob_join, w_bob2, w_bob1.
  do 2 (apply run_keeps_wf; [exact (VerifyEmailMFAEnrollment_in safe _ _)|];
        apply run_keeps_wf; [exact (EnrollEmailMFA_in safe _)|]).
  apply run_keeps_wf; [apply CompleteEmailJoin_in; tracked|].
  apply run_keeps_wf; [exact (VerifyEmailCode_in safe _ _)|].
  apply run_keeps_wf; [exact (StartEmailVerification_in safe _)|]. exact joined_wf.
Qed.

#[global] Opaque w_bob1 w_bob2 w_bob w_mfa1 w_mfa2 w_mfa w_challenged w_sent ann_id bob_id bob_recovery
  ann_challenged ann_enroll_code ann_login_code ann_second.

Lemma ann_second_runs : result second_step env w_sent = Some (Done ann_second).
Proof. by vm_compute. Qed.

Lemma VerifyMFALogin_success_witness :
  ∃ userID uid, uuid_Parse userID = Some uid ∧ factor_passed env w_sent uid userID (TrimSpace ann_login_code).
Proof.
  destruct (VerifyMFALogin_success nobody _ "" ann_login_code env w_sent ann_second ann_second_runs)
    as (userID & cid & uid & u & _ & H1 & H2 & _).
  exact (ex_intro _ userID (ex_intro _ uid (conj H1 H2))).
Defined.

Lemma env_full_reads : full_reads env.
Proof. intros k n s [= <-]. apply pad_length. Qed.

Definition sealed : string :=
  match result (EncryptMFASecret "seed") env w_joined with Some (Ok s) => s | _ => "" end.

Lemma sealed_runs : result (EncryptMFASecret "seed") env w_joined = Some (Ok sealed).
Proof. by vm_compute. Qed.

Lemma MFASecret_roundtrip_witness :
  result (DecryptMFASecret sealed) env w_mfa = Some (Ok "seed").
Proof.
  exact (MFASecret_roundtrip "seed" env w_joined sealed env w_mfa env_full_reads eq_refl sealed_runs).
Defined.

Lemma env_monotone n m : (n ≤ m)%nat → e_clock env n ≤ e_clock env m.
Proof. simpl. lia. Qed.

(** Ann's login code, tried five times. *)
Definition ann_check : code_check := CheckLogin (MkUUID ann_id) ann_id.
Definition login_meta : OTPMeta :=
  match w_redis w_sent !! mfaOTPCodeKey "email" "login" ann_id with
  | Some (ROTP m, _) => m | _ => mkOTPMeta "" 0 0 0 0 end.
#[local] Opaque login_meta.
Definition wrong_codes : list string := ["1"; "2"; "3"; "4"; "5"].

Lemma wrong_codes_wrong : Forall (wrong ann_check login_meta) wrong_codes.
Proof. repeat constructor; by vm_compute. Qed.
Lemma login_meta_stored :
  rlookup (w_redis w_sent) (e_clock env (w_tick w_sent)) (check_key ann_check) = Some (ROTP login_meta).
Proof. by vm_compute. Qed.
Lemma enough_guesses :
  otp_MaxAttempts login_meta - otp_Attempts login_meta ≤ Z.of_nat (length wrong_codes).
Proof. by vm_compute. Qed.
Lemma first_guess_right : result (guess ann_check ann_login_code) env w_sent = Some true.
Proof. by vm_compute. Qed.

Lemma MFA_code_guesses_bounded_witness :
  result (guess ann_check ann_login_code) env w_sent = Some true
  ∧ result (guess ann_check ann_login_code) env (final (for_each (guess ann_check) wrong_codes) env w_sent) = Some false.
Proof.
  split; [exact first_guess_right|].
  exact (MFA_code_guesses_bounded env env_quiet env_monotone ann_check login_meta
           wrong_codes w_sent ann_login_code login_meta_stored wrong_codes_wrong enough_guesses).
Defined.

Lemma recovery_code_single_use_witness :
  result (mfa_try_recovery bob_recovery None) env w_mfa = Some (MGo true None)
  ∧ result (mfa_try_recovery bob_recovery None) env (final (mfa_try_recovery bob_recovery None) env w_mfa)
    ≠ Some (MGo true None).
Proof.
  assert (result (mfa_try_recovery bob_recovery None) env w_mfa = Some (MGo true None)) as H by (by vm_compute).
  exact (conj H (recovery_code_single_use bob_recovery None env w_mfa None None env None env_quiet mfa_wf H)).
Defined.

(** A recovery code of one account completes the login of another: the lookup is
    by the code's hash only. *)
Example recovery_code_crosses_accounts :
  bob_id ≠ ann_id
  ∧ ∃ out, result (VerifyMFALogin nobody (lr_MFAChallengeToken ann_challenged) "" bob_recovery) env w_challenged
           = Some (Done out) ∧ lr_UserID out = ann_id ∧ lr_AccessToken out ≠ "".
Proof.
  split; [by vm_compute|].
  exists (outcome (mkLoginOutcome "" "" "" "" false "" [])
    (result (VerifyMFALogin nobody (lr_MFAChallengeToken ann_challenged) "" bob_recovery) env w_challenged)).
  split; [by vm_compute|]. split; by vm_compute.
Qed.
