(* ===== verification/PasswordSpec.v ===== *)
(** * What password hashing, reset and change promise *)

From S2P Require Import Prelude.
From S2P Require Import GoLib.
From S2P Require Import Encoding.
From S2P Require Import Utils.
From S2P Require Import Model.
From S2P Require Import Runtime.
From S2P Require Import Logic.
From S2P Require Import Queries.
From S2P Require Import Store.
From S2P Require Import Password.
From S2P Require Import Tokens.
From S2P Require Import Emails.
From S2P Require Import Codes.
From S2P Require Import Signup.
From S2P Require Import Mfa.
From S2P Require Import PasswordFlows.
From S2P Require Import Frames.
From S2P Require Import LoginSpec.
From S2P Require Import Toy.
From S2P Require Import Requests.
From S2P Require Import Scenes.

#[local] Open Scope string_scope.
#[local] Open Scope Z_scope.
#[local] Open Scope go_scope.

(** ** Hashing *)

Section hashing.
Context `{HL : HashLib} `{HLaws : !HashLaws HL}.

Lemma ShouldRehash_format pm id salt key :
  safe_pepper_id id = true → ActiveID pm = id →
  ShouldRehash (format_phc argonMemory argonTime argonThreads id salt key) pm = false.
Proof.
  intros Hid Ha. unfold ShouldRehash. rewrite split_phc by (unfold safe_pepper_id in Hid; by bool_to_prop).
  rewrite scan_params_text by done. cbn. by rewrite Ha, String.eqb_refl.
Qed.

(** C19: a password hash verifies the password it was made from, with one Argon2id
    evaluation, and needs no rehash; any other password it accepts is an
    Argon2id collision. *)
Theorem HashPasswordPHC_verifies password e w phc :
  result (HashPasswordPHC password) e w = Some (Ok phc) → safe_pepper_id (cfg_ActivePepperID (e_cfg e)) = true →
  ∃ pep salt, ∀ e' w' other b, e_cfg e' = e_cfg e →
    result (VerifyPasswordPHC other phc b) e' w'
      = Some (Ok (String.eqb (argon2_IDKey (other ++ pep) salt argonTime argonMemory argonThreads keyLen)
                             (argon2_IDKey (password ++ pep) salt argonTime argonMemory argonThreads keyLen)))
    ∧ w_argon (final (VerifyPasswordPHC other phc b) e' w') = S (w_argon w')
    ∧ result (ShouldRehashActive phc) e' w' = Some (Ok false).
Proof.
  intros (pm & pep & salt & Hpm & Hpep & _ & _ & ->)%HashPasswordPHC_Ok Hid.
  destruct (NewStaticPepperManager_active _ _ _ Hpm) as (Hact & pep' & Hpep').
  exists pep, salt. intros e' w' other b He.
  assert (GetPepper (ActiveID pm) pm = Some pep) as Hget.
  { unfold ActivePepper in Hpep. unfold GetPepper, ActiveID in *. destruct (_ !! _); by simplify_eq/=. }
  assert (safe_pepper_id (ActiveID pm) = true) as Hid' by (unfold ActiveID; by rewrite Hact).
  unfold result, final. rewrite VerifyPasswordPHC_spec, He.
  erewrite phc_check_format by done. rewrite argon2_length, N2Nat.id. cbn [fst snd].
  split_and!; [done|by rewrite burn_n_argon|].
  unfold ShouldRehashActive, ActivePepperManager, bind, get_cfg, ret. rewrite He, Hpm. cbn [fst].
  by rewrite ShouldRehash_format.
Qed.
End hashing.

(** ** Reset *)

Section reset.
Context `{TL : TextLib} `{UL : UuidLib} `{HL : HashLib}.

(** A hash the service made from [password] under [e]. *)
Definition hash_of (e : Env) (password phc : string) : Prop :=
  ∃ w, result (HashPasswordPHC password) e w = Some (Ok phc).

(** The store after a reset that used [token] and set [password]. *)
Definition reset_applied (e : Env) (d d' : DB) (token password : string) : Prop :=
  ∃ r a u phc,
    r ∈ password_resets d ∧ pr_ResetToken r = HashOpaqueToken token ∧ pr_UsedAt r = None
    ∧ a ∈ auth_identities d ∧ ai_Provider a = ProviderNameEmail ∧ ai_UserID a = Some (u_ID u)
    ∧ u ∈ users d ∧ pr_UserID r = Some (u_ID u) ∧ not_usable (u_DeletedAt u) (u_Status u) = false
    ∧ hash_of e password phc
    ∧ set_ai_PasswordHash (Some phc) a ∈ auth_identities d'
    ∧ (∃ t, password_resets d' = update (id_is pr_ID (Some (pr_ID r))) (set_pr_UsedAt (Some t)) (password_resets d))
    ∧ (∃ t, sessions d' = update (active_session_of (Some (u_ID u))) (revoke_at t) (sessions d))
    ∧ users d' = users d.

Lemma GetEmailAuthByUserID_Ok uid c d row :
  GetEmailAuthByUserID uid c d = Ok row →
  ∃ a u, a ∈ auth_identities d ∧ u ∈ users d ∧ ai_UserID a = Some (u_ID u) ∧ ai_Provider a = ProviderNameEmail
    ∧ uid = Some (u_ID u) ∧ row = email_auth_row (a, u).
Proof.
  unfold GetEmailAuthByUserID. destruct (fetch_one _ _) as [[a u]|] eqn:E; [|done]. intros [= <-].
  apply fetch_one_Ok in E as [(?&?&?)%elem_of_join ?]. bool_to_prop. apply id_is_true in H3. by exists a, u.
Qed.

Lemma update_resets_frame p f c d x d' :
  update_resets p f c d = (Ok x, d') →
  password_resets d' = update p f (password_resets d) ∧ auth_identities d' = auth_identities d
  ∧ users d' = users d ∧ sessions d' = sessions d.
Proof. unfold update_resets. destruct (trigger_rows _ _ _ _); [|done]. by intros [= _ <-]. Qed.

Lemma update_identities_resets p f c d x d' :
  update_identities p f c d = (Ok x, d') → password_resets d' = password_resets d.
Proof. unfold update_identities. destruct (trigger_rows _ _ _ _); [|done]. by intros [= _ <-]. Qed.

Lemma UpdatePasswordHash_Ok hash id c d x d' :
  UpdatePasswordHash hash id c d = (Ok x, d') →
  auth_identities d' = update (id_is ai_ID (Some id)) (set_ai_PasswordHash hash) (auth_identities d)
  ∧ users d' = users d ∧ sessions d' = sessions d ∧ password_resets d' = password_resets d.
Proof.
  unfold UpdatePasswordHash. destruct (List.forallb _ _); [|done]. intros H.
  pose proof (update_identities_resets _ _ _ _ _ _ H). apply update_identities_frame in H as (?&?&?&?). done.
Qed.

Lemma CompletePasswordReset_wp rid iid uid phc e w :
  wp (CompletePasswordReset rid iid uid phc) e (λ o w', 
      let applied d' := auth_identities d' = update (id_is ai_ID (Some iid)) (set_ai_PasswordHash (Some phc)) (auth_identities (w_db w))
        ∧ (∃ t, password_resets d' = update (id_is pr_ID (Some rid)) (set_pr_UsedAt (Some t)) (password_resets (w_db w)))
        ∧ (∃ t, sessions d' = update (active_session_of uid) (revoke_at t) (sessions (w_db w)))
        ∧ users d' = users (w_db w) in
      match o with Some (Ok _) => applied (w_db w') | _ => w_db w' = w_db w ∨ applied (w_db w') end) w.
Proof.
  unfold CompletePasswordReset. apply wp_WithTx; [by left|].
  wp_step. wp_step; [wp_step; by left| |wp_step; by left]. wp_step. wp_step; [wp_step; by left| |wp_step; by left].
  apply update_resets_frame in H as (H1 & H2 & H3 & H4).
  apply UpdatePasswordHash_Ok in H0 as (H5 & H6 & H7 & H8). simpl in *.
  wp_step; [by left| |by left].
  injection H as _ <-. simpl. rewrite H5, H6, H7, H8, H1, H2, H3, H4. split; [|right]; eauto 10.
Qed.

Lemma HashPasswordPHC_wp password e w :
  wp (HashPasswordPHC password) e (λ o w', w_db w' = w_db w ∧ ∀ phc, o = Some (Ok phc) → hash_of e password phc) w.
Proof.
  split; [symmetry; by apply (HashPasswordPHC_db eq)|]. intros phc H. by exists w.
Qed.

Lemma for_each_DeleteSession_db (f : uuid → Go (res unit)) ids e w (Q : option unit → World → Prop) :
  (∀ id, db_tracks eq (f id)) → (∀ o w', w_db w' = w_db w → Q o w') → wp (for_each f ids) e Q w.
Proof.
  intros Hf H. apply (wp_db_tracks eq); [apply db_tracks_for_each; [typeclasses eauto|done]|].
  intros o w' Hw. by apply H.
Qed.

Definition reset_post (e : Env) (d : DB) (raw new confirm : string) (o : option (svc unit)) (d' : DB) : Prop :=
  (d' = d ∨ reset_applied e d d' (TrimSpace raw) new)
  ∧ (o = Some (Done ()) → reset_applied e d d' (TrimSpace raw) new ∧ IsValidPassword new = true ∧ confirm = new).

Lemma ResetPassword_wp raw new confirm e w :
  wp (ResetPassword raw new confirm) e (λ o w', reset_post e (w_db w) raw new confirm o (w_db w')) w.
Proof.
  unfold reset_post.
  unfold ResetPassword. do 3 (wp_step; [wp_step; by split; [left|]|]). bool_to_prop. subst confirm.
  wp_step. wp_step; [wp_step; by split; [left|]|]. wp_step. wp_step; [wp_step; by split; [left|]|].
  wp_step; [wp_step; by split; [left|]|]. wp_step.
  eapply wp_mono; [apply HashPasswordPHC_wp|]. cbv beta. intros [[phc|]|] w1 [Hw1 Hphc];
    [|wp_step; by split; [left|]|by split; [left|]].
  specialize (Hphc _ eq_refl). wp_step. wp_frame; [|split; [left; simpl in *; congruence|done]].
  assert (w_db w = w_db w') as Hw by (simpl in *; congruence).
  apply fetch_one_Ok in H as [Hr Ha]. unfold active_reset in Ha. bool_to_prop.
  apply GetEmailAuthByUserID_Ok in H0 as (au & u & Hau & Hu & Ho & Hp & Huid & ->). simpl in Heqb1, Hau, Hu.
  wp_step. eapply wp_mono; [apply CompletePasswordReset_wp|]. cbv beta zeta. rewrite <- Hw.
  intros o w2 Hpost.
  assert (∀ d', auth_identities d' = update (id_is ai_ID (Some (ai_ID au))) (set_ai_PasswordHash (Some phc)) (auth_identities (w_db w))
    ∧ (∃ t, password_resets d' = update (id_is pr_ID (Some (pr_ID a))) (set_pr_UsedAt (Some t)) (password_resets (w_db w)))
    ∧ (∃ t, sessions d' = update (active_session_of (pr_UserID a)) (revoke_at t) (sessions (w_db w)))
    ∧ users d' = users (w_db w) → reset_applied e (w_db w) d' (TrimSpace raw) new) as Happ.
  { intros d' (H1' & H2' & H3' & H4'). exists a, au, u, phc. rewrite H1'. rewrite Huid in *.
    split_and!; try done; [by destruct (pr_UsedAt a)|exact (updated_identity _ _ _ Hau)]. }
  destruct o as [[[]|err]|].
  - wp_step. apply for_each_DeleteSession_db; [intros; apply (DeleteSession_db eq); typeclasses eauto|].
    intros [[]|] w3 Hw3; [wp_step|]; rewrite Hw3; (split; [right|]); auto.
  - wp_step. split; [|done]. destruct Hpost as [->|?]; auto.
  - split; [|done]. destruct Hpost as [->|?]; auto.
Qed.

(** C14: a password reset is all or nothing: whatever fails and wherever, the store
    is as before, or the token was unused and is now used, its account's password
    is the new one and all sessions of the account are revoked.  A success means
    the latter, with a valid password typed twice. *)
Theorem ResetPassword_all_or_nothing raw new confirm e w :
  let d' := w_db (final (ResetPassword raw new confirm) e w) in
  (d' = w_db w ∨ reset_applied e (w_db w) d' (TrimSpace raw) new)
  ∧ (result (ResetPassword raw new confirm) e w = Some (Done ()) →
     reset_applied e (w_db w) d' (TrimSpace raw) new ∧ IsValidPassword new = true ∧ confirm = new).
Proof. exact (ResetPassword_wp raw new confirm e w). Qed.

(** Every reset with this token has been used. *)
Definition token_spent (token : string) (d : DB) : Prop :=
  ∀ r, r ∈ password_resets d → pr_ResetToken r = HashOpaqueToken token → is_valid (pr_UsedAt r) = true.

Lemma reset_applied_spends e d d' token password :
  NoDup (keys pr_ResetToken (password_resets d)) → reset_applied e d d' token password → token_spent token d'.
Proof.
  intros Hnd (r & a & u & phc & Hr & Ht & _ & _ & _ & _ & _ & _ & _ & _ & _ & (t & Hupd) & _) r' Hr' Ht'.
  rewrite Hupd in Hr'. apply elem_of_update in Hr' as (r0 & Hr0 & ->). unfold id_is in *.
  destruct (sql_eq _ _) eqn:E; [done|].
  assert (r0 = r) as -> by (eapply (NoDup_proj_eq pr_ResetToken); eauto; congruence).
  by rewrite sql_eq_refl in E.
Qed.

Lemma ResetPassword_spent raw new confirm e w :
  token_spent (TrimSpace raw) (w_db w) → result (ResetPassword raw new confirm) e w ≠ Some (Done ()).
Proof.
  intros Hs. to_wp. unfold ResetPassword. do 3 (wp_step; [wp_walk|]). wp_step. wp_step; [wp_walk|].
  exfalso. apply fetch_one_Ok in H as [Hr Ha]. unfold active_reset in Ha. bool_to_prop.
  rewrite (Hs a Hr) in *; done.
Qed.

(** A reset token works once: after a reset that succeeded with it, it is
    refused. *)
Lemma ResetPassword_single_use raw new confirm e w new' confirm' e' :
  NoDup (keys pr_ResetToken (password_resets (w_db w))) →
  result (ResetPassword raw new confirm) e w = Some (Done ()) →
  result (ResetPassword raw new' confirm') e' (final (ResetPassword raw new confirm) e w) ≠ Some (Done ()).
Proof.
  intros Hnd Hdone. apply ResetPassword_spent.
  eapply reset_applied_spends; [exact Hnd|]. by apply (ResetPassword_wp raw new confirm e w).
Qed.

(** ** Asking for a reset tells nothing *)

Lemma RandomToken_quiet n e w (Q : option (res string) → World → Prop) :
  (∀ k m, is_Some (e_rand_read e k m)) → (∀ tok, Q (Some (Ok tok)) (tick w)) → wp (RandomToken n) e Q w.
Proof.
  intros Hr H. unfold RandomToken. wp_step. unfold wp, rand_read. destruct (Hr (w_tick w) n) as [s ->]. apply H.
Qed.

(** A mail to [to_] whose page shows the token of a reset that is stored, by its
    hash only, and links to it where a reset page is configured. *)
Definition carries_reset (e : Env) (d : DB) (to_ : string) (m : Email) : Prop :=
  mail_To m = to_ ∧ ∃ tok link minutes,
    RenderPasswordResetHTML (mkPasswordResetTemplateData tok link minutes) = Ok (mail_Html m)
    ∧ link = (if String.eqb (cfg_PasswordResetURL (e_cfg e)) "" then "" else cfg_PasswordResetURL (e_cfg e) ++ "?token=" ++ tok)
    ∧ ∃ r, r ∈ password_resets d ∧ pr_ResetToken r = HashOpaqueToken tok ∧ pr_UsedAt r = None.

Lemma send_reset_quiet u to_ source e w :
  no_faults e → (∀ k m, is_Some (e_rand_read e k m)) → u ∈ users (w_db w) →
  (∀ k r, r ∈ password_resets (w_db w) → pr_ID r ≠ e_gen_uuid e k 0) →
  wp (send_reset (Some (u_ID u)) to_ source) e (λ o w', o = Some (Done ())
    ∧ ∃ m, w_mail w' = m :: w_mail w ∧ carries_reset e (w_db w') to_ m) w.
Proof.
  intros Hf Hr Hu Hfresh. unfold send_reset. wp_step. apply RandomToken_quiet; [done|]. intros tok. cbv beta iota.
  do 5 wp_step. eapply (quiet_stmt _ Hf).
  { unfold run_stmt, CreatePasswordReset. cbv zeta.
    assert (exists_row (λ x, bool_decide (pr_ID x = s_gen (sctx e (tick (tick w))) 0)) (password_resets (w_db w)) = false) as H1.
    { apply exists_row_false. intros r Hin. apply bool_decide_eq_false. unfold sctx. simpl.
      destruct (w_tx w); simpl; by apply Hfresh. }
    assert (user_exists (Some (u_ID u)) (w_db w) = true) as H2.
    { apply exists_row_true. exists u. by rewrite bool_decide_eq_true. }
    cbn [pr_ID]. change (w_db (tick (tick w))) with (w_db w). rewrite H1, H2. reflexivity. }
  cbv beta iota. wp_step. unfold SendPasswordResetEmail. wp_step. wp_step. cbv zeta.
  rewrite RenderPasswordResetHTML_shows.
  apply (quiet_send_mail _ Hf). cbv beta iota. wp_step. split; [done|]. eexists. split; [reflexivity|].
  split; [done|]. do 3 eexists. split; [apply RenderPasswordResetHTML_shows|]. split; [reflexivity|].
  cbn [w_db password_resets tick set_w_mail set_w_db set_password_resets]. eexists.
  split; [apply elem_of_app; right; by apply list_elem_of_singleton|done].
Qed.

(** C20: asking for a password reset answers the same whether or not the email has
    an account, whatever its state and however recently it asked: success; and
    the only mail sent goes to the address of the request and shows, escaped, the
    token of a reset that is stored by its hash. *)
Theorem RequestPasswordReset_uniform email source e w :
  no_faults e → (∀ k m, is_Some (e_rand_read e k m)) →
  (∀ k r, r ∈ password_resets (w_db w) → pr_ID r ≠ e_gen_uuid e k 0) →
  IsValidEmail (email_key email) = true → is_Some (parsePasswordResetSource source) →
  result (RequestPasswordReset email source) e w = Some (Done ())
  ∧ (w_mail (final (RequestPasswordReset email source) e w) = w_mail w
     ∨ ∃ m, w_mail (final (RequestPasswordReset email source) e w) = m :: w_mail w
         ∧ carries_reset e (w_db (final (RequestPasswordReset email source) e w)) (email_key email) m).
Proof.
  intros Hf Hr Hfresh Hmail [src Hsrc].
  enough (wp (RequestPasswordReset email source) e (λ o w', o = Some (Done ())
    ∧ (w_mail w' = w_mail w ∨ ∃ m, w_mail w' = m :: w_mail w ∧ carries_reset e (w_db w') (email_key email) m)) w) as H by exact H.
  unfold RequestPasswordReset. unfold email_key in *. rewrite Hmail, Hsrc. cbv beta iota delta [negb].
  wp_step. apply (quiet_query _ Hf). cbv beta.
  destruct (GetEmailAuthByEmail _ _ _) as [row|err] eqn:E.
  2:{ assert (err = ErrNoRows) as ->.
      { unfold GetEmailAuthByEmail in E. destruct (fetch_one _ _) eqn:E2; [done|].
        apply fetch_one_Err in E2 as [-> _]. by injection E as <-. }
      cbv beta iota. wp_step. by split; [|left]. }
  apply GetEmailAuthByEmail_Ok in E as (a & u & Hsi & ->). wp_step; [wp_step; by split; [|left]|].
  wp_step. apply (quiet_query _ Hf). cbv beta iota. wp_step.
  apply (wp_mono _ (λ o w', (∃ b, o = Some b) ∧ w_db w' = w_db w ∧ w_mail w' = w_mail w)).
  { repeat wp_step; eauto. }
  intros o w1 ([b ->] & Hd & Hm). cbv beta iota. wp_step; [wp_step; by split; [|left]|].
  destruct Hsi as [_ Hu _ _ _]. simpl ea_UserID.
  eapply wp_mono; [apply send_reset_quiet; try done; rewrite Hd; done|]. cbv beta. rewrite Hm.
  intros o w2 [-> Hm2]. auto.
Qed.

(** ** Change *)

(** The store after user [uid], signed in with session [sid], changed the password
    from [current] to [new]. *)
Definition change_applied (e : Env) (d d' : DB) (uid sid : uuid) (current new : string) : Prop :=
  ∃ a u phc,
    a ∈ auth_identities d ∧ ai_Provider a = ProviderNameEmail ∧ ai_UserID a = Some uid
    ∧ u ∈ users d ∧ u_ID u = uid ∧ not_usable (u_DeletedAt u) (u_Status u) = false
    ∧ (phc_check (e_cfg e) current (text_String (ai_PasswordHash a)) true).1 = Ok true
    ∧ (phc_check (e_cfg e) new (text_String (ai_PasswordHash a)) true).1 ≠ Ok true
    ∧ hash_of e new phc
    ∧ set_ai_PasswordHash (Some phc) a ∈ auth_identities d'
    ∧ (∃ t, sessions d' = update (λ s, active_session_of (Some uid) s && sql_ne (Some (se_ID s)) (Some sid))
                            (revoke_at t) (sessions d))
    ∧ users d' = users d.

Lemma CompletePasswordChange_wp iid uid sid phc e w :
  wp (CompletePasswordChange iid uid sid phc) e (λ o w',
      let applied d' := auth_identities d' = update (id_is ai_ID (Some iid)) (set_ai_PasswordHash (Some phc)) (auth_identities (w_db w))
        ∧ (∃ t, sessions d' = update (λ s, active_session_of (Some uid) s && sql_ne (Some (se_ID s)) (Some sid))
                                (revoke_at t) (sessions (w_db w)))
        ∧ users d' = users (w_db w) in
      match o with Some (Ok _) => applied (w_db w') | _ => w_db w' = w_db w ∨ applied (w_db w') end) w.
Proof.
  unfold CompletePasswordChange. apply wp_WithTx; [by left|].
  wp_step. wp_step; [wp_step; by left| |wp_step; by left].
  apply UpdatePasswordHash_Ok in H as (H5 & H6 & H7 & _). simpl in *.
  wp_step; [by left| |by left].
  injection H as _ <-. simpl. rewrite H5, H6, H7. split; [|right]; eauto 10.
Qed.

(** C15: a password change is all or nothing, too; it succeeds only for the current
    password and a different new one, and it signs out every session of the
    account except the one that asked. *)
Theorem ChangePassword_all_or_nothing userID sessionID current new confirm e w :
  let d' := w_db (final (ChangePassword userID sessionID current new confirm) e w) in
  (d' = w_db w ∨ ∃ uid sid, uuid_Parse userID = Some uid ∧ uuid_Parse sessionID = Some sid
                            ∧ change_applied e (w_db w) d' uid sid current new)
  ∧ (result (ChangePassword userID sessionID current new confirm) e w = Some (Done ()) →
     ∃ uid sid, uuid_Parse userID = Some uid ∧ uuid_Parse sessionID = Some sid
                ∧ change_applied e (w_db w) d' uid sid current new).
Proof.
  cbv zeta. enough (wp (ChangePassword userID sessionID current new confirm) e (λ o w',
    let app := ∃ uid sid, uuid_Parse userID = Some uid ∧ uuid_Parse sessionID = Some sid
                 ∧ change_applied e (w_db w) (w_db w') uid sid current new in
    (w_db w' = w_db w ∨ app) ∧ (o = Some (Done ()) → app)) w) as H by exact H. cbv zeta.
  unfold ChangePassword, parseUserID. do 2 (wp_step; [wp_step; by split; [left|]|]).
  destruct (uuid_Parse userID) as [uid|]; [|wp_step; by split; [left|]].
  destruct (uuid_Parse sessionID) as [sid|]; [|wp_step; by split; [left|]].
  wp_step. wp_step; [wp_step; by split; [left|]|]. wp_step; [wp_step; by split; [left|]|].
  apply GetEmailAuthByUserID_Ok in H as (au & u & Ha & Hu & Ho & Hp & Huid & ->). injection Huid as ->.
  simpl in Heqb1. wp_step. apply VerifyPasswordPHC_wp. cbv beta iota.
  destruct (phc_check _ current _ _) as [[[]|] n1] eqn:E1; cbn [fst snd]; [|wp_step; by rewrite burn_n_eq; split; [left|]..].
  wp_step. apply VerifyPasswordPHC_wp. cbv beta iota.
  destruct (phc_check _ new _ _) as [r2 n2] eqn:E2; cbn [fst snd]. rewrite !burn_n_eq.
  wp_step; [wp_step; by split; [left|]|]. bool_to_prop. wp_step.
  eapply wp_mono; [apply HashPasswordPHC_wp|]. cbv beta. intros [[phc|]|] w1 [Hw1 Hphc];
    [|wp_step; by split; [left|]|by split; [left|]].
  specialize (Hphc _ eq_refl). wp_step. wp_frame; [|split; [left; simpl in *; congruence|done]].
  assert (w_db w = w_db w') as Hw by (simpl in *; congruence).
  wp_step. eapply wp_mono; [apply CompletePasswordChange_wp|]. cbv beta zeta. rewrite <- Hw.
  intros o w2 Hpost.
  assert (∀ d', auth_identities d' = update (id_is ai_ID (Some (ai_ID au))) (set_ai_PasswordHash (Some phc)) (auth_identities (w_db w))
    ∧ (∃ t, sessions d' = update (λ s, active_session_of (Some (u_ID u)) s && sql_ne (Some (se_ID s)) (Some sid))
                            (revoke_at t) (sessions (w_db w)))
    ∧ users d' = users (w_db w) → change_applied e (w_db w) d' (u_ID u) sid current new) as Happ.
  { intros d' (H1' & H3' & H4'). exists au, u, phc. rewrite H1'. simpl in E1, E2. rewrite E1, E2.
    split_and!; try done. exact (updated_identity _ _ _ Ha). }
  destruct o as [[[]|err]|].
  - wp_step. apply for_each_DeleteSession_db.
    { intros id. destruct (String.eqb _ _); [apply db_tracks_ret; typeclasses eauto|apply (DeleteSession_db eq); typeclasses eauto]. }
    intros [[]|] w3 Hw3; [wp_step|]; rewrite Hw3; (split; [right|]); eauto 10.
  - wp_step. split; [|done]. destruct Hpost as [->|?]; eauto 10.
  - split; [|done]. destruct Hpost as [->|?]; eauto 10.
Qed.
End reset.

(** ** Examples *)

Import Toy.

Definition new_password : string := "a brand new password".
Definition some_phc : string :=
  match result (HashPasswordPHC new_password) env w_joined with Some (Ok phc) => phc | _ => "" end.
#[local] Opaque some_phc.
Lemma some_phc_made : result (HashPasswordPHC new_password) env w_joined = Some (Ok some_phc).
Proof. by vm_compute. Qed.

Lemma HashPasswordPHC_verifies_witness :
  ∃ pep salt : string, ∀ other,
    result (VerifyPasswordPHC other some_phc false) env w_in
    = Some (Ok (String.eqb (argon2_IDKey (other ++ pep) salt argonTime argonMemory argonThreads keyLen)
                           (argon2_IDKey (new_password ++ pep) salt argonTime argonMemory argonThreads keyLen))).
Proof.
  destruct (HashPasswordPHC_verifies new_password env w_joined some_phc some_phc_made eq_refl) as (pep & salt & H).
  exact (ex_intro _ pep (ex_intro _ salt (λ other, proj1 (H env w_in other false eq_refl)))).
Defined.

Definition w_asked : World := final (RequestPasswordReset ann "web") env w_joined.
Definition reset_token : string :=
  match w_mail w_asked with m :: _ => TrimPrefix (mail_Text m) "Your password reset code is: " | [] => "" end.
Definition w_reset : World := final (ResetPassword reset_token new_password new_password) env w_asked.
#[local] Opaque w_asked reset_token w_reset.

Lemma asked_tokens : NoDup (keys pr_ResetToken (password_resets (w_db w_asked))).
Proof.
  assert (keys pr_ResetToken (password_resets (w_db w_asked)) = [HashOpaqueToken reset_token]) as -> by (by vm_compute).
  apply NoDup_singleton.
Qed.
Lemma reset_done : result (ResetPassword reset_token new_password new_password) env w_asked = Some (Done ()).
Proof. by vm_compute. Qed.

Lemma ResetPassword_single_use_witness :
  result (ResetPassword reset_token new_password new_password) env w_asked = Some (Done ())
  ∧ result (ResetPassword reset_token ann_password ann_password) env
      (final (ResetPassword reset_token new_password new_password) env w_asked) ≠ Some (Done ()).
Proof.
  split; [exact reset_done|].
  exact (ResetPassword_single_use reset_token new_password new_password env w_asked ann_password ann_password
           env asked_tokens reset_done).
Defined.

Lemma env_reads k m : is_Some (e_rand_read env k m).
Proof. by eexists. Qed.
Lemma joined_no_resets k r : r ∈ password_resets (w_db w_joined) → pr_ID r ≠ e_gen_uuid env k 0.
Proof.
  assert (password_resets (w_db w_joined) = []) as -> by (by vm_compute). intros H. by apply not_elem_of_nil in H.
Qed.
Lemma ann_email_ok : IsValidEmail (email_key ann) = true.
Proof. by vm_compute. Qed.
Lemma web_source : is_Some (parsePasswordResetSource "web").
Proof. eexists. by vm_compute. Qed.

Lemma RequestPasswordReset_uniform_witness :
  result (RequestPasswordReset ann "web") env w_joined = Some (Done ()).
Proof.
  exact (proj1 (RequestPasswordReset_uniform ann "web" env w_joined env_quiet env_reads joined_no_resets
                  ann_email_ok web_source)).
Defined.
