(* ===== verification/AdminSpec.v ===== *)
(** * What the admin API promises *)

From S2P Require Import Prelude.
From S2P Require Import GoLib.
From S2P Require Import Utils.
From S2P Require Import Model.
From S2P Require Import Runtime.
From S2P Require Import Logic.
From S2P Require Import Queries.
From S2P Require Import Store.
From S2P Require Import Password.
From S2P Require Import Tokens.
From S2P Require Import Codes.
From S2P Require Import Mfa.
From S2P Require Import PasswordFlows.
From S2P Require Import Session.
From S2P Require Import Sso.
From S2P Require Import Admin.
From S2P Require Import Frames.
From S2P Require Import Toy.
From S2P Require Import Requests.
From S2P Require Import Scenes.
From S2P Require Import SessionSpec.

#[local] Open Scope string_scope.
#[local] Open Scope Z_scope.
#[local] Open Scope go_scope.

Section admin.
Context `{TL : TextLib} `{UL : UuidLib} `{HL : HashLib} `{CL : TimeLib}.

(** ** The actions *)

(** What an admin or a moderator can do to an account, by handler. *)
Inductive admin_kind :=
  | KBan (reason : string)
  | KUnban (reason : string)
  | KDisable (reason : string)
  | KEnable (reason : string)
  | KForceLogout (reason : string)
  | KRole (newRole : string)
  | KDelete (reason : string)
  | KResetPassword.

Definition admin_action (ctx : Ctx) (actorID actorUsername target : string) (k : admin_kind) : Go (svc unit) :=
  match k with
  | KBan reason => BanUser ctx actorID actorUsername target reason
  | KUnban reason => UnbanUser ctx actorID actorUsername target reason
  | KDisable reason => DisableUser ctx actorID actorUsername target reason
  | KEnable reason => EnableUser ctx actorID actorUsername target reason
  | KForceLogout reason => ForceLogoutUser ctx actorID actorUsername target reason
  | KRole newRole => ChangeUserRole ctx actorID actorUsername target newRole
  | KDelete reason => DeleteUser ctx actorID actorUsername target reason
  | KResetPassword => AdminResetUserPassword ctx actorID actorUsername target
  end.

(** Its effect on the account's row, at database time [t]. *)
Definition row_effect (k : admin_kind) (t : Z) (u : User) : User :=
  match k with
  | KBan _ => set_u_Status (Some UserStatusBanned) u
  | KUnban _ | KEnable _ => set_u_Status (Some UserStatusActive) u
  | KDisable _ => set_u_Status (Some UserStatusDisabled) u
  | KForceLogout _ | KResetPassword => u
  | KRole s => match parseUserRole s with Some r => set_u_Role r u | None => u end
  | KDelete _ => set_u_DeletedAt (Some t) u
  end.

Definition signs_out (k : admin_kind) : bool :=
  match k with KBan _ | KDisable _ | KForceLogout _ | KDelete _ => true | _ => false end.

Definition audit_action (k : admin_kind) : AuditAction :=
  match k with
  | KBan _ => AuditActionUserBan
  | KUnban _ => AuditActionUserUnban
  | KDisable _ | KEnable _ => AuditActionChangeStatus
  | KForceLogout _ | KResetPassword => AuditActionAdminNote
  | KRole _ => AuditActionChangeRole
  | KDelete _ => AuditActionUserDeleted
  end.

(** The store after action [k] on account [pg]: its row and sessions, and an audit
    row of the action on top of the ones the triggers wrote. *)
Record admin_applied (actorID : string) (k : admin_kind) (pg : uuid) (d d' : DB) : Prop := mkAdminApplied {
  aa_users : ∃ t, users d' = update (undeleted_user (Some pg)) (row_effect k t) (users d);
  aa_sessions : ∃ t, sessions d' =
    if signs_out k then update (active_session_of (Some pg)) (revoke_at t) (sessions d) else sessions d;
  aa_audit : ∃ row triggered, audit_logs d' = (row :: triggered ++ audit_logs d)%list
    ∧ al_ActorID row = parseUserID actorID ∧ al_TargetUserID row = Some pg ∧ al_Action row = audit_action k
}.

(** The store after a reset link was made for account [pg]: one more reset request,
    with or without the audit row, which is written on a best-effort basis and not
    in one transaction with the request. *)
Definition reset_link (actorID : string) (pg : uuid) (d d' : DB) : Prop :=
  ∃ row l, d' = set_audit_logs (l ++ audit_logs d)%list (set_password_resets (password_resets d ++ [row])%list d)
    ∧ pr_UserID row = Some pg ∧ pr_Source row = ResetSourceAdmin ∧ pr_UsedAt row = None
    ∧ (l = [] ∨ ∃ entry, l = [entry] ∧ al_ActorID entry = parseUserID actorID ∧ al_TargetUserID entry = Some pg
                ∧ al_Action entry = audit_action KResetPassword).
Definition admin_effect (actorID : string) (k : admin_kind) (pg : uuid) (d d' : DB) : Prop :=
  match k with
  | KResetPassword => reset_link actorID pg d d'
  | _ => admin_applied actorID k pg d d'
  end.

(** The account an admin action is about. *)
Definition admin_target (actorID targetUserID : string) (d : DB) (target : User) (pg : uuid) : Prop :=
  parseUserID targetUserID = Some pg ∧ parseUserID actorID ≠ Some pg
  ∧ target ∈ users d ∧ u_ID target = pg ∧ u_Role target ≠ UserRoleAdmin.

Lemma loadAdminTarget_wp actorID targetUserID e w :
  wp (loadAdminTarget actorID targetUserID) e (λ o w', w_db w' = w_db w
    ∧ ∀ target pg, o = Some (Done (target, pg)) → admin_target actorID targetUserID (w_db w) target pg) w.
Proof.
  unfold loadAdminTarget. destruct (parseUserID targetUserID) as [pg|] eqn:Ep; [|by wp_step].
  wp_step; [by wp_step|]. wp_step. wp_step; [by wp_step|]. wp_step; wp_step; [done|].
  split; [done|]. intros ? ? [= <- <-]. apply fetch_one_Ok in H as [Hin Hid%id_is_true]. injection Hid as Hid.
  bool_to_prop. done.
Qed.

(** ** All or nothing *)

Lemma update_same {A} p (f : A → A) l : (∀ r, f r = r) → update p f l = l.
Proof.
  intros H. unfold update. rewrite <- (List.map_id l) at 2. apply map_ext. intros r.
  destruct (p r); auto.
Qed.

Lemma wp_WithActor {A} e (Q : option (res A) → World → Prop) w actor (fn : Go (res A)) :
  (∀ o w', (∀ a, o ≠ Some (Ok a)) → w_db w' = w_db w → Q o w') →
  (∀ w1, w_db w1 = w_db w →
     wp fn e (λ o w2, ∀ a, o = Some (Ok a) → ∀ w3, w_db w3 = w_db w2 →
                Q (Some (Ok a)) w3 ∧ Q (Some (Err ErrConn)) w3) w1) →
  wp (WithActor actor fn) e Q w.
Proof.
  intros Herr H. unfold WithActor. apply wp_WithTx; [intros w' Hw; by apply Herr|]. wp_step.
  apply (wp_db_tracks eq); [tracked|]. intros [[?|?]|] w1 Hw1; [|wp_step; by apply Herr|by apply Herr].
  eapply wp_mono; [apply (H w1); by rewrite <- Hw1|]. cbv beta. intros [[x|err]|] w2 H2.
  - by apply (H2 x).
  - by apply Herr.
  - by apply Herr.
Qed.

(** The last statement of every action. *)
Lemma admin_audit_wp e w us ss l audit (Q : option (res unit) → World → Prop) :
  changed us ss l (w_db w) →
  (∀ o w' r, changed us ss (r :: l) (w_db w') →
     al_ActorID r = ca_ActorID audit → al_TargetUserID r = ca_TargetUserID audit → al_Action r = ca_Action audit →
     Q o w') →
  wp (db_stmt (CreateAuditLog audit)) e (λ o w2, ∀ a, o = Some (Ok a) → ∀ w3, w_db w3 = w_db w2 →
    Q (Some (Ok a)) w3 ∧ Q (Some (Err ErrConn)) w3) w.
Proof.
  intros (Hu & Hs & Ha) H. apply wp_db_stmt; [done|]. intros x d' [= _ <-]. split; [|done].
  intros ? _ w3 Hw3. split; (eapply (H _ w3 _); [rewrite Hw3; split_and!; [done|done|simpl; by rewrite Ha]|done..]).
Qed.

(** The statements of one action, as the handlers run them in their transaction. *)
Lemma admin_tx_wp e w actorID (row : Stmt unit) (f : Z → User → User) pg (revoke : bool) audit
    (Q : option (res unit) → World → Prop) :
  (∀ c d x d', row c d = (Ok x, d') →
     ∃ t l, changed (update (undeleted_user (Some pg)) (f t) (users d)) (sessions d) (l ++ audit_logs d)%list d') →
  (∀ o w', (∀ a, o ≠ Some (Ok a)) → w_db w' = w_db w → Q o w') →
  (∀ o w' t t' r l,
     changed (update (undeleted_user (Some pg)) (f t) (users (w_db w)))
       (if revoke then update (active_session_of (Some pg)) (revoke_at t') (sessions (w_db w)) else sessions (w_db w))
       (r :: l ++ audit_logs (w_db w))%list (w_db w') →
     al_ActorID r = ca_ActorID audit → al_TargetUserID r = ca_TargetUserID audit → al_Action r = ca_Action audit →
     Q o w') →
  wp (WithActor actorID (
        r <- db_stmt row ;;
        match r with
        | Err err => ret (Err err)
        | Ok _ =>
            r <- (if revoke then db_stmt (RevokeAllUserSessions (Some pg)) else ret (Ok ())) ;;
            match r with
            | Err err => ret (Err err)
            | Ok _ => db_stmt (CreateAuditLog audit)
            end
        end)) e Q w.
Proof.
  intros Hrow Hno Hyes. apply wp_WithActor; [done|]. intros w1 Hw1.
  wp_step. wp_step; [by wp_step| |by wp_step]. apply Hrow in H as (t & l & H1 & H2 & H3). rewrite Hw1 in H1, H2, H3.
  destruct revoke.
  - wp_step. wp_step; [by wp_step| |by wp_step]. injection H as _ <-.
    eapply admin_audit_wp; [split_and!; simpl; rewrite ?H1, ?H2, ?H3; reflexivity|]. eauto.
  - wp_step. wp_step. eapply (admin_audit_wp _ _ _ _ _ _ Q); [by split_and!|]. intros. by eapply (Hyes _ _ _ 0).
Qed.

Lemma admin_finish_wp e w (m : Go (res unit)) ids d (app : DB → Prop) :
  wp m e (λ o w', ((∀ a, o ≠ Some (Ok a)) ∧ w_db w' = d) ∨ app (w_db w')) w →
  wp (r <- m ;;
      match r with
      | Err _ => ret (Fail InternalServerError)
      | Ok _ => delete_sessions ids ;;; ret (Done ())
      end) e (λ o w', (w_db w' = d ∨ app (w_db w')) ∧ (o = Some (Done ()) → app (w_db w'))) w.
Proof.
  intros H. wp_step. eapply wp_mono; [exact H|]. cbv beta. intros [[[]|err]|] w1 Hw1.
  - destruct Hw1 as [[Hno _]|Happ]; [by destruct (Hno ())|].
    wp_step. wp_frame; [wp_step|]; rewrite <- H0; auto.
  - wp_step. split; [|done]. destruct Hw1 as [[_ ?]|?]; auto.
  - split; [|done]. destruct Hw1 as [[_ ?]|?]; auto.
Qed.

(** No admin action can make an admin. *)
Definition grantable (k : admin_kind) : Prop :=
  match k with KRole s => ∃ r, parseUserRole s = Some r ∧ r ≠ UserRoleAdmin | _ => True end.

Definition admin_done (actorID targetUserID : string) (k : admin_kind) (d d' : DB) : Prop :=
  ∃ target pg, admin_target actorID targetUserID d target pg ∧ grantable k ∧ admin_effect actorID k pg d d'.


(** What a call of the action's transaction leaves. *)
Definition admin_post actorID targetUserID k (d : DB) (o : option (svc unit)) (w' : World) : Prop :=
  (w_db w' = d ∨ admin_done actorID targetUserID k d (w_db w'))
  ∧ (o = Some (Done ()) → admin_done actorID targetUserID k d (w_db w')).

(** The account is looked up first. *)
Lemma admin_load_wp actorID targetUserID k e w d (body : User → uuid → Go (svc unit)) :
  w_db w = d →
  (∀ target pg w', admin_target actorID targetUserID d target pg → w_db w' = d →
     wp (body target pg) e (admin_post actorID targetUserID k d) w') →
  wp (t <- loadAdminTarget actorID targetUserID ;;
      match t with
      | Fail e => ret (Fail e)
      | Done (target, targetPG) => body target targetPG
      end) e (admin_post actorID targetUserID k d) w.
Proof.
  intros Hd H. wp_step. eapply wp_mono; [apply loadAdminTarget_wp|]. cbv beta. rewrite Hd.
  intros [[[target pg]|err]|] w1 [Hw1 Ht]; [|wp_step; by split; [left|]|by split; [left|]].
  apply H; [by apply Ht|done].
Qed.

(** The transaction with its loop of Redis deletions. *)
Lemma admin_body_wp actorID targetUserID k target pg e w d (row : Stmt unit) audit ids :
  k ≠ KResetPassword → w_db w = d → admin_target actorID targetUserID d target pg → grantable k →
  (∀ c d x d', row c d = (Ok x, d') →
     ∃ t l, changed (update (undeleted_user (Some pg)) (row_effect k t) (users d)) (sessions d) (l ++ audit_logs d)%list d') →
  ca_ActorID audit = parseUserID actorID → ca_TargetUserID audit = Some pg → ca_Action audit = audit_action k →
  wp (r <- WithActor actorID (
        r <- db_stmt row ;;
        match r with
        | Err err => ret (Err err)
        | Ok _ =>
            r <- (if signs_out k then db_stmt (RevokeAllUserSessions (Some pg)) else ret (Ok ())) ;;
            match r with
            | Err err => ret (Err err)
            | Ok _ => db_stmt (CreateAuditLog audit)
            end
        end) ;;
      match r with
      | Err _ => ret (Fail InternalServerError)
      | Ok _ => delete_sessions ids ;;; ret (Done ())
      end) e (admin_post actorID targetUserID k d) w.
Proof.
  intros Hk <- Ht Hg Hrow Ha1 Ha2 Ha3. apply admin_finish_wp. eapply admin_tx_wp; [exact Hrow|by left|].
  intros o w' t t' r l (Hu & Hs & Ha) E1 E2 E3. right. exists target, pg. split_and!; [done|done|].
  assert (admin_applied actorID k pg (w_db w) (w_db w')) as Happ; [|by destruct k].
  split; [by exists t|by exists t'|]. exists r, l. by rewrite E1, E2, E3.
Qed.

Lemma setUserStatus_wp k status action revoke ctx actorID actorUsername targetUserID reason e w :
  k ≠ KResetPassword → row_effect k = (λ _, set_u_Status (Some status)) → signs_out k = revoke → audit_action k = action → grantable k →
  wp (setUserStatusAction ctx actorID actorUsername targetUserID reason status action revoke) e
    (admin_post actorID targetUserID k (w_db w)) w.
Proof.
  intros Hk Hrow Hrev Hact Hg. unfold setUserStatusAction.
  apply (admin_load_wp _ _ _ _ _ _ (λ target pg, _)); [done|].
  intros target pg w1 Ht Hw1. cbv beta.
  assert (∀ w2 ids, w_db w2 = w_db w →
    wp (r <- WithActor actorID (
             r <- db_stmt (SetUserStatus (Some status) (Some pg)) ;;
             match r with
             | Err err => ret (Err err)
             | Ok _ =>
                 r <- (if revoke then db_stmt (RevokeAllUserSessions (Some pg)) else ret (Ok ())) ;;
                 match r with
                 | Err err => ret (Err err)
                 | Ok _ => db_stmt (CreateAuditLog (admin_audit ctx actorID actorUsername target pg action
                                      (textOrNull (TrimSpace reason))))
                 end
             end) ;;
        match r with
        | Err _ => ret (Fail InternalServerError)
        | Ok _ => delete_sessions ids ;;; ret (Done ())
        end) e (admin_post actorID targetUserID k (w_db w)) w2) as H.
  { intros w2 ids Hw2. rewrite <- Hrev. apply (admin_body_wp _ _ _ target); try done.
    intros c d x d' E%update_users_frame. rewrite Hrow. by exists 0. }
  wp_step. destruct revoke; wp_step; by apply H.
Qed.

Lemma ForceLogout_wp ctx actorID actorUsername targetUserID reason e w :
  wp (ForceLogoutUser ctx actorID actorUsername targetUserID reason) e
    (admin_post actorID targetUserID (KForceLogout reason) (w_db w)) w.
Proof.
  unfold ForceLogoutUser. apply (admin_load_wp _ _ _ _ _ _ (λ target pg, _)); [done|].
  intros target pg w1 Ht Hw1. cbv beta.
  set (Q := λ (o : option (res unit)) w', ((∀ a, o ≠ Some (Ok a)) ∧ w_db w' = w_db w)
         ∨ admin_done actorID targetUserID (KForceLogout reason) (w_db w) (w_db w')).
  assert (∀ w2 audit, w_db w2 = w_db w → ca_ActorID audit = parseUserID actorID → ca_TargetUserID audit = Some pg →
    ca_Action audit = AuditActionAdminNote →
    wp (WithActor actorID (
          r <- db_stmt (RevokeAllUserSessions (Some pg)) ;;
          match r with
          | Err err => ret (Err err)
          | Ok _ => db_stmt (CreateAuditLog audit)
          end)) e Q w2) as H.
  { intros w2 audit Hw2 Ha1 Ha2 Ha3. apply wp_WithActor; [unfold Q; rewrite Hw2; by left|]. intros w3 Hw3.
    rewrite Hw2 in Hw3. wp_step. wp_step; [by wp_step| |by wp_step]. injection H as _ <-. rewrite Hw3.
    eapply (admin_audit_wp _ _ _ _ _ _ Q); [by split_and!|]. simpl. intros o w' r (Hu & Hs & Hl) E1 E2 E3. right.
    exists target, pg. split_and!; [done|done|]. split.
    - exists 0. by rewrite update_same.
    - eexists. exact Hs.
    - exists r, []. by rewrite E1, E2, E3. }
  wp_step. wp_step; apply admin_finish_wp; by apply H.
Qed.

Lemma ChangeRole_wp ctx actorID actorUsername targetUserID newRole e w :
  wp (ChangeUserRole ctx actorID actorUsername targetUserID newRole) e
    (admin_post actorID targetUserID (KRole newRole) (w_db w)) w.
Proof.
  unfold ChangeUserRole. destruct (parseUserRole newRole) as [role|] eqn:Er; [|wp_step; by split; [left|]].
  apply (admin_load_wp _ _ _ _ _ _ (λ target pg, _)); [done|].
  intros target pg w1 Ht Hw1. cbv beta. wp_step; [wp_step; by split; [left|]|]. bool_to_prop.
  apply (admin_body_wp _ _ (KRole newRole) target pg _ _ _ (SetUserRole role (Some pg)) _ []); try done.
  - by exists role.
  - intros c d x d' E%update_users_frame. exists 0. unfold row_effect. by rewrite Er.
Qed.

Lemma Delete_wp ctx actorID actorUsername targetUserID reason e w :
  wp (DeleteUser ctx actorID actorUsername targetUserID reason) e
    (admin_post actorID targetUserID (KDelete reason) (w_db w)) w.
Proof.
  unfold DeleteUser. apply (admin_load_wp _ _ _ _ _ _ (λ target pg, _)); [done|].
  intros target pg w1 Ht Hw1. cbv beta. wp_step.
  wp_step; apply (admin_body_wp _ _ (KDelete reason) target pg _ _ _ (SoftDeleteUser (Some pg))); try done;
    intros c d x d' E%update_users_frame; by exists (s_now c).
Qed.

Lemma AdminReset_wp ctx actorID actorUsername targetUserID e w :
  wp (AdminResetUserPassword ctx actorID actorUsername targetUserID) e
    (admin_post actorID targetUserID KResetPassword (w_db w)) w.
Proof.
  unfold AdminResetUserPassword. apply (admin_load_wp _ _ _ _ _ _ (λ target pg, _)); [done|].
  intros target pg w1 Ht Hw1. cbv beta.
  assert (∀ w', w_db w' = w_db w → ∀ o, o ≠ Some (Done ()) → admin_post actorID targetUserID KResetPassword (w_db w) o w') as Hno
    by (intros w' Hw' o Ho; split; [by left|done]).
  wp_step. apply (wp_db_tracks eq); [tracked|]. intros [[raw|err]|] w2 Hw2; cbv beta iota;
    [|wp_step; apply Hno; congruence|apply Hno; congruence].
  assert (∀ o w', reset_link actorID pg (w_db w) (w_db w') → admin_post actorID targetUserID KResetPassword (w_db w) o w') as Hyes
    by (intros o w' Hl; assert (admin_done actorID targetUserID KResetPassword (w_db w) (w_db w')) by (by exists target, pg); by split; [right|]).
  assert (∀ w', reset_link actorID pg (w_db w) (w_db w') →
    wp (sent <- SendPasswordResetEmail raw (u_Email target) ;;
        match sent with Err _ => ret (Fail InternalServerError) | Ok _ => ret (Done ()) end)
      e (admin_post actorID targetUserID KResetPassword (w_db w)) w') as Hmail.
  { intros w' Hl. wp_step. apply (wp_db_tracks eq); [tracked|].
    intros [[?|?]|] w3 Hw3; cbv beta iota; [wp_step|wp_step|]; apply Hyes; by rewrite <- Hw3. }
  assert (∀ c d x, CreatePasswordReset (Some pg) (HashOpaqueToken raw) x ResetSourceAdmin c (w_db w) = d →
    ∀ id d', d = (Ok id, d') → ∃ row, d' = set_password_resets (password_resets (w_db w) ++ [row])%list (w_db w)
      ∧ pr_UserID row = Some pg ∧ pr_Source row = ResetSourceAdmin ∧ pr_UsedAt row = None) as Hrow.
  { intros c d x <- id d'. unfold CreatePasswordReset. destruct (checks _); [done|]. intros [= _ <-]. by eexists. }
  assert (w_db (tick w2) = w_db w) as Hw3 by (cbn; congruence).
  do 4 wp_step. wp_step. wp_step; [wp_step; by apply Hno|..];
    rewrite Hw3 in H; destruct (Hrow _ _ _ eq_refl _ _ H) as (row & -> & H1 & H2 & H3).
  - wp_step. assert (∀ l, (l = [] ∨ ∃ entry, l = [entry] ∧ al_ActorID entry = parseUserID actorID
        ∧ al_TargetUserID entry = Some pg ∧ al_Action entry = audit_action KResetPassword) →
      reset_link actorID pg (w_db w)
        (set_audit_logs (l ++ audit_logs (w_db w))%list (set_password_resets (password_resets (w_db w) ++ [row])%list (w_db w)))) as Hl
      by (intros l Hl; by exists row, l).
    wp_step.
    + apply Hmail. exact (Hl [] (or_introl eq_refl)).
    + injection H0 as _ <-. apply Hmail, (Hl [_]). right. by eexists.
    + injection H0 as _ <-. apply Hmail, (Hl [_]). right. by eexists.
  - wp_step. apply Hyes. exists row, []. split_and!; [|done..|by left]. by destruct (w_db w).
Qed.

Lemma admin_action_wp ctx actorID actorUsername targetUserID k e w :
  wp (admin_action ctx actorID actorUsername targetUserID k) e (admin_post actorID targetUserID k (w_db w)) w.
Proof.
  destruct k; unfold admin_action, BanUser, UnbanUser, DisableUser, EnableUser; try by apply setUserStatus_wp.
  - apply ForceLogout_wp.
  - apply ChangeRole_wp.
  - apply Delete_wp.
  - apply AdminReset_wp.
Qed.

(** C26: what an admin action leaves, whatever fails and wherever.  A ban, unban,
    disabling, enabling, forced logout, role change or deletion is all or nothing:
    the store is as before, or the account's row has the new status, role or
    deletion time, its sessions are revoked if the action signs out, and the audit
    log has an entry naming the actor, the account and the action.  A reset link
    adds a reset request to the account, or nothing, and changes no other row; its
    audit entry may be missing, even after a success.  The account is never the
    actor's own nor an admin's, and no role change makes an admin.  A success
    means the action was done. *)
Theorem admin_action_all_or_nothing ctx actorID actorUsername targetUserID k e w :
  let m := admin_action ctx actorID actorUsername targetUserID k in
  let d' := w_db (final m e w) in
  (d' = w_db w ∨ admin_done actorID targetUserID k (w_db w) d')
  ∧ (result m e w = Some (Done ()) → admin_done actorID targetUserID k (w_db w) d').
Proof. exact (admin_action_wp ctx actorID actorUsername targetUserID k e w). Qed.

Lemma admin_effect_rows actorID k pg d d' :
  admin_effect actorID k pg d d' →
  (∃ t, users d' = update (undeleted_user (Some pg)) (row_effect k t) (users d))
  ∧ ∃ t, sessions d' = if signs_out k then update (active_session_of (Some pg)) (revoke_at t) (sessions d) else sessions d.
Proof.
  intros H. destruct k; try (by destruct H). destruct H as (row & l & -> & _). cbn.
  split; exists 0; [by rewrite update_same|done].
Qed.

(** No admin action touches an admin's account or the actor's own: the row and
    the sessions of such an account are after it what they were, whatever the
    request names. *)
Lemma admin_action_spares ctx actorID actorUsername targetUserID k e w u :
  users_wf (w_db w) → u ∈ users (w_db w) → u_Role u = UserRoleAdmin ∨ parseUserID actorID = Some (u_ID u) →
  let d' := w_db (final (admin_action ctx actorID actorUsername targetUserID k) e w) in
  u ∈ users d' ∧ ∀ s, s ∈ sessions (w_db w) → se_UserID s = Some (u_ID u) → s ∈ sessions d'.
Proof.
  intros (Hnd & _) Hu Hsp. cbv zeta.
  destruct (admin_action_wp ctx actorID actorUsername targetUserID k e w) as [[Hsame|Hdone] _].
  { unfold final. rewrite Hsame. auto. }
  destruct Hdone as (target & pg & (_ & Hself & Ht & Hid & Hrole) & _ & Heff).
  destruct (admin_effect_rows _ _ _ _ _ Heff) as [[t Hus] [t' Hss]].
  assert (u_ID u ≠ pg) as Hne.
  { intros E. destruct Hsp as [Hadm|Hact]; [|congruence].
    assert (u = target) as -> by (eapply (NoDup_proj_eq u_ID); eauto; congruence). done. }
  unfold final. rewrite Hus. split.
  - apply elem_of_update. exists u. split; [done|]. unfold undeleted_user, id_is. simpl.
    by rewrite bool_decide_eq_false_2.
  - intros s Hs Hown. rewrite Hss. destruct (signs_out k); [|done]. apply elem_of_update. exists s. split; [done|].
    unfold active_session_of. rewrite Hown. simpl. by rewrite bool_decide_eq_false_2.
Qed.

(** ** Signing out is immediate *)

(** No key of session [id] is left. *)
Definition keys_gone (id : uuid) (w : World) : Prop :=
  w_redis w !! ("session:" ++ uuid_String id) = None ∧ w_redis w !! ("refresh:" ++ uuid_String id) = None.

Lemma delete_sessions_gone ids e w :
  no_faults e → ∀ id, id ∈ ids ∨ keys_gone id w → keys_gone id (final (delete_sessions ids) e w).
Proof.
  intros Hf. revert w. induction ids as [|i ids IH]; intros w id Hid.
  { destruct Hid as [Hid|]; [by apply not_elem_of_nil in Hid|done]. }
  unfold final, delete_sessions. cbn [for_each]. erewrite run_bind by by apply run_DeleteSession.
  apply IH. rewrite elem_of_cons in Hid.
  set (w1 := tick _). assert (∀ k, w_redis w !! k = None → w_redis w1 !! k = None) as Hk.
  { intros k Hk. simpl. by rewrite !lookup_delete_None, Hk; auto. }
  assert (keys_gone i w1) as Hi.
  { split; simpl; [by rewrite lookup_delete_eq|by rewrite lookup_delete_ne, lookup_delete_eq]. }
  destruct Hid as [[->|?]|[? ?]]; [by right|by left|]. right. split; by apply Hk.
Qed.

(** The sessions the action closes. *)
Definition closes (d : DB) (pg : uuid) (w' : World) : Prop :=
  ∀ s, s ∈ sessions d → active_session_of (Some pg) s = true → keys_gone (se_ID s) w'.

Lemma signout_tail_wp e w d pg (m : Go (res unit)) :
  no_faults e →
  wp (r <- m ;;
      match r with
      | Err _ => ret (Fail InternalServerError)
      | Ok _ => delete_sessions (ids_of (ListActiveSessionIDs (Some pg) (sctx e w) d)) ;;; ret (Done ())
      end) e (λ o w', o = Some (Done ()) → closes d pg w') w.
Proof.
  intros Hf. wp_step. apply wp_any. intros [[[]|]|] w0; cbv beta iota; [|by wp_step|done]. wp_step.
  unfold wp. pose proof (delete_sessions_gone (ids_of (ListActiveSessionIDs (Some pg) (sctx e w) d)) e w0 Hf) as H.
  unfold final in H. destruct (delete_sessions _ _ _) as [[[]|] w1]; [|done].
  intros _ s Hs Ha. apply H. left. simpl. apply list_elem_of_In, in_map, list_elem_of_In, elem_of_select. done.
Qed.

Lemma admin_signout_wp ctx actorID actorUsername targetUserID k e w pg :
  no_faults e → signs_out k = true → parseUserID targetUserID = Some pg →
  wp (admin_action ctx actorID actorUsername targetUserID k) e (λ o w', o = Some (Done ()) → closes (w_db w) pg w') w.
Proof.
  intros Hf Hk Hpg.
  assert (∀ body : User → uuid → Go (svc unit),
    (∀ target w', w_db w' = w_db w → wp (body target pg) e (λ o w', o = Some (Done ()) → closes (w_db w) pg w') w') →
    wp (t <- loadAdminTarget actorID targetUserID ;;
        match t with Fail e => ret (Fail e) | Done (target, targetPG) => body target targetPG end)
      e (λ o w', o = Some (Done ()) → closes (w_db w) pg w') w) as Hload.
  { intros body H. wp_step. eapply wp_mono; [apply loadAdminTarget_wp|]. cbv beta.
    intros [[[target pg']|err]|] w1 [Hw1 Ht]; [|by wp_step|done].
    destruct (Ht target pg' eq_refl) as (E & _). assert (pg' = pg) as -> by congruence. by apply H. }
  destruct k; try discriminate Hk; unfold admin_action, BanUser, DisableUser, setUserStatusAction, ForceLogoutUser, DeleteUser;
    apply (Hload (λ target pg, _)); intros target w1 Hw1; cbv beta iota; rewrite <- Hw1;
    wp_step; apply (quiet_query _ Hf); apply (signout_tail_wp e (tick w1) _ pg _ Hf).
Qed.

(** C27: a ban, a disabling, a forced logout or a deletion takes effect at once:
    when it has succeeded, the access tokens and the refresh tokens of every
    session the account had are refused. *)
Theorem admin_signout_is_immediate `{JL : JwtLib} `{ULaws : !UuidLaws UL}
    ctx actorID actorUsername targetUserID k e w pg s e' exp uid raw :
  no_faults e → no_faults e' → signs_out k = true → parseUserID targetUserID = Some pg →
  s ∈ sessions (w_db w) → active_session_of (Some pg) s = true →
  uuid_String (se_ID s) ≠ "" → uid ≠ "" → raw ≠ "" →
  let m := admin_action ctx actorID actorUsername targetUserID k in
  result m e w = Some (Done ()) →
  result (IsValidSession (uuid_String (se_ID s)) exp) e' (final m e w) = Some false
  ∧ result (RefreshToken (uuid_String (se_ID s)) uid raw) e' (final m e w) = Some (Fail SessionExpired).
Proof.
  intros Hf Hf' Hk Hpg Hs Ha H1 H2 H3. cbv zeta. intros Hdone.
  destruct (admin_signout_wp ctx actorID actorUsername targetUserID k e w pg Hf Hk Hpg Hdone s Hs Ha) as [Hk1 Hk2].
  change (admin_action ctx actorID actorUsername targetUserID k e w).2
    with (final (admin_action ctx actorID actorUsername targetUserID k) e w) in Hk1, Hk2. split.
  - by apply run_IsValidSession_missing.
  - unfold result. erewrite run_refresh_missing; try done; [apply uuid_Parse_String|]. unfold rlookup. by rewrite Hk2.
Qed.
End admin.

(** ** Examples *)

Import Toy.

#[local] Opaque ann_uid.
#[local] Abbreviation ban_ann :=
  (admin_action nobody "root-id" "root" ann_uid (KBan "spam")).
Lemma ann_parses : parseUserID ann_uid = Some (MkUUID ann_uid).
Proof. by vm_compute. Qed.
Lemma ban_ann_runs : result ban_ann env w_in = Some (Done ()).
Proof. by vm_compute. Qed.

Lemma ann_session_live :
  ∃ s, s ∈ sessions (w_db w_in) ∧ active_session_of (Some (MkUUID ann_uid)) s = true ∧ uuid_String (se_ID s) ≠ "".
Proof.
  assert (exists_row (λ s, active_session_of (Some (MkUUID ann_uid)) s && negb (String.eqb (uuid_String (se_ID s)) ""))
            (sessions (w_db w_in)) = true) as H by (by vm_compute).
  apply exists_row_true in H as (s & Hs & H). bool_to_prop. eauto.
Qed.
Lemma root_not_ann : ann_uid ≠ "".
Proof. by vm_compute. Qed.

Lemma admin_signout_is_immediate_witness :
  ∃ s, s ∈ sessions (w_db w_in) ∧ result (IsValidSession (uuid_String (se_ID s)) 0) env (final ban_ann env w_in) = Some false.
Proof.
  destruct ann_session_live as (s & Hs & Ha & Hne). exists s. split; [exact Hs|].
  exact (proj1 (admin_signout_is_immediate nobody "root-id" "root" ann_uid (KBan "spam") env w_in (MkUUID ann_uid) s
    env 0 ann_uid "token" env_quiet env_quiet eq_refl ann_parses Hs Ha Hne root_not_ann ltac:(discriminate) ban_ann_runs)).
Defined.

(** Ann, acting, bans an account made through single sign-on. *)
Definition bob_join : request :=
  RSSOLogin nobody ProviderNameGoogle UserOriginGoogle (mkOIDCClaims "bob-at-google" "bob@example.com" true).
Definition w_two : World := final (run_request bob_join) env w_in.
Definition other_id : string :=
  match List.rev (users (w_db w_two)) with u :: _ => uuid_Bytes (u_ID u) | [] => "" end.
Lemma two_wf : users_wf (w_db w_two).
Proof. unfold w_two. apply wf_users, run_keeps_wf; [apply run_request_safe|exact in_wf]. Qed.
#[local] Opaque w_two other_id.
Lemma ann_acts :
  ∃ u, u ∈ users (w_db w_two) ∧ parseUserID ann_uid = Some (u_ID u).
Proof.
  assert (exists_row (λ u, bool_decide (parseUserID ann_uid = Some (u_ID u))) (users (w_db w_two)) = true)
    as H by (by vm_compute).
  apply exists_row_true in H as (u & Hu & H). bool_to_prop. eauto.
Qed.

Lemma admin_action_spares_witness :
  result (admin_action nobody ann_uid "ann" other_id (KBan "spam")) env w_two = Some (Done ())
  ∧ ∃ u, u ∈ users (w_db (final (admin_action nobody ann_uid "ann" other_id (KBan "spam")) env w_two)).
Proof.
  split; [by vm_compute|]. destruct ann_acts as (u & Hu & Hp). exists u.
  exact (proj1 (admin_action_spares nobody ann_uid "ann" other_id (KBan "spam") env w_two u two_wf Hu (or_intror Hp))).
Defined.

(** The README has every admin write in the audit log: when the statement that
    writes the entry of a reset link fails, the link is made and sent all the same
    and nothing in the log says who did. *)
Definition reset_other : Go (svc unit) := admin_action nobody ann_uid "ann" other_id KResetPassword.
Definition audit_call : nat := 4%nat.
Definition no_audit : Env :=
  mkEnv cfg false (e_clock env) (λ n, if Nat.eqb n (w_tick w_two + audit_call) then FRefused else FNone)
    (e_uuid env) (e_rand_read env) (e_rand_int env) (e_gen_uuid env).
Example reset_link_unaudited :
  result reset_other no_audit w_two = Some (Done ())
  ∧ length (password_resets (w_db (final reset_other no_audit w_two))) = S (length (password_resets (w_db w_two)))
  ∧ length (w_mail (final reset_other no_audit w_two)) = S (length (w_mail w_two))
  ∧ length (audit_logs (w_db (final reset_other no_audit w_two))) = length (audit_logs (w_db w_two)).
Proof. by vm_compute. Qed.
