(* ===== verification/BlockedSpec.v ===== *)
(** * A blocked account stays out

    [frozen uid]: while the account is blocked - banned, disabled or deleted - no
    statement of the service opens a session for it.  The relation implements the
    [Plain] interface; the requests that do open sessions are walked one by one,
    over stores where the account is blocked, so that the result holds when
    requests run at the same time too. *)

From S2P Require Import Prelude.
From S2P Require Import GoLib.
From S2P Require Import Utils.
From S2P Require Import Model.
From S2P Require Import Runtime.
From S2P Require Import Logic.
From S2P Require Import Queries.
From S2P Require Import Store.
From S2P Require Import Password.
From S2P Require Import Tokens.
From S2P Require Import Codes.
From S2P Require Import Signup.
From S2P Require Import Mfa.
From S2P Require Import Login.
From S2P Require Import Session.
From S2P Require Import PasswordFlows.
From S2P Require Import Sso.
From S2P Require Import Maintenance.
From S2P Require Import Admin.
From S2P Require Import Passkey.
From S2P Require Import Frames.
From S2P Require Import Walks.
From S2P Require Import Toy.
From S2P Require Import Requests.
From S2P Require Import Scenes.
From S2P Require Import LoginSpec.
From S2P Require Import AdminSpec.
From S2P Require Import Calls.
From S2P Require Import Steps.
From S2P Require Import Pool.
From S2P Require Import Interleave.
From stdpp Require Import relations.

#[local] Open Scope string_scope.
#[local] Open Scope Z_scope.
#[local] Open Scope go_scope.

(** The account [uid] is there and must not be used. *)
Definition blocked (uid : uuid) (d : DB) : Prop :=
  (∃ u, u ∈ users d ∧ u_ID u = uid)
  ∧ ∀ u, u ∈ users d → u_ID u = uid → not_usable (u_DeletedAt u) (u_Status u) = true.

(** Every session of [uid] in [d'] was there in [d]. *)
Definition no_new_session (uid : uuid) (d d' : DB) : Prop :=
  ∀ s', s' ∈ sessions d' → se_UserID s' = Some uid →
  ∃ s, s ∈ sessions d ∧ se_ID s = se_ID s' ∧ se_UserID s = Some uid.

Definition frozen (uid : uuid) (d d' : DB) : Prop :=
  blocked uid d → blocked uid d' ∧ no_new_session uid d d'.

#[export] Instance frozen_preorder uid : PreOrder (frozen uid).
Proof.
  split.
  - intros d H. split; [done|]. intros s Hs Hu. eauto.
  - intros d1 d2 d3 H12 H23 H. destruct (H12 H) as [H2 N2]. destruct (H23 H2) as [H3 N3]. split; [done|].
    intros s3 Hs3 Hu. destruct (N3 s3 Hs3 Hu) as (s2 & Hs2 & E2 & Hu2). destruct (N2 s2 Hs2 Hu2) as (s1 & ? & ? & ?).
    exists s1. split_and!; congruence.
Qed.

Section frozen.
Context `{TL : TextLib} `{UL : UuidLib} `{HL : HashLib} `{JL : JwtLib} `{OL : TotpLib} `{AL : AeadLib}
  `{WL : WebAuthnLib} `{CL : TimeLib} `{OI : OidcLib}.
Context `{ST : Setting} (uid : uuid).

(** ** The statements *)

Lemma frozen_same d d' : users d' = users d → sessions d' = sessions d → frozen uid d d'.
Proof. intros Hu Hs. unfold frozen, blocked, no_new_session. rewrite Hu, Hs. eauto 10. Qed.

Lemma frozen_sessions d d' p f :
  users d' = users d → sessions d' = update p f (sessions d) →
  (∀ s, se_ID (f s) = se_ID s ∧ se_UserID (f s) = se_UserID s) → frozen uid d d'.
Proof.
  intros Hu Hs Hf H. split; [unfold blocked in *; by rewrite Hu|]. intros s'. rewrite Hs.
  intros (s & Hin & ->)%elem_of_update Hown. exists s. destruct (Hf s) as [E1 E2]. destruct (p s); split_and!; congruence.
Qed.

Lemma frozen_update_users p f :
  (∀ u, u_ID (f u) = u_ID u) →
  (∀ u, p u = true → u_ID u = uid → not_usable (u_DeletedAt u) (u_Status u) = true →
     not_usable (u_DeletedAt (f u)) (u_Status (f u)) = true) →
  st_in (frozen uid) (update_users p f).
Proof.
  intros Hid Hf c d a d' (l & Hu & Hs & _)%update_users_frame [(u & Hin & Hu1) Hall]. split; [split|].
  - exists (if p u then f u else u). rewrite Hu, elem_of_update. split; [eauto|]. destruct (p u); [by rewrite Hid|done].
  - intros u' Hu'. rewrite Hu in Hu'. apply elem_of_update in Hu' as (u0 & Hin0 & ->).
    destruct (p u0) eqn:Hp; [|by apply Hall]. intros E. rewrite Hid in E. apply Hf; auto.
  - intros s'. rewrite Hs. eauto.
Qed.

Lemma frozen_insert_user email display role origin : st_in (frozen uid) (insert_user email display role origin).
Proof.
  intros c d a d'. unfold insert_user. destruct (checks _) eqn:Hck; [done|]. intros [= _ <-].
  apply checks_cons in Hck as [_ Hck]. apply checks_cons in Hck as [Hfresh _].
  apply negb_true_iff in Hfresh. intros [(u & Hin & Hu1) Hall]. split; [split|]; simpl.
  - exists u. split; [|done]. apply elem_of_app. by left.
  - intros u' [Hin'|Hin']%elem_of_app E; [by apply Hall|]. apply list_elem_of_singleton in Hin'. subst u'.
    simpl in *. exfalso. eapply (fresh_key u_ID); [exact Hfresh|exact Hin|]. congruence.
  - intros s' Hs' Hown. eauto.
Qed.

Lemma frozen_untouched d d' : untouched d d' → frozen uid d d'.
Proof. intros [Hu Hs]. by apply frozen_same. Qed.

Lemma SetUserStatus_frozen status id :
  status_blocked status = true → st_in (frozen uid) (SetUserStatus status id).
Proof.
  intros Hs. apply frozen_update_users; [done|]. intros u _ _ _. unfold not_usable in *. simpl. rewrite Hs.
  apply orb_true_r.
Qed.

Lemma SetUserStatus_other status id : id ≠ Some uid → st_in (frozen uid) (SetUserStatus status id).
Proof.
  intros Hid. apply frozen_update_users; [done|]. intros u [Hu%id_is_true _]%andb_true_iff <- _. by destruct Hid.
Qed.

Lemma CreateRefreshSession_frozen id user expires hash ip ua :
  user ≠ Some uid → st_in (frozen uid) (CreateRefreshSession id user expires hash ip ua).
Proof.
  intros Hne c d a d'. unfold CreateRefreshSession. destruct (checks _); [done|]. intros [= _ <-] H. split; [done|].
  intros s' [Hin|Hin]%elem_of_app Hown; [by exists s'|]. apply list_elem_of_singleton in Hin. subst s'. by simpl in Hown.
Qed.

Ltac frozen_stmt :=
  open_stmt; first [apply frozen_untouched; stmt_untouched | by apply frozen_same | by eapply frozen_sessions].

#[export] Instance frozen_plain : Plain (frozen uid).
Proof.
  split; [typeclasses eauto|..]; try solve [frozen_stmt]. intros id c. by apply frozen_update_users.
Qed.
#[export] Instance frozen_joins : Joins (frozen uid).
Proof. split; intros; apply frozen_insert_user. Qed.
#[export] Instance frozen_sets_role : SetsRole (frozen uid).
Proof. intros role id. apply frozen_update_users; [done|]. by intros u _ _ H. Qed.
#[export] Instance frozen_deletes_users : DeletesUsers (frozen uid).
Proof. intros id c. by apply frozen_update_users. Qed.
#[export] Instance frozen_rotates : Rotates (frozen uid).
Proof. intros hash expires id. frozen_stmt. Qed.

(** ** The requests that open sessions *)

Hint Resolve CreateRefreshSession_frozen SetUserStatus_frozen : tracks.

Lemma frozen_keeps d d' : frozen uid d d' → blocked uid d → blocked uid d'.
Proof. intros H Hb. by apply H. Qed.

(** The calls of a tree on stores where the account is blocked. *)
Abbreviation stays_out s := (tracks (blocked uid) (frozen uid) s).

Lemma CreateRefreshSessionInput_frozen x : rs_UserID x ≠ Some uid → stays_out (s_CreateRefreshSessionInput x).
Proof. intros H. unfold s_CreateRefreshSessionInput. tracks. Qed.

Lemma issueLoginSession_frozen userID iid name role ip ua :
  userID ≠ uid → stays_out (s_issueLoginSession userID iid name role ip ua).
Proof.
  intros H. unfold s_issueLoginSession.
  assert (∀ a b c d e, stays_out (s_CreateRefreshSessionInput (mkRefreshSessionInput a (Some userID) b c d e))).
  { intros. apply CreateRefreshSessionInput_frozen. simpl. congruence. }
  tracks.
Qed.

(** The row of an account: its own, or one that must not be used. *)
Definition spared (id : uuid) (deleted : option Z) (status : option UserStatus) : Prop :=
  id = uid → not_usable deleted status = true.

Lemma join_spared p d a u :
  blocked uid d → fetch_one p (identities_join_users d) = Ok (a, u) → spared (u_ID u) (u_DeletedAt u) (u_Status u).
Proof. intros [_ Hall] [(_ & Hu & _)%LoginSpec.elem_of_join _]%fetch_one_Ok E. by apply Hall. Qed.

Lemma login_verified_frozen i password ip ua :
  is_valid (ea_DeletedAt i) = false → spared (ea_UserID i) (ea_DeletedAt i) (ea_Status i) →
  stays_out (s_login_verified i password ip ua).
Proof.
  intros Hd Hsp. unfold s_login_verified, login_verified. retype. destruct (status_blocked (ea_Status i)) eqn:Hs; [tracks|].
  assert (ea_UserID i ≠ uid) as Hne.
  { intros E. specialize (Hsp E). unfold not_usable in Hsp. by rewrite Hd, Hs in Hsp. }
  pose proof (λ a b c d e, issueLoginSession_frozen (ea_UserID i) a b c d e Hne). tracks.
Qed.

Lemma Login_frozen ctx email password : stays_out (s_request (RLogin ctx email password)).
Proof.
  cbn [s_request]. open_service. branch; [tracks|].
  apply (tracks_bind_query _ _ (λ i, spared (ea_UserID i) (ea_DeletedAt i) (ea_Status i))).
  - intros c d i Hb. unfold GetEmailAuthByEmail. destruct (fetch_one _ _) as [[a u]|] eqn:E; [|done].
    intros [= <-]. by eapply join_spared.
  - intros i Hi. retype. destruct (is_valid (ea_DeletedAt i)) eqn:Hd; [tracks|].
    pose proof (λ a b c, login_verified_frozen i a b c Hd Hi). tracks.
  - tracks.
Qed.

Lemma mfa_finish_frozen ctx userPG cid : stays_out (s_mfa_finish ctx userPG cid).
Proof.
  unfold s_mfa_finish, mfa_finish. apply (tracks_bind_query _ _ (λ i, spared (ea_UserID i) (ea_DeletedAt i) (ea_Status i))).
  - intros c d i Hb. unfold GetEmailAuthByUserID. destruct (fetch_one _ _) as [[a u]|] eqn:E; [|done].
    intros [= <-]. by eapply join_spared.
  - intros i Hi. retype. destruct (not_usable _ _) eqn:Hn; [tracks|].
    assert (ea_UserID i ≠ uid) as Hne by (intros E; rewrite Hi in Hn; done).
    pose proof (λ a b c d e, issueLoginSession_frozen (ea_UserID i) a b c d e Hne). tracks.
  - tracks.
Qed.

Lemma VerifyMFALogin_frozen ctx token method code : stays_out (s_request (RVerifyMFALogin ctx token method code)).
Proof. pose proof mfa_finish_frozen. cbn [s_request]. tracks. Qed.

(** A new account is another one. *)
Lemma insert_user_other email display role origin c d a d' :
  insert_user email display role origin c d = (Ok a, d') → blocked uid d → u_ID a ≠ uid.
Proof.
  unfold insert_user. destruct (checks _) eqn:Hck; [done|]. intros [= <- _].
  apply checks_cons in Hck as [_ Hck]. apply checks_cons in Hck as [Hfresh _].
  apply negb_true_iff in Hfresh. intros [(u & Hin & Hu1) _] E. eapply (fresh_key u_ID); [exact Hfresh|exact Hin|].
  simpl in *. congruence.
Qed.

Lemma CreateSSOUserAndIdentity_other email display origin provider puid e w :
  blocked uid (w_db w) →
  wp (CreateSSOUserAndIdentity email display origin provider puid) e
    (λ o _, ∀ r, o = Some r → match r with Ok c => cs_UserID c ≠ uid | Err _ => True end) w.
Proof.
  intros Hb. unfold CreateSSOUserAndIdentity. apply wp_WithTx; [by intros ? _ ? [= <-]|].
  wp_step. wp_step; [wp_step; by intros ? [= <-]| |wp_step; by intros ? [= <-]].
  apply insert_user_other in H; [|done]. wp_step. wp_skip; [|done]. wp_step; wp_step; by try split; intros ? [= <-].
Qed.

Lemma CreateEmailUser_other email username hash e w :
  blocked uid (w_db w) →
  wp (CreateEmailUser email username hash) e
    (λ o _, ∀ r, o = Some r → match r with Ok c => cu_ID c ≠ uid | Err _ => True end) w.
Proof.
  intros Hb. unfold CreateEmailUser, CreateEmailUserInTx. apply wp_WithTx; [by intros ? _ ? [= <-]|].
  wp_step. wp_step; [wp_step; by intros ? [= <-]|]. wp_step; [wp_step; by intros ? [= <-]|].
  wp_step. wp_step; [wp_step; by intros ? [= <-]| |wp_step; by intros ? [= <-]].
  apply insert_user_other in H0; [|done]. wp_step. wp_skip; [|done]. wp_step; wp_step; by try split; intros ? [= <-].
Qed.

Lemma SSOLogin_frozen ctx provider origin claims : stays_out (s_request (RSSOLogin ctx provider origin claims)).
Proof.
  cbn [s_request]. open_service. branch; [tracks|].
  apply (tracks_bind_query _ _ (λ i, spared (ip_UserID i) (ip_DeletedAt i) (ip_Status i))).
  - intros c d i Hb. unfold GetIdentityByProvider. destruct (fetch_one _ _) as [[a u]|] eqn:E; [|done].
    intros [= <-]. by eapply join_spared.
  - intros i Hi. retype. destruct (not_usable _ _) eqn:Hn; [tracks|].
    assert (ip_UserID i ≠ uid) as Hne by (intros E; rewrite Hi in Hn; done).
    pose proof (λ a b c d e, issueLoginSession_frozen (ip_UserID i) a b c d e Hne). tracks.
  - intros err. retype. branch; [tracks|]. apply tracks_bind; [tracks|].
    intros [u|err']; [tracks|]. retype. branch; [tracks|].
    apply tracks_bind; [tracks|]. intros [username|]; [|tracks].
    eapply tracks_bind_post.
    { apply along_call; [cbn [perform]; db_tracks|]. intros e w _. apply CreateSSOUserAndIdentity_other. }
    intros [c|]; cbv beta iota; intros Hne; [|tracks].
    pose proof (λ a b c' d e, issueLoginSession_frozen (cs_UserID c) a b c' d e Hne). tracks.
Qed.

Lemma CompleteEmailJoin_frozen ctx username password confirm :
  stays_out (s_request (RCompleteEmailJoin ctx username password confirm)).
Proof.
  cbn [s_request]. open_service. do 4 (branch; [tracks|]).
  apply tracks_bind; [tracks|]. intros [taken|]; [|tracks]. retype. branch; [tracks|].
  apply tracks_bind; [tracks|]. intros [hash|]; [|tracks].
  eapply tracks_bind_post.
  { apply along_call; [cbn [perform]; unfold CreateEmailUserInTx; db_tracks|]. intros e w _. apply CreateEmailUser_other. }
  intros [u|]; cbv beta iota; intros Hne; [|tracks].
  assert (∀ a b c d e, stays_out (s_CreateRefreshSessionInput (mkRefreshSessionInput a (Some (cu_ID u)) b c d e))).
  { intros. apply CreateRefreshSessionInput_frozen. simpl. congruence. }
  tracks.
Qed.

Lemma passkey_handler_spared handle :
  along (blocked uid) (frozen uid) (steps_of (s_passkey_handler handle))
    (λ h, match h with HandleUser _ user id _ => spared id (u_DeletedAt user) (u_Status user) | _ => True end).
Proof.
  unfold s_passkey_handler, passkey_handler. destruct (negb _); [done|].
  apply (along_pbind _ _ (λ r, match r with Ok u => spared (MkUUID handle) (u_DeletedAt u) (u_Status u) | Err _ => True end)).
  - apply along_query; [typeclasses eauto|]. intros c d u [_ Hall] [Hu Hid%id_is_true]%fetch_one_Ok E.
    apply Hall; [done|]. congruence.
  - intros [u|err] Hu; [|done]. apply (along_pbind _ _ any).
    + change (stays_out (s_loadWebAuthnUser (MkUUID handle) (u_Username u))). tracks.
    + by intros [[wu rows]|err] _.
Qed.

Lemma passkey_finish_frozen ctx cid user id rows cred :
  spared id (u_DeletedAt user) (u_Status user) → stays_out (s_passkey_finish ctx cid user id rows cred).
Proof.
  intros Hi. unfold s_passkey_finish, passkey_finish. retype. destruct (not_usable _ _) eqn:Hn; [tracks|].
  assert (id ≠ uid) as Hne by (intros E; rewrite Hi in Hn; done).
  pose proof (λ a b c d e, issueLoginSession_frozen id a b c d e Hne). tracks.
Qed.

Lemma FinishPasskeyLogin_frozen ctx wa cid r : stays_out (s_request (RFinishPasskeyLogin ctx wa cid r)).
Proof.
  cbn [s_request]. open_service. destruct wa as [wa|]; [|tracks].
  apply tracks_bind; [tracks|]. intros [s|]; [|tracks]. apply tracks_bind; [tracks|]. intros t.
  retype. destruct (wa_FinishPasskeyLogin _ _ _ _); [tracks|].
  eapply tracks_bind_post; [apply passkey_handler_spared|].
  intros [| |u user id rows]; cbv beta iota; intros Hsp; [tracks..|].
  pose proof (λ a b c d, passkey_finish_frozen a b user id c d Hsp). tracks.
Qed.

(** ** Every request but the two that lift the block of the account *)

Definition lifts_block (r : request) : bool :=
  match r with
  | RUnbanUser _ _ _ target _ | REnableUser _ _ _ target _ => bool_decide (parseUserID target = Some uid)
  | _ => false
  end.
Lemma lifts_permits actorID target :
  bool_decide (parseUserID target = Some uid) = false →
  ∀ pg, targets actorID target pg → st_in (frozen uid) (SetUserStatus (Some UserStatusActive) (Some pg)).
Proof. intros Hne%bool_decide_eq_false pg [Hpg _]. apply SetUserStatus_other. congruence. Qed.

(** A request that neither opens sessions nor lifts the block. *)
Definition harmless (r : request) : Prop :=
  lifts_block r = false ∧ match r with
  | RCompleteEmailJoin _ _ _ _ | RLogin _ _ _ | RVerifyMFALogin _ _ _ _ | RSSOLogin _ _ _ _ | RFinishPasskeyLogin _ _ _ _ => False
  | _ => True
  end.
Lemma harmless_frozen r : harmless r → along any (frozen uid) (program r) any.
Proof.
  intros [Hr Hh]. apply program_along; [typeclasses eauto|].
  destruct r; try destruct Hh; cbn [permits lifts_block] in *; eauto using lifts_permits with tracks typeclass_instances.
Qed.
Lemma program_frozen r : lifts_block r = false → along (blocked uid) (frozen uid) (program r) any.
Proof.
  intros Hr. change (stays_out (s_request r)). destruct r; cbn [lifts_block] in Hr.
  all: lazymatch goal with
       | |- tracks _ _ (s_request (RCompleteEmailJoin _ _ _ _)) => apply CompleteEmailJoin_frozen
       | |- tracks _ _ (s_request (RLogin _ _ _)) => apply Login_frozen
       | |- tracks _ _ (s_request (RVerifyMFALogin _ _ _ _)) => apply VerifyMFALogin_frozen
       | |- tracks _ _ (s_request (RSSOLogin _ _ _ _)) => apply SSOLogin_frozen
       | |- tracks _ _ (s_request (RFinishPasskeyLogin _ _ _ _)) => apply FinishPasskeyLogin_frozen
       | |- _ => apply tracks_request; [typeclasses eauto|]; cbn [permits]
       end.
  all: eauto using lifts_permits with tracks typeclass_instances.
Qed.
End frozen.

Section blocked.
Context `{TL : TextLib} `{UL : UuidLib} `{HL : HashLib} `{JL : JwtLib} `{OL : TotpLib} `{AL : AeadLib}
  `{WL : WebAuthnLib} `{CL : TimeLib} `{OI : OidcLib}.

Lemma run_request_frozen uid r : lifts_block uid r = false → db_tracks (frozen uid) (run_request r).
Proof.
  intros Hr e w Hb. change (run_request r e w).2 with (final (run_request r) e w).
  rewrite <- verdict_final. unfold final. rewrite <- run_program.
  by apply (run_along (blocked uid) (frozen uid) (frozen_keeps uid)); [| |apply program_frozen|].
Qed.

(** One request that does not lift the block. *)
Definition serve_blocking (uid : uuid) (d d' : DB) : Prop :=
  ∃ r e w, lifts_block uid r = false ∧ w_db w = d ∧ w_db (final (run_request r) e w) = d'.

Lemma serve_blocking_run uid r e w :
  lifts_block uid r = false → serve_blocking uid (w_db w) (w_db (final (run_request r) e w)).
Proof. intros H. by exists r, e, w. Qed.

(** While nobody unbans or enables the account, no history of requests - logins,
    second steps, single sign-on, passkeys, sign-ups, refreshes, admin actions,
    whatever fails - opens a session for an account that is banned, disabled or
    deleted, and the account stays blocked. *)
Lemma blocked_account_gains_no_session uid d d' :
  rtc (serve_blocking uid) d d' → blocked uid d → blocked uid d' ∧ no_new_session uid d d'.
Proof.
  intros Hr. enough (frozen uid d d') as H by exact H. induction Hr as [d|d1 d2 d3 (r & e & w & Hl & <- & <-) _ IH].
  - reflexivity.
  - etransitivity; [by apply run_request_frozen|exact IH].
Qed.

(** A request that has answered, or been dropped. *)
Definition idle (th : thread request verdict) : Prop := (∃ u, th_rest th = Ret u) ∨ th_rest th = Panic.

Definition is_idle (th : thread request verdict) : bool := match th_rest th with Do _ _ => false | _ => true end.
Lemma is_idle_true po : List.forallb is_idle (po_threads po) = true → ∀ th, th ∈ po_threads po → idle th.
Proof.
  intros H th Hth. rewrite forallb_forall in H. specialize (H th (proj1 (list_elem_of_In _ _) Hth)).
  unfold is_idle, idle in *. destruct (th_rest th); [eauto..|done].
Qed.

(** The block holds when requests run at the same time: once an account is
    banned, disabled or deleted, no request that arrives afterwards - however the
    calls of all requests alternate, and whichever fail - opens a session for it,
    and none that cannot open one does, while nobody unbans or enables it. *)
Lemma block_holds_concurrently uid po po' :
  running po → pool_steps po po' → blocked uid (po_db po) →
  (∀ th, th ∈ po_threads po → idle th ∨ harmless uid (th_job th)) →
  (∀ r, r ∈ arrived po po' → lifts_block uid r = false) →
  blocked uid (po_db po') ∧ no_new_session uid (po_db po) (po_db po').
Proof.
  intros Hrun Hs Hb Hth Hnew. assert (frozen uid (po_db po) (po_db po')) as H; [|by apply H].
  apply (running_along (blocked uid) (frozen uid) (frozen_keeps uid)); [done..| |].
  - intros th Hin. destruct (Hth th Hin) as [[[u E]|E]|Hh]; [left; by rewrite E..|right]. by apply harmless_frozen.
  - intros r Hr. apply program_frozen, Hnew, Hr.
Qed.
End blocked.

(** ** Example: Ann is banned and tries to sign in *)

Import Toy.

Definition w_banned : World := final (run_request (RBanUser nobody "root-id" "root" (uuid_Bytes (u_ID ann_user)) "spam")) env w_in.
Definition w_tried : World := final (run_request (RLogin nobody ann ann_password)) env w_banned.
#[local] Opaque w_banned.

Lemma blocked_true uid d :
  exists_row (λ u, bool_decide (u_ID u = uid)) (users d) = true →
  List.forallb (λ u, not_usable (u_DeletedAt u) (u_Status u)) (users d) = true → blocked uid d.
Proof.
  intros H H'. split.
  - apply exists_row_true in H as (u & Hu & H). bool_to_prop. eauto.
  - rewrite forallb_forall in H'. intros u Hu _. exact (H' u (proj1 (list_elem_of_In _ _) Hu)).
Qed.
Lemma ann_blocked : blocked (u_ID ann_user) (w_db w_banned).
Proof. apply blocked_true; by vm_compute. Qed.
Lemma tried_serves : rtc (serve_blocking (u_ID ann_user)) (w_db w_banned) (w_db w_tried).
Proof. unfold w_tried. exact (rtc_once _ _ (serve_blocking_run (u_ID ann_user) (RLogin nobody ann ann_password) env w_banned eq_refl)). Qed.

Lemma blocked_account_gains_no_session_witness :
  length (sessions (w_db w_banned)) = 2%nat ∧ no_new_session (u_ID ann_user) (w_db w_banned) (w_db w_tried).
Proof.
  split; [by vm_compute|].
  exact (proj2 (blocked_account_gains_no_session (u_ID ann_user) (w_db w_banned) (w_db w_tried) tried_serves ann_blocked)).
Defined.

(** The ban has been carried out; two logins arrive and alternate. *)
Definition banned_pool : pool request verdict :=
  play env (replicate 40 0%nat) (mkPool (start <$> [RBanUser nobody "root-id" "root" (uuid_Bytes (u_ID ann_user)) "spam"]) w_in).
Definition latecomers : list request := [RLogin nobody ann ann_password; RLogin nobody ann ann_password].
Definition tried_pool : pool request verdict :=
  play env (concat (replicate 60 [1; 2]%nat)) (mkPool (po_threads banned_pool ++ (start <$> latecomers)) (po_world banned_pool)).

Lemma banned_pool_running : running banned_pool.
Proof. by apply play_running. Qed.
Lemma banned_pool_idle : List.forallb is_idle (po_threads banned_pool) = true.
Proof. by vm_compute. Qed.
Lemma tried_pool_steps : pool_steps banned_pool tried_pool.
Proof. eapply rtc_trans; [apply (accept_more latecomers)|by apply play_steps]. Qed.
Lemma banned_pool_blocked : blocked (u_ID ann_user) (po_db banned_pool).
Proof.
  apply blocked_true; by vm_compute.
Qed.
Lemma tried_pool_arrived : arrived banned_pool tried_pool = latecomers.
Proof. by vm_compute. Qed.

Lemma block_holds_concurrently_witness :
  length (sessions (po_db tried_pool)) = 2%nat ∧ no_new_session (u_ID ann_user) (po_db banned_pool) (po_db tried_pool).
Proof.
  split; [by vm_compute|].
  apply (block_holds_concurrently (u_ID ann_user) banned_pool tried_pool banned_pool_running tried_pool_steps banned_pool_blocked).
  - intros th Hth. left. exact (is_idle_true banned_pool banned_pool_idle th Hth).
  - rewrite tried_pool_arrived. unfold latecomers. intros r [->|[->|[]%not_elem_of_nil]%elem_of_cons]%elem_of_cons; reflexivity.
Defined.
