(* ===== verification/SignupSpec.v ===== *)
(** * What sign-up and single sign-on promise *)

From S2P Require Import Prelude.
From S2P Require Import GoLib.
From S2P Require Import Utils.
From S2P Require Import Model.
From S2P Require Import Runtime.
From S2P Require Import Logic.
From S2P Require Import Queries.
From S2P Require Import Store.
From S2P Require Import Password.
From S2P Require Import Tokens.
From S2P Require Import Codes.
From S2P Require Import Signup.
From S2P Require Import Mfa.
From S2P Require Import Login.
From S2P Require Import Session.
From S2P Require Import PasswordFlows.
From S2P Require Import Sso.
From S2P Require Import Frames.
From S2P Require Import Toy.
From S2P Require Import Requests.
From S2P Require Import Scenes.
From S2P Require Import LoginSpec.
From S2P Require Import TokenSpec.
From S2P Require Import PasswordSpec.

#[local] Open Scope string_scope.
#[local] Open Scope Z_scope.
#[local] Open Scope go_scope.

(** ** Step 2: the code *)

Section signup.
Context `{TL : TextLib} `{UL : UuidLib} `{HL : HashLib} `{JL : JwtLib}.

(** A sign-up code is exchanged for a token only if it is the code stored for
    that address, unexpired and under its number of guesses; and the token is a
    sign-up token for that address. *)
Lemma VerifyEmailCode_success email code e w tok :
  result (VerifyEmailCode email code) e w = Some (Done tok) →
  ∃ m x n, IsValidEmail (email_key email) = true
    ∧ w_redis w !! ("email_code:" ++ email_key email) = Some (ROTP m, x)
    ∧ otp_Code m = TrimSpace code ∧ otp_Attempts m < otp_MaxAttempts m ∧ e_clock e n ≤ otp_ExpiresAt m
    ∧ ∃ alg key id t y, jwt_SignedString alg key (temporary_claims id (email_key email) RoleJoiner t y) = Ok tok.
Proof.
  to_wp. unfold VerifyEmailCode, GetVerificationCode, email_key. wp_walk. destruct v; wp_walk.
  eapply wp_mono; [apply GenerateTemporaryJWT_signs|]. cbv beta. intros [[tok'|]|] w1 Hs; cbv beta iota; [|wp_walk..].
  wp_step. wp_skip; wp_walk; intros [= <-]; destruct (Hs _ eq_refl) as (alg & key & id & t & y & Hsig);
    apply rlookup_Some in H as [x Hx]; injection Heqr as <-; bool_to_prop;
    exists m, x, (w_tick (tick w)); split_and!; by eauto 10.
Qed.

(** ** Step 3: the account *)

(** The store after the account was made: one more account with its email
    identity, holding a hash of the password. *)
Definition account_made (e : Env) (email username password : string) (u : User) (d d' : DB) : Prop :=
  users d' = (users d ++ [u])%list
  ∧ u_Email u = pg_lower email ∧ u_UsernameDisplay u = username ∧ u_Role u = UserRoleUser
  ∧ not_usable (u_DeletedAt u) (u_Status u) = false
  ∧ ∃ a phc, auth_identities d' = (auth_identities d ++ [a])%list ∧ ai_UserID a = Some (u_ID u)
      ∧ ai_Provider a = ProviderNameEmail ∧ ai_ProviderUserID a = pg_lower email
      ∧ ai_PasswordHash a = Some phc ∧ hash_of e password phc ∧ ai_LockedAt a = None.

(** The tables that hold accounts. *)
Definition same_identities (d d' : DB) : Prop := users d' = users d ∧ auth_identities d' = auth_identities d.

Lemma insert_user_Ok email display role origin c d u d' :
  insert_user email display role origin c d = (Ok u, d') →
  users d' = (users d ++ [u])%list ∧ auth_identities d' = auth_identities d
  ∧ u_Email u = pg_lower email ∧ u_UsernameDisplay u = display ∧ u_Role u = role
  ∧ not_usable (u_DeletedAt u) (u_Status u) = false.
Proof. unfold insert_user. destruct (checks _); [done|]. by intros [= <- <-]. Qed.

Lemma insert_identity_Ok user provider puid hash c d a d' :
  insert_identity user provider puid hash c d = (Ok a, d') →
  users d' = users d ∧ auth_identities d' = (auth_identities d ++ [a])%list
  ∧ ai_UserID a = user ∧ ai_Provider a = provider ∧ ai_ProviderUserID a = puid ∧ ai_PasswordHash a = hash
  ∧ ai_LockedAt a = None.
Proof. unfold insert_identity. destruct (checks _); [done|]. by intros [= <- <-]. Qed.

Lemma CreateEmailAuth_Ok user email hash c d x d' :
  CreateEmailAuth user email hash c d = (Ok x, d') →
  ∃ a, users d' = users d ∧ auth_identities d' = (auth_identities d ++ [a])%list ∧ ai_UserID a = user
    ∧ ai_Provider a = ProviderNameEmail ∧ ai_ProviderUserID a = pg_lower email ∧ ai_PasswordHash a = hash
    ∧ ai_LockedAt a = None.
Proof.
  unfold CreateEmailAuth, discard. destruct (insert_identity _ _ _ _ c d) as [[a|] d1] eqn:E; [|done].
  intros [= _ <-]. exists a. by apply insert_identity_Ok in E.
Qed.

Lemma CreateEmailUser_wp email username password phc e w :
  hash_of e password phc →
  wp (CreateEmailUser email username phc) e (λ o w',
    match o with
    | Some (Ok c) => ∃ u, account_made e email username password u (w_db w) (w_db w') ∧ cu_ID c = u_ID u
    | _ => same_identities (w_db w) (w_db w') ∨ ∃ u, account_made e email username password u (w_db w) (w_db w')
    end) w.
Proof.
  intros Hh. unfold CreateEmailUser, CreateEmailUserInTx. apply wp_WithTx; [intros w' ->; by left|].
  wp_step. wp_step; [by wp_step; left|]. wp_step; [by wp_step; left|].
  wp_step. wp_step; [by wp_step; left| |by wp_step; left].
  apply insert_user_Ok in H0 as (H1 & H2 & H3 & H4 & H5 & H6). simpl in H1, H2.
  wp_step. wp_step; [by wp_step; left| |by wp_step; left].
  apply CreateEmailAuth_Ok in H0 as (ai & H7 & H8 & H9 & H10 & H11 & H12 & H13). simpl in H7, H8.
  assert (account_made e email username password a0 (w_db w) d0) as Hmade.
  { split; [congruence|]. split_and!; try done. exists ai, phc. split_and!; try done. congruence. }
  wp_step. simpl. split; [exists a0; by split|]. right. by exists a0.
Qed.

Lemma account_made_same e email username password u d d1 d2 :
  account_made e email username password u d d1 → same_identities d1 d2 → account_made e email username password u d d2.
Proof. unfold account_made. intros H [E1 E2]. by rewrite E1, E2. Qed.

(** What a sign-up leaves. *)
Definition join_post (e : Env) (email username password : string) (valid : Prop) (d : DB)
    (o : option (svc EmailJoinResult)) (w' : World) : Prop :=
  (same_identities d (w_db w') ∨ ∃ u, account_made e email username password u d (w_db w'))
  ∧ ∀ out, o = Some (Done out) → valid ∧ ∃ u, account_made e email username password u d (w_db w')
      ∧ ej_UserID out = uuid_String (u_ID u) ∧ session_issued w' (u_ID u) (ej_RefreshToken out).

Lemma CreateRefreshSession_frame id user exp hash ip ua c d s d' :
  CreateRefreshSession id user exp hash ip ua c d = (Ok s, d') → same_identities d d'.
Proof. unfold CreateRefreshSession. destruct (checks _); [done|]. by intros [= _ <-]. Qed.

(** Closing the temporary session leaves the rest of Redis, and the tables. *)
Lemma DeleteTemporarySession_keeps id k v e w :
  (∀ s, k ≠ "temporary_session:" ++ s) → w_redis w !! k = Some v →
  wp (DeleteTemporarySession id) e (λ o w', w_db w' = w_db w ∧ w_redis w' !! k = Some v) w.
Proof.
  intros Hk Hv. unfold DeleteTemporarySession. do 2 wp_step. wp_step; [by wp_step|]. unfold wp, redis_Del, redis_call.
  assert (delete ("temporary_session:" ++ id) (w_redis w) !! k = Some v) as Hd by (by rewrite lookup_delete_ne).
  destruct (e_redis_nil e); [by split|]. by destruct (e_fault e (w_tick w)).
Qed.

Lemma join_session_wp (c : CreatedUser) ctx e w :
  wp (cfg <- get_cfg ;;
      tokens <- GenerateUserTokens (uuid_String (cu_ID c)) (cu_Username c)
                  (UserRole_string (cu_Role c)) (cfg_AccessTTL cfg) (cfg_RefreshTTL cfg) ;;
      match tokens with
      | Err _ => ret (Fail TokenGenerationFailed)
      | Ok tokens =>
          let refreshHash := HashOpaqueToken (tp_RefreshToken tokens) in
          r <- CreateRefreshSessionInput
                 (mkRefreshSessionInput (tp_SessionID tokens) (Some (cu_ID c))
                    (tp_RefreshExp tokens) refreshHash (ClientIPFromCtx ctx) (UserAgentFromCtx ctx)) ;;
          match r with
          | Err _ =>
              DeleteSession (tp_SessionID tokens) ;;;
              ret (Fail TokenGenerationFailed)
          | Ok _ =>
              DeleteTemporarySession (GetContextString (ctx_JTIFromTempJWT ctx) "") ;;;
              ret (Done (mkEmailJoinResult (tp_AccessToken tokens) (tp_RefreshToken tokens)
                           (uuid_String (cu_ID c)) (cu_Username c)))
          end
      end) e (λ o w', same_identities (w_db w) (w_db w')
        ∧ ∀ out, o = Some (Done out) → ej_UserID out = uuid_String (cu_ID c)
            ∧ session_issued w' (cu_ID c) (ej_RefreshToken out)) w.
Proof.
  wp_step. wp_step. wp_step. eapply wp_mono; [apply GenerateUserTokens_wp|]. cbv beta.
  intros [[tp|]|] w1 [Hdb Ht]; [|by wp_step; rewrite Hdb|by rewrite Hdb].
  destruct (Ht tp eq_refl) as [_ Hkey]. unfold CreateRefreshSessionInput. wp_step. wp_step.
  - wp_step. wp_frame; [wp_step|]; unfold same_identities; by rewrite <- H, Hdb.
  - apply CreateRefreshSession_frame in H as Hfr. apply CreateRefreshSession_Ok in H as (H1 & H2 & H3 & H4 & H5).
    destruct Hkey as [x Hkey]. wp_step.
    eapply wp_mono; [eapply (DeleteTemporarySession_keeps _ ("refresh:" ++ tp_SessionID tp)); [done|exact Hkey]|].
    cbv beta. intros o w2 [Hd Hk]. simpl in Hd.
    assert (same_identities (w_db w) (w_db w2)) as Hsame by (unfold same_identities; rewrite Hd, Hdb; apply Hfr).
    destruct o as [r|]; [wp_step|by split]. split; [exact Hsame|]. intros out [= <-]. split; [done|].
    exists a, (tp_SessionID tp). rewrite Hd. split_and!; try done. by exists x.
  - apply CreateRefreshSession_frame in H as Hfr. wp_step.
    wp_frame; [wp_step|]; (split; [|done]); unfold same_identities; simpl in *; rewrite <- H0, Hdb; apply Hfr.
Qed.

Lemma CompleteEmailJoin_wp ctx username password confirm e w :
  let email := GetContextString (ctx_EmailFromTempJWT ctx) "" in
  wp (CompleteEmailJoin ctx username password confirm) e (λ o w',
    join_post e email username password (IsValidEmail email = true ∧ IsValidUsername username = true
      ∧ IsValidPassword password = true ∧ confirm = password) (w_db w) o w') w.
Proof.
  cbv zeta. set (email := GetContextString _ _).
  unfold CompleteEmailJoin. cbv zeta. fold email.
  do 4 (wp_step; [wp_step; by split; [left|]|]). bool_to_prop. subst confirm.
  wp_step. wp_step; [wp_step; by split; [left|]|]. wp_step; [wp_step; by split; [left|]|].
  wp_step. eapply wp_mono; [apply HashPasswordPHC_wp|]. cbv beta. intros [[phc|]|] w1 [Hw1 Hphc];
    [|wp_step; by split; [left; rewrite Hw1|]|by split; [left; rewrite Hw1|]].
  wp_step. eapply wp_mono; [apply CreateEmailUser_wp, Hphc, eq_refl|]. cbv beta. simpl in Hw1. rewrite Hw1.
  intros [[c|]|] w2 Hw2; [|by wp_step; split|by split].
  destruct Hw2 as (u & Hu & Hc). eapply wp_mono; [apply join_session_wp|]. cbv beta. rewrite Hc.
  intros o w3 [Hsame Hout]. pose proof (account_made_same _ _ _ _ _ _ _ _ Hu Hsame) as Hmade.
  split; [by right; exists u|]. intros out Ho. destruct (Hout out Ho). split; [done|]. by exists u.
Qed.

(** C28: completing a sign-up makes the account and its email identity together or
    not at all, whatever fails, with a hash of the password given; a success
    means they were made for the address of the sign-up token, from valid input,
    with a session for the new account. *)
Theorem CompleteEmailJoin_all_or_nothing ctx username password confirm e w :
  let email := GetContextString (ctx_EmailFromTempJWT ctx) "" in
  let w' := final (CompleteEmailJoin ctx username password confirm) e w in
  let made := account_made e email username password in
  (same_identities (w_db w) (w_db w') ∨ ∃ u, made u (w_db w) (w_db w'))
  ∧ ∀ out, result (CompleteEmailJoin ctx username password confirm) e w = Some (Done out) →
    IsValidEmail email = true ∧ IsValidUsername username = true ∧ IsValidPassword password = true ∧ confirm = password
    ∧ ∃ u, made u (w_db w) (w_db w')
        ∧ ej_UserID out = uuid_String (u_ID u) ∧ session_issued w' (u_ID u) (ej_RefreshToken out).
Proof.
  cbv zeta. destruct (CompleteEmailJoin_wp ctx username password confirm e w) as [H1 H2].
  split; [exact H1|]. intros out Hout. destruct (H2 out Hout) as ((?&?&?&?)&?). eauto.
Qed.

(** ** Single sign-on *)

Definition same_auth (d d' : DB) : Prop := auth_identities d' = auth_identities d.
#[local] Instance same_auth_preorder : PreOrder same_auth.
Proof. split; [done|]. intros d1 d2 d3 H1 H2. unfold same_auth in *. congruence. Qed.

Lemma issueLoginSession_auth uid iid name role ip ua : db_tracks same_auth (issueLoginSession uid iid name role ip ua).
Proof.
  assert (∀ id, st_in same_auth (TouchUserLastLogin id)).
  { intros id c d x d'. unfold TouchUserLastLogin, update_users. destruct (List.existsb _ _); [done|].
    destruct (trigger_rows _ _ _ _); [|done]. by intros [= _ <-]. }
  assert (∀ a b c d f g, st_in same_auth (CreateRefreshSession a b c d f g)).
  { intros. intros c0 d0 x d' E. by apply CreateRefreshSession_frame in E as []. }
  assert (∀ a b c d f, st_in same_auth (RecordLoginAttempt a b c d f)).
  { intros. intros c0 d0 x d' E. apply RecordLoginAttempt_frame in E. by rewrite E. }
  unfold issueLoginSession, CreateRefreshSessionInput, recordLoginAttempt. db_tracks.
Qed.

Lemma issued_wp uid iid name role ip ua e w :
  wp (issueLoginSession uid iid name role ip ua) e (λ o w', same_auth (w_db w) (w_db w') ∧ ∀ out, o = Some (Done out) →
      lr_UserID out = uuid_String uid ∧ session_issued w' uid (lr_RefreshToken out)) w.
Proof.
  split; [apply issueLoginSession_auth|].
  intros out Hout. by destruct (issueLoginSession_wp uid iid name role ip ua e w out Hout) as (_ & ? & _ & ?).
Qed.

(** The provider's account is linked to [u] in [d]. *)
Definition linked (d : DB) (provider : ProviderName) (subject : string) (uid : uuid) : Prop :=
  ∃ a, a ∈ auth_identities d ∧ ai_Provider a = provider ∧ ai_ProviderUserID a = subject ∧ ai_UserID a = Some uid.

Lemma CreateSSOUserAndIdentity_wp email display origin provider subject e w :
  wp (CreateSSOUserAndIdentity email display origin provider subject) e (λ o w', ∀ c, o = Some (Ok c) →
      linked (w_db w') provider subject (cs_UserID c) ∧ cs_UserID c ∉ user_ids (w_db w)) w.
Proof.
  unfold CreateSSOUserAndIdentity. apply wp_WithTx; [by intros w' _ c|].
  wp_step. wp_step; [by wp_step| |by wp_step].
  assert (u_ID a ∉ user_ids (w_db w)) as Hnew.
  { unfold CreateSSOUser, insert_user in H. destruct (checks _) eqn:Hck; [done|]. injection H as <- _.
    apply checks_cons in Hck as [_ Hck]. apply checks_cons in Hck as [Hfresh _]. apply negb_true_iff in Hfresh.
    unfold user_ids. intros (u & E & Hu%list_elem_of_In)%list_elem_of_In%in_map_iff.
    by apply (fresh_key u_ID _ _ Hfresh u Hu). }
  wp_step. wp_step; [by wp_step| |by wp_step]. unfold CreateSSOIdentity in H0.
  destruct (insert_identity _ _ _ _ _ _) as [[ai|] d1] eqn:E; [|done]. injection H0 as <- <-.
  apply insert_identity_Ok in E as (_ & Hids & H1 & H2 & H3 & _).
  wp_step. split; [|done]. intros c [= <-]. simpl. split; [|done]. exists ai. rewrite Hids.
  split_and!; try done. apply elem_of_app. right. by left.
Qed.

(** C31: a single sign-on succeeds only with an email the provider has verified.
    It signs in the usable account the provider's account is linked to; without
    one it makes a new account, and only if no account has that email: a
    provider's account is never linked to an account that was there before. *)
Theorem SSOLogin_success ctx provider origin claims e w out :
  let w' := final (SSOLogin ctx provider origin claims) e w in
  result (SSOLogin ctx provider origin claims) e w = Some (Done out) →
  oc_EmailVerified claims = true
  ∧ ∃ uid, lr_UserID out = uuid_String uid ∧ session_issued w' uid (lr_RefreshToken out)
    ∧ ((∃ u, u ∈ users (w_db w) ∧ u_ID u = uid ∧ not_usable (u_DeletedAt u) (u_Status u) = false
          ∧ linked (w_db w) provider (oc_Subject claims) uid)
       ∨ ((uid ∉ user_ids (w_db w))
          ∧ (∀ u, u ∈ users (w_db w) → pg_lower (u_Email u) ≠ pg_lower (oc_Email claims))
          ∧ linked (w_db w') provider (oc_Subject claims) uid)).
Proof.
  cbv zeta. to_wp. unfold SSOLogin. wp_step; [wp_dead|]. bool_to_prop. cbv zeta. wp_step. wp_step.
  - wp_step; [wp_dead|]. wp_step. wp_step; [|wp_dead]. wp_step; [wp_dead|].
    wp_step. apply (wp_db_tracks eq); [tracked|].
    intros [[username|]|] w1 Hw1; cbv beta iota; [|wp_dead|wp_absurd].
    wp_step. eapply wp_mono; [apply CreateSSOUserAndIdentity_wp|]. cbv beta.
    intros [[c|]|] w2 Hc; cbv beta iota; [|wp_dead|wp_absurd]. destruct (Hc c eq_refl) as [Hl Hnew].
    eapply wp_mono; [apply issued_wp|]. cbv beta. intros o w3 [Ha Hout] ->. destruct (Hout out eq_refl) as [Hid Hs].
    split; [done|]. exists (cs_UserID c). split_and!; [done|done|]. right. rewrite <- Hw1 in Hnew. split_and!; [done|..].
    + intros u Hu E. unfold is_no_rows in *. bool_to_prop. subst err0. destruct H0 as [H0|H0]; [done|].
      unfold GetUserIDByEmail in H0. destruct (fetch_one _ _) as [|err1] eqn:Ef; [done|].
      apply fetch_one_Err in Ef as [_ Hno]. specialize (Hno u Hu). simpl in Hno. by rewrite bool_decide_eq_false in Hno.
    + destruct Hl as (ai & Hin & Hl). exists ai. unfold same_auth in Ha. by rewrite Ha.
  - wp_step; [wp_dead|]. unfold GetIdentityByProvider in H. destruct (fetch_one _ _) as [[ai u]|] eqn:Ef; [|done].
    injection H as <-. apply fetch_one_Ok in Ef as [(Hin & Hu & Ho)%LoginSpec.elem_of_join Hp]. bool_to_prop. simpl in *.
    eapply wp_mono; [apply issued_wp|]. cbv beta. intros o w3 [_ Hout] ->. destruct (Hout out eq_refl) as [Hid Hs].
    split; [done|]. exists (u_ID u). split_and!; [done|done|]. left. exists u. split_and!; try done. by exists ai.
Qed.
End signup.

(** ** Examples *)

Import Toy.

Definition join_token : string := outcome "" (result (VerifyEmailCode ann ann_code) env w_started).
Lemma ann_code_runs : result (VerifyEmailCode ann ann_code) env w_started = Some (Done join_token).
Proof. by vm_compute. Qed.
Lemma VerifyEmailCode_success_witness :
  ∃ m x, w_redis w_started !! ("email_code:" ++ email_key ann) = Some (ROTP m, x).
Proof.
  destruct (VerifyEmailCode_success ann ann_code env w_started join_token ann_code_runs)
    as (m & x & _ & _ & H & _). exact (ex_intro _ m (ex_intro _ x H)).
Defined.

Definition bob : string := "bob@example.com".
Definition bob_claims : OIDCClaims := mkOIDCClaims "bob-at-google" bob true.
#[local] Abbreviation bob_sso := (SSOLogin nobody ProviderNameGoogle UserOriginGoogle bob_claims).
Definition bob_out : LoginOutcome := outcome (mkLoginOutcome "" "" "" "" false "" []) (result bob_sso env w_in).
Definition w_bob_sso : World := final bob_sso env w_in.
#[local] Opaque bob_out.
Lemma bob_sso_runs : result bob_sso env w_in = Some (Done bob_out).
Proof. by vm_compute. Qed.

Lemma SSOLogin_success_witness : ∃ uid, session_issued w_bob_sso uid (lr_RefreshToken bob_out).
Proof.
  destruct (SSOLogin_success nobody ProviderNameGoogle UserOriginGoogle bob_claims env w_in bob_out bob_sso_runs)
    as (_ & uid & _ & H & _). exact (ex_intro _ uid H).
Defined.

(** An email that belongs to an account made through single sign-on passes the
    first two steps of an email sign-up, and the third fails as an internal
    error. *)
Definition w_bob_started : World := final (StartEmailVerification bob) env w_bob_sso.
Definition bob_code : string :=
  match w_redis w_bob_started !! ("email_code:" ++ bob) with Some (ROTP m, _) => otp_Code m | _ => "" end.
Definition w_bob_verified : World := final (VerifyEmailCode bob bob_code) env w_bob_started.
Definition bob_join_ctx : Ctx := mkCtx None (Some bob) None None None None None.

Example sso_email_passes_verification :
  (result (StartEmailVerification bob) env w_bob_sso,
   match result (VerifyEmailCode bob bob_code) env w_bob_started with Some (Done _) => true | _ => false end,
   result (CompleteEmailJoin bob_join_ctx "bobby" ann_password ann_password) env w_bob_verified)
  = (Some (Done ()), true, Some (Fail InternalServerError)).
Proof. by vm_compute. Qed.

(** The username made from an email is cut to 24 characters after its ends were
    trimmed, so it can end in a dot, which the database refuses: such an email
    cannot be signed up through single sign-on. *)
Definition dotted : string := "abcdefghijklmnopqrstuvw.xyz@example.com".
Example username_base_ends_in_dot :
  (username_base dotted,
   result (SSOLogin nobody ProviderNameGoogle UserOriginGoogle (mkOIDCClaims "dotted" dotted true)) env w_in)
  = ("abcdefghijklmnopqrstuvw.", Some (Fail InternalServerError)).
Proof. by vm_compute. Qed.
