(* ===== verification/PasskeySpec.v ===== *)
(** * What passkeys promise *)

From S2P Require Import Prelude.
From S2P Require Import GoLib.
From S2P Require Import Utils.
From S2P Require Import Model.
From S2P Require Import Runtime.
From S2P Require Import Logic.
From S2P Require Import Queries.
From S2P Require Import Store.
From S2P Require Import Password.
From S2P Require Import Tokens.
From S2P Require Import Codes.
From S2P Require Import Signup.
From S2P Require Import Mfa.
From S2P Require Import Login.
From S2P Require Import Session.
From S2P Require Import PasswordFlows.
From S2P Require Import Sso.
From S2P Require Import Passkey.
From S2P Require Import Frames.
From S2P Require Import Walks.
From S2P Require Import Toy.
From S2P Require Import Requests.
From S2P Require Import Scenes.
From S2P Require Import LoginSpec.
From S2P Require Import PasswordSpec.

#[local] Open Scope string_scope.
#[local] Open Scope Z_scope.
#[local] Open Scope go_scope.

Section passkey.
Context `{TL : TextLib} `{UL : UuidLib} `{HL : HashLib} `{JL : JwtLib} `{WL : WebAuthnLib} `{WLaws : !WebAuthnLaws WL}.

(** ** Login *)

(** A credential registered for account [uid]. *)
Definition registered (d : DB) (uid : uuid) (c : Credential) : Prop :=
  ∃ row, row ∈ webauthn_credentials d ∧ wc_UserID row = uid ∧ cred_Unmarshal (wc_Credential row) = Ok c.

Lemma unmarshal_credentials_elem rows l c :
  unmarshal_credentials rows = Ok l → c ∈ l → ∃ row, row ∈ rows ∧ cred_Unmarshal (wc_Credential row) = Ok c.
Proof.
  revert l. induction rows as [|row rows IH]; intros l; simpl; [intros [= <-] H; by apply not_elem_of_nil in H|].
  destruct (cred_Unmarshal _) as [c0|] eqn:E; [|done]. destruct (unmarshal_credentials rows) as [l0|]; [|done].
  intros [= <-] [->|H]%elem_of_cons.
  - exists row. split; [by left|done].
  - destruct (IH l0 eq_refl H) as (r & Hr & ?). exists r. split; [by right|done].
Qed.

Lemma loadWebAuthnUser_wp uid name e w :
  wp (loadWebAuthnUser uid name) e (λ o w', w_db w' = w_db w ∧ w_redis w' = w_redis w ∧ ∀ u rows, o = Some (Ok (u, rows)) →
      wu_ID u = uuid_Bytes uid ∧ ∀ c, c ∈ wu_Credentials u → registered (w_db w) uid c) w.
Proof.
  unfold loadWebAuthnUser. wp_step. wp_step; [by wp_step|]. unfold GetWebAuthnCredentialsByUserID in H.
  injection H as H. wp_step; wp_step; [|done]. do 2 (split; [done|]). intros u rows [= <- <-]. split; [done|].
  intros c Hc. destruct (unmarshal_credentials_elem _ _ _ Heqr Hc) as (row & Hrow & Hun).
  rewrite <- H in Hrow. rewrite sort_by_Permutation in Hrow. apply elem_of_select in Hrow as [Hrow Hown].
  exists row. split_and!; try done. simpl in Hown. by bool_to_prop.
Qed.

(** The library accepted the assertion [r] for the stored ceremony [data] and the
    account [uid], with credential [c]. *)
Definition assertion_verified (wa : option WebAuthn) (data : string) (r : Request) (uid : uuid) (c : Credential) : Prop :=
  ∃ wa' s raw k t cu, wa = Some wa' ∧ session_Unmarshal data = Ok s
    ∧ wa_FinishPasskeyLogin wa' t s r = PkCall raw (uuid_Bytes uid) k ∧ k cu = Ok c.

(** C32: a passkey login succeeds only while its ceremony is stored, for the account
    the authenticator names, with a credential registered for that account, and
    while the account is usable; and it issues a session for that account. *)
Theorem FinishPasskeyLogin_success ctx wa cid r e w out :
  result (FinishPasskeyLogin ctx wa cid r) e w = Some (Done out) →
  ∃ u data x c c0, w_redis w !! ("webauthn_login:" ++ cid) = Some (RStr data, x)
    ∧ u ∈ users (w_db w) ∧ not_usable (u_DeletedAt u) (u_Status u) = false
    ∧ assertion_verified wa data r (u_ID u) c
    ∧ registered (w_db w) (u_ID u) c0 ∧ cred_ID c0 = cred_ID c
    ∧ lr_UserID out = uuid_String (u_ID u)
    ∧ session_issued (final (FinishPasskeyLogin ctx wa cid r) e w) (u_ID u) (lr_RefreshToken out).
Proof.
  to_wp. unfold FinishPasskeyLogin, GetWebAuthnLoginSession, getWebAuthnSession. destruct wa as [wa|]; [|wp_dead].
  do 3 wp_step; [done|wp_dead|]. wp_step. destruct v as [data|]; [|wp_dead]. wp_step. wp_step; [|wp_dead].
  wp_step. wp_step. wp_step; [wp_dead|]. apply rlookup_Some in H as [x Hx].
  unfold passkey_handler. wp_step. wp_step; [wp_dead|]. wp_step. wp_step; [wp_dead|].
  apply fetch_one_Ok in H as [Hu Hid%id_is_true]. simpl in Hu. injection Hid as Hid.
  wp_step. eapply wp_mono; [apply loadWebAuthnUser_wp|]. cbv beta.
  intros [[[cu rows]|]|] w1 (Hdb & _ & Hreg); cbv beta iota; [|wp_dead|wp_absurd].
  destruct (Hreg cu rows eq_refl) as [Hcu Hcreds]. clear Hreg. wp_step.
  wp_step; [|wp_dead]. unfold passkey_finish, DeleteWebAuthnLoginSession.
  wp_step; [wp_dead|]. wp_step; [|wp_dead]. wp_step. wp_skip; [|wp_absurd]. wp_step. wp_skip; [|wp_absurd].
  eapply wp_mono; [apply issueLoginSession_wp|]. cbv beta. intros o w4 Hout ->.
  destruct (Hout out eq_refl) as (_ & H1 & _ & H2).
  destruct (wa_login_owned _ _ _ _ _ _ _ _ _ Heqp Heqr2) as (_ & c0 & Hc0 & Hcid).
  exists a0, s, x, a1, c0. rewrite Hid in *. split_and!; try done; [|by apply Hcreds].
  exists wa, a, rawID, k, (e_clock e (w_tick (tick w))), cu. by rewrite <- Hid.
  wp_dead.
Qed.

(** ** A ceremony is used once *)

Lemma issueLoginSession_absent k uid iid name role ip ua :
  (∀ s, "session:" ++ s ≠ k) → (∀ s, "refresh:" ++ s ≠ k) →
  redis_tracks (absent k) (issueLoginSession uid iid name role ip ua).
Proof.
  intros H1 H2. unfold issueLoginSession, CreateRefreshSessionInput, recordLoginAttempt, GenerateUserTokens,
    generateAccessJWT, generateAndStoreRefresh, GenerateSession, DeleteSession, RandomToken. redis_tracks.
Qed.

Lemma getWebAuthnSession_absent key e w :
  w_redis w !! key = None → wp (getWebAuthnSession key) e (λ o _, ∀ s, o ≠ Some (Ok s)) w.
Proof.
  intros Hno. unfold getWebAuthnSession. repeat wp_step; try done.
  apply rlookup_Some in H as [x Hx]. congruence.
Qed.

Lemma FinishPasskeyLogin_absent ctx wa cid r e w out :
  w_redis w !! ("webauthn_login:" ++ cid) = None → result (FinishPasskeyLogin ctx wa cid r) e w ≠ Some (Done out).
Proof.
  intros Hno. to_wp. unfold FinishPasskeyLogin. destruct wa as [wa|]; [|wp_dead]. wp_step.
  eapply wp_mono; [by apply getWebAuthnSession_absent|]. cbv beta.
  intros [[s|]|] w1 H; [by destruct (H s)|by wp_step|done].
Qed.

Lemma update_used_credential_Some rows id json e w :
  wp (update_used_credential rows id json) e (λ o w', o = Some ()) w.
Proof.
  revert w. induction rows as [|row rows IH]; intros w; cbn [update_used_credential]; [by wp_step|].
  wp_step; [|apply IH]. wp_step. wp_step; by wp_step.
Qed.

Lemma FinishPasskeyLogin_consumes ctx wa cid r e w :
  no_faults e →
  wp (FinishPasskeyLogin ctx wa cid r) e (λ o w', ∀ out, o = Some (Done out) →
     w_redis w' !! ("webauthn_login:" ++ cid) = None) w.
Proof.
  intros Hf. unfold FinishPasskeyLogin. destruct wa as [wa|]; [|by wp_step]. wp_step. wp_skip; [|done].
  wp_step; [|by wp_step]. wp_step. wp_step. wp_step; [by wp_step|]. wp_step. wp_skip; [|done].
  wp_step; [by wp_step|by wp_step|]. wp_step; [|by wp_step].
  unfold passkey_finish. wp_step; [by wp_step|]. wp_step; [|by wp_step].
  wp_step. eapply wp_mono; [apply update_used_credential_Some|]. cbv beta. intros ? w3 ->.
  unfold DeleteWebAuthnLoginSession. wp_step. apply (quiet_redis_Del _ Hf). cbv beta.
  intros out _. apply issueLoginSession_absent; [done|done|]. simpl. by rewrite lookup_delete_eq.
Qed.

(** A passkey ceremony signs in once: an assertion for it is refused after it
    has been used, whatever the assertion. *)
Lemma passkey_ceremony_single_use ctx wa cid r e w out ctx' wa' r' e' out' :
  no_faults e → result (FinishPasskeyLogin ctx wa cid r) e w = Some (Done out) →
  result (FinishPasskeyLogin ctx' wa' cid r') e' (final (FinishPasskeyLogin ctx wa cid r) e w) ≠ Some (Done out').
Proof.
  intros Hf Hdone. apply FinishPasskeyLogin_absent. by eapply (FinishPasskeyLogin_consumes ctx wa cid r e w Hf).
Qed.

(** ** Removal *)

(** The current password of account [uid] is [password]. *)
Definition password_checks (e : Env) (d : DB) (uid : uuid) (password : string) : Prop :=
  ∃ a, a ∈ auth_identities d ∧ ai_Provider a = ProviderNameEmail ∧ ai_UserID a = Some uid
    ∧ (phc_check (e_cfg e) password (text_String (ai_PasswordHash a)) true).1 = Ok true.

Lemma verifyCurrentPassword_wp uid password e w :
  wp (verifyCurrentPasswordForFactorAction uid password) e (λ o w', w_db w' = w_db w
      ∧ (o = Some (Done ()) → password_checks e (w_db w) uid password)) w.
Proof.
  unfold verifyCurrentPasswordForFactorAction. wp_step. wp_step; [by wp_step|].
  apply GetEmailAuthByUserID_Ok in H as (a0 & u & Ha & Hu & Ho & Hp & Huid & ->). injection Huid as ->.
  wp_step. apply VerifyPasswordPHC_wp. cbv beta iota. simpl ea_PasswordHash.
  destruct (phc_check _ _ _ _) as [[b|] n] eqn:E; cbn [fst snd]; rewrite burn_n_eq; wp_step; [|done].
  split; [done|]. destruct b; [|done]. intros _. exists a0. by rewrite E.
Qed.

(** The passkey [pk] of account [uid] is gone, and nothing else. *)
Definition passkey_removed (d d' : DB) (uid pk : uuid) : Prop :=
  webauthn_credentials d' = delete_where (own_credential (Some pk) (Some uid)) (webauthn_credentials d).

Lemma owns_row_true rows pk : owns_row rows pk = true → ∃ row, row ∈ rows ∧ wc_ID row = pk.
Proof.
  induction rows as [|row rows IH]; simpl; [done|]. destruct (decide _) as [E|]; intros H.
  - exists row. split; [by left|done].
  - destruct (IH H) as (r & Hr & E). exists r. split; [by right|done].
Qed.

Lemma userOwnsPasskey_wp uid pk e w :
  wp (userOwnsPasskey uid pk) e (λ o w', w_db w' = w_db w ∧ (o = Some true →
      ∃ row, row ∈ webauthn_credentials (w_db w) ∧ wc_ID row = pk ∧ wc_UserID row = uid)) w.
Proof.
  unfold userOwnsPasskey. wp_step. wp_step; [by wp_step|]. injection H as <-. wp_step. split; [done|].
  intros [= (row & Hrow & Hid)%owns_row_true]. rewrite sort_by_Permutation in Hrow.
  apply elem_of_select in Hrow as [Hrow Hown]. simpl in Hown. bool_to_prop. eauto.
Qed.

Lemma CreateAuditLog_credentials p :
  st_in (λ d d', webauthn_credentials d' = webauthn_credentials d) (CreateAuditLog p).
Proof. by intros c d x d' [= _ <-]. Qed.

(** Deleting a passkey removes that passkey of that account or nothing, whatever
    fails; a success means the account had it and the current password was
    given. *)
Lemma DeletePasskey_own_only userID password passkeyID e w :
  let d' := w_db (final (DeletePasskey userID password passkeyID) e w) in
  (webauthn_credentials d' = webauthn_credentials (w_db w)
   ∨ ∃ uid pk, uuid_Parse userID = Some uid ∧ uuid_Parse passkeyID = Some pk ∧ passkey_removed (w_db w) d' uid pk)
  ∧ (result (DeletePasskey userID password passkeyID) e w = Some (Done ()) →
     ∃ uid pk, uuid_Parse userID = Some uid ∧ uuid_Parse passkeyID = Some pk ∧ passkey_removed (w_db w) d' uid pk
       ∧ password_checks e (w_db w) uid password
       ∧ ∃ row, row ∈ webauthn_credentials (w_db w) ∧ wc_ID row = pk ∧ wc_UserID row = uid).
Proof.
  cbv zeta. enough (wp (DeletePasskey userID password passkeyID) e (λ o w',
    (webauthn_credentials (w_db w') = webauthn_credentials (w_db w)
     ∨ ∃ uid pk, uuid_Parse userID = Some uid ∧ uuid_Parse passkeyID = Some pk ∧ passkey_removed (w_db w) (w_db w') uid pk)
    ∧ (o = Some (Done ()) →
       ∃ uid pk, uuid_Parse userID = Some uid ∧ uuid_Parse passkeyID = Some pk ∧ passkey_removed (w_db w) (w_db w') uid pk
         ∧ password_checks e (w_db w) uid password
         ∧ ∃ row, row ∈ webauthn_credentials (w_db w) ∧ wc_ID row = pk ∧ wc_UserID row = uid)) w) as H by exact H.
  unfold DeletePasskey, parseUserID. destruct (uuid_Parse userID) as [uid|]; [|wp_step; by split; [left|]].
  destruct (uuid_Parse passkeyID) as [pk|]; [|wp_step; by split; [left|]].
  wp_step. eapply wp_mono; [apply verifyCurrentPassword_wp|]. cbv beta. intros [[[]|]|] w1 [Hw1 Hpw];
    [|wp_step; by split; [left; rewrite Hw1|]|by split; [left; rewrite Hw1|]].
  wp_step. eapply wp_mono; [apply userOwnsPasskey_wp|]. cbv beta. intros [[]|] w2 [Hw2 Hown];
    cbn [negb]; [|wp_step; by split; [left; rewrite Hw2, Hw1|]|by split; [left; rewrite Hw2, Hw1|]].
  specialize (Hpw eq_refl). specialize (Hown eq_refl). rewrite Hw1 in Hown, Hw2.
  wp_step. wp_step.
  - wp_step. split; [left; simpl; by rewrite Hw2|done].
  - injection H as _ <-. wp_step. rewrite Hw2.
    apply (wp_db_tracks (λ d d', webauthn_credentials d' = webauthn_credentials d)).
    { apply st_call; [|apply CreateAuditLog_credentials]. split; [done|]. intros ???; congruence. }
    intros [r|] w3 Hw3; simpl in Hw3; [wp_step|]; (split; [right|]); intros; exists uid, pk; by split_and!.
  - injection H as _ <-. wp_step. simpl. rewrite Hw2. split; [right|done]. by exists uid, pk.
Qed.
End passkey.

(** ** Examples *)

Import Toy.

(** Ann registers a passkey and signs in with it. *)
Definition ann_id : string := uuid_Bytes (u_ID ann_user).
Definition site : option (@WebAuthn webauthn) := Some tt.
Definition assertion : @Request webauthn := ("key-1", ann_id).
Definition w_passkey : World :=
  final (FinishPasskeyRegistration site ann_id "ann" "laptop" assertion) env
    (final (BeginPasskeyRegistration site ann_id "ann") env w_in).
Definition ceremony : string :=
  match result (BeginPasskeyLogin site) env w_passkey with Some (Done c) => plc_CeremonyID c | _ => "" end.
Definition w_ceremony : World := final (BeginPasskeyLogin site) env w_passkey.
#[local] Abbreviation pk_login := (FinishPasskeyLogin nobody site ceremony assertion).
Definition pk_out : LoginOutcome := outcome (mkLoginOutcome "" "" "" "" false "" []) (result pk_login env w_ceremony).
#[local] Opaque w_passkey w_ceremony ceremony pk_out ann_id.

Lemma pk_login_runs : result pk_login env w_ceremony = Some (Done pk_out).
Proof. by vm_compute. Qed.

Lemma FinishPasskeyLogin_success_witness :
  ∃ u, u ∈ users (w_db w_ceremony) ∧ session_issued (final pk_login env w_ceremony) (u_ID u) (lr_RefreshToken pk_out).
Proof.
  destruct (FinishPasskeyLogin_success nobody site ceremony assertion env w_ceremony pk_out pk_login_runs)
    as (u & _ & _ & _ & _ & _ & Hu & _ & _ & _ & _ & _ & H). exact (ex_intro _ u (conj Hu H)).
Defined.

Lemma passkey_ceremony_single_use_witness :
  result pk_login env w_ceremony = Some (Done pk_out)
  ∧ result pk_login env (final pk_login env w_ceremony) ≠ Some (Done pk_out).
Proof.
  exact (conj pk_login_runs
    (passkey_ceremony_single_use nobody site ceremony assertion env w_ceremony pk_out
       nobody site assertion env pk_out env_quiet pk_login_runs)).
Defined.
