(* ===== verification/EnrollSpec.v ===== *)
(** * What enrolling and removing a factor promise *)

From S2P Require Import Prelude.
From S2P Require Import GoLib.
From S2P Require Import Utils.
From S2P Require Import Model.
From S2P Require Import Runtime.
From S2P Require Import Logic.
From S2P Require Import Queries.
From S2P Require Import Store.
From S2P Require Import Password.
From S2P Require Import Tokens.
From S2P Require Import Codes.
From S2P Require Import Signup.
From S2P Require Import Mfa.
From S2P Require Import Login.
From S2P Require Import Session.
From S2P Require Import PasswordFlows.
From S2P Require Import Sso.
From S2P Require Import Frames.
From S2P Require Import Walks.
From S2P Require Import Toy.
From S2P Require Import Requests.
From S2P Require Import Scenes.
From S2P Require Import LoginSpec.
From S2P Require Import PasswordSpec.
From S2P Require Import MfaSpec.
From S2P Require Import PasskeySpec.

#[local] Open Scope string_scope.
#[local] Open Scope Z_scope.
#[local] Open Scope go_scope.

Section enroll.
Context `{TL : TextLib} `{UL : UuidLib} `{HL : HashLib} `{JL : JwtLib} `{OL : TotpLib} `{AL : AeadLib}.

(** ** Recovery codes *)

Lemma generate_recovery_codes_wp n raws hashes e w :
  hashes = List.map HashOpaqueToken raws →
  wp (generate_recovery_codes n raws hashes) e (λ o w', w_db w' = w_db w ∧ ∀ raws' hashes', o = Some (Done (raws', hashes')) →
      hashes' = List.map HashOpaqueToken raws' ∧ length raws' = (length raws + n)%nat) w.
Proof.
  revert raws hashes w. induction n as [|n IH]; intros raws hashes w Hh; cbn [generate_recovery_codes].
  { wp_step. split; [done|]. intros ? ? [= <- <-]. split; [done|lia]. }
  wp_step. wp_frame; [|done]. wp_step; [|wp_step; by rewrite <- H].
  eapply wp_mono; [apply IH; by rewrite map_app, Hh|]. cbv beta. rewrite length_app, <- H. simpl.
  intros o w1 [Hw1 Hr]. split; [done|]. intros raws' hashes' Ho. destruct (Hr _ _ Ho). split; [done|lia].
Qed.

Lemma generateRecoveryCodes_wp n e w :
  wp (generateRecoveryCodes n) e (λ o w', w_db w' = w_db w ∧ ∀ raws hashes, o = Some (Done (raws, hashes)) →
      hashes = List.map HashOpaqueToken raws ∧ Z.of_nat (length raws) = n) w.
Proof.
  unfold generateRecoveryCodes. wp_step; [by wp_step|]. bool_to_prop.
  eapply wp_mono; [by apply generate_recovery_codes_wp|]. cbv beta. intros o w1 [Hw1 Hr]. split; [done|].
  intros raws hashes Ho. destruct (Hr _ _ Ho) as [? Hl]. split; [done|]. simpl in Hl. lia.
Qed.

(** ** Completing an enrolment *)

(** The rows of fresh recovery codes of factor [fid]. *)
Definition fresh_codes (fid : uuid) (hashes : list string) (rows : list MfaRecoveryCode) : Prop :=
  List.map rc_CodeHash rows = hashes ∧ Forall (λ r, rc_FactorID r = fid ∧ rc_UsedAt r = None) rows.

(** The store once factor [fid] is enabled with these recovery codes: the factor's
    row is verified, enabled and remembers the step used; its old codes are gone. *)
Definition factor_enrolled (fid : uuid) (step : Z) (hashes : list string) (d d' : DB) : Prop :=
  (∃ t, mfa_factors d' = update (id_is mf_ID (Some fid))
      (λ f, set_mf_FailedAttempts (Some 0) (set_mf_LastUsedStep (Some step) (set_mf_LastUsedAt (Some t) f)))
      (update (id_is mf_ID (Some fid)) (λ f, set_mf_Enabled (Some true) (set_mf_Verified (Some true) f)) (mfa_factors d)))
  ∧ ∃ rows, mfa_recovery_codes d'
            = (delete_where (λ r, bool_decide (rc_FactorID r = fid)) (mfa_recovery_codes d) ++ rows)%list
      ∧ fresh_codes fid hashes rows.

Lemma update_factors_Ok p f c d x d' :
  update_factors p f c d = (Ok x, d') →
  mfa_factors d' = update p f (mfa_factors d) ∧ mfa_recovery_codes d' = mfa_recovery_codes d.
Proof.
  unfold update_factors. destruct (List.existsb _ _); [done|].
  destruct (trigger_rows _ _ _ _); [|done]. by intros [= _ <-].
Qed.

Lemma CreateMFARecoveryCode_Ok fid hash c d x d' :
  CreateMFARecoveryCode fid hash c d = (Ok x, d') →
  ∃ r, mfa_recovery_codes d' = (mfa_recovery_codes d ++ [r])%list ∧ mfa_factors d' = mfa_factors d
    ∧ rc_CodeHash r = hash ∧ rc_FactorID r = fid ∧ rc_UsedAt r = None.
Proof. unfold CreateMFARecoveryCode. destruct (checks _); [done|]. intros [= _ <-]. by eexists. Qed.

Lemma create_codes_wp fid hashes e w :
  wp (for_each_ok (λ hash, db_stmt (CreateMFARecoveryCode fid hash)) hashes) e (λ o w', ∀ x, o = Some (Ok x) →
      mfa_factors (w_db w') = mfa_factors (w_db w)
      ∧ ∃ rows, mfa_recovery_codes (w_db w') = (mfa_recovery_codes (w_db w) ++ rows)%list ∧ fresh_codes fid hashes rows) w.
Proof.
  revert w. induction hashes as [|h hashes IH]; intros w; cbn [for_each_ok].
  { wp_step. intros _ _. split; [done|]. exists []. rewrite app_nil_r. repeat split; constructor. }
  wp_step. wp_step; [by wp_step| |by wp_step].
  apply CreateMFARecoveryCode_Ok in H as (r & Hr & Hf & H1 & H2 & H3).
  eapply wp_mono; [apply IH|]. cbv beta. simpl. rewrite Hr, Hf. intros o w1 Ho x Hx.
  destruct (Ho x Hx) as (Hf1 & rows & Hrows & Hh & Hall). split; [done|]. exists (r :: rows).
  rewrite Hrows, <- app_assoc. split; [done|]. split; [simpl; by rewrite H1, Hh|]. by constructor.
Qed.

Lemma CompleteMFAEnrollment_wp fid step hashes e w :
  wp (CompleteMFAEnrollment fid step hashes) e (λ o w',
    match o with
    | Some (Ok _) => factor_enrolled fid step hashes (w_db w) (w_db w')
    | _ => w_db w' = w_db w ∨ factor_enrolled fid step hashes (w_db w) (w_db w')
    end) w.
Proof.
  unfold CompleteMFAEnrollment. apply wp_WithTx; [by left|].
  wp_step. wp_step; [by wp_step; left| |by wp_step; left]. apply update_factors_Ok in H as [H1 H2]. simpl in H1, H2.
  wp_step. wp_step; [by wp_step; left| |by wp_step; left]. apply update_factors_Ok in H as [H3 H4]. simpl in H3, H4.
  wp_step. wp_step; [by wp_step; left| |by wp_step; left]. injection H as _ <-.
  eapply wp_mono; [apply create_codes_wp|]. cbv beta. simpl. rewrite H4, H2, H3, H1.
  intros [[x|]|] w1 Hw1; [|by left|by left]. destruct (Hw1 x eq_refl) as (Hf & Hrows).
  assert (factor_enrolled fid step hashes (w_db w) (w_db w1)) as He by (split; [by eexists|done]).
  split; [done|by right].
Qed.

(** No factor was enabled, none replaced, and no recovery code touched. *)
Definition factors_kept (d d' : DB) : Prop :=
  mfa_recovery_codes d' = mfa_recovery_codes d
  ∧ List.map (λ f, (mf_ID f, mf_Enabled f, mf_Secret f)) (mfa_factors d')
    = List.map (λ f, (mf_ID f, mf_Enabled f, mf_Secret f)) (mfa_factors d).

Lemma IncrementTOTPFailedAttempts_kept id : st_in factors_kept (IncrementTOTPFailedAttempts id).
Proof.
  intros c d x d'. unfold IncrementTOTPFailedAttempts, IncrementOTPFactorFailedAttempts.
  destruct (List.existsb _ _); [done|]. intros [H1 H2]%update_factors_Ok. split; [done|]. rewrite H1. by apply update_proj.
Qed.
#[local] Instance factors_kept_preorder : PreOrder factors_kept.
Proof. split; [done|]. intros d1 d2 d3 [H1 H2] [H3 H4]. split; congruence. Qed.

(** What enables factor [f] of [uid] with [code]. *)
Record enrolment_grounds (e : Env) (w : World) (userID code : string) (f : MfaFactor) (step : Z) : Prop := {
  eg_owner : factor_of (uuid_Parse userID) MfaTypeTotp f = true;
  eg_row : f ∈ mfa_factors (w_db w);
  eg_pending : bool_Bool (mf_Verified f) = false;
  eg_code : ∃ secret n, result (DecryptMFASecret (text_String (mf_Secret f))) e w = Some (Ok secret)
    ∧ ValidateTOTPCode secret (TrimSpace code) (int_Int (mf_LastUsedStep f)) (e_clock e n) = (step, true)
}.

(** A TOTP factor is enabled together with its new recovery codes or not at
    all, whatever fails.  A success means the pending factor of that user was
    enabled with a current code of its secret, and the codes answered are the
    ones the stored hashes are of, as many as configured. *)
Lemma VerifyMFAEnrollment_all_or_nothing userID code e w :
  let d' := w_db (final (VerifyMFAEnrollment userID code) e w) in
  (factors_kept (w_db w) d'
   ∨ ∃ f step hashes, enrolment_grounds e w userID code f step ∧ factor_enrolled (mf_ID f) step hashes (w_db w) d')
  ∧ ∀ raws, result (VerifyMFAEnrollment userID code) e w = Some (Done raws) →
    ∃ f step, enrolment_grounds e w userID code f step
      ∧ factor_enrolled (mf_ID f) step (List.map HashOpaqueToken raws) (w_db w) d'
      ∧ Z.of_nat (length raws) = cfg_MFARecoveryCodeCount (e_cfg e).
Proof.
  cbv zeta. enough (wp (VerifyMFAEnrollment userID code) e (λ o w',
    (factors_kept (w_db w) (w_db w')
     ∨ ∃ f step hashes, enrolment_grounds e w userID code f step ∧ factor_enrolled (mf_ID f) step hashes (w_db w) (w_db w'))
    ∧ ∀ raws, o = Some (Done raws) →
      ∃ f step, enrolment_grounds e w userID code f step
        ∧ factor_enrolled (mf_ID f) step (List.map HashOpaqueToken raws) (w_db w) (w_db w')
        ∧ Z.of_nat (length raws) = cfg_MFARecoveryCodeCount (e_cfg e)) w) as H by exact H.
  unfold VerifyMFAEnrollment, parseUserID. destruct (uuid_Parse userID) as [uid|] eqn:Huid; [|wp_step; by split; [left|]].
  wp_step. wp_step; [wp_step; by split; [left|]|]. wp_step; [wp_step; by split; [left|]|].
  apply fetch_one_Ok in H as [Hin Hown]. wp_step.
  eapply wp_mono; [apply DecryptMFASecret_wp|]. cbv beta. intros o w1 [-> Hsec].
  destruct o as [[secret|]|]; [|wp_step; by split; [left|]|by split; [left|]].
  wp_step. wp_step. destruct (ValidateTOTPCode _ _ _ _) as [step [|]] eqn:Ev; cbn [negb]; cycle 1.
  { wp_step. apply (wp_db_tracks factors_kept); [apply st_call; [typeclasses eauto|apply IncrementTOTPFailedAttempts_kept]|].
    intros [r|] w2 Hw2; [wp_step|]; by split; [left|]. }
  assert (enrolment_grounds e w userID code a step) as Hg.
  { split; [by rewrite Huid|done|done|]. exists secret, (w_tick (tick w)). split; [by rewrite <- (Hsec w)|exact Ev]. }
  wp_step. wp_step. wp_step. eapply wp_mono; [apply generateRecoveryCodes_wp|]. cbv beta.
  intros [[[raws hashes]|]|] w2 [Hw2 Hr]; [|wp_step; by split; [left; rewrite Hw2|]|by split; [left; rewrite Hw2|]].
  destruct (Hr _ _ eq_refl) as [-> Hlen]. wp_step. eapply wp_mono; [apply CompleteMFAEnrollment_wp|]. cbv beta.
  simpl in Hw2. rewrite Hw2. intros [[x|]|] w3 Hw3.
  - wp_step. split; [right; eauto|]. intros ? [= <-]. eauto.
  - wp_step. split; [|done]. destruct Hw3 as [->|]; [by left|right; eauto].
  - split; [|done]. destruct Hw3 as [->|]; [by left|right; eauto].
Qed.

(** The trigger refuses the row an upsert proposes while a TOTP factor is stored
    under another id. *)
Lemma UpsertPendingTOTPFactor_refused uid secret c d f :
  f ∈ mfa_factors d → factor_of (Some uid) MfaTypeTotp f = true → s_gen c 0 ≠ mf_ID f →
  UpsertPendingTOTPFactor (Some uid) secret c d = (Err ErrRaised, d).
Proof.
  intros Hin Hf Hne. unfold UpsertPendingTOTPFactor, upsert_factor.
  assert (other_totp d (mkMfaFactor (s_gen c 0) (Some uid) None MfaTypeTotp secret (Some false) (Some false)
            (Some (s_now c)) (Some 0) None (Some false) None) = true) as ->; [|done].
  apply andb_true_iff. split; [done|]. apply exists_row_true. exists f. split; [done|]. cbn.
  unfold factor_of in Hf. rewrite Hf. by rewrite bool_decide_false by congruence.
Qed.

(** An abandoned enrolment cannot be restarted: while a TOTP factor of the user is
    stored, verified or not, another enrolment never succeeds. *)
Lemma EnrollMFA_never_restarts userID username uid e w f :
  uuid_Parse userID = Some uid → f ∈ mfa_factors (w_db w) → factor_of (Some uid) MfaTypeTotp f = true →
  (∀ n k, e_gen_uuid e n k ≠ mf_ID f) → ∀ out, result (EnrollMFA userID username) e w ≠ Some (Done out).
Proof.
  intros Hid Hin Hf Hfresh out. to_wp. unfold EnrollMFA, parseUserID. rewrite Hid.
  wp_step. apply wp_query; [intros err _|intros old _]; cbv zeta.
  all: lazymatch goal with |- wp (if ?b then _ else _) _ _ _ => destruct b end; try by (wp_step; wp_absurd).
  all: wp_step; wp_step; wp_step; wp_frame; [|done].
  all: destruct r as [[secret uri]|]; [|by (wp_step; wp_absurd)].
  all: wp_step; wp_frame; [|done].
  all: destruct r as [enc|]; [|by (wp_step; wp_absurd)].
  all: wp_step; apply wp_db_stmt; [intros ?; wp_step; wp_absurd|intros a d; cbn in *].
  all: rewrite UpsertPendingTOTPFactor_refused with (f := f); [done|by simplify_eq; congruence|done|unfold sctx; destruct (w_tx _); apply Hfresh].
Qed.

End enroll.

(** ** Example: Ann abandons an enrolment and tries again *)

Import Toy.

Definition w_enrolling : World := final (EnrollMFA (uuid_Bytes (u_ID ann_user)) "ann") env w_in.
Example enrolment_not_restarted :
  length (mfa_factors (w_db w_enrolling)) = S (length (mfa_factors (w_db w_in)))
  ∧ result (EnrollMFA (uuid_Bytes (u_ID ann_user)) "ann") env w_enrolling = Some (Fail InternalServerError).
Proof. by vm_compute. Qed.
