(* ===== verification/GrantSpec.v ===== *)
(** * What is granted works

    The other side of the security statements: in an environment where no call
    fails, the service lets in whom it should.  A correct password signs in; the
    access token handed out is accepted until it expires; the refresh token renews
    the session; and a new account signs in with the password it was made with. *)

From S2P Require Import Prelude.
From S2P Require Import GoLib.
From S2P Require Import Utils.
From S2P Require Import Model.
From S2P Require Import Runtime.
From S2P Require Import Logic.
From S2P Require Import Queries.
From S2P Require Import Store.
From S2P Require Import Password.
From S2P Require Import Tokens.
From S2P Require Import Codes.
From S2P Require Import Signup.
From S2P Require Import Mfa.
From S2P Require Import Login.
From S2P Require Import Session.
From S2P Require Import Frames.
From S2P Require Import Walks.
From S2P Require Import Toy.
From S2P Require Import Requests.
From S2P Require Import Scenes.
From S2P Require Import TokenSpec.
From S2P Require Import SessionSpec.
From S2P Require Import LoginSpec.
From S2P Require Import PasswordSpec.
From S2P Require Import SignupSpec.

#[local] Open Scope string_scope.
#[local] Open Scope Z_scope.
#[local] Open Scope go_scope.

(** ** The libraries and the environment *)

(** Documented behaviour of the JWT library: dates are cut to seconds, and a token
    signed with a key parses under the key that matches it, while its claims are
    valid. *)
Class JwtAccepts (J : JwtLib) := {
  jwt_pair : string → string → string → Prop;  (** algorithm, private and public key *)
  jwt_date : ∀ t, t - Second < jwt_NewNumericDate t ≤ t;
  jwt_parse_accepts : ∀ alg priv pub c tok now kf o,
    jwt_pair alg priv pub → jwt_SignedString alg priv c = Ok tok → kf alg = Ok pub →
    claims_valid now o c → jwt_ParseWithClaims now kf o tok = Ok c
}.

Section grants.
Context `{TL : TextLib} `{UL : UuidLib} `{ULaws : !UuidLaws UL} `{HL : HashLib} `{JL : JwtLib} `{JA : !JwtAccepts JL}.

(** No call fails from a world on, time goes forward and calls take less of it
    than tokens live. *)
Record calm (e : Env) : Prop := mkCalm {
  calm_faults : no_faults e;
  calm_random : ∀ n k, ∃ s, e_rand_read e n k = Some s ∧ String.length s = k;
  calm_clock : ∀ n m, (n ≤ m)%nat → e_clock e n ≤ e_clock e m;
  calm_access : ∀ n, e_clock e (S n) < e_clock e n + cfg_AccessTTL (e_cfg e);
  calm_refresh : ∀ n, e_clock e (S n) < e_clock e n + cfg_RefreshTTL (e_cfg e)
}.

(** The keys of the configuration match, and sign the tokens of an account for the
    sessions the environment names. *)
Definition keys_match (cfg : Config) : Prop :=
  jwt_pair (cfg_JWTAlgorithm cfg) (cfg_JWTPrivateKey cfg) (cfg_JWTPublicKey cfg).
Definition signs (e : Env) (sid uid name role : string) : Prop :=
  ∀ n, ∃ tok, jwt_SignedString (cfg_JWTAlgorithm (e_cfg e)) (cfg_JWTPrivateKey (e_cfg e))
    (access_claims sid uid name role (e_clock e n) (e_clock e n + cfg_AccessTTL (e_cfg e))) = Ok tok.

(** ** The tokens of a session *)

(** A step that touches Redis at some keys only. *)
Definition redis_only (ks : list string) (w w' : World) : Prop :=
  w_db w' = w_db w ∧ w_tx w' = w_tx w ∧ (w_tick w ≤ w_tick w')%nat
  ∧ ∀ k, k ∉ ks → w_redis w' !! k = w_redis w !! k.
Lemma redis_only_trans ks w1 w2 w3 : redis_only ks w1 w2 → redis_only ks w2 w3 → redis_only ks w1 w3.
Proof.
  intros (H1 & H2 & H3 & H4) (H5 & H6 & H7 & H8). split_and!; [congruence|congruence|lia|].
  intros k Hk. by rewrite H8, H4.
Qed.

(** The access token of a session, issued in a span of time, and its key. *)
Record access_live (cfg : Config) (w : World) (sid uid name role access : string) (t0 t1 : Z) : Prop := mkAccessLive {
  al_token : ∃ t, t0 ≤ t ≤ t1
    ∧ jwt_SignedString (cfg_JWTAlgorithm cfg) (cfg_JWTPrivateKey cfg)
        (access_claims sid uid name role t (t + cfg_AccessTTL cfg)) = Ok access;
  al_key : ∃ x, w_redis w !! ("session:" ++ sid) = Some (RStr "1", Some x) ∧ t0 + cfg_AccessTTL cfg ≤ x
}.
Definition refresh_live (cfg : Config) (w : World) (sid refresh : string) (t0 : Z) : Prop :=
  refresh ≠ "" ∧ ∃ x, w_redis w !! ("refresh:" ++ sid) = Some (RStr (HashOpaqueToken refresh), Some x) ∧ t0 + cfg_RefreshTTL cfg ≤ x.

(** The time at which a world is reached. *)
Definition clock (e : Env) (w : World) : Z := e_clock e (w_tick w).
Lemma clock_mono e w w' : calm e → (w_tick w ≤ w_tick w')%nat → clock e w ≤ clock e w'.
Proof. intros He. apply (calm_clock e He). Qed.
(** What holds of a span holds of a wider one, and of another world with the same
    keys. *)
Lemma access_live_widen cfg w w' sid uid name role access t0 t1 t0' t1' :
  t0' ≤ t0 → t1 ≤ t1' → w_redis w' !! ("session:" ++ sid) = w_redis w !! ("session:" ++ sid) →
  access_live cfg w sid uid name role access t0 t1 → access_live cfg w' sid uid name role access t0' t1'.
Proof.
  intros H0 H1 Hr [(t & Ht & Htok) (x & Hx & Hle)]. split; [exists t; split; [lia|done]|].
  exists x. rewrite Hr. split; [done|lia].
Qed.
Lemma refresh_live_widen cfg w w' sid refresh t0 t1 :
  t0 ≤ t1 → w_redis w' !! ("refresh:" ++ sid) = w_redis w !! ("refresh:" ++ sid) →
  refresh_live cfg w sid refresh t1 → refresh_live cfg w' sid refresh t0.
Proof. intros Ht Hr (Hne & x & Hx & Hle). split; [done|]. exists x. rewrite Hr. split; [done|lia]. Qed.
Lemma encoded_nonempty b : String.length b ≠ 0%nat → Encoding.RawURLEncoding_EncodeToString b ≠ "".
Proof. destruct b as [|[] [|[] [|[] b]]]; done. Qed.

Section issue.
Context (e : Env) (He : calm e).

Lemma quiet_generateAccessJWT sid uid name role w :
  signs e sid uid name role →
  wp (generateAccessJWT sid uid name role (cfg_AccessTTL (e_cfg e))) e (λ o w',
    redis_only ["session:" ++ sid] w w'
    ∧ ∃ tok x, o = Some (Ok (tok, x)) ∧ access_live (e_cfg e) w' sid uid name role tok (clock e w) (clock e w')) w.
Proof.
  intros Hs. unfold generateAccessJWT. do 3 wp_step. set (t := e_clock e (w_tick w)).
  unfold GenerateSession. wp_step. apply (quiet_redis_is_nil _ (calm_faults e He)). cbv beta iota.
  wp_step. wp_step. set (ttl := t + _ - _).
  pose proof (calm_access e He (w_tick w)) as Hacc. fold t in Hacc.
  assert (0 < ttl) as Hpos by (unfold ttl; cbn; lia). rewrite (proj2 (Z.leb_gt _ _) Hpos).
  apply (quiet_redis_Set _ (calm_faults e He)). cbv beta iota. wp_step. wp_step.
  destruct (Hs (w_tick w)) as [tok Htok]. fold t in Htok. rewrite Htok. wp_step.
  rewrite (proj2 (Z.ltb_lt _ _) Hpos). cbn [w_tick tick set_w_redis w_redis w_db w_tx].
  pose proof (calm_clock e He (S (w_tick w)) (S (S (w_tick w)))) as Hc2.
  pose proof (calm_clock e He (w_tick w) (S (S (S (w_tick w))))) as Hc3.
  split.
  - split_and!; cbn; [done|done|lia|]. intros k Hk. rewrite lookup_insert_ne; [done|set_solver].
  - exists tok, (t + cfg_AccessTTL (e_cfg e)). split; [done|]. split.
    + exists t. split; [unfold clock; cbn; fold t in Hc3; lia|done].
    + eexists. cbn. rewrite lookup_insert_eq. split; [done|]. unfold ttl, clock, t. cbn. lia.
Qed.

Lemma quiet_generateAndStoreRefresh sid w :
  wp (generateAndStoreRefresh sid (cfg_RefreshTTL (e_cfg e))) e (λ o w',
    redis_only ["refresh:" ++ sid] w w'
    ∧ ∃ raw x, o = Some (Ok (raw, x)) ∧ refresh_live (e_cfg e) w' sid raw (clock e w)) w.
Proof.
  unfold generateAndStoreRefresh. wp_step. apply (quiet_redis_is_nil _ (calm_faults e He)). cbv beta iota.
  unfold RandomToken. do 2 wp_step. destruct (calm_random e He (w_tick w) 32) as (b & Hb & Hlen).
  unfold wp at 1, rand_read. rewrite Hb. cbn [fst snd]. wp_step. do 5 wp_step. set (ttl := _ + _ - _).
  pose proof (calm_refresh e He (S (w_tick w))) as Hr. cbn [tick w_tick] in ttl.
  assert (0 < ttl) as Hpos by (unfold ttl; lia).
  apply (quiet_redis_Set _ (calm_faults e He)). cbv beta iota. wp_step.
  rewrite (proj2 (Z.ltb_lt _ _) Hpos). pose proof (calm_clock e He) as Hmono.
  split.
  - split_and!; cbn; [done|done|lia|]. intros k Hk. rewrite lookup_insert_ne; [done|set_solver].
  - eexists _, _. split; [done|]. split; [by apply encoded_nonempty; rewrite Hlen|]. eexists. cbn. rewrite lookup_insert_eq. split; [done|].
    unfold ttl, clock. specialize (Hmono (w_tick w) (S (S (S (w_tick w))))) as H1.
    specialize (Hmono (S (S (w_tick w))) (S (S (S (w_tick w))))) as H2.
    specialize (Hmono (w_tick w) (S (w_tick w))) as H3. lia.
Qed.

(** A pair of tokens, and the Redis keys behind it. *)
Definition pair_live (w : World) (sid uid name role : string) (tp : TokenPair) (t0 t1 : Z) : Prop :=
  tp_SessionID tp = sid
  ∧ access_live (e_cfg e) w sid uid name role (tp_AccessToken tp) t0 t1
  ∧ refresh_live (e_cfg e) w sid (tp_RefreshToken tp) t0.
Definition session_keys (sid : string) : list string := ["session:" ++ sid; "refresh:" ++ sid].

Lemma redis_only_sub ks ks' w w' : ks ⊆ ks' → redis_only ks w w' → redis_only ks' w w'.
Proof. intros Hk (? & ? & ? & Hr). split_and!; [done..|]. intros k Hn. apply Hr. set_solver. Qed.
Lemma quiet_RotateSessionTokens sid uid name role w :
  signs e sid uid name role →
  wp (RotateSessionTokens sid uid name role (cfg_AccessTTL (e_cfg e)) (cfg_RefreshTTL (e_cfg e))) e (λ o w',
    redis_only (session_keys sid) w w'
    ∧ ∃ tp, o = Some (Ok tp) ∧ pair_live w' sid uid name role tp (clock e w) (clock e w')) w.
Proof.
  intros Hs. unfold RotateSessionTokens. wp_step. eapply wp_mono; [by apply quiet_generateAccessJWT|]. cbv beta.
  intros o w1 (Hr1 & access & x & -> & Ha). wp_step. eapply wp_mono; [apply quiet_generateAndStoreRefresh|]. cbv beta.
  intros o w2 (Hr2 & refresh & y & -> & Hrl). wp_step.
  split.
  - eapply redis_only_trans; (eapply redis_only_sub; [|eassumption]); unfold session_keys; set_solver.
  - eexists. split; [done|]. split; [done|]. split.
    + eapply access_live_widen; [..|exact Ha]; [done|by apply clock_mono, Hr2|].
      apply Hr2. by intros H%list_elem_of_singleton.
    + eapply refresh_live_widen; [..|exact Hrl]; [by apply clock_mono, Hr1|done].
Qed.

Lemma quiet_GenerateUserTokens uid name role w :
  (∀ n, signs e (uuid_String (e_uuid e n)) uid name role) →
  wp (GenerateUserTokens uid name role (cfg_AccessTTL (e_cfg e)) (cfg_RefreshTTL (e_cfg e))) e (λ o w',
    ∃ sid tp, redis_only (session_keys (uuid_String sid)) w w' ∧ (∃ n, (w_tick w ≤ n)%nat ∧ sid = e_uuid e n)
    ∧ o = Some (Ok tp) ∧ pair_live w' (uuid_String sid) uid name role tp (clock e w) (clock e w')) w.
Proof.
  intros Hs. unfold GenerateUserTokens. wp_step. wp_step. set (sid := e_uuid e (w_tick w)).
  eapply wp_mono; [apply (quiet_RotateSessionTokens (uuid_String sid) uid name role (tick w)), Hs|]. cbv beta.
  intros o w' (Hr & tp & -> & Hid & Ha & Hrl). exists sid, tp. split; [|split; [by eexists|split; [done|]]].
  - destruct Hr as (? & ? & ? & ?). split_and!; [done|done|cbn in *; lia|done].
  - assert (clock e w ≤ clock e (tick w)) as Hc by (apply clock_mono; [done|cbn; lia]).
    split; [done|]. split; [by eapply access_live_widen|by eapply refresh_live_widen].
Qed.
End issue.

(** ** The tokens are accepted *)

(** A span of time that the next calls of a world fall into. *)
Definition during (e : Env) (w : World) (t0 t1 : Z) : Prop := ∀ n, (w_tick w ≤ n)%nat → t0 ≤ e_clock e n ≤ t1.

(** A token of the service parses while it lives, less a second. *)
Lemma parseJWT_accepts e w tok c t ttl :
  keys_match (e_cfg e) → jwt_SignedString (cfg_JWTAlgorithm (e_cfg e)) (cfg_JWTPrivateKey (e_cfg e)) c = Ok tok →
  jc_Issuer c = jwtIssuer → jc_Audience c = [jwtAudience] →
  jc_ExpiresAt c = Some (jwt_NewNumericDate (t + ttl)) → jc_NotBefore c = Some (jwt_NewNumericDate (t - 5 * Second)) →
  t ≤ clock e w ≤ t + ttl - Second →
  parseJWT ("Bearer " ++ tok) false e w = (Some (Ok c), tick w).
Proof.
  intros Hk Htok Hiss Haud Hexp Hnbf Ht. unfold parseJWT.
  assert (String.eqb ("Bearer " ++ tok) "" || negb (HasPrefix ("Bearer " ++ tok) "Bearer ") = false) as ->.
  { unfold HasPrefix. by rewrite drop_prefix_app. }
  unfold TrimPrefix. rewrite drop_prefix_app. cbv beta iota. unfold bind, get_cfg, now. cbn [negb]. cbv iota.
  rewrite (jwt_parse_accepts (cfg_JWTAlgorithm (e_cfg e)) (cfg_JWTPrivateKey (e_cfg e)) (cfg_JWTPublicKey (e_cfg e)) c tok);
    [done|exact Hk|exact Htok| |].
  - unfold keyFunc. by rewrite String.eqb_refl.
  - pose proof (jwt_date (t + ttl)). pose proof (jwt_date (t - 5 * Second)).
    assert (0 < Second) by done. unfold clock in Ht. unfold claims_valid. rewrite Hiss, Haud, Hexp, Hnbf. cbn -[Second].
    split_and!; [by intros ? [= <-]|intros ? [= <-]; by left|done|intros ? [= <-]; lia|intros ? [= <-]; lia].
Qed.

Lemma access_accepted e w sid uid name role access t0 t1 :
  no_faults e → keys_match (e_cfg e) → sid ≠ "" → uid ≠ "" →
  access_live (e_cfg e) w sid uid name (UserRole_string role) access t0 t1 →
  during e w t1 (t0 + cfg_AccessTTL (e_cfg e) - Second) →
  result (VerifyAndParseJWT ("Bearer " ++ access)) e w = Some (Ok (mkUserContext uid name sid (UserRole_string role))).
Proof.
  intros Hq Hk Hsid Huid [(t & Ht & Htok) (x & Hkey & Hx)] Hd.
  change (wp (VerifyAndParseJWT ("Bearer " ++ access)) e (λ o _, o = Some (Ok (mkUserContext uid name sid (UserRole_string role)))) w).
  unfold VerifyAndParseJWT. wp_step. unfold wp at 1.
  pose proof (Hd (w_tick w) (le_n _)) as H0.
  rewrite (parseJWT_accepts e w access _ t (cfg_AccessTTL (e_cfg e)) Hk Htok) by (try done; unfold clock; lia). cbn [fst snd].
  unfold access_claims. cbn [jc_UserID jc_ID jc_Role jc_ExpiresAt jc_Username].
  rewrite !(proj2 (String.eqb_neq _ _)); [|by destruct role|done|done]. cbv beta iota delta [orb].
  wp_step. unfold IsValidSession. do 2 wp_step. wp_step. apply (quiet_redis_is_nil _ Hq). cbv beta iota.
  destruct (Hd (S (w_tick w)) ltac:(lia)) as [Hlo1 Hhi1]. destruct (Hd (S (S (w_tick w))) ltac:(lia)) as [Hlo2 Hhi2].
  pose proof (jwt_date (t + cfg_AccessTTL (e_cfg e))) as Hdate. assert (0 < Second) as Hsec by done.
  destruct (Z.ltb_spec (jwt_NewNumericDate (t + cfg_AccessTTL (e_cfg e))) (e_clock e (w_tick (tick w)))) as [Hlt|_];
    [cbn [tick w_tick] in Hlt; lia|].
  cbn [orb]. cbv iota. wp_step. unfold wp at 1, redis_Exists. rewrite run_redis_call by done. cbn [fst snd tick w_tick w_redis].
  unfold rlookup. rewrite Hkey. unfold rlive. cbn [fst snd]. rewrite (proj2 (Z.ltb_lt _ _)) by lia. by repeat wp_step.
Qed.

(** ** The session is open *)

(** The row and the Redis keys of a session of an account whose refresh token is
    [refresh]; its access token is [access], both issued in a span of time. *)
Definition session_row (d : DB) (uid sid : uuid) (refresh : string) : Prop :=
  ∃ s, s ∈ sessions d ∧ se_ID s = sid ∧ se_UserID s = Some uid ∧ se_Revoked s = Some false
    ∧ se_RefreshTokenHash s = Some (HashOpaqueToken refresh).
Record session_open (cfg : Config) (w : World) (uid : uuid) (name : string) (role : UserRole) (sid : uuid) (access refresh : string) (t0 t1 : Z) : Prop := {
  so_row : session_row (w_db w) uid sid refresh;
  so_access : access_live cfg w (uuid_String sid) (uuid_String uid) name (UserRole_string role) access t0 t1;
  so_refresh : refresh_live cfg w (uuid_String sid) refresh t0
}.
(** The account of a session, as the tokens are made for it. *)
Record serves (e : Env) (w : World) (u : User) (sid : uuid) : Prop := {
  sv_wf : wf (w_db w);
  sv_user : u ∈ users (w_db w);
  sv_usable : not_usable (u_DeletedAt u) (u_Status u) = false;
  sv_named : uuid_String sid ≠ "" ∧ uuid_String (u_ID u) ≠ "";
  sv_signs : signs e (uuid_String sid) (uuid_String (u_ID u)) (u_Username u) (UserRole_string (u_Role u))
}.

Lemma GetUserByID_found c d u : wf d → u ∈ users d → GetUserByID (Some (u_ID u)) c d = Ok u.
Proof.
  intros W Hu. apply fetch_one_unique; [done|apply sql_eq_refl|]. intros u' Hu' H%id_is_true.
  destruct (wf_users _ W) as [Hnd _]. eapply (NoDup_proj_eq u_ID); eauto. congruence.
Qed.
Lemma session_of_row c d uid sid refresh :
  wf d → session_row d uid sid refresh →
  ∃ s, GetRefreshSession (Some sid) c d = Ok s ∧ se_UserID s = Some uid ∧ session_mismatch s (uuid_String uid) (HashOpaqueToken refresh) = false.
Proof.
  intros W (s & Hs & <- & Hu & Hr & Hh). exists s. split_and!; [|done|].
  - apply fetch_one_unique; [done|apply sql_eq_refl|]. intros s' Hs' H%id_is_true.
    destruct (wf_sessions _ W) as [Hnd _]. eapply (NoDup_proj_eq se_ID); eauto. congruence.
  - unfold session_mismatch. rewrite Hr, Hu, Hh. cbn. by rewrite !String.eqb_refl.
Qed.
Lemma RotateRefreshSession_rotates c d uid sid refresh new exp :
  wf d → session_row d uid sid refresh →
  ∃ s d', run_stmt (RotateRefreshSession (Some (HashOpaqueToken new)) exp (Some sid)) c d = (Ok s, d')
    ∧ session_row d' uid sid new ∧ users d' = users d.
Proof.
  intros W (s & Hs & <- & Hu & Hr & Hh). unfold run_stmt, RotateRefreshSession.
  assert (id_is se_ID (Some (se_ID s)) s && sql_eq (se_Revoked s) (Some false) = true) as Hp.
  { rewrite Hr. unfold id_is. by rewrite !sql_eq_refl. }
  rewrite (fetch_one_unique _ _ s); [|done|exact Hp|].
  2:{ intros s' Hs' [H _]%andb_true_iff. apply id_is_true in H.
      destruct (wf_sessions _ W) as [Hnd _]. eapply (NoDup_proj_eq se_ID); eauto. congruence. }
  eexists _, _. split; [reflexivity|]. split; [|done]. eexists. split; [apply elem_of_update; exists s; split; [done|reflexivity]|].
  rewrite Hp. done.
Qed.

Lemma quiet_RefreshToken e w u sid refresh :
  calm e → serves e w u sid → session_row (w_db w) (u_ID u) sid refresh →
  refresh ≠ "" → redis_holds e w ("refresh:" ++ uuid_String sid) (RStr (HashOpaqueToken refresh)) →
  wp (RefreshToken (uuid_String sid) (uuid_String (u_ID u)) refresh) e (λ o w',
    ∃ out, o = Some (Done out)
      ∧ session_open (e_cfg e) w' (u_ID u) (u_Username u) (u_Role u) sid (rt_AccessToken out) (rt_RefreshToken out) (clock e w) (clock e w')
      ∧ users (w_db w') = users (w_db w)) w.
Proof.
  intros He [W Hu Huse [Hsid Huid] Hsign] Hrow Hne Hkey. pose proof (calm_faults e He) as Hq.
  unfold RefreshToken. rewrite !(proj2 (String.eqb_neq _ _)) by done. cbv beta iota delta [orb].
  rewrite uuid_Parse_String. wp_step. apply (quiet_redis_Get _ Hq). cbv beta iota.
  unfold redis_holds in Hkey. rewrite Hkey. cbn [rval_is]. rewrite String.eqb_refl. cbn [negb]. cbv iota.
  wp_step. apply (quiet_query _ Hq). cbv beta iota. cbn [w_db tick].
  destruct (session_of_row (sctx e (tick w)) _ _ _ _ W Hrow) as (s & -> & Hsu & ->).
  wp_step. apply (quiet_query _ Hq). cbv beta iota. cbn [w_db tick]. rewrite Hsu, GetUserByID_found by done. rewrite Huse.
  do 3 wp_step. cbn [ouuid_String].
  eapply wp_mono; [by apply (quiet_RotateSessionTokens e He)|]. cbv beta. intros o w1 ((Hdb & Htx & Htick & Hoth) & tp & -> & Hid & Ha & Hrl).
  cbn [w_db tick] in Hdb. wp_step.
  edestruct (RotateRefreshSession_rotates (sctx e w1) (w_db w1)) as (s' & d' & Hrun & Hrow' & Hus); [by rewrite Hdb|by rewrite Hdb|].
  eapply (quiet_stmt _ Hq); [exact Hrun|]. cbv beta iota. wp_step. eexists. split; [done|].
  cbn [w_db tick set_w_db rt_AccessToken rt_RefreshToken]. split; [|congruence]. split; [done| |].
  - eapply access_live_widen; [..|exact Ha]; [apply clock_mono; [done|cbn; lia]..|done].
  - eapply refresh_live_widen; [..|exact Hrl]; [apply clock_mono; [done|cbn; lia]|done].
Qed.

(** ** A sign-in opens a session *)

(** What a sign-in leaves of an account row. *)
Record same_person (u u' : User) : Prop := mkSamePerson {
  sp_ID : u_ID u' = u_ID u;
  sp_Username : u_Username u' = u_Username u;
  sp_Role : u_Role u' = u_Role u;
  sp_Status : u_Status u' = u_Status u;
  sp_DeletedAt : u_DeletedAt u' = u_DeletedAt u
}.
Definition still_there (u : User) (d : DB) : Prop := ∃ u', u' ∈ users d ∧ same_person u u'.
Lemma still_there_exists u d : still_there u d → user_exists (Some (u_ID u)) d = true.
Proof.
  intros (u' & Hu' & [Hid _ _ _ _]). unfold user_exists. apply exists_row_true. exists u'. split; [done|].
  by apply bool_decide_eq_true.
Qed.
Lemma TouchUserLastLogin_frame uid u c d r d' :
  u ∈ users d → run_stmt (TouchUserLastLogin uid) c d = (r, d') → still_there u d' ∧ sessions d' = sessions d.
Proof.
  intros Hu. unfold run_stmt, TouchUserLastLogin, update_users.
  destruct (List.existsb _ _); [|destruct (trigger_rows _ _ _ _)]; intros [= <- <-]; (split; [|done]).
  1, 3: by exists u.
  cbn. eexists. split; [apply elem_of_update; by exists u|]. by destruct (id_is _ _ _).
Qed.

(** The environment names sessions that are not there yet. *)
Definition fresh_sessions (e : Env) (w : World) : Prop :=
  ∀ n, (w_tick w ≤ n)%nat → e_uuid e n ∉ keys se_ID (sessions (w_db w)).
Lemma CreateRefreshSession_creates id uid exp refresh ip ua c d :
  id ∉ keys se_ID (sessions d) → user_exists (Some uid) d = true →
  ∃ s d', run_stmt (CreateRefreshSession id (Some uid) exp (Some (HashOpaqueToken refresh)) ip ua) c d = (Ok s, d')
    ∧ session_row d' uid id refresh ∧ users d' = users d.
Proof.
  intros Hid Hu. unfold run_stmt, CreateRefreshSession.
  assert (exists_row (λ r, bool_decide (se_ID r = id)) (sessions d) = false) as ->.
  { apply exists_row_false. intros s Hs. apply bool_decide_eq_false. intros <-. apply Hid. apply list_elem_of_In, in_map. by apply list_elem_of_In. }
  rewrite Hu. cbn. eexists _, _. split; [reflexivity|]. split; [|done].
  eexists. cbn. split; [apply elem_of_app; right; by left|done].
Qed.

Lemma quiet_issueLoginSession e w u iid ip ua :
  calm e → u ∈ users (w_db w) → fresh_sessions e w →
  (∀ n, signs e (uuid_String (e_uuid e n)) (uuid_String (u_ID u)) (u_Username u) (UserRole_string (u_Role u))) →
  wp (issueLoginSession (u_ID u) iid (u_Username u) (u_Role u) ip ua) e (λ o w', ∃ out sid n,
    o = Some (Done out) ∧ lr_MFARequired out = false ∧ sid = e_uuid e n
    ∧ session_open (e_cfg e) w' (u_ID u) (u_Username u) (u_Role u) sid (lr_AccessToken out) (lr_RefreshToken out)
        (clock e w) (clock e w')
    ∧ still_there u (w_db w')) w.
Proof.
  intros He Hu Hfresh Hsign. pose proof (calm_faults e He) as Hq.
  unfold issueLoginSession. wp_step. destruct (run_stmt (TouchUserLastLogin (Some (u_ID u))) (sctx e w) (w_db w)) as [r d1] eqn:Ht.
  destruct (TouchUserLastLogin_frame _ _ _ _ _ _ Hu Ht) as [Hst Hses].
  eapply (quiet_stmt _ Hq); [exact Ht|]. cbv beta iota. do 3 wp_step.
  eapply wp_mono; [apply (quiet_GenerateUserTokens e He), Hsign|]. cbv beta.
  intros o w2 (sid & tp & (Hdb & Htx & Htick & Hoth) & (n & Hn & Hsid) & -> & Hid & Ha & Hrl).
  cbn [w_db w_tick tick set_w_db] in *. unfold CreateRefreshSessionInput. wp_step. cbn [rs_SessionID rs_UserID rs_ExpiresAt rs_RefreshTokenHash rs_IP rs_UserAgent].
  rewrite Hid, uuid_Parse_String. cbn [default].
  destruct (CreateRefreshSession_creates sid (u_ID u) (tp_RefreshExp tp) (tp_RefreshToken tp) (textOrNull ip) (textOrNull ua)
    (sctx e w2) (w_db w2)) as (s & d2 & Hrun & Hrow & Hus);
    [|rewrite Hdb; by apply still_there_exists|eapply (quiet_stmt _ Hq); [exact Hrun|]].
  { rewrite Hdb, Hses, Hsid. apply Hfresh. lia. }
  cbv beta iota. wp_step. unfold wp at 1. edestruct (run_recordLoginAttempt) as [l ->]; [done|]. cbn [fst snd]. wp_step.
  eexists _, sid, n. split; [done|]. split; [done|]. split; [done|]. cbn [lr_AccessToken lr_RefreshToken w_db set_w_db tick].
  split.
  - split; [exact Hrow| |].
    + eapply access_live_widen; [..|exact Ha]; [apply clock_mono; [done|cbn; lia]..|done].
    + eapply refresh_live_widen; [..|exact Hrl]; [apply clock_mono; [done|cbn; lia]|done].
  - destruct Hst as (u' & Hu' & Hsame). exists u'. split; [|done]. change (u' ∈ users d2). by rewrite Hus, Hdb.
Qed.

(** ** A correct password signs in *)

(** A step that leaves accounts, sessions and second factors, and Redis, alone. *)
Record keeps (w w' : World) : Prop := mkKeeps {
  kp_users : users (w_db w') = users (w_db w);
  kp_sessions : sessions (w_db w') = sessions (w_db w);
  kp_factors : mfa_factors (w_db w') = mfa_factors (w_db w);
  kp_redis : w_redis w' = w_redis w;
  kp_tick : (w_tick w ≤ w_tick w')%nat
}.
#[local] Instance keeps_preorder : PreOrder keeps.
Proof. split; [by split|]. intros w1 w2 w3 [] []. split; try congruence. lia. Qed.

Lemma quiet_email_part (ms : list string) uid e w :
  no_faults e → factors_wf (w_db w) →
  wp (emailFactor <- db_stmt (query (GetOTPFactorByUserID (Some uid) MfaTypeEmail)) ;;
      match emailFactor with
      | Ok f => ret (Ok (if bool_Bool (mf_Enabled f) then ms ++ ["email"] else ms)%list)
      | Err err => if is_no_rows err then ret (Ok ms) else ret (Err err)
      end) e (λ o w', o = Some (Ok (ms ++ if factor_enabled (w_db w) uid MfaTypeEmail then ["email"] else [])%list) ∧ keeps w w') w.
Proof.
  intros Hq Hwf. rewrite factor_enabled_spec by done. wp_step. apply (quiet_query _ Hq). cbv beta iota.
  unfold GetOTPFactorByUserID. cbn [w_db tick].
  destruct (fetch_one (factor_of (Some uid) MfaTypeEmail) (mfa_factors (w_db w))) as [f|err] eqn:E.
  - wp_step. split; [by destruct (bool_Bool _); rewrite ?app_nil_r|]. split; try done. cbn. lia.
  - apply fetch_one_Err in E as [-> _]. change (is_no_rows ErrNoRows) with true. cbv iota.
    wp_step. split; [by rewrite app_nil_r|]. split; try done. cbn. lia.
Qed.
Lemma quiet_listEnabledMFAMethods uid e w :
  no_faults e → factors_wf (w_db w) →
  wp (listEnabledMFAMethods uid) e (λ o w', o = Some (Ok (enabled_methods (w_db w) uid)) ∧ keeps w w') w.
Proof.
  intros Hq Hwf. unfold listEnabledMFAMethods, enabled_methods. rewrite (factor_enabled_spec _ _ MfaTypeTotp) by done.
  wp_step. apply (quiet_query _ Hq). cbv beta iota zeta. unfold GetTOTPFactorByUserID. cbn [w_db tick].
  assert (keeps w (tick w)) as Hk by (split; try done; cbn; lia).
  destruct (fetch_one (factor_of (Some uid) MfaTypeTotp) (mfa_factors (w_db w))) as [f|err] eqn:E;
    [|apply fetch_one_Err in E as [-> _]; change (is_no_rows ErrNoRows) with true; cbv iota];
    (eapply wp_mono; [by apply quiet_email_part|]); cbv beta; intros o w' [-> Hk']; (split; [done|by etrans]).
Qed.

Lemma keeps_stmt {A} (st : Stmt A) e (Q : option (res A) → World → Prop) w :
  no_faults e →
  (∀ c d x d', st c d = (Ok x, d') → users d' = users d ∧ sessions d' = sessions d ∧ mfa_factors d' = mfa_factors d) →
  (∀ r w', keeps w w' → Q (Some r) w') → wp (db_stmt st) e Q w.
Proof.
  intros Hq Hst H. destruct (run_stmt st (sctx e w) (w_db w)) as [r d] eqn:E. eapply (quiet_stmt _ Hq); [exact E|].
  apply H. unfold run_stmt in E. destruct (st _ _) as [[x|err] d'] eqn:E'; injection E as <- <-;
    [apply Hst in E' as (?&?&?)|]; split; cbn; try done; lia.
Qed.
Lemma update_identities_keeps p f c d x d' :
  update_identities p f c d = (Ok x, d') →
  users d' = users d ∧ sessions d' = sessions d ∧ mfa_factors d' = mfa_factors d.
Proof. by intros (?&?&?&_)%update_identities_frame. Qed.

Lemma ShouldRehashActive_keeps phc e w : wp (ShouldRehashActive phc) e (λ o w', is_Some o ∧ keeps w w') w.
Proof. unfold ShouldRehashActive, ActivePepperManager. repeat wp_step; by split. Qed.
Lemma HashPasswordPHC_keeps password e w : wp (HashPasswordPHC password) e (λ o w', is_Some o ∧ keeps w w') w.
Proof.
  unfold HashPasswordPHC, ActivePepperManager, randomSalt, IDKey.
  repeat first [apply wp_burn | wp_step]; (split; [done|split; cbn; try done; lia]).
Qed.

(** The rehash after a sign-in is best effort: whatever becomes of it, the sign-in
    goes on. *)
Lemma quiet_login_rehash row password e w :
  no_faults e → wp (login_rehash row password) e (λ o w', o = Some tt ∧ keeps w w') w.
Proof.
  intros Hq. unfold login_rehash. wp_step. eapply wp_mono; [apply ShouldRehashActive_keeps|]. cbv beta.
  intros o w1 [[[[]|] ->] H1]; cbv beta iota; [|by wp_step..].
  wp_step. eapply wp_mono; [apply HashPasswordPHC_keeps|]. cbv beta.
  intros o w2 [[[hash|] ->] H2]; cbv beta iota; [|wp_step; split; [done|by etrans]].
  wp_step. apply keeps_stmt; [done| |].
  - unfold UpdatePasswordHash. intros c d x d'. destruct (List.forallb _ _); [apply update_identities_keeps|done].
  - intros r w3 H3. cbv beta iota. wp_step. split; [done|]. by do 2 (etrans; [eassumption|]).
Qed.

(** What a caller of the service gets from a sign-in: a session of the account,
    under a name the environment gave. *)
Definition signed_in (e : Env) (u : User) (t0 : Z) (o : option (svc LoginOutcome)) (w' : World) : Prop :=
  ∃ out n, o = Some (Done out) ∧ lr_MFARequired out = false
    ∧ session_open (e_cfg e) w' (u_ID u) (u_Username u) (u_Role u) (e_uuid e n) (lr_AccessToken out) (lr_RefreshToken out)
        t0 (clock e w')
    ∧ still_there u (w_db w').
Lemma session_open_widen cfg w uid name role sid access refresh t0 t0' t1 :
  t0' ≤ t0 → session_open cfg w uid name role sid access refresh t0 t1 →
  session_open cfg w uid name role sid access refresh t0' t1.
Proof. intros Ht [H1 H2 H3]. split; [done|by eapply access_live_widen|by eapply refresh_live_widen]. Qed.

Lemma fresh_sessions_keeps e w w' : keeps w w' → fresh_sessions e w → fresh_sessions e w'.
Proof. intros K H n Hn. rewrite (kp_sessions _ _ K). apply H. pose proof (kp_tick _ _ K). lia. Qed.

(** The accounts a password alone lets in. *)
Record password_alone (e : Env) (w : World) (u : User) : Prop := {
  pa_open : status_blocked (u_Status u) = false;
  pa_factors : enabled_methods (w_db w) (u_ID u) = [];
  pa_fresh : fresh_sessions e w;
  pa_signs : ∀ n, signs e (uuid_String (e_uuid e n)) (uuid_String (u_ID u)) (u_Username u) (UserRole_string (u_Role u))
}.
Lemma quiet_login_verified e w a u password ip ua :
  calm e → factors_wf (w_db w) → u ∈ users (w_db w) → password_alone e w u →
  wp (login_verified (email_auth_row (a, u)) password ip ua) e (signed_in e u (clock e w)) w.
Proof.
  intros He Hf Hu [Hst Hms Hfresh Hsign]. pose proof (calm_faults e He) as Hq. unfold login_verified.
  cbn [ea_Status email_auth_row]. rewrite Hst. wp_step.
  apply keeps_stmt; [done|intros ????; apply update_identities_keeps|]. intros r w1 K1. cbv beta iota. wp_step.
  eapply wp_mono; [apply quiet_listEnabledMFAMethods; [done|]|]. 
  { destruct K1 as [E1 _ E2 _ _]. unfold factors_wf, user_ids in *. by rewrite E1, E2. }
  cbv beta. intros o w2 [-> K2]. 
  assert (enabled_methods (w_db w1) (u_ID u) = []) as Hms1.
  { rewrite <- Hms. unfold enabled_methods, factor_enabled. by rewrite (kp_factors _ _ K1). }
  simpl ea_UserID. rewrite Hms1. wp_step. eapply wp_mono; [by apply quiet_login_rehash|]. cbv beta.
  intros o w3 [-> K3]. cbv beta iota. assert (keeps w w3) as K by (by do 2 (etrans; [eassumption|])).
  eapply wp_mono; [apply (quiet_issueLoginSession e w3 u); [done|by rewrite (kp_users _ _ K)|by eapply fresh_sessions_keeps|done]|].
  cbv beta. intros o w4 (out & sid & n & -> & Hreq & -> & Hs & Hst'). exists out, n. split_and!; [done..| |done].
  eapply session_open_widen; [|exact Hs]. by apply clock_mono, K.
Qed.

(** ** An open session is honoured *)

(** What may have happened between two requests of a session: anything that leaves
    its account, its row and its keys as they were. *)
Record undisturbed (u : User) (sid : uuid) (refresh : string) (w w' : World) : Prop := {
  un_wf : wf (w_db w');
  un_user : still_there u (w_db w');
  un_row : session_row (w_db w') (u_ID u) sid refresh;
  un_keys : ∀ k, k ∈ session_keys (uuid_String sid) → w_redis w' !! k = w_redis w !! k
}.
Definition user_context (u : User) (sid : uuid) : UserContext :=
  mkUserContext (uuid_String (u_ID u)) (u_Username u) (uuid_String sid) (UserRole_string (u_Role u)).
Definition access_ok (cfg : Config) (u : User) (sid : uuid) (access : string) (t0 t1 : Z) (w : World) : Prop :=
  ∀ e, e_cfg e = cfg → no_faults e → during e w t1 (t0 + cfg_AccessTTL cfg - Second) →
    result (VerifyAndParseJWT ("Bearer " ++ access)) e w = Some (Ok (user_context u sid)).

(** The service honours a session through [k] renewals: its access token is accepted
    as the account's while it lives, less a second, and its refresh token gives, for
    as long as that lives, a new pair of tokens that is honoured in turn. *)
Fixpoint honoured (k : nat) (cfg : Config) (u : User) (sid : uuid) (access refresh : string) (t0 t1 : Z) (w : World) : Prop :=
  ∀ w', undisturbed u sid refresh w w' →
    access_ok cfg u sid access t0 t1 w'
    ∧ match k with
      | O => True
      | S k => ∀ e, e_cfg e = cfg → calm e →
          signs e (uuid_String sid) (uuid_String (u_ID u)) (u_Username u) (UserRole_string (u_Role u)) →
          clock e w' < t0 + cfg_RefreshTTL cfg →
          let renewal := RefreshToken (uuid_String sid) (uuid_String (u_ID u)) refresh in
          ∃ out, result renewal e w' = Some (Done out)
            ∧ undisturbed u sid (rt_RefreshToken out) (final renewal e w') (final renewal e w')
            ∧ honoured k cfg u sid (rt_AccessToken out) (rt_RefreshToken out) (clock e w') (clock e (final renewal e w'))
                (final renewal e w')
      end.

Lemma access_live_key cfg w w' sid uid name role access t0 t1 :
  w_redis w' !! ("session:" ++ sid) = w_redis w !! ("session:" ++ sid) →
  access_live cfg w sid uid name role access t0 t1 → access_live cfg w' sid uid name role access t0 t1.
Proof. by apply access_live_widen. Qed.

Lemma final_wf {A} (m : Go A) e w : db_tracks safe m → wf (w_db w) → wf (w_db (final m e w)).
Proof. intros H Hw. by apply (H e w). Qed.
Lemma session_honoured k cfg u sid access refresh t0 t1 w :
  keys_match cfg → not_usable (u_DeletedAt u) (u_Status u) = false → uuid_String sid ≠ "" → uuid_String (u_ID u) ≠ "" →
  session_open cfg w (u_ID u) (u_Username u) (u_Role u) sid access refresh t0 t1 →
  honoured k cfg u sid access refresh t0 t1 w.
Proof.
  intros Hkeys Huse Hsid Huid. revert access refresh t0 t1 w.
  induction k as [|k IH]; intros access refresh t0 t1 w [_ Ha Hr] w' [W Hu Hrow Hk]; cbn [honoured].
  all: assert (access_ok cfg u sid access t0 t1 w') as Hok by
    (intros e <- Hq Hd; eapply access_accepted; [done..| |done];
     eapply access_live_key; [|exact Ha]; apply Hk; by left).
  all: split; [exact Hok|].
  { done. }
  intros e <- He Hsign Ht. destruct Hu as (u' & Hu' & [Eid Ename Erole Est Edel]).
  destruct Hr as (Hne & x & Hkey & Hx).
  assert (serves e w' u' sid) as Hsv by (split; rewrite ?Eid, ?Ename, ?Erole, ?Est, ?Edel; done).
  assert (redis_holds e w' ("refresh:" ++ uuid_String sid) (RStr (HashOpaqueToken refresh))) as Hh.
  { unfold redis_holds, rlookup. rewrite Hk by (right; left). rewrite Hkey. unfold rlive. cbn.
    by rewrite (proj2 (Z.ltb_lt _ _)) by (unfold clock in Ht; lia). }
  pose proof (quiet_RefreshToken e w' u' sid refresh He Hsv) as H. rewrite Eid, Ename, Erole in H.
  destruct (H Hrow Hne Hh) as (out & Hout & Hopen & Hus). exists out. split; [exact Hout|]. split; [|by apply IH].
  split; [| |apply Hopen|done].
  - apply final_wf; [tracked|done].
  - exists u'. split; [|done]. unfold final. by rewrite Hus.
Qed.

(** ** The theorems *)

(** The account is not locked, or its lock is over when the login reads the clock. *)
Definition lock_over (e : Env) (w : World) (a : AuthIdentity) : Prop :=
  ∀ t0, ai_LockedAt a = Some t0 → cfg_LoginLockDuration (e_cfg e) ≤ e_clock e (S (w_tick w)) - t0.

Lemma quiet_locked_now e w a :
  lock_over e w a →
  wp (locked_now (ai_LockedAt a) (e_cfg e)) e (λ o w', o = Some false ∧ w_db w' = w_db w ∧ keeps w w') (tick w).
Proof.
  unfold lock_over, locked_now. destruct (ai_LockedAt a) as [t0|]; intros H; [specialize (H t0 eq_refl)|].
  - do 2 wp_step. cbn [w_tick tick]. rewrite (proj2 (Z.ltb_ge _ _)) by lia. split_and!; try done. split; cbn; try done; lia.
  - wp_step. split_and!; try done. split; cbn; try done; lia.
Qed.
(** The conditions under which an account signs in with a password. *)
Record lets_in (e : Env) (w : World) (email password : string) (a : AuthIdentity) (u : User) : Prop := {
  li_attempt : attempt_on w email password a u;
  li_lock : lock_over e w a;
  li_password : (phc_check (e_cfg e) password (text_String (ai_PasswordHash a)) true).1 = Ok true;
  li_alone : password_alone e w u
}.
Lemma quiet_Login ctx email password e w a u :
  calm e → lets_in e w email password a u → wp (Login.Login ctx email password) e (signed_in e u (clock e w)) w.
Proof.
  intros He [Hat Hl Hphc [Hopen Hms Hfresh Hsign]]. pose proof (calm_faults e He) as Hq.
  pose proof (at_wf _ _ _ _ _ Hat) as W.
  apply (run_Login_to_lock ctx email password e w a u (signed_in e u (clock e w)) Hq Hat).
  wp_step. eapply wp_mono; [by apply quiet_locked_now|]. cbv beta. intros o w1 (-> & Hdb & K). cbv beta iota.
  wp_step. apply VerifyPasswordPHC_wp. rewrite Hphc. cbv beta iota.
  set (w2 := burn_n _ w1). assert (w_db w2 = w_db w ∧ keeps w w2) as [Hdb2 K2].
  { unfold w2. rewrite burn_n_eq. split; [exact Hdb|]. etrans; [exact K|]. by split. }
  eapply wp_mono; [apply quiet_login_verified; [done|rewrite Hdb2; apply W|rewrite Hdb2; apply Hat|]|].
  - split; [done|by rewrite Hdb2|by eapply fresh_sessions_keeps|done].
  - intros o w3 (out & n & -> & Hreq & Hs & Hst'). exists out, n. split_and!; [done..| |done].
    eapply session_open_widen; [|exact Hs]. by apply clock_mono, K2.
Qed.

(** Accounts and sessions have names. *)
Definition named (e : Env) (u : User) : Prop := uuid_String (u_ID u) ≠ "" ∧ ∀ n, uuid_String (e_uuid e n) ≠ "".
(** The request was answered with tokens, and the service honours them. *)
Definition let_in (e : Env) (w : World) (u : User) (login : Go (svc LoginOutcome)) : Prop :=
  ∃ out n, result login e w = Some (Done out) ∧ lr_MFARequired out = false
    ∧ undisturbed u (e_uuid e n) (lr_RefreshToken out) (final login e w) (final login e w)
    ∧ ∀ k, honoured k (e_cfg e) u (e_uuid e n) (lr_AccessToken out) (lr_RefreshToken out)
        (clock e w) (clock e (final login e w)) (final login e w).
Lemma lets_in_honoured ctx email password e w a u :
  calm e → keys_match (e_cfg e) → named e u → lets_in e w email password a u →
  let_in e w u (Login.Login ctx email password).
Proof.
  intros He Hkeys [Huid Hsids] Hin. pose proof (li_attempt _ _ _ _ _ _ Hin) as Hat.
  destruct (quiet_Login ctx email password e w a u He Hin) as (out & n & Hout & Hreq & Hs & Hst).
  exists out, n. split_and!; [done..| |].
  { split; [apply final_wf; [tracked|apply Hat]|done|apply Hs|done]. }
  intros k. apply session_honoured; [done| |done..|done].
  unfold not_usable. rewrite (at_live _ _ _ _ _ Hat). apply Hin.
Qed.

(** C7: the right password lets in.  When no call fails, a login that names an
    account which is neither deleted, banned, disabled nor locked, gives its
    password and has no second factor to pass, answers with tokens, and the
    service honours them: the access token is accepted as the account's until it
    expires, and the refresh token renews the session, any number of times, as
    long as each renewal comes in time and nobody else touches the session. *)
Theorem Login_grants_access ctx email password e w a u :
  calm e → keys_match (e_cfg e) → named e u →
  attempt_on w email password a u → lock_over e w a →
  (phc_check (e_cfg e) password (text_String (ai_PasswordHash a)) true).1 = Ok true →
  password_alone e w u →
  let login := Login.Login ctx email password in
  ∃ out n, result login e w = Some (Done out) ∧ lr_MFARequired out = false
    ∧ undisturbed u (e_uuid e n) (lr_RefreshToken out) (final login e w) (final login e w)
    ∧ ∀ k, honoured k (e_cfg e) u (e_uuid e n) (lr_AccessToken out) (lr_RefreshToken out)
        (clock e w) (clock e (final login e w)) (final login e w).
Proof. intros. by eapply lets_in_honoured. Qed.

(** ** A new account signs in *)

Lemma hash_of_verifies `{HLaws : !HashLaws HL} e cfg password phc :
  hash_of e password phc → e_cfg e = cfg → safe_pepper_id (cfg_ActivePepperID cfg) = true →
  IsValidPassword password = true ∧ (phc_check cfg password phc true).1 = Ok true.
Proof.
  intros [w (pm & pep & salt & Hpm & Hpep & Hv & _ & ->)%HashPasswordPHC_Ok] <- Hid. split; [done|].
  destruct (NewStaticPepperManager_active _ _ _ Hpm) as (Hact & pep' & Hpep').
  assert (GetPepper (ActiveID pm) pm = Some pep) as Hget.
  { unfold ActivePepper in Hpep. unfold GetPepper, ActiveID in *. destruct (_ !! _); by simplify_eq/=. }
  assert (safe_pepper_id (ActiveID pm) = true) as Hid' by (unfold ActiveID; by rewrite Hact).
  erewrite phc_check_format by done. rewrite argon2_length, N2Nat.id. cbn. by rewrite String.eqb_refl.
Qed.

(** A sign-up makes no second factor. *)
Definition same_mfa (d d' : DB) : Prop := mfa_factors d' = mfa_factors d.
#[local] Instance same_mfa_preorder : PreOrder same_mfa.
Proof. split; [done|]. intros d1 d2 d3 H1 H2. unfold same_mfa in *. congruence. Qed.
Lemma CompleteEmailJoin_mfa ctx username password confirm :
  db_tracks same_mfa (CompleteEmailJoin ctx username password confirm).
Proof.
  assert (∀ email display, st_in same_mfa (CreateUser email display)).
  { intros email display c d x d'. unfold CreateUser, insert_user. destruct (checks _); [done|]. by intros [= _ <-]. }
  assert (∀ user email hash, st_in same_mfa (CreateEmailAuth user email hash)).
  { intros user email hash c d x d'. unfold CreateEmailAuth, discard, insert_identity.
    destruct (checks _); [done|]. by intros [= _ <-]. }
  assert (∀ a b x h ip ua, st_in same_mfa (CreateRefreshSession a b x h ip ua)).
  { intros a b x h ip ua c d y d'. unfold CreateRefreshSession. destruct (checks _); [done|]. by intros [= _ <-]. }
  unfold CompleteEmailJoin, CreateEmailUser, CreateEmailUserInTx, CreateRefreshSessionInput. db_tracks.
Qed.

(** An account of a consistent store has no factor while it has no place in it. *)
Lemma new_account_has_no_factor d d' u :
  wf d → wf d' → users d' = (users d ++ [u])%list → mfa_factors d' = mfa_factors d → enabled_methods d' (u_ID u) = [].
Proof.
  intros W [[Hnd _] _ _ _ _ _ _] Hu Hm. unfold keys in Hnd. rewrite Hu, map_app in Hnd.
  apply NoDup_app in Hnd as (_ & Hnew & _).
  assert (∀ ty, factor_enabled d' (u_ID u) ty = false) as H; [|unfold enabled_methods; by rewrite !H].
  intros ty. apply exists_row_false. rewrite Hm. intros f Hf.
  destruct (factor_of (Some (u_ID u)) ty f) eqn:E; [|done].
  unfold factor_of in E. apply andb_true_iff in E as [(i & Hi & [= <-])%sql_eq_true _].
  destruct (wf_factors _ W) as (_ & _ & Hall). rewrite Forall_forall in Hall.
  exfalso. apply (Hnew (u_ID u)); [exact (Hall f Hf _ Hi)|by left].
Qed.

(** C30: a new account can sign in.  After a sign-up that succeeded - whatever
    failed on the way - a login with the same address and password, under the
    same configuration and with no call failing, lets the account in without a
    second factor, and the service honours the session. *)
Theorem joined_account_signs_in `{HLaws : !HashLaws HL} ctx username password confirm e w out ctx' email e' :
  let w' := final (CompleteEmailJoin ctx username password confirm) e w in
  wf (w_db w) → result (CompleteEmailJoin ctx username password confirm) e w = Some (Done out) →
  email_key email = GetContextString (ctx_EmailFromTempJWT ctx) "" →
  e_cfg e' = e_cfg e → calm e' → keys_match (e_cfg e') → safe_pepper_id (cfg_ActivePepperID (e_cfg e')) = true →
  fresh_sessions e' w' →
  (∀ u, u ∈ users (w_db w') → named e' u
     ∧ ∀ n, signs e' (uuid_String (e_uuid e' n)) (uuid_String (u_ID u)) (u_Username u) (UserRole_string (u_Role u))) →
  ∃ u, u ∈ users (w_db w') ∧ ej_UserID out = uuid_String (u_ID u) ∧ u_UsernameDisplay u = username
    ∧ let_in e' w' u (Login.Login ctx' email password).
Proof.
  intros w' W Hout Hmail Hcfg He Hkeys Hpep Hfresh Hserve.
  destruct (CompleteEmailJoin_wp ctx username password confirm e w) as [_ H].
  destruct (H out Hout) as ((Hve & _ & Hvp & _) & u & Hmade & Huid & _). rewrite <- Hmail in *.
  destruct Hmade as (Hus & Hem & Hdisp & Hrole & Husable & a & phc & Hids & Hown & Hprov & Hpuid & Hhash & Hof & Hlock).
  change (users (w_db w') = users (w_db w) ++ [u])%list in Hus.
  change (auth_identities (w_db w') = auth_identities (w_db w) ++ [a])%list in Hids.
  assert (u ∈ users (w_db w')) as Hu by (rewrite Hus; apply elem_of_app; right; by left).
  assert (wf (w_db w')) as W' by (apply final_wf; [tracked|done]).
  destruct (Hserve u Hu) as [Hnamed Hsign]. exists u. split_and!; [done..|].
  destruct (hash_of_verifies e (e_cfg e') password phc Hof (eq_sym Hcfg) Hpep) as [_ Hphc].
  apply orb_false_iff in Husable as [Hdel Hst].
  apply (lets_in_honoured ctx' email password e' w' a u He Hkeys Hnamed). split.
  - split; [done| |by destruct (u_DeletedAt u)|done|].
    + split; [rewrite Hids; apply elem_of_app; right; by left|done..].
    + unfold IsValidPassword in Hvp. bool_to_prop. split; [by intros ->|unfold maxPasswordLen in *; lia].
  - intros t0. by rewrite Hlock.
  - by rewrite Hhash.
  - split; [done|by eapply new_account_has_no_factor; [exact W| |exact Hus|apply CompleteEmailJoin_mfa]|done..].
Qed.
End grants.

(** ** Examples *)

Import Toy.

(** The concrete token library accepts what it signed. *)
Lemma opt_all_intro {A} (p : A → bool) o : (∀ x, o = Some x → p x = true) → opt_all p o = true.
Proof. destruct o as [x|]; [|done]. intros H. by apply H. Qed.
Lemma toy_valid now o c : claims_valid now o c → valid now o c = true.
Proof.
  intros (Hi & Ha & Hx & He & Hn). unfold valid. rewrite !andb_true_iff. split_and!.
  - apply opt_all_intro. intros iss H. by apply bool_decide_eq_true, Hi.
  - apply opt_all_intro. intros aud H. by apply bool_decide_eq_true, Ha.
  - destruct (WithExpirationRequired o); [|done]. by destruct Hx as [x ->].
  - apply opt_all_intro. intros x H. by apply Z.ltb_lt, He.
  - apply opt_all_intro. intros x H. by apply Z.leb_le, Hn.
Qed.
Lemma toy_decode alg key c tok kf : sign alg key c = Ok tok → kf alg = Ok key → decode kf tok = Ok c.
Proof.
  intros Hs Hk. unfold sign in Hs. destruct (jc_Audience c) as [|aud []] eqn:Ea; try done.
  destruct (print_date (jc_ExpiresAt c)) as [x1|] eqn:E1; [|done].
  destruct (print_date (jc_IssuedAt c)) as [x2|] eqn:E2; [|done].
  destruct (print_date (jc_NotBefore c)) as [x3|] eqn:E3; [|done].
  apply print_date_lacks in E1, E2, E3. cbv zeta in Hs.
  destruct (forallb field_ok _) eqn:Hf; [|done]. injection Hs as <-.
  unfold field_ok in Hf. cbn [List.forallb] in Hf. bool_to_prop.
  unfold decode. cbn [Join String.append]. rewrite !Split_app by done. rewrite Split_lacks by done.
  rewrite Hk, String.eqb_refl, E1, E2, E3, <- Ea. by destruct c.
Qed.
#[export] Instance jwt_accepts : JwtAccepts jwt.
Proof.
  exists (λ _ priv pub, priv = pub).
  - intros t. assert (0 < Second) by done. cbn. lia.
  - intros alg priv pub c tok now kf o <- Hs Hk Hv. cbn. erewrite toy_decode by done.
    by rewrite (toy_valid _ _ _ Hv), orb_true_r.
Defined.

(** An environment in which time stands still: every call gives what the first one
    does, so what holds of a call holds of all. *)
Definition env_still : Env :=
  mkEnv cfg false (λ _, Hour + Second) (λ _, FNone) (λ _, id_of 5000) (λ _ k, Some (pad "s" k)) (λ _, Some 1%N)
    (λ n k, id_of (100 * n + k)).
Lemma still_calm : calm env_still.
Proof.
  split; [done| |done|done|done]. intros n k. exists (pad "s" k). split; [done|apply pad_length].
Qed.
Lemma still_keys : keys_match (e_cfg env_still).
Proof. done. Qed.

Definition ann_joined : User := ann_user_in (w_db w_joined).
Definition ann_identity : AuthIdentity := ann_identity_in (w_db w_joined).
Definition still_claims (u : User) : JWTClaims :=
  access_claims (uuid_String (id_of 5000)) (uuid_String (u_ID u)) (u_Username u) (UserRole_string (u_Role u))
    (Hour + Second) (Hour + Second + cfg_AccessTTL cfg).
Lemma still_signs u :
  is_ok (sign (cfg_JWTAlgorithm cfg) (cfg_JWTPrivateKey cfg) (still_claims u)) = true →
  ∀ n, signs env_still (uuid_String (e_uuid env_still n)) (uuid_String (u_ID u)) (u_Username u) (UserRole_string (u_Role u)).
Proof.
  intros H n m. change (∃ tok, sign (cfg_JWTAlgorithm cfg) (cfg_JWTPrivateKey cfg) (still_claims u) = Ok tok).
  destruct (sign _ _ _) as [tok|]; [by exists tok|done].
Qed.
Lemma still_fresh w : existsb (λ s, bool_decide (se_ID s = id_of 5000)) (sessions (w_db w)) = false → fresh_sessions env_still w.
Proof.
  intros H n _ Hin. change (e_uuid env_still n) with (id_of 5000) in Hin.
  unfold keys in Hin. apply list_elem_of_In, in_map_iff in Hin as (s & Hs & Hin).
  enough (existsb (λ s, bool_decide (se_ID s = id_of 5000)) (sessions (w_db w)) = true) by congruence.
  apply existsb_exists. exists s. split; [done|]. by apply bool_decide_eq_true.
Qed.
Lemma ann_named : named env_still ann_joined.
Proof. split; [by vm_compute|intros n; by vm_compute]. Qed.
Lemma ann_signs : is_ok (sign (cfg_JWTAlgorithm cfg) (cfg_JWTPrivateKey cfg) (still_claims ann_joined)) = true.
Proof. by vm_compute. Qed.
Lemma joined_fresh : fresh_sessions env_still w_joined.
Proof. apply still_fresh. by vm_compute. Qed.
Lemma ann_alone : password_alone env_still w_joined ann_joined.
Proof. split; [by vm_compute|by vm_compute|exact joined_fresh|exact (still_signs ann_joined ann_signs)]. Qed.

Lemma Login_grants_access_witness : let_in env_still w_joined ann_joined (Login.Login nobody ann ann_password).
Proof.
  exact (Login_grants_access nobody ann ann_password env_still w_joined ann_identity ann_joined
           still_calm still_keys ann_named
           (ann_attempt ann_password ltac:(by vm_compute) ltac:(by vm_compute))
           ltac:(intros t0 H; unfold ann_identity in H; rewrite ann_unlocked in H; discriminate H)
           ltac:(by vm_compute) ann_alone).
Defined.

Definition join_out : EmailJoinResult :=
  outcome (mkEmailJoinResult "" "" "" "") (result (CompleteEmailJoin join_ctx "ann" ann_password ann_password) env w_verified).
Lemma ann_joins : result (CompleteEmailJoin join_ctx "ann" ann_password ann_password) env w_verified = Some (Done join_out).
Proof. by vm_compute. Qed.
Lemma verified_wf : wf (w_db w_verified).
Proof.
  with_strategy transparent [w_verified w_started] (unfold w_verified, w_started).
  do 2 (apply run_keeps_wf; [tracked|]). exact wf_empty.
Qed.
Lemma joined_users : users (w_db w_joined) = [ann_joined].
Proof. by vm_compute. Qed.
Lemma joined_served u :
  u ∈ users (w_db w_joined) → named env_still u
  ∧ ∀ n, signs env_still (uuid_String (e_uuid env_still n)) (uuid_String (u_ID u)) (u_Username u) (UserRole_string (u_Role u)).
Proof.
  rewrite joined_users. intros ->%list_elem_of_singleton. exact (conj ann_named (still_signs ann_joined ann_signs)).
Qed.

Definition ann_join : Go (svc EmailJoinResult) := CompleteEmailJoin join_ctx "ann" ann_password ann_password.
Lemma ann_join_final : final ann_join env w_verified = w_joined.
Proof. unfold ann_join. with_strategy transparent [w_joined] (unfold w_joined). reflexivity. Qed.
Lemma ann_email : email_key ann = GetContextString (ctx_EmailFromTempJWT join_ctx) "".
Proof. by vm_compute. Qed.
Lemma safe_pepper : safe_pepper_id (cfg_ActivePepperID (e_cfg env_still)) = true.
Proof. by vm_compute. Qed.
Lemma joined_account_signs_in_witness :
  ∃ u, u ∈ users (w_db w_joined) ∧ ej_UserID join_out = uuid_String (u_ID u) ∧ u_UsernameDisplay u = "ann"
    ∧ let_in env_still w_joined u (Login.Login nobody ann ann_password).
Proof.
  pose proof (joined_account_signs_in join_ctx "ann" ann_password ann_password env w_verified join_out nobody ann env_still) as H.
  fold ann_join in H. cbv zeta in H. rewrite ann_join_final in H.
  exact (H verified_wf ann_joins ann_email eq_refl still_calm still_keys safe_pepper joined_fresh joined_served).
Defined.
