(* ===== verification/NewcomerSpec.v ===== *)
(** * A newcomer can sign up

    Where no call fails, the three steps of the sign-up lead a newcomer from an
    address to an account with an open session. *)

From S2P Require Import Prelude.
From S2P Require Import GoLib.
From S2P Require Import Encoding.
From S2P Require Import Regex.
From S2P Require Import Utils.
From S2P Require Import Model.
From S2P Require Import Runtime.
From S2P Require Import Logic.
From S2P Require Import Queries.
From S2P Require Import Store.
From S2P Require Import Password.
From S2P Require Import Tokens.
From S2P Require Import Emails.
From S2P Require Import Codes.
From S2P Require Import Signup.
From S2P Require Import Mfa.
From S2P Require Import Login.
From S2P Require Import Session.
From S2P Require Import Frames.
From S2P Require Import Walks.
From S2P Require Import Toy.
From S2P Require Import Requests.
From S2P Require Import Scenes.
From S2P Require Import TokenSpec.
From S2P Require Import SessionSpec.
From S2P Require Import LoginSpec.
From S2P Require Import PasswordSpec.
From S2P Require Import SignupSpec.
From S2P Require Import GrantSpec.

#[local] Open Scope string_scope.
#[local] Open Scope Z_scope.
#[local] Open Scope go_scope.

Section newcomer.
Context `{TL : TextLib} `{UL : UuidLib} `{ULaws : !UuidLaws UL} `{HL : HashLib} `{JL : JwtLib} `{JA : !JwtAccepts JL}.

(** ** The code is mailed *)

Definition code_key (k : string) : string := "email_code:" ++ k.
(** The code of an address waits in Redis. *)
Definition code_waits (e : Env) (w : World) (k code : string) (t0 : Z) : Prop :=
  ∃ t x, t0 ≤ t ∧ t0 + cfg_OTP_TTL (e_cfg e) ≤ x
    ∧ w_redis w !! code_key k = Some (ROTP (mkOTPMeta code t (t + cfg_OTP_TTL (e_cfg e)) 0 5), Some x).
Definition code_mail (e : Env) (k code : string) : Email :=
  mkEmail (cfg_EmailFromAddress (e_cfg e)) k "Verification Code" ("Your auth verification code is: " ++ code)
    (verification_head ++ htmlReplacer code ++ verification_tail).

Definition picks_codes (e : Env) : Prop := ∀ n, ∃ c, e_rand_int e n = Some c ∧ (c < 1000000)%N.

Lemma quiet_StartEmailVerification email e w :
  calm e → picks_codes e → 0 < cfg_OTP_TTL (e_cfg e) →
  IsValidEmail (email_key email) = true → IsEmailRegistered (email_key email) (sctx e w) (w_db w) = Ok false →
  w_redis w !! code_key (email_key email) = None →
  wp (StartEmailVerification email) e (λ o w', o = Some (Done ()) ∧ ∃ code, IsValidVerificationCode code = true
      ∧ w_mail w' = code_mail e (email_key email) code :: w_mail w ∧ w_db w' = w_db w ∧ (w_tick w ≤ w_tick w')%nat
      ∧ code_waits e w' (email_key email) code (clock e w)) w.
Proof.
  intros He Hint Httl Hv Hfree Hnone. pose proof (calm_faults e He) as Hq. unfold StartEmailVerification. cbv zeta.
  fold (email_key email). set (k := email_key email) in *. rewrite Hv. cbn [negb]. cbv iota.
  unfold IsEmailTaken. wp_step. apply (quiet_WithTx _ Hq). apply (quiet_query _ Hq).
  change (IsEmailRegistered k _ _) with (IsEmailRegistered k (sctx e w) (w_db w)). rewrite Hfree. cbv beta iota.
  set (w1 := tick (set_w_tx (w_tx w) (tick (set_w_tx _ (tick w))))).
  assert (GetVerificationCode k e w1 = (Some (Err ErrRedisNil), tick w1)) as Hget.
  { unfold GetVerificationCode, bind. rewrite run_redis_Get by done. unfold rlookup.
    change (w_redis w1) with (w_redis w). unfold code_key in Hnone. by rewrite Hnone. }
  wp_step. unfold wp at 1. rewrite Hget. cbn [fst snd]. do 2 wp_step. cbv iota.
  destruct (Hint (w_tick (tick w1))) as (n & Hn & Hlt).
  assert (GenerateCode e (tick w1) = (Some (format_code n), tick (tick w1))) as Hgen.
  { unfold GenerateCode, bind, rand_int. by rewrite Hn. }
  wp_step. unfold wp at 1. rewrite Hgen. cbn [fst snd]. do 4 wp_step. unfold SaveVerificationCode. do 3 wp_step.
  apply (quiet_redis_Set _ Hq). cbv beta iota.
  unfold SendEmailVerificationEmail. rewrite RenderVerificationHTML_shows. do 2 wp_step. apply (quiet_send_mail _ Hq). cbv beta iota.
  wp_step. split; [done|]. exists (format_code n). rewrite (proj2 (Z.ltb_lt _ _) Httl).
  split; [by apply format_code_valid|]. split; [done|]. split; [done|]. split; [cbn; lia|].
  pose proof (calm_clock e He) as Hmono. eexists _, _. split; [|split; [|cbn; by rewrite lookup_insert_eq]].
  - apply Hmono. cbn. lia.
  - unfold clock. pose proof (Hmono (w_tick w) (w_tick (tick (tick (tick w1)))) ltac:(cbn; lia)). cbn in *. lia.
Qed.

(** ** The code is exchanged for a token *)

Definition temp_key (id : string) : string := "temporary_session:" ++ id.
(** A token for [subject], and the key behind it. *)
Definition temp_live (e : Env) (w : World) (id subject tok : string) (t0 : Z) : Prop :=
  ∃ t x, t0 ≤ t ≤ clock e w ∧ t + cfg_TemporaryTokenTTL (e_cfg e) ≤ x
    ∧ jwt_SignedString (cfg_JWTAlgorithm (e_cfg e)) (cfg_JWTPrivateKey (e_cfg e))
        (temporary_claims id subject RoleJoiner t (t + cfg_TemporaryTokenTTL (e_cfg e))) = Ok tok
    ∧ w_redis w !! temp_key id = Some (RStr "1", Some x).
Definition signs_temp (e : Env) (subject : string) : Prop :=
  ∀ n m, ∃ tok, jwt_SignedString (cfg_JWTAlgorithm (e_cfg e)) (cfg_JWTPrivateKey (e_cfg e))
    (temporary_claims (uuid_String (e_uuid e n)) subject RoleJoiner (e_clock e m)
       (e_clock e m + cfg_TemporaryTokenTTL (e_cfg e))) = Ok tok.

(** The newcomer is quick: from a world on, no call comes after the code or the
    token has expired. *)
Record prompt (e : Env) (w : World) : Prop := {
  pr_code : ∀ n, (w_tick w ≤ n)%nat → e_clock e n < clock e w + cfg_OTP_TTL (e_cfg e);
  pr_token : ∀ n, (w_tick w ≤ n)%nat → e_clock e n + Second ≤ clock e w + cfg_TemporaryTokenTTL (e_cfg e)
}.

Lemma code_trimmed code : IsValidVerificationCode code = true → TrimSpace code = code.
Proof. intros [_ H]%IsValidVerificationCode_spec. by apply TrimSpace_graphic, digits_graphic. Qed.

Lemma quiet_VerifyEmailCode email code e w0 w :
  calm e → prompt e w0 → (w_tick w0 ≤ w_tick w)%nat → signs_temp e (email_key email) →
  IsValidEmail (email_key email) = true → IsValidVerificationCode code = true →
  code_waits e w (email_key email) code (clock e w0) →
  wp (VerifyEmailCode email code) e (λ o w', ∃ tok n, o = Some (Done tok) ∧ w_db w' = w_db w ∧ (w_tick w ≤ w_tick w')%nat
      ∧ temp_live e w' (uuid_String (e_uuid e n)) (email_key email) tok (clock e w)) w.
Proof.
  intros He [Hp1 Hp2] Hle Hsign Hv Hc (t & x & Ht & Hx & Hkey). pose proof (calm_faults e He) as Hq.
  unfold VerifyEmailCode. cbv zeta. fold (email_key email). set (k := email_key email) in *.
  rewrite Hv, code_trimmed, Hc by done. cbn [negb]. cbv iota.
  assert (GetVerificationCode k e w = (Some (Ok (mkOTPMeta code t (t + cfg_OTP_TTL (e_cfg e)) 0 5)), tick w)) as Hget.
  { unfold GetVerificationCode, bind. rewrite run_redis_Get by done. unfold rlookup, code_key in *. rewrite Hkey.
    unfold rlive. cbn. specialize (Hp1 (w_tick w) Hle). by rewrite (proj2 (Z.ltb_lt _ _)) by lia. }
  wp_step. unfold wp at 1. rewrite Hget. cbn [fst snd]. cbv iota. do 2 wp_step. cbn [otp_ExpiresAt otp_MaxAttempts otp_Attempts otp_Code].
  pose proof (Hp1 (w_tick (tick w)) ltac:(cbn; lia)) as Hnow. cbn [tick w_tick] in Hnow.
  rewrite (proj2 (Z.ltb_ge _ _)) by (cbn; lia). change (5 <=? 0) with false. cbv iota. rewrite String.eqb_refl. cbn [negb]. cbv iota.
  do 3 wp_step. set (w1 := tick (tick w)). unfold GenerateTemporaryJWT. do 4 wp_step. unfold GenerateTemporarySession.
  do 2 wp_step. apply (quiet_redis_is_nil _ Hq). cbv beta iota. do 2 wp_step.
  set (t1 := e_clock e (w_tick (tick w1))). set (t2 := e_clock e (w_tick (tick (tick w1)))).
  assert (clock e w ≤ t1) as Ht1 by (apply (calm_clock e He); cbn; lia).
  assert (0 < t1 + cfg_TemporaryTokenTTL (e_cfg e) - t2) as Hpos.
  { pose proof (Hp2 (w_tick (tick (tick w1))) ltac:(cbn; lia)) as H2. fold t2 in H2. assert (0 < Second) by done.
    pose proof (clock_mono e w0 w He Hle). lia. }
  rewrite (proj2 (Z.leb_gt _ _) Hpos). apply (quiet_redis_Set _ Hq). cbv beta iota. do 2 wp_step. cbv beta iota.
  destruct (Hsign (w_tick w1) (w_tick (tick w1))) as [tok Htok]. fold t1 in Htok. rewrite Htok. wp_step. cbv iota. wp_step.
  apply (quiet_redis_Del _ Hq). cbv beta iota. wp_step. exists tok, (w_tick w1). split_and!; [done|done|cbn; lia|].
  rewrite (proj2 (Z.ltb_lt _ _) Hpos). exists t1, (e_clock e (w_tick (tick (tick (tick w1)))) + (t1 + cfg_TemporaryTokenTTL (e_cfg e) - t2)).
  split; [split; [done|]|split; [|split; [exact Htok|]]].
  - apply (calm_clock e He). cbn. lia.
  - pose proof (calm_clock e He (w_tick (tick (tick w1))) (w_tick (tick (tick (tick w1)))) ltac:(cbn; lia)) as H.
    fold t2 in H. lia.
  - cbn. rewrite lookup_delete_ne by done. by rewrite lookup_insert_eq.
Qed.

Lemma quiet_VerifyAndParseTemporaryJWT id subject tok e w0 w t0 :
  calm e → keys_match (e_cfg e) → prompt e w0 → (w_tick w0 ≤ w_tick w)%nat → id ≠ "" → subject ≠ "" →
  temp_live e w id subject tok t0 → clock e w0 ≤ t0 →
  wp (VerifyAndParseTemporaryJWT ("Bearer " ++ tok) RoleJoiner) e (λ o w', o = Some (Ok (subject, id))
      ∧ w_db w' = w_db w ∧ (w_tick w ≤ w_tick w')%nat) w.
Proof.
  intros He Hk [_ Hp] Hle Hid Hsub (t & x & Ht & Hx & Htok & Hkey) Ht0. pose proof (calm_faults e He) as Hq.
  unfold VerifyAndParseTemporaryJWT. wp_step. unfold wp at 1.
  pose proof (Hp (w_tick w) Hle) as H0. pose proof (Hp (S (w_tick w)) ltac:(lia)) as H1. pose proof (Hp (S (S (w_tick w))) ltac:(lia)) as H2.
  rewrite (parseJWT_accepts e w tok _ t (cfg_TemporaryTokenTTL (e_cfg e)) Hk Htok) by (try done; unfold clock in *; lia).
  cbn [fst snd]. unfold temporary_claims. cbn [jc_Subject jc_ID jc_Role jc_ExpiresAt].
  rewrite !(proj2 (String.eqb_neq _ _)) by done. cbn [orb negb String.eqb]. rewrite String.eqb_refl. cbn [negb]. cbv iota.
  wp_step. unfold IsValidTemporarySession. do 3 wp_step. apply (quiet_redis_is_nil _ Hq). cbv beta iota.
  pose proof (jwt_date (t + cfg_TemporaryTokenTTL (e_cfg e))) as Hdate. assert (0 < Second) as Hsec by done.
  rewrite (proj2 (Z.ltb_ge _ _)) by (cbn [tick w_tick]; lia).
  cbn [orb]. cbv iota. wp_step. unfold wp at 1, redis_Exists. rewrite run_redis_call by done. cbn [fst snd tick w_tick w_redis].
  unfold rlookup, temp_key in *. rewrite Hkey. unfold rlive. cbn [fst snd]. rewrite (proj2 (Z.ltb_lt _ _)) by lia.
  wp_step. change (1 =? 1) with true. cbn [negb]. cbv iota. wp_step. split_and!; [done|done|cbn; lia].
Qed.

(** ** The account is made, with an open session *)

(** The format the service demands of a username is stricter than the table's. *)
Lemma username_fits_table username : IsValidUsername username = true → re_match username_display_format username = true.
Proof.
  unfold IsValidUsername, usernameRegex, username_display_format. rewrite !re_match_lang, !lang_cat_iff.
  intros (s1 & s2 & -> & H1 & H2). exists s1, s2. split_and!; [done..|]. apply lang_opt_iff. by right.
Qed.

(** There is room for an account: nobody has its address or its name, and the ids
    the database makes are new. *)
Record room (e : Env) (d : DB) (k username : string) : Prop := {
  rm_name : UsernameExists username (mkSCtx 0 (λ _, uuid_Nil) "") d = Ok false;
  rm_identity : IsEmailRegistered k (mkSCtx 0 (λ _, uuid_Nil) "") d = Ok false;
  rm_email : ∀ u, u ∈ users d → pg_lower (u_Email u) ≠ pg_lower (pg_lower k);
  rm_ids : ∀ n, (e_gen_uuid e n 0 ∉ user_ids d) ∧ (e_gen_uuid e n 0 ∉ keys ai_ID (auth_identities d))
}.

Lemma not_in_keys {A} (f : A → uuid) id (l : list A) :
  id ∉ keys f l → exists_row (λ r, bool_decide (f r = id)) l = false.
Proof.
  intros H. apply exists_row_false. intros r Hr. apply bool_decide_eq_false. intros <-. apply H.
  by apply keys_elem.
Qed.
Lemma CreateUser_creates e n k username d c :
  room e d k username → IsValidUsername username = true → s_gen c = e_gen_uuid e n →
  ∃ u d', run_stmt (CreateUser k username) c d = (Ok u, d')
    ∧ users d' = (users d ++ [u])%list ∧ sessions d' = sessions d ∧ auth_identities d' = auth_identities d
    ∧ u_ID u = e_gen_uuid e n 0 ∧ u_Email u = pg_lower k ∧ u_Username u = pg_lower username
    ∧ u_Role u = UserRoleUser ∧ not_usable (u_DeletedAt u) (u_Status u) = false.
Proof.
  intros [Hname _ Hmail Hids] Hv Hg. unfold run_stmt, CreateUser, insert_user. cbv zeta. cbn [u_ID u_Email u_Username].
  rewrite (username_fits_table _ Hv), Hg. destruct (Hids n) as [Hid _]. rewrite (not_in_keys _ _ _ Hid).
  assert (exists_row (λ r, bool_decide (pg_lower (u_Email r) = pg_lower (pg_lower k))) (users d) = false) as ->.
  { apply exists_row_false. intros u Hu. by apply bool_decide_eq_false, Hmail. }
  assert (exists_row (λ r, bool_decide (u_Email r = pg_lower k)) (users d) = false) as ->.
  { apply exists_row_false. intros u Hu. apply bool_decide_eq_false. intros E. apply (Hmail u Hu). by rewrite E. }
  unfold UsernameExists in Hname. injection Hname as ->. cbn. by eexists _, _.
Qed.
Lemma CreateEmailAuth_creates e n k username d d1 c u hash :
  room e d k username → auth_identities d1 = auth_identities d → u ∈ users d1 → s_gen c = e_gen_uuid e n →
  ∃ d', run_stmt (CreateEmailAuth (Some (u_ID u)) k (Some hash)) c d1 = (Ok (), d')
    ∧ users d' = users d1 ∧ sessions d' = sessions d1.
Proof.
  intros [_ Hreg _ Hids] Ha Hu Hg. unfold run_stmt, CreateEmailAuth, discard, insert_identity. cbv zeta. cbn [ai_ID].
  rewrite Hg, Ha. destruct (Hids n) as [_ Hid]. rewrite (not_in_keys _ _ _ Hid).
  unfold IsEmailRegistered in Hreg. injection Hreg as ->.
  assert (user_exists (Some (u_ID u)) d1 = true) as ->.
  { apply exists_row_true. exists u. split; [done|]. by apply bool_decide_eq_true. }
  cbn. by eexists.
Qed.

(** A step that leaves Redis alone and time goes by. *)
Definition redis_kept (w w' : World) : Prop := w_redis w' = w_redis w ∧ (w_tick w ≤ w_tick w')%nat.
(** The account a sign-up makes, as its session names it. *)
Definition account_of (e : Env) (k username : string) (u : User) : Prop :=
  (∃ n, u_ID u = e_gen_uuid e n 0) ∧ u_Email u = pg_lower k ∧ u_Username u = pg_lower username
  ∧ u_Role u = UserRoleUser ∧ not_usable (u_DeletedAt u) (u_Status u) = false.

Lemma quiet_CreateEmailUser k username hash e w :
  no_faults e → room e (w_db w) k username → IsValidUsername username = true →
  wp (CreateEmailUser k username hash) e (λ o w', ∃ c u, o = Some (Ok c) ∧ u ∈ users (w_db w')
      ∧ cu_ID c = u_ID u ∧ cu_Username c = u_Username u ∧ cu_Role c = u_Role u
      ∧ sessions (w_db w') = sessions (w_db w) ∧ redis_kept w w' ∧ account_of e k username u) w.
Proof.
  intros Hq Hroom Hv. unfold CreateEmailUser. apply (quiet_WithTx _ Hq). set (w1 := set_w_tx _ (tick w)).
  unfold CreateEmailUserInTx. wp_step. apply (quiet_query _ Hq).
  change (UsernameExists username (sctx e w1) (w_db w1)) with (UsernameExists username (mkSCtx 0 (λ _, uuid_Nil) "") (w_db w)).
  rewrite (rm_name _ _ _ _ Hroom). cbv beta iota. wp_step.
  destruct (CreateUser_creates e (w_tick (tick w1)) k username (w_db w) (sctx e (tick w1)) Hroom Hv eq_refl)
    as (u & d1 & Hrun & Hus & Hses & Hids & Hacc).
  eapply (quiet_stmt _ Hq); [exact Hrun|]. cbv beta iota. wp_step. set (w2 := tick (set_w_db d1 (tick w1))).
  assert (u ∈ users d1) as Hu by (rewrite Hus; apply elem_of_app; right; by left).
  destruct (CreateEmailAuth_creates e (w_tick w2) k username (w_db w) d1 (sctx e w2) u hash Hroom Hids Hu eq_refl)
    as (d2 & Hrun2 & Hus2 & Hses2).
  eapply (quiet_stmt _ Hq); [exact Hrun2|]. cbv beta iota. wp_step.
  eexists _, u. split; [done|]. cbn [cu_ID cu_Username cu_Role]. split; [change (u ∈ users d2); by rewrite Hus2|].
  split_and!; [done..|cbn; congruence|split; [done|cbn; lia]|].
  destruct Hacc as (Hid & Hrest). split; [by eexists|done].
Qed.

(** The configuration has the pepper it hashes with. *)
Definition peppered (cfg : Config) : Prop :=
  is_ok (NewStaticPepperManager (cfg_PasswordPeppersRaw cfg) (cfg_ActivePepperID cfg)) = true.
Lemma quiet_HashPasswordPHC password e w :
  calm e → peppered (e_cfg e) → IsValidPassword password = true →
  wp (HashPasswordPHC password) e (λ o w', (∃ phc, o = Some (Ok phc)) ∧ w_db w' = w_db w ∧ redis_kept w w') w.
Proof.
  intros He Hpep Hv. unfold HashPasswordPHC, ActivePepperManager. do 3 wp_step.
  unfold peppered in Hpep. destruct (NewStaticPepperManager _ _) as [pm|] eqn:E; [|done]. wp_step.
  rewrite Hv. cbn [negb]. cbv iota. destruct (NewStaticPepperManager_active _ _ _ E) as [Hact [pep Hp]].
  unfold ActivePepper. rewrite Hact, Hp. wp_step. destruct (calm_random e He (w_tick w) saltLen) as (salt & Hs & _).
  unfold wp at 1, randomSalt, rand_read. rewrite Hs. cbn [fst snd]. unfold IDKey. do 2 wp_step. apply wp_burn. repeat wp_step.
  split; [by eexists|]. split; [done|]. split; [done|cbn; lia].
Qed.

Definition joined (e : Env) (k username : string) (t0 : Z) (o : option (svc EmailJoinResult)) (w' : World) : Prop :=
  ∃ out u n, o = Some (Done out) ∧ u ∈ users (w_db w') ∧ account_of e k username u
    ∧ session_open (e_cfg e) w' (u_ID u) (u_Username u) (u_Role u) (e_uuid e n) (ej_AccessToken out) (ej_RefreshToken out)
        t0 (clock e w').
Lemma session_open_key cfg w w' uid name role sid access refresh t0 t1 t1' :
  t1 ≤ t1' → w_db w' = w_db w → (∀ k, k ∈ session_keys (uuid_String sid) → w_redis w' !! k = w_redis w !! k) →
  session_open cfg w uid name role sid access refresh t0 t1 → session_open cfg w' uid name role sid access refresh t0 t1'.
Proof.
  intros Ht Hdb Hk [Hrow Ha Hr]. split; [by rewrite Hdb|..].
  - eapply access_live_widen; [..|exact Ha]; [done..|apply Hk; by left].
  - eapply refresh_live_widen; [..|exact Hr]; [done|apply Hk; right; by left].
Qed.
Lemma quiet_DeleteTemporarySession id e w :
  no_faults e →
  wp (DeleteTemporarySession id) e (λ o w', is_Some o ∧ w_db w' = w_db w ∧ (w_tick w ≤ w_tick w')%nat
    ∧ ∀ k, (∀ s, k ≠ "temporary_session:" ++ s) → w_redis w' !! k = w_redis w !! k) w.
Proof.
  intros Hq. unfold DeleteTemporarySession. wp_step. apply (quiet_redis_is_nil _ Hq). cbv beta iota.
  apply (quiet_redis_Del _ Hq). split_and!; [done|done|cbn; lia|].
  intros k Hk. cbn. rewrite lookup_delete_ne; [done|]. intros E. by apply (Hk id).
Qed.

Lemma quiet_CompleteEmailJoin ctx k username password e w :
  calm e → peppered (e_cfg e) → ctx_EmailFromTempJWT ctx = Some k →
  IsValidEmail k = true → IsValidUsername username = true → IsValidPassword password = true →
  room e (w_db w) k username → fresh_sessions e w →
  (∀ n m, signs e (uuid_String (e_uuid e n)) (uuid_String (e_gen_uuid e m 0)) (pg_lower username) (UserRole_string UserRoleUser)) →
  wp (CompleteEmailJoin ctx username password password) e (joined e k username (clock e w)) w.
Proof.
  intros He Hpep Hctx Hve Hvu Hvp Hroom Hfresh Hsign. pose proof (calm_faults e He) as Hq.
  unfold CompleteEmailJoin. cbv zeta. rewrite Hctx. change (GetContextString (Some k) "") with k.
  assert (String.eqb k "" = false) as -> by (apply String.eqb_neq; by intros ->).
  rewrite Hve, Hvu, Hvp, String.eqb_refl. cbn [orb negb]. cbv iota. wp_step. apply (quiet_query _ Hq).
  change (UsernameExists username (sctx e w) (w_db w)) with (UsernameExists username (mkSCtx 0 (λ _, uuid_Nil) "") (w_db w)).
  rewrite (rm_name _ _ _ _ Hroom). cbv beta iota. wp_step.
  eapply wp_mono; [by apply quiet_HashPasswordPHC|]. cbv beta. intros o w1 ([phc ->] & Hdb1 & Hr1 & Ht1). cbv beta iota.
  cbn [tick w_db w_redis w_tick] in Hdb1, Hr1, Ht1. wp_step.
  eapply wp_mono; [apply quiet_CreateEmailUser; [done|by rewrite Hdb1|done]|]. cbv beta.
  intros o w2 (c & u & -> & Hu & Hcid & Hcn & Hcr & Hses & (Hr2 & Ht2) & Hacc). cbv beta iota. do 3 wp_step.
  rewrite Hcid, Hcn, Hcr.
  eapply wp_mono; [apply (quiet_GenerateUserTokens e He)|].
  { intros n. destruct Hacc as ([m ->] & _ & -> & -> & _). apply Hsign. }
  cbv beta. intros o w3 (sid & tp & (Hdb3 & Htx3 & Ht3 & Hoth) & (n & Hn & Hsid) & -> & Hid & Ha & Hrl). cbv beta iota.
  unfold CreateRefreshSessionInput. wp_step. cbn [rs_SessionID rs_UserID rs_ExpiresAt rs_RefreshTokenHash rs_IP rs_UserAgent].
  rewrite Hid, uuid_Parse_String. cbn [default].
  destruct (CreateRefreshSession_creates sid (u_ID u) (tp_RefreshExp tp) (tp_RefreshToken tp) (textOrNull (ClientIPFromCtx ctx))
    (textOrNull (UserAgentFromCtx ctx)) (sctx e w3) (w_db w3)) as (s & d4 & Hrun & Hrow & Hus);
    [|rewrite Hdb3; apply still_there_exists; by exists u|eapply (quiet_stmt _ Hq); [exact Hrun|]].
  { rewrite Hdb3, Hses, Hdb1, Hsid. apply Hfresh. cbn in *. lia. }
  cbv beta iota. set (w4 := tick (set_w_db d4 w3)). wp_step.
  eapply wp_mono; [by apply quiet_DeleteTemporarySession|]. cbv beta. intros o w5 ([r ->] & Hdb5 & Ht5 & Hk5). cbv beta iota. wp_step.
  eexists _, u, n. split; [done|]. cbn [ej_AccessToken ej_RefreshToken].
  split; [rewrite Hdb5; change (u ∈ users d4); by rewrite Hus, Hdb3|]. split; [done|]. rewrite <- Hsid.
  apply (session_open_key _ w4 w5 _ _ _ _ _ _ _ (clock e w4)); [apply clock_mono; [done|exact Ht5]|done| |].
  { intros k' Hk'. apply Hk5. intros s'. unfold session_keys in Hk'. set_unfold. by destruct Hk' as [-> | [-> | []]]. }
  split; [exact Hrow| |].
  - eapply access_live_widen; [..|exact Ha]; [apply clock_mono; [done|cbn in *; lia]|apply clock_mono; [done|cbn; lia]|done].
  - eapply refresh_live_widen; [..|exact Hrl]; [apply clock_mono; [done|cbn in *; lia]|done].
Qed.

(** ** The theorem *)

(** Someone the service does not know, with a valid address, name and password. *)
Record newcomer (e : Env) (w : World) (k username password : string) : Prop := {
  nc_email : IsValidEmail k = true;
  nc_username : IsValidUsername username = true;
  nc_password : IsValidPassword password = true;
  nc_room : room e (w_db w) k username;
  nc_no_code : w_redis w !! code_key k = None
}.
(** A service that is set up: its keys match and sign, it has its pepper, codes live,
    and what the environment names has a name. *)
Record set_up (e : Env) (w : World) (k username : string) : Prop := {
  su_keys : keys_match (e_cfg e);
  su_pepper : peppered (e_cfg e);
  su_codes : picks_codes e ∧ 0 < cfg_OTP_TTL (e_cfg e);
  su_names : (∀ n, uuid_String (e_uuid e n) ≠ "") ∧ ∀ n, uuid_String (e_gen_uuid e n 0) ≠ "";
  su_fresh : fresh_sessions e w;
  su_temp : signs_temp e k;
  su_signs : ∀ n m, signs e (uuid_String (e_uuid e n)) (uuid_String (e_gen_uuid e m 0)) (pg_lower username)
    (UserRole_string UserRoleUser)
}.

Lemma set_up_later e w w' k username :
  w_db w' = w_db w → (w_tick w ≤ w_tick w')%nat → set_up e w k username → set_up e w' k username.
Proof.
  intros Hdb Ht []. split; try done. intros n Hn. rewrite Hdb. apply su_fresh0. lia.
Qed.
Lemma joined_honoured ctx k username password e w :
  calm e → wf (w_db w) → set_up e w k username → ctx_EmailFromTempJWT ctx = Some k →
  IsValidEmail k = true → IsValidUsername username = true → IsValidPassword password = true → room e (w_db w) k username →
  let join := CompleteEmailJoin ctx username password password in
  let w4 := final join e w in
  ∃ out u n, result join e w = Some (Done out) ∧ u ∈ users (w_db w4) ∧ account_of e k username u
    ∧ undisturbed u (e_uuid e n) (ej_RefreshToken out) w4 w4
    ∧ ∀ j, honoured j (e_cfg e) u (e_uuid e n) (ej_AccessToken out) (ej_RefreshToken out) (clock e w) (clock e w4) w4.
Proof.
  intros He W [Hkeys Hpep _ [Hsids Huids] Hfresh _ Hsign] Hctx Hve Hvu Hvp Hroom join w4.
  destruct (quiet_CompleteEmailJoin ctx k username password e w He Hpep Hctx Hve Hvu Hvp Hroom Hfresh Hsign)
    as (out & u & n & Hout & Hu & Hacc & Hopen).
  exists out, u, n. split_and!; [exact Hout|exact Hu|done| |].
  - split; [apply final_wf; [tracked|done]|by exists u|apply Hopen|done].
  - intros j. destruct Hacc as ([m Hid] & _ & _ & _ & Huse). apply session_honoured; [done..|by rewrite Hid|exact Hopen].
Qed.

(** C29: a newcomer can sign up.  When no call fails, someone the service does not
    know asks for a code and gets it by mail; the code, given back in time, is
    exchanged for a token; the token is accepted as the newcomer's; and with it the
    account is made, with the name asked for, and a session that the service
    honours: its access token is accepted until it expires, and its refresh token
    renews it, any number of times. *)
Theorem newcomer_signs_up email username password e w :
  let k := email_key email in
  calm e → wf (w_db w) → newcomer e w k username password → set_up e w k username → prompt e w →
  let start := StartEmailVerification email in
  result start e w = Some (Done ())
  ∧ let w1 := final start e w in
    ∃ code, w_mail w1 = code_mail e k code :: w_mail w
  ∧ let verify := VerifyEmailCode email code in
    ∃ tok, result verify e w1 = Some (Done tok)
  ∧ let w2 := final verify e w1 in
    let parse := VerifyAndParseTemporaryJWT ("Bearer " ++ tok) RoleJoiner in
    ∃ id, result parse e w2 = Some (Ok (k, id))
  ∧ let w3 := final parse e w2 in
    ∀ ctx, ctx_EmailFromTempJWT ctx = Some k →
    let join := CompleteEmailJoin ctx username password password in
    let w4 := final join e w3 in
    ∃ out u n, result join e w3 = Some (Done out) ∧ u ∈ users (w_db w4) ∧ account_of e k username u
      ∧ undisturbed u (e_uuid e n) (ej_RefreshToken out) w4 w4
      ∧ ∀ j, honoured j (e_cfg e) u (e_uuid e n) (ej_AccessToken out) (ej_RefreshToken out) (clock e w3) (clock e w4) w4.
Proof.
  intros k He W Hnew Hset Hprompt start. destruct Hnew as [Hve Hvu Hvp Hroom Hnone].
  pose proof Hset as [Hkeys _ [Hint Httl] [Hsids _] _ Htemp _].
  destruct (quiet_StartEmailVerification email e w He Hint Httl Hve (rm_identity _ _ _ _ Hroom) Hnone)
    as (Hdone & code & Hcode & Hmail & Hdb1 & Ht1 & Hwaits).
  split; [exact Hdone|]. intros w1. change (StartEmailVerification email e w).2 with w1 in *. exists code. split; [exact Hmail|]. intros verify.
  destruct (quiet_VerifyEmailCode email code e w w1 He Hprompt Ht1 Htemp Hve Hcode Hwaits) as (tok & n & Htok & Hdb2 & Ht2 & Hlive).
  exists tok. split; [exact Htok|]. intros w2 parse. change (VerifyEmailCode email code e w1).2 with w2 in *.
  assert (k ≠ "") as Hk by (intros E; fold k in Hve; by rewrite E in Hve).
  destruct (quiet_VerifyAndParseTemporaryJWT _ k tok e w w2 _ He Hkeys Hprompt ltac:(lia) (Hsids n) Hk Hlive
    (clock_mono e w w1 He Ht1)) as (Hparse & Hdb3 & Ht3).
  eexists. split; [exact Hparse|]. intros w3 ctx Hctx. change (VerifyAndParseTemporaryJWT ("Bearer " ++ tok) RoleJoiner e w2).2 with w3 in *.
  assert (w_db w3 = w_db w) as Hdb by congruence.
  apply joined_honoured; rewrite ?Hdb; try done. apply (set_up_later e w w3); [done|lia|done].
Qed.
End newcomer.

(** ** Example *)

Import Toy.

(** Every call of this environment gives what the first one does. *)
Definition env_fixed : Env :=
  mkEnv cfg false (λ _, Hour + Second) (λ _, FNone) (λ _, id_of 5000) (λ _ k, Some (pad "s" k)) (λ _, Some 123456%N)
    (λ _ _, id_of 7000).
Lemma fixed_calm : calm env_fixed.
Proof.
  split; [done| |done|done|done]. intros n k. exists (pad "s" k). split; [done|apply pad_length].
Qed.
Definition carol : string := "carol@example.com".
Lemma carol_key : email_key carol = carol.
Proof. by vm_compute. Qed.
Definition carol_claims : list JWTClaims :=
  let now := Hour + Second in
  [temporary_claims (uuid_String (id_of 5000)) carol RoleJoiner now (now + cfg_TemporaryTokenTTL cfg);
   access_claims (uuid_String (id_of 5000)) (uuid_String (id_of 7000)) "carol" (UserRole_string UserRoleUser) now (now + cfg_AccessTTL cfg)].
Lemma carol_signed : List.forallb (λ c, is_ok (sign (cfg_JWTAlgorithm cfg) (cfg_JWTPrivateKey cfg) c)) carol_claims = true.
Proof. by vm_compute. Qed.
Lemma ok_signed c : is_ok (sign (cfg_JWTAlgorithm cfg) (cfg_JWTPrivateKey cfg) c) = true →
  ∃ tok, sign (cfg_JWTAlgorithm cfg) (cfg_JWTPrivateKey cfg) c = Ok tok.
Proof. destruct (sign _ _ _) as [tok|]; [by exists tok|done]. Qed.
Lemma carol_new : newcomer env_fixed (world empty_db) carol "carol" ann_password.
Proof.
  split; [by vm_compute..| |done]. split; [done|done|by intros u ?%elem_of_nil|].
  intros n. split; by intros ?%elem_of_nil.
Qed.
Lemma fixed_set_up : set_up env_fixed (world empty_db) carol "carol".
Proof.
  pose proof carol_signed as H. cbn [List.forallb carol_claims] in H. apply andb_true_iff in H as [Ht H].
  apply andb_true_iff in H as [Ha _]. split.
  - done.
  - by vm_compute.
  - split; [intros n; by exists 123456%N|done].
  - split; intros n; by vm_compute.
  - intros n _ ?%elem_of_nil. done.
  - intros n m. exact (ok_signed _ Ht).
  - intros n m k. exact (ok_signed _ Ha).
Qed.
Lemma fixed_prompt : prompt env_fixed (world empty_db).
Proof. split; intros n _; by vm_compute. Qed.

Definition carol_start : Go (svc unit) := StartEmailVerification carol.
Definition carol_ctx : Ctx := mkCtx None (Some carol) None None None None None.
Lemma newcomer_signs_up_witness :
  result carol_start env_fixed (world empty_db) = Some (Done ())
  ∧ ∃ code tok id w3 out, w_mail (final carol_start env_fixed (world empty_db)) = [code_mail env_fixed carol code]
      ∧ result (VerifyEmailCode carol code) env_fixed (final carol_start env_fixed (world empty_db)) = Some (Done tok)
      ∧ result (VerifyAndParseTemporaryJWT ("Bearer " ++ tok) RoleJoiner) env_fixed
          (final (VerifyEmailCode carol code) env_fixed (final carol_start env_fixed (world empty_db))) = Some (Ok (carol, id))
      ∧ result (CompleteEmailJoin carol_ctx "carol" ann_password ann_password) env_fixed w3 = Some (Done out).
Proof.
  pose proof (newcomer_signs_up carol "carol" ann_password env_fixed (world empty_db)) as H.
  cbv zeta in H. rewrite carol_key in H.
  destruct (H fixed_calm wf_empty carol_new fixed_set_up fixed_prompt) as (Hs & code & Hm & tok & Ht & id & Hp & Hj).
  destruct (Hj carol_ctx eq_refl) as (out & u & n & Ho & _).
  exact (conj Hs (ex_intro _ code (ex_intro _ tok (ex_intro _ id (ex_intro _ _ (ex_intro _ out
    (conj Hm (conj Ht (conj Hp Ho))))))))).
Defined.
