(* ===== verification/MaintenanceSpec.v ===== *)
(** * What scheduled maintenance promises: what it sweeps, and what it spares *)

From S2P Require Import Prelude.
From S2P Require Import GoLib.
From S2P Require Import Encoding.
From S2P Require Import Model.
From S2P Require Import Runtime.
From S2P Require Import Logic.
From S2P Require Import Queries.
From S2P Require Import Store.
From S2P Require Import Maintenance.
From S2P Require Import Toy.
From S2P Require Import Requests.
From S2P Require Import Scenes.
From Stdlib Require Import Sorted.
From stdpp Require Import sorting list.

#[local] Open Scope string_scope.
#[local] Open Scope Z_scope.
#[local] Open Scope go_scope.

(** ** What each job leaves *)

Definition not_before (t : Z) (x : option Z) : Prop := ∀ y, x = Some y → t ≤ y.

(** The tables after the job called [name] ran at [t] or later. *)
Definition swept (name : string) (t : Z) (d : DB) : Prop :=
  if String.eqb name "remove_expired_password_resets" then
    ∀ r, r ∈ password_resets d → pr_UsedAt r = None → t ≤ pr_ExpiresAt r
  else if String.eqb name "remove_old_password_resets" then
    ∀ owner, (length (select (λ r, bool_decide (pr_UserID r = owner)) (password_resets d)) ≤ 5)%nat
  else if String.eqb name "remove_old_login_logs" then
    ∀ l, l ∈ logins d → not_before (t - 90 * Day) (lg_CreatedAt l)
  else if String.eqb name "remove_unverified_mfa_factors" then
    ∀ f, f ∈ mfa_factors d → mf_Verified f = Some false → not_before (t - 2 * Hour) (mf_CreatedAt f)
  else if String.eqb name "revoke_expired_sessions" then
    ∀ s, s ∈ sessions d → se_Revoked s = Some false → t ≤ se_ExpiresAt s
  else
    ∀ s, s ∈ sessions d → se_Revoked s = Some false → not_before (t - 30 * Day) (se_CreatedAt s).

(** Maintenance only removes rows and revokes sessions. *)
Record shrinks (d d' : DB) : Prop := mkShrinks {
  sh_resets : sublist (password_resets d') (password_resets d);
  sh_logins : ∀ l, l ∈ logins d' → l ∈ logins d;
  sh_factors : ∀ f, f ∈ mfa_factors d' → f ∈ mfa_factors d;
  sh_sessions : ∀ s, s ∈ sessions d' → se_Revoked s = Some false → s ∈ sessions d
}.

#[export] Instance shrinks_preorder : PreOrder shrinks.
Proof.
  split; [by split|]. intros d1 d2 d3 [R1 L1 F1 S1] [R2 L2 F2 S2]. split; auto. by etransitivity.
Qed.

Lemma select_sublist {A} (p : A → bool) l l' : sublist l l' → sublist (select p l) (select p l').
Proof.
  induction 1 as [|x l l' _ IH|x l l' _ IH]; simpl; [constructor|..]; destruct (p x); by try constructor.
Qed.
Lemma delete_where_sublist {A} (p : A → bool) l : sublist (delete_where p l) l.
Proof. unfold delete_where. induction l as [|x l IH]; simpl; [constructor|]. destruct (p x); by constructor. Qed.

Lemma select_sublist_self {A} (p : A → bool) l : sublist (select p l) l.
Proof. unfold select. induction l as [|x l IH]; simpl; [constructor|]. destruct (p x); by constructor. Qed.

Lemma swept_shrinks name t d d' : shrinks d d' → swept name t d → swept name t d'.
Proof.
  intros [R L F S]. unfold swept. repeat case_match; intros Hsw; eauto.
  - intros r Hr. apply Hsw. eapply elem_of_submseteq; [exact Hr|]. by apply sublist_submseteq.
  - intros owner. etransitivity; [|apply (Hsw owner)]. by apply sublist_length, select_sublist.
Qed.

(** ** The jobs *)

(** A job never fails on its own, shrinks the tables and leaves them swept. *)
Definition job_ok (j : maintenanceJob) : Prop := ∀ c d, NoDup (keys pr_ID (password_resets d)) →
  (job_run j c d).1 = Ok () ∧ shrinks d (job_run j c d).2 ∧ swept (job_name j) (s_now c) (job_run j c d).2.

Lemma shrinks_resets p d : shrinks d (set_password_resets (delete_where p (password_resets d)) d).
Proof. split; simpl; auto. apply delete_where_sublist. Qed.

Lemma shrinks_sessions p d :
  shrinks d (set_sessions (update p (set_se_Revoked (Some true)) (sessions d)) d).
Proof.
  split; simpl; auto. intros s (s0 & Hs0 & ->)%elem_of_update. destruct (p s0); [done|done].
Qed.

Lemma ts_before_false x t : ts_before x t = false → not_before t x.
Proof. unfold ts_before. intros H y ->. bool_to_prop. lia. Qed.

Lemma expired_resets_ok : job_ok (mkMaintenanceJob "remove_expired_password_resets" RemoveExpiredPasswordResets).
Proof.
  intros c d _. cbn. split; [done|]. split; [apply shrinks_resets|].
  intros r [Hr Hp]%elem_of_delete_where Hu. rewrite Hu in Hp. simpl in Hp. bool_to_prop. lia.
Qed.

Lemma old_logins_ok : job_ok (mkMaintenanceJob "remove_old_login_logs" RemoveOldLoginLogs).
Proof.
  intros c d _. cbn. split; [done|]. split.
  - split; simpl; auto. by intros l [? _]%elem_of_delete_where.
  - by intros l [_ Hp%ts_before_false]%elem_of_delete_where.
Qed.

Lemma unverified_factors_ok : job_ok (mkMaintenanceJob "remove_unverified_mfa_factors" RemoveUnverifiedMFAFactors).
Proof.
  intros c d _. cbn. split; [done|]. split.
  - split; simpl; auto. by intros l [? _]%elem_of_delete_where.
  - intros f [_ Hp]%elem_of_delete_where Hv. rewrite Hv, sql_eq_refl in Hp. by apply ts_before_false.
Qed.

Lemma expired_sessions_ok : job_ok (mkMaintenanceJob "revoke_expired_sessions" RevokeExpiredSessions).
Proof.
  intros c d _. cbn. split; [done|]. split; [apply shrinks_sessions|].
  intros s (s0 & Hs0 & ->)%elem_of_update. destruct (_ && _) eqn:E; [done|]. intros Hr.
  rewrite Hr, sql_eq_refl in E. simpl in E. bool_to_prop. lia.
Qed.

Lemma old_sessions_ok : job_ok (mkMaintenanceJob "revoke_old_sessions" RevokeOldSessions).
Proof.
  intros c d _. cbn. split; [done|]. split; [apply shrinks_sessions|].
  intros s (s0 & Hs0 & ->)%elem_of_update. destruct (_ && _) eqn:E; [done|]. intros Hr.
  rewrite Hr, sql_eq_refl in E. by apply ts_before_false.
Qed.

Lemma old_resets_ok : job_ok (mkMaintenanceJob "remove_old_password_resets" RemoveOldPasswordResets).
Proof.
  intros c d Hnd. cbn. split; [done|]. split; [apply shrinks_resets|]. intros owner. cbn [password_resets set_password_resets].
  set (ranked o := sort_by (λ a b, desc (pr_CreatedAt a) (pr_CreatedAt b))
                     (select (λ r, bool_decide (pr_UserID r = o)) (password_resets d))).
  transitivity (length (List.firstn 5 (ranked owner))); [|rewrite length_firstn; lia].
  apply submseteq_length, NoDup_submseteq.
  - apply (NoDup_fmap_1 pr_ID). eapply sublist_NoDup; [exact Hnd|]. unfold keys. change (List.map pr_ID) with (fmap (M:=list) pr_ID).
    apply fmap_sublist. etransitivity; [|apply delete_where_sublist]. apply select_sublist_self.
  - intros r [[Hr Hgone]%elem_of_delete_where Ho]%elem_of_select. bool_to_prop.
    assert (r ∈ ranked owner) as Hin.
    { unfold ranked. rewrite sort_by_Permutation. apply elem_of_select. by rewrite bool_decide_eq_true. }
    rewrite <- (firstn_skipn 5 (ranked owner)) in Hin. apply elem_of_app in Hin as [Hin|Hin]; [done|].
    exfalso. apply Hgone, list_elem_of_In, in_map, in_flat_map. exists owner.
    split; [rewrite <- Ho; by apply in_map, list_elem_of_In|by apply list_elem_of_In].
Qed.

(** ** What the jobs leave alone *)

(** At least five other requests of the same user are as recent as [r]. *)
Definition superfluous (d : DB) (r : PasswordReset) : Prop :=
  ∃ newer, length newer = 5%nat ∧ NoDup (keys pr_ID newer)
    ∧ ∀ r', r' ∈ newer → r' ∈ password_resets d ∧ pr_UserID r' = pr_UserID r ∧ pr_ID r' ≠ pr_ID r
        ∧ desc (pr_CreatedAt r') (pr_CreatedAt r) = true.
Definition before (t : Z) (x : option Z) : Prop := ∃ y, x = Some y ∧ y < t.
Definition abandoned (t : Z) (f : MfaFactor) : Prop := mf_Verified f = Some false ∧ before (t - 2 * Hour) (mf_CreatedAt f).

(** From [d] to [d'], only what was due by [t] is gone or revoked. *)
Record spared (t : Z) (d d' : DB) : Prop := mkSpared {
  sp_accounts : users d' = users d ∧ auth_identities d' = auth_identities d
    ∧ webauthn_credentials d' = webauthn_credentials d ∧ audit_logs d' = audit_logs d;
  sp_shrinks : shrinks d d';
  sp_resets : ∀ r, r ∈ password_resets d →
    r ∈ password_resets d' ∨ (pr_UsedAt r = None ∧ pr_ExpiresAt r < t) ∨ superfluous d r;
  sp_logins : ∀ l, l ∈ logins d → l ∈ logins d' ∨ before (t - 90 * Day) (lg_CreatedAt l);
  sp_factors : ∀ f, f ∈ mfa_factors d → f ∈ mfa_factors d' ∨ abandoned t f;
  sp_codes : ∀ c, c ∈ mfa_recovery_codes d →
    c ∈ mfa_recovery_codes d' ∨ ∃ f, f ∈ mfa_factors d ∧ mf_ID f = rc_FactorID c ∧ abandoned t f;
  sp_sessions : ∀ s, s ∈ sessions d →
    s ∈ sessions d'
    ∨ set_se_Revoked (Some true) s ∈ sessions d' ∧ se_Revoked s = Some false
      ∧ (se_ExpiresAt s < t ∨ before (t - 30 * Day) (se_CreatedAt s))
}.

Lemma superfluous_earlier d d' r : shrinks d d' → superfluous d' r → superfluous d r.
Proof.
  intros [R _ _ _] (newer & Hl & Hnd & Hall). exists newer. split_and!; [done..|]. intros r' (Hin & ?)%Hall. split; [|done].
  eapply elem_of_submseteq; [exact Hin|]. by apply sublist_submseteq.
Qed.
#[local] Instance spared_preorder t : PreOrder (spared t).
Proof.
  split.
  - intros d. split; auto. done.
  - intros d1 d2 d3 [(U1 & I1 & C1 & A1) H1 R1 L1 F1 K1 S1] [(U2 & I2 & C2 & A2) H2 R2 L2 F2 K2 S2]. split.
    + split_and!; congruence.
    + by trans d2.
    + intros r [Hr|?]%R1; [|by right]. destruct (R2 r Hr) as [?|[?|?]]; [by left|by right; left|].
      right. right. by eapply superfluous_earlier.
    + intros l [Hl|?]%L1; [auto|by right].
    + intros f [Hf|?]%F1; [auto|by right].
    + intros c [Hc|?]%K1; [|by right]. destruct (K2 c Hc) as [?|(f & Hf & ?)]; [by left|].
      right. exists f. split; [by apply H1|done].
    + intros s [Hs|(Hs & Hrev & Hdue)]%S1; [auto|].
      destruct (S2 _ Hs) as [?|(_ & Hno & _)]; [by right|]. by destruct s.
Qed.
Lemma spared_later t1 t2 d d' : t1 ≤ t2 → spared t1 d d' → spared t2 d d'.
Proof.
  intros Ht [A H R L F K S].
  assert (∀ k x, before (t1 - k) x → before (t2 - k) x) as Hb by (intros k x (y & -> & ?); exists y; split; [done|lia]).
  assert (∀ f, abandoned t1 f → abandoned t2 f) as Ha by (intros f [? ?]; split; auto).
  split; [done..| | | | |].
  - intros r [?|[[? ?]|?]]%R; [by left| |by right; right]. right. left. split; [done|lia].
  - intros l [?|?]%L; auto.
  - intros f [?|?]%F; auto.
  - intros c [?|(f & ? & ? & ?)]%K; [by left|]. right. exists f. auto.
  - intros s [?|(? & ? & Hd)]%S; [by left|]. right. split_and!; [done..|]. destruct Hd as [?|?]; [left; lia|auto].
Qed.

Definition spares (j : maintenanceJob) : Prop := ∀ c d, NoDup (keys pr_ID (password_resets d)) →
  spared (s_now c) d (job_run j c d).2.

Lemma ts_before_true x t : ts_before x t = true → before t x.
Proof. destruct x as [y|]; [|done]. cbn. intros H. bool_to_prop. by exists y. Qed.
(** A row is kept, or the condition of the deletion holds of it. *)
Lemma kept_or {A} (p : A → bool) l x : x ∈ l → x ∈ delete_where p l ∨ p x = true.
Proof. intros Hx. destruct (p x) eqn:E; [by right|left]. by apply elem_of_delete_where. Qed.
Lemma revoked_or (p : Session → bool) l s :
  s ∈ l → s ∈ update p (set_se_Revoked (Some true)) l ∨ set_se_Revoked (Some true) s ∈ update p (set_se_Revoked (Some true)) l ∧ p s = true.
Proof.
  intros Hs. destruct (p s) eqn:E; [right; split; [|done]|left]; apply elem_of_update; exists s; by rewrite E.
Qed.
Lemma unrevoked (x : option bool) b : sql_eq x (Some b) = true → x = Some b.
Proof. intros (a & -> & [= <-])%sql_eq_true. done. Qed.
Ltac spare := intros c d _; cbn; split; cbn; auto; try done.

Lemma expired_resets_spares : spares (mkMaintenanceJob "remove_expired_password_resets" RemoveExpiredPasswordResets).
Proof.
  spare; [apply shrinks_resets|]. intros r [?|Hp]%(kept_or (λ r, negb (is_valid (pr_UsedAt r)) && (pr_ExpiresAt r <? s_now c))); [by left|].
  right. left. destruct (pr_UsedAt r); [done|]. cbn in Hp. bool_to_prop. split; [done|lia].
Qed.
Lemma old_logins_spares : spares (mkMaintenanceJob "remove_old_login_logs" RemoveOldLoginLogs).
Proof.
  spare; [split; cbn; auto; by intros l [? _]%elem_of_delete_where|].
  intros l [?|Hp]%(kept_or (λ l, ts_before (lg_CreatedAt l) (s_now c - 90 * Day))); [by left|right]. by apply ts_before_true.
Qed.
Lemma unverified_factors_spares : spares (mkMaintenanceJob "remove_unverified_mfa_factors" RemoveUnverifiedMFAFactors).
Proof.
  set (p t f := sql_eq (mf_Verified f) (Some false) && ts_before (mf_CreatedAt f) (t - 2 * Hour)).
  assert (∀ t f, p t f = true → abandoned t f) as Hp.
  { intros t f [Hv Ht]%andb_true_iff. split; [|by apply ts_before_true]. by apply unrevoked in Hv. }
  spare; [split; cbn; auto; by intros f [? _]%elem_of_delete_where|..].
  - intros f [?|H]%(kept_or (p (s_now c))); [by left|right; auto].
  - intros k [?|H]%(kept_or (λ r, bool_decide (rc_FactorID r ∈ List.map mf_ID (select (p (s_now c)) (mfa_factors d))))); [by left|right].
    bool_to_prop. apply list_elem_of_In, in_map_iff in H as (f & E & Hf%list_elem_of_In). apply elem_of_select in Hf as [Hf Hpf].
    exists f. auto.
Qed.
Lemma expired_sessions_spares : spares (mkMaintenanceJob "revoke_expired_sessions" RevokeExpiredSessions).
Proof.
  spare; [apply shrinks_sessions|].
  intros s [?|[? H]]%(revoked_or (λ s, sql_eq (se_Revoked s) (Some false) && (se_ExpiresAt s <? s_now c))); [by left|right].
  apply andb_true_iff in H as [Hr%unrevoked Ht]. bool_to_prop. split_and!; [done..|left; lia].
Qed.
Lemma old_sessions_spares : spares (mkMaintenanceJob "revoke_old_sessions" RevokeOldSessions).
Proof.
  spare; [apply shrinks_sessions|].
  intros s [?|[? H]]%(revoked_or (λ s, sql_eq (se_Revoked s) (Some false) && ts_before (se_CreatedAt s) (s_now c - 30 * Day))); [by left|right].
  apply andb_true_iff in H as [Hr%unrevoked Ht%ts_before_true]. by split_and!; [..|right].
Qed.
(** Sorting by [desc] puts the more recent rows first. *)
Lemma insert_by_ordered {A} (before : A → A → bool) x l :
  (∀ x y, before x y = false → before y x = true) → (∀ x y z, before x y = true → before y z = true → before x z = true) →
  StronglySorted (λ x y, before x y = true) l → StronglySorted (λ x y, before x y = true) (insert_by before x l).
Proof.
  intros Htotal Htrans. induction 1 as [|y l Hl IH Hy]; cbn; [by repeat constructor|].
  destruct (before x y) eqn:E; (constructor; [by try constructor|]).
  - constructor; [done|]. eapply Forall_impl; [exact Hy|]. intros z. by apply Htrans.
  - rewrite insert_by_Permutation. constructor; [by apply Htotal|done].
Qed.
Lemma sort_by_ordered {A} (before : A → A → bool) l :
  (∀ x y, before x y = false → before y x = true) → (∀ x y z, before x y = true → before y z = true → before x z = true) →
  StronglySorted (λ x y, before x y = true) (sort_by before l).
Proof. intros H1 H2. induction l as [|x l IH]; [constructor|]. by apply insert_by_ordered. Qed.
Lemma desc_total x y : desc x y = false → desc y x = true.
Proof. destruct x, y; cbn; intros H; try done. bool_to_prop. lia. Qed.
Lemma desc_trans x y z : desc x y = true → desc y z = true → desc x z = true.
Proof. destruct x, y, z; cbn; intros; try done. bool_to_prop. lia. Qed.

Lemma same_row d r r' :
  NoDup (keys pr_ID (password_resets d)) → r ∈ password_resets d → r' ∈ password_resets d → pr_ID r = pr_ID r' → r = r'.
Proof.
  intros Hnd [i Hi]%list_elem_of_lookup [j Hj]%list_elem_of_lookup Heq.
  assert (i = j) as <-; [|congruence].
  apply (NoDup_lookup (keys pr_ID (password_resets d)) i j (pr_ID r)); [done|..]; unfold keys; rewrite list_lookup_fmap.
  - by rewrite Hi.
  - by rewrite Hj, Heq.
Qed.
Lemma beyond_five d owner r :
  NoDup (keys pr_ID (password_resets d)) →
  r ∈ List.skipn 5 (sort_by (λ a b, desc (pr_CreatedAt a) (pr_CreatedAt b))
        (select (λ r, bool_decide (pr_UserID r = owner)) (password_resets d))) →
  superfluous d r.
Proof.
  intros Hnd Hr. set (own := select _ _) in Hr. set (ranked := sort_by _ own) in Hr.
  assert (ranked ≡ₚ own) as Hperm by apply sort_by_Permutation.
  assert (∀ x, x ∈ ranked → x ∈ password_resets d ∧ pr_UserID x = owner) as Hin.
  { intros x Hx. rewrite Hperm in Hx. apply elem_of_select in Hx as [? Ho]. by bool_to_prop. }
  assert (NoDup (keys pr_ID ranked)) as Hids.
  { unfold keys. change (List.map pr_ID) with (fmap (M:=list) pr_ID). rewrite Hperm. eapply sublist_NoDup; [exact Hnd|].
    apply fmap_sublist, select_sublist_self. }
  assert (StronglySorted (λ x y, desc (pr_CreatedAt x) (pr_CreatedAt y) = true) ranked) as Hs
    by (apply sort_by_ordered; [intros; by apply desc_total|intros; by eapply desc_trans]).
  pose proof (firstn_skipn 5 ranked) as Hsplit. set (top := List.firstn 5 ranked) in *. set (rest := List.skipn 5 ranked) in *.
  rewrite <- Hsplit in Hin, Hids, Hs. unfold keys in Hids. rewrite map_app in Hids. apply NoDup_app in Hids as (Htop & Hdisj & _).
  exists top. split_and!; [|done|].
  - apply firstn_length_le. assert (length rest ≠ 0%nat) by (destruct rest; [by apply not_elem_of_nil in Hr|done]).
    unfold rest in *. rewrite length_skipn in *. lia.
  - intros r' Hr'. destruct (Hin r') as [? Ho']; [apply elem_of_app; by left|].
    destruct (Hin r) as [? Ho]; [apply elem_of_app; by right|]. split_and!; [done|congruence| |].
    + intros E. apply (Hdisj (pr_ID r')); [by apply (list_elem_of_fmap_2 pr_ID)|].
      rewrite E. by apply (list_elem_of_fmap_2 pr_ID).
    + exact (StronglySorted_app_1_elem_of _ _ _ _ _ Hs Hr' Hr).
Qed.
Lemma old_resets_spares : spares (mkMaintenanceJob "remove_old_password_resets" RemoveOldPasswordResets).
Proof.
  intros c d Hnd. cbn. split; cbn; auto; try done; [apply shrinks_resets|]. intros r Hr.
  set (ranked := List.flat_map _ _).
  destruct (kept_or (λ r, bool_decide (pr_ID r ∈ List.map pr_ID ranked)) _ r Hr) as [?|H]; [by left|right; right].
  bool_to_prop. apply list_elem_of_In, in_map_iff in H as (r0 & E & (owner & _ & H0)%in_flat_map).
  apply list_elem_of_In in H0. enough (r0 = r) as <- by by eapply beyond_five.
  apply (same_row d); [done| |done|done].
  eapply elem_of_submseteq; [exact H0|]. etrans; [apply sublist_submseteq, sublist_drop|].
  rewrite sort_by_Permutation. apply sublist_submseteq, select_sublist_self.
Qed.
(** ** The loop *)

Definition faulty (f : fault) : bool := match f with FNone => false | _ => true end.

(** The jobs whose call fails, by name; the call of the [i]-th is the [i]-th of the
    run. *)
Fixpoint failed_jobs (e : Env) (n : nat) (js : list maintenanceJob) : list string :=
  match js with
  | [] => []
  | j :: js => if faulty (e_fault e n) then job_name j :: failed_jobs e (S n) js else failed_jobs e (S n) js
  end.

Lemma run_job j e w :
  job_ok j → NoDup (keys pr_ID (password_resets (w_db w))) → w_tx w = None →
  ∃ w', w_tx w' = None ∧ w_tick w' = S (w_tick w) ∧ shrinks (w_db w) (w_db w')
    ∧ if faulty (e_fault e (w_tick w)) then db_stmt (job_run j) e w = (Some (Err ErrConn), w')
      else db_stmt (job_run j) e w = (Some (Ok ()), w')
           ∧ swept (job_name j) (us (e_clock e (w_tick w))) (w_db w').
Proof.
  intros Hj Hnd Htx. destruct (Hj (sctx e w) (w_db w) Hnd) as (Hok & Hsh & Hsw).
  unfold db_stmt, run_stmt. destruct (job_run j (sctx e w) (w_db w)) as [r d'] eqn:E. simpl in Hok. subst r.
  assert (s_now (sctx e w) = us (e_clock e (w_tick w))) as Ht by (unfold sctx; by rewrite Htx). rewrite Ht in Hsw.
  destruct (e_fault e (w_tick w)); cbn [faulty].
  - exists (tick (set_w_db d' w)). by split_and!.
  - exists (tick w). by split_and!.
  - exists (tick (set_w_db d' w)). by split_and!.
Qed.

Lemma sublist_keys {A B} (c : A → B) l l' : sublist l l' → NoDup (keys c l') → NoDup (keys c l).
Proof.
  intros Hs Hnd. eapply sublist_NoDup; [exact Hnd|]. unfold keys. change (List.map c) with (fmap (M:=list) c).
  by apply fmap_sublist.
Qed.

Lemma run_jobs_spec js failed e w t :
  Forall job_ok js → NoDup (keys pr_ID (password_resets (w_db w))) → w_tx w = None →
  (∀ n, (w_tick w ≤ n)%nat → t ≤ us (e_clock e n)) → (∀ name t1 t2 d, t1 ≤ t2 → swept name t2 d → swept name t1 d) →
  ∃ w', run_jobs js failed e w = (Some (failed ++ failed_jobs e (w_tick w) js)%list, w') ∧ shrinks (w_db w) (w_db w')
    ∧ ∀ i j, js !! i = Some j → e_fault e (w_tick w + i) = FNone → swept (job_name j) t (w_db w').
Proof.
  intros Hjs Hnd Htx Ht Hmono. revert failed w Hnd Htx Ht. induction Hjs as [|j js Hj _ IH]; intros failed w Hnd Htx Ht.
  { exists w. rewrite app_nil_r. by split_and!. }
  destruct (run_job j e w Hj Hnd Htx) as (w1 & Htx1 & Htick & Hsh & Hrun).
  cbn [run_jobs failed_jobs].
  assert (∀ f, ∃ w', run_jobs js f e w1 = (Some (f ++ failed_jobs e (S (w_tick w)) js)%list, w')
      ∧ shrinks (w_db w) (w_db w') ∧ shrinks (w_db w1) (w_db w')
      ∧ ∀ i j, js !! i = Some j → e_fault e (S (w_tick w) + i) = FNone → swept (job_name j) t (w_db w')) as Hrest.
  { intros f. destruct (IH f w1) as (w' & E & Hsh' & Hall); [|done| |].
    - eapply sublist_keys; [apply Hsh|done].
    - intros n Hn. apply Ht. lia.
    - exists w'. rewrite Htick in E, Hall. split_and!; try done. by etransitivity. }
  destruct (faulty (e_fault e (w_tick w))) eqn:Hf.
  - destruct (Hrest (failed ++ [job_name j])%list) as (w' & E & H1 & H2 & Hall). exists w'.
    erewrite run_bind by exact Hrun. cbv beta iota. rewrite E, <- app_assoc. split_and!; [done|done|].
    intros [|i] j' Hi Hnf; simpl in Hi; [|apply (Hall i); [done|by rewrite <- Hnf; f_equal; lia]].
    rewrite Nat.add_0_r in Hnf. by rewrite Hnf in Hf.
  - destruct Hrun as [Hrun Hsw]. destruct (Hrest failed) as (w' & E & H1 & H2 & Hall). exists w'.
    erewrite run_bind by exact Hrun. cbv beta iota. rewrite E. split_and!; [done|done|].
    intros [|i] j' Hi Hnf; simpl in Hi; [|apply (Hall i); [done|by rewrite <- Hnf; f_equal; lia]].
    injection Hi as <-. eapply swept_shrinks; [exact H2|]. eapply Hmono; [|exact Hsw]. by apply Ht.
Qed.

Lemma swept_earlier name t1 t2 d : t1 ≤ t2 → swept name t2 d → swept name t1 d.
Proof.
  intros Ht. unfold swept, not_before. repeat case_match; intros Hsw; try done.
  - intros r Hr Hu. specialize (Hsw r Hr Hu). lia.
  - intros l Hl y Hy. specialize (Hsw l Hl y Hy). lia.
  - intros f Hf Hv y Hy. specialize (Hsw f Hf Hv y Hy). lia.
  - intros s Hs Hr. specialize (Hsw s Hs Hr). lia.
  - intros s Hs Hr y Hy. specialize (Hsw s Hs Hr y Hy). lia.
Qed.

(** C40: maintenance runs all its jobs whichever of them fail: it answers the list
    of exactly those whose call failed, and every other job has left the tables
    swept as of the start of the run - no used-up or superfluous reset, no old
    login record, no stale unverified factor, no expired or old session that is
    not revoked. *)
Theorem RunMaintenance_sweeps e w t :
  NoDup (keys pr_ID (password_resets (w_db w))) → w_tx w = None →
  (∀ n, (w_tick w ≤ n)%nat → t ≤ us (e_clock e n)) →
  let failed := failed_jobs e (w_tick w) jobs in
  result RunMaintenance e w
    = Some (if (0 <? length failed)%nat then Err (maintenance_error failed) else Ok ())
  ∧ ∀ i j, jobs !! i = Some j → e_fault e (w_tick w + i) = FNone →
      swept (job_name j) t (w_db (final RunMaintenance e w)).
Proof.
  intros Hnd Htx Ht. cbv zeta.
  assert (Forall job_ok jobs) as Hjobs.
  { pose proof expired_resets_ok. pose proof old_resets_ok. pose proof old_logins_ok.
    pose proof unverified_factors_ok. pose proof expired_sessions_ok. pose proof old_sessions_ok.
    unfold jobs. repeat (apply Forall_cons; split; [done|]). apply Forall_nil. done. }
  destruct (run_jobs_spec jobs [] e w t Hjobs Hnd Htx Ht swept_earlier) as (w' & E & _ & Hall).
  unfold result, final, RunMaintenance. erewrite run_bind by exact E. cbn [app].
  destruct (0 <? _)%nat; by split.
Qed.

(** A statement run alone leaves its job's tables, or, refused, the old ones. *)
Lemma job_outcome j e w :
  w_tx w = None → ∃ r w', db_stmt (job_run j) e w = (Some r, w') ∧ w_tx w' = None ∧ w_tick w' = S (w_tick w)
    ∧ (w_db w' = w_db w ∨ ∃ c, s_now c = us (e_clock e (w_tick w)) ∧ w_db w' = (job_run j c (w_db w)).2).
Proof.
  intros Htx. unfold db_stmt, run_stmt. destruct (job_run j (sctx e w) (w_db w)) as [r d'] eqn:E.
  assert (s_now (sctx e w) = us (e_clock e (w_tick w))) as Ht by (unfold sctx; by rewrite Htx).
  assert (∃ c, s_now c = us (e_clock e (w_tick w)) ∧ d' = (job_run j c (w_db w)).2) as Hrun
    by (exists (sctx e w); by rewrite E).
  destruct (e_fault e (w_tick w)), r; eexists _, _; (split; [reflexivity|]); cbn; auto.
Qed.
Lemma run_jobs_spares js failed e w t :
  Forall spares js → NoDup (keys pr_ID (password_resets (w_db w))) → w_tx w = None →
  (∀ n, (w_tick w ≤ n)%nat → us (e_clock e n) ≤ t) →
  ∃ names w', run_jobs js failed e w = (Some names, w') ∧ spared t (w_db w) (w_db w').
Proof.
  intros Hjs. revert failed w. induction Hjs as [|j js Hj _ IH]; intros failed w Hnd Htx Ht.
  { by exists failed, w. }
  destruct (job_outcome j e w Htx) as (r & w1 & Hrun & Htx1 & Htick & Hdb).
  assert (spared t (w_db w) (w_db w1)) as H1.
  { destruct Hdb as [->|(c & Hc & ->)]; [done|]. eapply spared_later; [|by apply Hj]. rewrite Hc. by apply Ht. }
  assert (∀ f, ∃ names w', run_jobs js f e w1 = (Some names, w') ∧ spared t (w_db w) (w_db w')) as Hrest.
  { intros f. destruct (IH f w1) as (names & w' & E & H2); [|done| |].
    - eapply sublist_keys; [apply H1|done].
    - intros n Hn. apply Ht. lia.
    - exists names, w'. split; [done|]. by trans (w_db w1). }
  cbn [run_jobs]. destruct r as [u|err]; [destruct (Hrest failed) as (names & w' & E & H)
    |destruct (Hrest (failed ++ [job_name j])%list) as (names & w' & E & H)];
    exists names, w'; (split; [|done]); erewrite run_bind by exact Hrun; exact E.
Qed.

(** C33: maintenance touches nothing that was not due: accounts, identities, passkeys
    and audit records stay as they are; a reset request is removed only when it is
    unused and expired or at least five requests of its user are as recent, a login
    record only after 90 days, a factor only unverified and after two hours, a
    recovery code only with its factor; a session is never removed, and revoked
    only when it is expired or older than 30 days - whichever jobs fail, before or
    after their statement ran. *)
Theorem RunMaintenance_spares e w t :
  NoDup (keys pr_ID (password_resets (w_db w))) → w_tx w = None →
  (∀ n, (w_tick w ≤ n)%nat → us (e_clock e n) ≤ t) →
  spared t (w_db w) (w_db (final RunMaintenance e w)).
Proof.
  intros Hnd Htx Ht.
  assert (Forall spares jobs) as Hjobs.
  { pose proof expired_resets_spares. pose proof old_resets_spares. pose proof old_logins_spares.
    pose proof unverified_factors_spares. pose proof expired_sessions_spares. pose proof old_sessions_spares.
    unfold jobs. repeat (apply Forall_cons; split; [done|]). by apply Forall_nil. }
  destruct (run_jobs_spares jobs [] e w t Hjobs Hnd Htx Ht) as (names & w' & E & H).
  unfold final, RunMaintenance. erewrite run_bind by exact E. by destruct (0 <? _)%nat.
Qed.

(** ** Example *)

Import Toy.

Lemma in_resets_distinct : NoDup (keys pr_ID (password_resets (w_db w_in))).
Proof. apply in_wf. Qed.
Lemma in_no_tx : w_tx w_in = None.
Proof. by vm_compute. Qed.
Lemma toy_clock n : (w_tick w_in ≤ n)%nat → Hour ≤ us (e_clock env n).
Proof.
  intros _. unfold us, env, e_clock. assert (Hour = 3600000000 * 1000) as E by done. rewrite E.
  apply Z.mul_le_mono_nonneg_r; [done|]. apply Z.div_le_lower_bound; lia.
Qed.

Lemma RunMaintenance_sweeps_witness :
  result RunMaintenance env w_in = Some (Ok ())
  ∧ swept "revoke_expired_sessions" Hour (w_db (final RunMaintenance env w_in)).
Proof.
  destruct (RunMaintenance_sweeps env w_in Hour in_resets_distinct in_no_tx toy_clock) as [H1 H2].
  exact (conj H1 (H2 4%nat _ eq_refl eq_refl)).
Defined.

(** Soon after the sign-in: it stays. *)
Definition soon : Env :=
  mkEnv cfg false (λ n, 5 * Second) (λ _, FNone) (e_uuid env) (e_rand_read env) (e_rand_int env) (e_gen_uuid env).
Lemma in_unexpired :
  match sessions (w_db w_in) with
  | s :: _ => se_Revoked s = Some false ∧ (5 * Second <=? se_ExpiresAt s) = true ∧ ts_before (se_CreatedAt s) (5 * Second - 30 * Day) = false
  | [] => False
  end.
Proof. by vm_compute. Qed.
Lemma soon_clock n : (w_tick w_in ≤ n)%nat → us (e_clock soon n) ≤ 5 * Second.
Proof. intros _. by vm_compute. Qed.
Lemma RunMaintenance_spares_witness :
  match sessions (w_db w_in) with
  | s :: _ => s ∈ sessions (w_db (final RunMaintenance soon w_in))
  | [] => False
  end.
Proof.
  pose proof in_unexpired as H. destruct (sessions (w_db w_in)) as [|s l] eqn:E; [exact H|]. destruct H as (_ & Hlive & Hnew).
  pose proof (sp_sessions _ _ _ (RunMaintenance_spares soon w_in (5 * Second) in_resets_distinct in_no_tx soon_clock) s) as H.
  rewrite E in H. destruct (H (list_elem_of_here _ _)) as [Hs|(_ & _ & [Ht|(y & Hy & Ht)])]; [exact Hs| |].
  - apply Z.leb_le in Hlive. destruct (Z.lt_irrefl (se_ExpiresAt s)). by eapply Z.lt_le_trans.
  - rewrite Hy in Hnew. cbn [ts_before] in Hnew. apply Z.ltb_ge in Hnew. destruct (Z.lt_irrefl y). by eapply Z.lt_le_trans.
Defined.
