(* ===== verification/Json.v ===== *)
(** * encoding/json, as utils/json.go uses it

    The value scanner of [json.Decoder] (byte by byte, so that the first
    offending byte and the end of the input are told apart), [unquote], the
    assignment of an object to a struct of string fields with unknown fields
    disallowed, [Decoder.More], and [json.Marshal]/[json.MarshalIndent] for the
    values the handlers answer with; then [decodeJSONBody] and
    [DecodeJSONHandler] of internal/utils/json.go. *)

From S2P Require Import Prelude.
From S2P Require Import GoLib.
From S2P Require Import Encoding.
From S2P Require Import Utils.

#[local] Open Scope string_scope.
#[local] Open Scope Z_scope.
#[local] Set Warnings "-register-all".

Inductive json :=
  | JNull
  | JBoolean (b : bool)
  | JNumber (text : string)
  | JString (s : string)
  | JArray (l : list json)
  | JObject (l : list (string * json)).

Definition dquote : ascii := char 34.
Definition backslash : ascii := char 92.

(** ** The scanner

    [SSyntax] is a [*json.SyntaxError], [SMore] means that the input ran out. *)
Inductive scanned (A : Type) :=
  | SDone (a : A) (rest : string)
  | SSyntax
  | SMore
  | SFuel.
Arguments SDone {_} _ _.
Arguments SSyntax {_}.
Arguments SMore {_}.
Arguments SFuel {_}.

Definition scan_bind {A B} (r : scanned A) (k : A → string → scanned B) : scanned B :=
  match r with
  | SDone a rest => k a rest
  | SSyntax => SSyntax
  | SMore => SMore
  | SFuel => SFuel
  end.
Definition scan_map {A B} (f : A → B) (r : scanned A) : scanned B := scan_bind r (λ a rest, SDone (f a) rest).

Definition is_json_space (c : ascii) : bool :=
  Ascii.eqb c " " || Ascii.eqb c (char 9) || Ascii.eqb c (char 13) || Ascii.eqb c (char 10).

Fixpoint skip_ws (s : string) : string :=
  match s with
  | EmptyString => EmptyString
  | String c r => if is_json_space c then skip_ws r else s
  end.

Definition is_hex (c : ascii) : bool := is_digit c || in_range "a" "f" c || in_range "A" "F" c.
(** The characters that may follow a backslash, [u] apart. *)
Definition is_escape (c : ascii) : bool :=
  bool_decide (c ∈ ["b"%char; "f"%char; "n"%char; "r"%char; "t"%char; backslash; "/"%char; dquote]).

(** A string literal after its opening quote, up to its closing quote; [hex]
    digits of a [\u] escape are still due. *)
Fixpoint scan_string (hex : nat) (s : string) : scanned string :=
  match s with
  | EmptyString => SMore
  | String c r =>
      match hex with
      | S hex => if is_hex c then scan_map (String c) (scan_string hex r) else SSyntax
      | O =>
          if Ascii.eqb c dquote then SDone EmptyString r
          else if Ascii.eqb c backslash then
            match r with
            | EmptyString => SMore
            | String e r' =>
                if is_escape e then scan_map (λ t, String c (String e t)) (scan_string 0 r')
                else if Ascii.eqb e "u" then scan_map (λ t, String c (String e t)) (scan_string 4 r')
                else SSyntax
            end
          else if (N_of_ascii c <? 32)%N then SSyntax
          else scan_map (String c) (scan_string 0 r)
      end
  end.

(** At least one digit. *)
Definition scan_digits (s : string) : scanned string :=
  match s with
  | EmptyString => SMore
  | String c r =>
      if is_digit c then let '(d, t) := digit_prefix s in SDone d t else SSyntax
  end.

Definition scan_exponent (s : string) : scanned string :=
  match s with
  | String c r =>
      if Ascii.eqb c "e" || Ascii.eqb c "E" then
        match r with
        | String sg r' =>
            if Ascii.eqb sg "+" || Ascii.eqb sg "-" then scan_map (λ d, String c (String sg d)) (scan_digits r')
            else scan_map (String c) (scan_digits r)
        | EmptyString => SMore
        end
      else SDone EmptyString s
  | EmptyString => SDone EmptyString EmptyString
  end.

Definition scan_fraction (s : string) : scanned string :=
  match s with
  | String c r =>
      if Ascii.eqb c "." then scan_map (String c) (scan_digits r) else SDone EmptyString s
  | EmptyString => SDone EmptyString EmptyString
  end.

(** The digits before the point: no leading zero. *)
Definition scan_integer (s : string) : scanned string :=
  match s with
  | EmptyString => SMore
  | String c r => if Ascii.eqb c "0" then SDone "0" r else scan_digits s
  end.

Definition scan_number (s : string) : scanned string :=
  let '(sign, r) := match s with
                    | String c r => if Ascii.eqb c "-" then ("-", r) else (EmptyString, s)
                    | EmptyString => (EmptyString, s)
                    end in
  scan_bind (scan_integer r) (λ i r,
  scan_bind (scan_fraction r) (λ f r,
  scan_map (λ e, sign ++ i ++ f ++ e) (scan_exponent r))).

(** The rest of a literal name. *)
Fixpoint scan_literal {A} (p : string) (v : A) (s : string) : scanned A :=
  match p, s with
  | EmptyString, _ => SDone v s
  | String _ _, EmptyString => SMore
  | String a p, String c s => if Ascii.eqb a c then scan_literal p v s else SSyntax
  end.

(** ** unquote *)

Definition hex_value (c : ascii) : N :=
  if is_digit c then N_of_ascii c - 48
  else if in_range "a" "f" c then N_of_ascii c - 87 else N_of_ascii c - 55.
Definition hex4 (a b c d : ascii) : N :=
  (hex_value a * 4096 + hex_value b * 256 + hex_value c * 16 + hex_value d)%N.

(** [utf8.AppendRune] *)
Definition encode_rune (r : N) : string :=
  let c n := String (ascii_of_N n) in
  if (r <? 128)%N then c r ""
  else if (r <? 2048)%N then c (192 + r / 64)%N (c (128 + r mod 64)%N "")
  else if (r <? 65536)%N then
    c (224 + r / 4096)%N (c (128 + r / 64 mod 64)%N (c (128 + r mod 64)%N ""))
  else c (240 + r / 262144)%N (c (128 + r / 4096 mod 64)%N (c (128 + r / 64 mod 64)%N (c (128 + r mod 64)%N ""))).

Definition ReplacementChar : N := 65533.
Definition is_surrogate (r : N) : bool := ((55296 <=? r) && (r <? 57344))%N.
(** [utf16.DecodeRune] *)
Definition utf16_DecodeRune (r1 r2 : N) : N :=
  if ((55296 <=? r1) && (r1 <? 56320) && (56320 <=? r2) && (r2 <? 57344))%N
  then ((r1 - 55296) * 1024 + (r2 - 56320) + 65536)%N else ReplacementChar.

Definition unescape (e : ascii) : ascii :=
  if Ascii.eqb e "b" then char 8 else if Ascii.eqb e "f" then char 12 else if Ascii.eqb e "n" then char 10
  else if Ascii.eqb e "r" then char 13 else if Ascii.eqb e "t" then char 9 else e.

(** The number of bytes of the valid UTF-8 sequence that starts with [c]
    followed by [r]; 0 when there is none ([utf8.DecodeRune]). *)
Definition cont (lo hi : N) (c : ascii) : bool := ((lo <=? N_of_ascii c) && (N_of_ascii c <=? hi))%N.
Definition utf8_width (c : ascii) (r : string) : nat :=
  let n := N_of_ascii c in
  let second lo hi := match r with String a _ => cont lo hi a | _ => false end in
  let third := match r with String _ (String b _) => cont 128 191 b | _ => false end in
  let fourth := match r with String _ (String _ (String d _)) => cont 128 191 d | _ => false end in
  (if n <? 128 then 1%nat
   else if n <? 194 then 0%nat
   else if n <? 224 then if second 128 191 then 2%nat else 0%nat
   else if n <? 240 then
     let lo := if n =? 224 then 160 else 128 in
     let hi := if n =? 237 then 159 else 191 in
     if second lo hi && third then 3%nat else 0%nat
   else if n <? 245 then
     let lo := if n =? 240 then 144 else 128 in
     let hi := if n =? 244 then 143 else 191 in
     if second lo hi && third && fourth then 4%nat else 0%nat
   else 0%nat)%N.

(** The contents of a scanned literal: escapes are resolved, unpaired
    surrogates and invalid UTF-8 become U+FFFD; [keep] bytes of a valid
    sequence are still to be copied. *)
Fixpoint unquote_from (keep : nat) (s : string) : string :=
  match s with
  | EmptyString => EmptyString
  | String c r =>
      match keep with
      | S keep => String c (unquote_from keep r)
      | O =>
          if Ascii.eqb c backslash then
            match r with
            | String e r =>
                if Ascii.eqb e "u" then
                  match r with
                  | String a (String b (String c (String d r))) =>
                      let rr := hex4 a b c d in
                      if is_surrogate rr then
                        match r with
                        | String _ (String _ (String a' (String b' (String c' (String d' r'))))) =>
                            let dec := utf16_DecodeRune rr (hex4 a' b' c' d') in
                            if HasPrefix r (String backslash "u") && negb (dec =? ReplacementChar)%N
                            then encode_rune dec ++ unquote_from 0 r'
                            else encode_rune ReplacementChar ++ unquote_from 0 r
                        | _ => encode_rune ReplacementChar ++ unquote_from 0 r
                        end
                      else encode_rune rr ++ unquote_from 0 r
                  | _ => EmptyString
                  end
                else String (unescape e) (unquote_from 0 r)
            | EmptyString => EmptyString
            end
          else match utf8_width c r with
               | O => encode_rune ReplacementChar ++ unquote_from 0 r
               | S k => String c (unquote_from k r)
               end
      end
  end.
Definition unquote : string → string := unquote_from 0.

(** ** Values *)

Fixpoint scan_value (n : nat) (s : string) {struct n} : scanned json :=
  match n with
  | O => SFuel
  | S n =>
      match skip_ws s with
      | EmptyString => SMore
      | String c r =>
          if Ascii.eqb c "{" then
            match skip_ws r with
            | EmptyString => SMore
            | String c' r' => if Ascii.eqb c' "}" then SDone (JObject []) r' else scan_map JObject (scan_members n r)
            end
          else if Ascii.eqb c "[" then
            match skip_ws r with
            | EmptyString => SMore
            | String c' r' => if Ascii.eqb c' "]" then SDone (JArray []) r' else scan_map JArray (scan_elements n r)
            end
          else if Ascii.eqb c dquote then scan_map (λ t, JString (unquote t)) (scan_string 0 r)
          else if Ascii.eqb c "-" || is_digit c then scan_map JNumber (scan_number (String c r))
          else if Ascii.eqb c "t" then scan_literal "rue" (JBoolean true) r
          else if Ascii.eqb c "f" then scan_literal "alse" (JBoolean false) r
          else if Ascii.eqb c "n" then scan_literal "ull" JNull r
          else SSyntax
      end
  end
with scan_members (n : nat) (s : string) {struct n} : scanned (list (string * json)) :=
  match n with
  | O => SFuel
  | S n =>
      match skip_ws s with
      | EmptyString => SMore
      | String c r =>
          if negb (Ascii.eqb c dquote) then SSyntax
          else scan_bind (scan_string 0 r) (λ k r,
            match skip_ws r with
            | EmptyString => SMore
            | String c r =>
                if negb (Ascii.eqb c ":") then SSyntax
                else scan_bind (scan_value n r) (λ v r,
                  match skip_ws r with
                  | EmptyString => SMore
                  | String c r =>
                      if Ascii.eqb c "," then scan_map (cons (unquote k, v)) (scan_members n r)
                      else if Ascii.eqb c "}" then SDone [(unquote k, v)] r
                      else SSyntax
                  end)
            end)
      end
  end
with scan_elements (n : nat) (s : string) {struct n} : scanned (list json) :=
  match n with
  | O => SFuel
  | S n =>
      scan_bind (scan_value n s) (λ v r,
        match skip_ws r with
        | EmptyString => SMore
        | String c r =>
            if Ascii.eqb c "," then scan_map (cons v) (scan_elements n r)
            else if Ascii.eqb c "]" then SDone [v] r
            else SSyntax
        end)
  end.

(** Enough steps for any value of [s] ([scan_enough] below). *)
Definition scan_fuel (s : string) : nat := S (2 * String.length s).

(** ** Assigning a value to a struct of string fields *)

(** [foldName], for comparison with an ASCII name: upper case, with the two
    other runes that fold to ASCII letters (U+017F to S, U+212A to K). *)
Fixpoint foldName (s : string) : string :=
  match s with
  | EmptyString => EmptyString
  | String c r =>
      match r with
      | String c' r' =>
          if Ascii.eqb c (char 197) && Ascii.eqb c' (char 191) then String "S" (foldName r')
          else match r' with
               | String c'' r'' =>
                   if Ascii.eqb c (char 226) && Ascii.eqb c' (char 132) && Ascii.eqb c'' (char 170)
                   then String "K" (foldName r'')
                   else String (upper_char c) (foldName r)
               | EmptyString => String (upper_char c) (foldName r)
               end
      | EmptyString => String (upper_char c) (foldName r)
      end
  end.

(** A struct value: its fields, by their JSON names, in order. *)
Definition payload : Type := list (string * string).

Definition field (name : string) (p : payload) : string :=
  match List.find (λ f, String.eqb (fst f) name) p with Some (_, v) => v | None => EmptyString end.

Definition struct_field (fields : list string) (key : string) : option string :=
  match List.find (String.eqb key) fields with
  | Some f => Some f
  | None => List.find (λ f, String.eqb (foldName key) (foldName f)) fields
  end.

Definition set_field (name v : string) (p : payload) : payload :=
  List.map (λ f, if String.eqb (fst f) name then (name, v) else f) p.

(** The members in order; a saved error ([None]) makes the whole decode fail. *)
Fixpoint assign_members (fields : list string) (l : list (string * json)) (p : payload) : option payload :=
  match l with
  | [] => Some p
  | (key, v) :: l =>
      match struct_field fields key, v with
      | Some f, JString s => assign_members fields l (set_field f s p)
      | Some _, JNull => assign_members fields l p
      | _, _ => None
      end
  end.

Definition zero_payload (fields : list string) : payload := List.map (λ f, (f, EmptyString)) fields.

Definition unmarshal (fields : list string) (v : json) : option payload :=
  match v with
  | JNull => Some (zero_payload fields)
  | JObject l => assign_members fields l (zero_payload fields)
  | _ => None
  end.

(** ** utils/json.go *)

Inductive decode_error :=
  | ErrRequestTooLarge
  | ErrMalformedJSON
  | ErrEmptyBody
  | ErrExtraData
  | ErrOther.          (** any other error of the decoder *)

Definition defaultMaxJSONBytes : Z := 8192.

(** A container ends at its closing bracket, any other value at the byte after it. *)
Definition is_container (v : json) : bool :=
  match v with JArray _ | JObject _ => true | _ => false end.

(** [Decoder.More] *)
Definition decoder_More (rest : string) : bool :=
  match skip_ws rest with
  | EmptyString => false
  | String c _ => negb (Ascii.eqb c "]") && negb (Ascii.eqb c "}")
  end.

(** [decoder.Decode(dst)] behind [http.MaxBytesReader]: what follows the first
    [maxBytes] bytes is an error. *)
Definition decodeJSONBody (fields : list string) (body : string) (maxBytes : Z) : payload + decode_error :=
  let visible := String.substring 0 (Z.to_nat maxBytes) body in
  let too_large := maxBytes <? len body in
  match scan_value (scan_fuel visible) visible with
  | SSyntax | SFuel => inr ErrMalformedJSON
  | SMore =>
      if too_large then inr ErrRequestTooLarge
      else if String.eqb (skip_ws visible) "" then inr ErrEmptyBody
      else inr ErrOther
  | SDone v rest =>
      if too_large && String.eqb rest "" && negb (is_container v) then inr ErrRequestTooLarge
      else match unmarshal fields v with
           | None => inr ErrMalformedJSON
           | Some p => if decoder_More rest then inr ErrExtraData else inl p
           end
  end.

Definition decode_status (err : decode_error) : ErrorCode :=
  match err with
  | ErrRequestTooLarge => InvalidPayloadSize
  | ErrMalformedJSON | ErrExtraData | ErrEmptyBody => InvalidPayload
  | ErrOther => InternalServerError
  end.

(** [DecodeJSONHandler] into a struct with these fields: the payload, or the
    error it answers with. *)
Definition DecodeJSONHandler (fields : list string) (body : string) : payload + ErrorCode :=
  match decodeJSONBody fields body defaultMaxJSONBytes with
  | inl p => inl p
  | inr err => inr (decode_status err)
  end.

(** ** json.Marshal and json.MarshalIndent *)

Definition hex_digit (n : N) : ascii := if (n <? 10)%N then ascii_of_N (48 + n) else ascii_of_N (87 + n).

(** [htmlSafeSet] *)
Definition html_safe (c : ascii) : bool :=
  (32 <=? N_of_ascii c)%N && is_ascii_char c
  && negb (Ascii.eqb c dquote || Ascii.eqb c backslash || Ascii.eqb c "<" || Ascii.eqb c ">" || Ascii.eqb c "&").

(** An ASCII character that is not written as itself. *)
Definition escape_ascii (c : ascii) (t : string) : string :=
  let short e := String backslash (String e t) in
  if Ascii.eqb c dquote || Ascii.eqb c backslash then short c
  else if Ascii.eqb c (char 8) then short "b"%char
  else if Ascii.eqb c (char 12) then short "f"%char
  else if Ascii.eqb c (char 10) then short "n"%char
  else if Ascii.eqb c (char 13) then short "r"%char
  else if Ascii.eqb c (char 9) then short "t"%char
  else String backslash (String "u" (String "0" (String "0"
         (String (hex_digit (N_of_ascii c / 16)) (String (hex_digit (N_of_ascii c mod 16)) t))))).

(** The line separators U+2028 and U+2029, given their last byte. *)
Definition line_separator (c : ascii) (r : string) : option ascii :=
  match r with
  | String a (String b _) =>
      if Ascii.eqb c (char 226) && Ascii.eqb a (char 128) then
        if Ascii.eqb b (char 168) then Some "8"%char
        else if Ascii.eqb b (char 169) then Some "9"%char else None
      else None
  | _ => None
  end.

(** [appendString]; [keep] bytes of a sequence are to be copied, [drop] are to
    be left out. *)
Fixpoint escape_from (keep drop : nat) (s : string) : string :=
  match s with
  | EmptyString => EmptyString
  | String c r =>
      match keep, drop with
      | S keep, _ => String c (escape_from keep 0 r)
      | O, S drop => escape_from 0 drop r
      | O, O =>
          if html_safe c then String c (escape_from 0 0 r)
          else if is_ascii_char c then escape_ascii c (escape_from 0 0 r)
          else match utf8_width c r with
               | O => String backslash ("ufffd" ++ escape_from 0 0 r)
               | S k => match line_separator c r with
                        | Some d => String backslash ("u202" ++ String d (escape_from 0 2 r))
                        | None => String c (escape_from k 0 r)
                        end
               end
      end
  end.
Definition quote (s : string) : string := String dquote (escape_from 0 0 s ++ String dquote "").

Fixpoint spaces (n : nat) : string := match n with O => EmptyString | S n => String " " (spaces n) end.

(** A line break and its indentation, when indenting. *)
Definition newline (indent : bool) (depth : nat) : string :=
  if indent then String (char 10) (spaces (2 * depth)) else EmptyString.

Fixpoint render (indent : bool) (depth : nat) (v : json) : string :=
  let nl := newline indent (S depth) in
  match v with
  | JNull => "null"
  | JBoolean b => if b then "true" else "false"
  | JNumber text => text
  | JString s => quote s
  | JArray [] => "[]"
  | JArray l => "[" ++ nl ++ Join (List.map (render indent (S depth)) l) ("," ++ nl) ++ newline indent depth ++ "]"
  | JObject [] => "{}"
  | JObject l =>
      "{" ++ nl ++ Join (List.map (λ m, quote (fst m) ++ (if indent then ": " else ":")
                                        ++ render indent (S depth) (snd m)) l) ("," ++ nl)
      ++ newline indent depth ++ "}"
  end.
Definition Marshal : json → string := render false 0.
Definition MarshalIndent : json → string := render true 0.

(** A Go map: its keys in order. *)
Definition json_map (l : list (string * json)) : json :=
  JObject (sort_by (λ a b, String.leb (fst a) (fst b)) l).
Definition string_map_json (l : list (string * string)) : json :=
  json_map (List.map (λ m, (fst m, JString (snd m))) l).
(** A struct field tagged [omitempty]. *)
Definition omitempty (name v : string) : list (string * json) :=
  if String.eqb v "" then [] else [(name, JString v)].
(** An integer. *)
Definition json_int (z : Z) : json :=
  JNumber (if z <? 0 then String "-" (print_nat (Z.to_N (- z))) else print_nat (Z.to_N z)).
