(* ===== verification/Http.v ===== *)
(** * net/http, net and strconv, as the handlers and middlewares use them

    Requests, responses and the response writer; header keys in canonical
    form; [strconv.ParseInt] and [strconv.Atoi]; [net.SplitHostPort]; the
    response helpers of internal/utils/json.go. *)

From S2P Require Import Prelude.
From S2P Require Import GoLib.
From S2P Require Import Encoding.
From S2P Require Import Utils.
From S2P Require Import Model.
From S2P Require Import Runtime.
From S2P Require Import Json.

#[local] Open Scope string_scope.
#[local] Open Scope Z_scope.

(** ** Headers *)

(** A token character of RFC 7230. *)
Definition is_tchar (c : ascii) : bool :=
  is_alnum c || bool_decide (c ∈ String.list_ascii_of_string "!#$%&'*+-.^_`|~").

Fixpoint canonical_from (upper : bool) (s : string) : string :=
  match s with
  | EmptyString => EmptyString
  | String c r => String (if upper then upper_char c else lower_char c) (canonical_from (Ascii.eqb c "-") r)
  end.
(** [textproto.CanonicalMIMEHeaderKey] *)
Definition CanonicalHeaderKey (s : string) : string :=
  if string_forall is_tchar s then canonical_from true s else s.

(** The first value of each key. *)
Definition Header : Type := gmap string string.
Definition Header_Get (h : Header) (k : string) : string := default "" (h !! CanonicalHeaderKey k).
Definition Header_Set (k v : string) (h : Header) : Header := <[CanonicalHeaderKey k := v]> h.

(** ** Requests *)

Definition MethodGet : string := "GET".
Definition MethodPost : string := "POST".
Definition MethodPut : string := "PUT".
Definition MethodPatch : string := "PATCH".
Definition MethodDelete : string := "DELETE".
Definition MethodOptions : string := "OPTIONS".

(** A request as the server hands it over; [rq_Query] is the parsed query. *)
Record HttpRequest := mkHttpRequest {
  rq_Method : string;
  rq_Path : string;
  rq_Query : list (string * string);
  rq_Header : Header;
  rq_Body : string;
  rq_ContentLength : Z;
  rq_RemoteAddr : string
}.

(** [r.URL.Query().Get(k)], and a parameter by name: the first match. *)
Definition values_Get (l : list (string * string)) (k : string) : string :=
  match List.find (λ p, String.eqb (fst p) k) l with Some (_, v) => v | None => EmptyString end.
Definition Query_Get (r : HttpRequest) (k : string) : string := values_Get (rq_Query r) k.

(** [r.UserAgent()] *)
Definition UserAgent (r : HttpRequest) : string := Header_Get (rq_Header r) "User-Agent".

(** ** Responses *)

Definition StatusOK : Z := 200.
Definition StatusCreated : Z := 201.
Definition StatusNoContent : Z := 204.

(** What a handler writes: its header, its status and its body. *)
Record Response := mkResponse {
  rs_Status : Z;
  rs_Header : Header;
  rs_Body : string
}.

(** The [http.ResponseWriter] of a connection under [entities.ResponseWriter]: the
    header map, the status line and header that were sent, the body, and the
    [Status] the wrapper keeps, which is the argument of the last [WriteHeader]. *)
Record Writer := mkWriter {
  wr_Header : Header;
  wr_Sent : option (Z * Header);
  wr_Body : string;
  wr_Status : Z
}.
Definition new_writer : Writer := mkWriter ∅ None "" StatusOK.
Definition writer_Set (k v : string) (w : Writer) : Writer :=
  mkWriter (Header_Set k v (wr_Header w)) (wr_Sent w) (wr_Body w) (wr_Status w).
(** Only the first status line goes out. *)
Definition send_header (code : Z) (w : Writer) : option (Z * Header) :=
  match wr_Sent w with Some s => Some s | None => Some (code, wr_Header w) end.
Definition WriteHeader (code : Z) (w : Writer) : Writer :=
  mkWriter (wr_Header w) (send_header code w) (wr_Body w) code.
(** A write before any [WriteHeader] sends 200, past the wrapper. *)
Definition writer_Write (b : string) (w : Writer) : Writer :=
  mkWriter (wr_Header w) (send_header StatusOK w) (wr_Body w ++ b) (wr_Status w).

(** A buffered response is copied: its keys replace the writer's. *)
Definition write_response (r : Response) (w : Writer) : Writer :=
  writer_Write (rs_Body r)
    (WriteHeader (rs_Status r) (mkWriter (rs_Header r ∪ wr_Header w) (wr_Sent w) (wr_Body w) (wr_Status w))).

(** What the client gets: a handler that writes nothing answers 200. *)
Definition reply (w : Writer) : Response :=
  match wr_Sent w with
  | Some (code, h) => mkResponse code h (wr_Body w)
  | None => mkResponse StatusOK (wr_Header w) (wr_Body w)
  end.

(** ** utils/json.go: JSONResponse, JSONError *)

Definition json_header : Header := {[ "Content-Type" := "application/json" ]}.

(** The payload is encoded after the status is written; [http.Error] then only
    adds its body (and headers, in a buffered response). *)
Definition JSONResponse (cfg : Config) (status : Z) (payload : res json) : Response :=
  match payload with
  | Ok v =>
      mkResponse status json_header
        (if String.eqb (cfg_Env cfg) "development" then MarshalIndent v else Marshal v)
  | Err _ =>
      mkResponse status
        (<["Content-Type" := "text/plain; charset=utf-8"]> (<["X-Content-Type-Options" := "nosniff"]> json_header))
        (render false 0 (JObject [("error", JString "internal server error")]) ++ String (char 10) "")
  end.

Definition error_json (d : ErrorDetail) : json :=
  string_map_json [("error", Code d); ("message", Message d)].
Definition JSONError (cfg : Config) (err : ErrorCode) : Response :=
  JSONResponse cfg (Status (Errors err)) (Ok (error_json (Errors err))).

(** ** strconv *)

(** [strconv.ParseInt(s, 10, 64)]: the value and whether the error is nil; a
    number out of range gives the nearest one, a malformed number 0. *)
Definition parse_magnitude (s : string) : option N :=
  if string_forall is_digit s then parse_digits s else None.
Definition max_int64 : Z := 2 ^ 63 - 1.
Definition min_int64 : Z := - 2 ^ 63.
Definition ParseInt (s : string) : Z * bool :=
  let '(neg, digits) :=
    match s with
    | String c r => if Ascii.eqb c "-" then (true, r) else if Ascii.eqb c "+" then (false, r) else (false, s)
    | EmptyString => (false, s)
    end in
  match parse_magnitude digits with
  | None => (0, false)
  | Some n =>
      if neg then if Z.of_N n <=? 2 ^ 63 then (- Z.of_N n, true) else (min_int64, false)
      else if Z.of_N n <? 2 ^ 63 then (Z.of_N n, true) else (max_int64, false)
  end.
(** [i, _ := strconv.Atoi(s)] *)
Definition Atoi (s : string) : Z := fst (ParseInt s).

(** ** net.SplitHostPort *)

(** The text before and after the last separator. *)
Definition CutLast (s : string) (sep : ascii) : option (string * string) :=
  match Cut (string_rev s) sep with
  | Some (b, a) => Some (string_rev a, string_rev b)
  | None => None
  end.

(** The host, when there is a port: [[host]:port] or [host:port]. *)
Definition SplitHostPort (s : string) : option (string * string) :=
  match CutLast s ":" with
  | None => None
  | Some (before, port) =>
      match s with
      | String c r =>
          if Ascii.eqb c "[" then
            match Cut r "]" with
            | Some (host, String c' port') =>
                if Ascii.eqb c' ":" && lacks ":" port' && lacks "[" host && lacks "[" port' && lacks "]" port'
                then Some (host, port') else None
            | _ => None
            end
          else if lacks ":" before && lacks "[" s && lacks "]" s then Some (before, port) else None
      | EmptyString => None
      end
  end.
