(* ===== verification/Config.v ===== *)
(** * config/config.go: loading the configuration

    [Load] over the environment variables ([godotenv.Load] has run).  An error
    is [log.Fatalf]: the process does not start.  Reading files, PEM and the
    key formats, and the syntax of floating-point numbers are parameters. *)

From S2P Require Import Prelude.
From S2P Require Import GoLib.
From S2P Require Import Encoding.
From S2P Require Import Model.
From S2P Require Import Json.
From S2P Require Import Http.

#[local] Open Scope string_scope.
#[local] Open Scope Z_scope.

(** The parsed value of a key file is an Ed25519 key ([Some]) or another key. *)
Class KeyLib := {
  os_ReadFile : string → res string;
  pem_Decode : string → option (string * string);      (** type and bytes *)
  x509_ParsePKCS8PrivateKey : string → res (option string);
  pkcs8_ParsePKCS8PrivateKey : string → string → res (option string);
  x509_ParsePKIXPublicKey : string → res (option string);
  ParseFloat_ok : string → bool
}.

(** [log.Fatalf] *)
Definition Fatalf {A} (msg : string) : res A := Err (ErrMsg msg).

Declare Scope config_scope.
Definition try {A B} (m : res A) (k : A → res B) : res B :=
  match m with Ok a => k a | Err err => Err err end.
Notation "'let!' x := m 'in' k" := (try m (λ x, k))
  (at level 10, x name, m at level 100, k at level 200) : config_scope.
#[local] Open Scope config_scope.

Section config.
Context `{KL : KeyLib}.
Context (getenv : string → string).

Definition getStringConfig (key fallback : string) : string :=
  if negb (String.eqb (getenv key) "") then getenv key else fallback.

Definition requireStringConfig (key : string) : res string :=
  if String.eqb (getenv key) "" then Fatalf ("Missing env var: " ++ key) else Ok (getenv key).

Definition parseIntConfig (key fallback : string) : res Z :=
  let '(i, ok) := ParseInt (getStringConfig key fallback) in
  if ok then Ok i else Fatalf ("Failed to parse int from env variable " ++ key).

Definition parseFloatConfig (key fallback : string) : res unit :=
  if ParseFloat_ok (getStringConfig key fallback) then Ok ()
  else Fatalf ("Failed to parse float from env variable " ++ key).

Definition parseListConfig (key fallback : string) : list string :=
  let raw := getStringConfig key fallback in
  if String.eqb raw "" then []
  else List.filter (λ p, negb (String.eqb p "")) (List.map TrimSpace (Split raw ",")).

Definition loadMFAEncryptionKey (raw : string) : res string :=
  match StdEncoding_DecodeString raw with
  | None => Fatalf "MFA_ENCRYPTION_KEY is not valid base64"
  | Some key =>
      if negb (len key =? 32) then Fatalf "MFA_ENCRYPTION_KEY must decode to exactly 32 bytes (AES-256)"
      else Ok key
  end.

Definition readKeyFile (filename : string) : res (option (string * string)) :=
  match os_ReadFile filename with
  | Err _ => Fatalf "failed to read private key file"
  | Ok keyBytes => Ok (pem_Decode keyBytes)
  end.

Definition ed25519_key (r : res (option string)) (parse cast : string) : res string :=
  match r with
  | Err _ => Fatalf parse
  | Ok (Some key) => Ok key
  | Ok None => Fatalf cast
  end.

Definition loadPrivateKey (filename : string) : res string :=
  let! block := readKeyFile filename in
  match block with
  | None => Fatalf "failed to decode PEM block containing the Private key"
  | Some (type, bytes) =>
      if String.eqb type "ENCRYPTED PRIVATE KEY" then
        let! pass := requireStringConfig "JWT_PRIVATE_KEY_PASSPHRASE" in
        ed25519_key (pkcs8_ParsePKCS8PrivateKey bytes pass)
          "Failed to parse PKCS8 private key" "private key is not of type ed25519.PrivateKey"
      else if String.eqb type "PRIVATE KEY" then
        ed25519_key (x509_ParsePKCS8PrivateKey bytes)
          "Failed to parse PKCS8 private key" "private key is not of type ed25519.PrivateKey"
      else Fatalf "failed to decode PEM block containing the Private key"
  end.

Definition loadPublicKey (filename : string) : res string :=
  let! block := readKeyFile filename in
  match block with
  | None => Fatalf "failed to decode PEM block containing the Public key"
  | Some (type, bytes) =>
      if String.eqb type "PUBLIC KEY" then
        ed25519_key (x509_ParsePKIXPublicKey bytes)
          "failed to parse PKIX public key" "private key is not of type ed25519.PublicKey"
      else Fatalf "failed to decode PEM block containing the Public key"
  end.

(** [int64] multiplication wraps around. *)
Definition mul64 (a b : Z) : Z := wrap_signed 64 (a * b).

Definition Load : res Config :=
  let! limit := parseIntConfig "REQUEST_RATE_LIMIT" "10" in
  let! dsn := requireStringConfig "DATABASE_URL" in
  let! peppers := requireStringConfig "PASSWORD_PEPPERS" in
  let! activePepper := requireStringConfig "ACTIVE_PEPPER_ID" in
  let! _sentry := requireStringConfig "SENTRY_DSN" in
  let! _rate := parseFloatConfig "SENTRY_SAMPLE_RATE" "1" in
  let! redis := requireStringConfig "REDIS_ADDR" in
  let! timeout := parseIntConfig "REQUEST_TIMEOUT_SECONDS" "10" in
  let! resend := requireStringConfig "RESEND_API_KEY" in
  let! maxFailed := parseIntConfig "LOGIN_MAX_FAILED_ATTEMPTS" "5" in
  let! lockMinutes := parseIntConfig "LOGIN_LOCK_DURATION_MINUTES" "15" in
  let! resetMinutes := parseIntConfig "PASSWORD_RESET_TOKEN_TTL_MINUTES" "30" in
  let! mfaRaw := requireStringConfig "MFA_ENCRYPTION_KEY" in
  let! mfaKey := loadMFAEncryptionKey mfaRaw in
  let! privFile := requireStringConfig "JWT_PRIVATE_KEY_FILE" in
  let! priv := loadPrivateKey privFile in
  let! pubFile := requireStringConfig "JWT_PUBLIC_KEY_FILE" in
  let! pub := loadPublicKey pubFile in
  Ok {| cfg_Env := getStringConfig "ENV" "development";
        cfg_PasswordPeppersRaw := peppers;
        cfg_ActivePepperID := activePepper;
        cfg_AllowedOrigins := parseListConfig "ALLOWED_ORIGINS" "";
        cfg_OTP_TTL := 10 * Minute;
        cfg_AccessTTL := 15 * Minute;
        cfg_RefreshTTL := 14 * 24 * Hour;
        cfg_TemporaryTokenTTL := 30 * Minute;
        cfg_LoginMaxFailedAttempts := maxFailed;
        cfg_LoginLockDuration := mul64 lockMinutes Minute;
        cfg_PasswordResetTTL := mul64 resetMinutes Minute;
        cfg_PasswordResetURL := getStringConfig "PASSWORD_RESET_URL" "";
        cfg_MFAIssuer := getStringConfig "MFA_ISSUER" "auth-api";
        cfg_MFAChallengeTTL := 5 * Minute;
        cfg_MFARecoveryCodeCount := 10;
        cfg_MFAEncryptionKey := mfaKey;
        cfg_JWTAlgorithm := "EdDSA";
        cfg_JWTPrivateKey := priv;
        cfg_JWTPublicKey := pub;
        cfg_GoogleClientID := getStringConfig "GOOGLE_CLIENT_ID" "";
        cfg_AppleClientID := getStringConfig "APPLE_CLIENT_ID" "";
        cfg_Port := getStringConfig "PORT" "8080";
        cfg_DSN := dsn;
        cfg_RequestTimeout := mul64 timeout Second;
        cfg_RateLimit := mkRate Second limit;
        cfg_RedisAddress := redis;
        cfg_ResendAPIKey := resend;
        cfg_EmailFromAddress := getStringConfig "EMAIL_FROM_ADDRESS" "auth <no-reply@mail.auth.com>";
        cfg_WebAuthnRPID := getStringConfig "WEBAUTHN_RP_ID" "";
        cfg_WebAuthnRPDisplayName := getStringConfig "WEBAUTHN_RP_DISPLAY_NAME" "auth-api";
        cfg_WebAuthnRPOrigins := parseListConfig "WEBAUTHN_RP_ORIGINS" "" |}.
End config.
