(* ===== verification/Routes.v ===== *)
(** * internal/server/routes.go, and the router the handlers register with

    The route constants, the open routes and the temporary-token routes; the
    path patterns of httprouter and the router itself as a parameter
    ([RouterLib]) with its documented matching rules ([RouterLaws]). *)

From S2P Require Import Prelude.
From S2P Require Import GoLib.
From S2P Require Import Http.

#[local] Open Scope string_scope.

Definition V1_HealthCheck : string := "/v1/healthcheck".
Definition V1_Login : string := "/auth/v1/login".
Definition V1_Logout : string := "/auth/v1/logout".
Definition V1_StartEmailVerification : string := "/auth/v1/start-email-verification".
Definition V1_VerifyEmail : string := "/auth/v1/verify-email".
Definition V1_CompleteEmailJoin : string := "/auth/v1/complete-email-join".
Definition V1_RefreshToken : string := "/auth/v1/refresh-token".
Definition V1_RequestPasswordReset : string := "/auth/v1/request-password-reset".
Definition V1_ResetPassword : string := "/auth/v1/reset-password".
Definition V1_ChangePassword : string := "/auth/v1/change-password".
Definition V1_MFAEnroll : string := "/auth/v1/mfa/enroll".
Definition V1_MFAVerifyEnrollment : string := "/auth/v1/mfa/verify".
Definition V1_MFADisable : string := "/auth/v1/mfa/disable".
Definition V1_MFAVerifyLogin : string := "/auth/v1/mfa/verify-login".
Definition V1_MFASendLoginCode : string := "/auth/v1/mfa/send-login-code".
Definition V1_MFAEmailEnroll : string := "/auth/v1/mfa/email/enroll".
Definition V1_MFAEmailVerify : string := "/auth/v1/mfa/email/verify".
Definition V1_MFAEmailDisable : string := "/auth/v1/mfa/email/disable".
Definition V1_SSOGoogle : string := "/auth/v1/sso/google".
Definition V1_SSOApple : string := "/auth/v1/sso/apple".
Definition V1_AdminUsers : string := "/auth/v1/admin/users".
Definition V1_AdminUserDetail : string := "/auth/v1/admin/users/:id".
Definition V1_AdminUserBan : string := "/auth/v1/admin/users/:id/ban".
Definition V1_AdminUserUnban : string := "/auth/v1/admin/users/:id/unban".
Definition V1_AdminUserDisable : string := "/auth/v1/admin/users/:id/disable".
Definition V1_AdminUserEnable : string := "/auth/v1/admin/users/:id/enable".
Definition V1_AdminUserForceLogout : string := "/auth/v1/admin/users/:id/force-logout".
Definition V1_AdminUserResetPassword : string := "/auth/v1/admin/users/:id/reset-password".
Definition V1_AdminUserRole : string := "/auth/v1/admin/users/:id/role".
Definition V1_AdminAuditLogs : string := "/auth/v1/admin/audit-logs".
Definition V1_PasskeyRegisterBegin : string := "/auth/v1/passkey/register/begin".
Definition V1_PasskeyRegisterFinish : string := "/auth/v1/passkey/register/finish".
Definition V1_PasskeyLoginBegin : string := "/auth/v1/passkey/login/begin".
Definition V1_PasskeyLoginFinish : string := "/auth/v1/passkey/login/finish".
Definition V1_PasskeyList : string := "/auth/v1/passkey/credentials".
Definition V1_PasskeyRename : string := "/auth/v1/passkey/credentials/:id/rename".
Definition V1_PasskeyDetail : string := "/auth/v1/passkey/credentials/:id".

Definition OpenRoutes : list string :=
  [V1_HealthCheck; V1_StartEmailVerification; V1_VerifyEmail; V1_Login; V1_RequestPasswordReset;
   V1_ResetPassword; V1_MFAVerifyLogin; V1_MFASendLoginCode; V1_SSOGoogle; V1_SSOApple;
   V1_PasskeyLoginBegin; V1_PasskeyLoginFinish].

Definition TemporaryJWTRoutes : list string := [V1_CompleteEmailJoin].

(** ** httprouter *)

Definition Params : Type := list (string * string).
Definition ByName (ps : Params) (k : string) : string := values_Get ps k.

(** Segment by segment: [:name] matches any one segment. *)
Fixpoint match_segments (pat path : list string) : option Params :=
  match pat, path with
  | [], [] => Some []
  | p :: pat, s :: path =>
      match p with
      | String c name =>
          if Ascii.eqb c ":" then cons (name, s) <$> match_segments pat path
          else if String.eqb p s then match_segments pat path else None
      | EmptyString => if String.eqb p s then match_segments pat path else None
      end
  | _, _ => None
  end.
Definition path_match (pat path : string) : option Params :=
  match_segments (Split pat "/") (Split path "/").

(** The router's verdict on a request; [ROwn] is an answer of its own (a
    redirect to a corrected path). *)
Inductive routed (H : Type) :=
  | RHandle (h : H) (ps : Params)
  | RNotFound
  | RMethodNotAllowed
  | ROwn (resp : Response).
Arguments RHandle {_} _ _.
Arguments RNotFound {_}.
Arguments RMethodNotAllowed {_}.
Arguments ROwn {_} _.

(** A route: method, pattern, handle. *)
Definition route (H : Type) : Type := (string * string) * H.

Class RouterLib := {
  router_serve : ∀ {H : Type}, list (route H) → HttpRequest → routed H
}.

(** "Only explicit matches": a request is handled by the route of its method
    whose pattern its path matches, and by no other. *)
Class RouterLaws `(RL : RouterLib) := {
  router_sound : ∀ H (table : list (route H)) r h ps,
    router_serve table r = RHandle h ps →
    ∃ pat, ((rq_Method r, pat), h) ∈ table ∧ path_match pat (rq_Path r) = Some ps;
  router_complete : ∀ H (table : list (route H)) r pat h ps,
    ((rq_Method r, pat), h) ∈ table → path_match pat (rq_Path r) = Some ps →
    (∀ p, p ∈ ps → p.2 ≠ "") →
    (∀ pat' h' ps', ((rq_Method r, pat'), h') ∈ table → path_match pat' (rq_Path r) = Some ps' → pat' = pat ∧ h' = h) →
    router_serve table r = RHandle h ps
}.
