(* ===== verification/Handlers.v ===== *)
(** * internal/handlers: one handler per route

    A handler reads the request, the path parameters and the request context,
    runs its service and answers.  [Handle] is an [httprouter.Handle]; its
    answer is the response it writes, [None] in [Go] a panic. *)

From S2P Require Import Prelude.
From S2P Require Import GoLib.
From S2P Require Import Utils.
From S2P Require Import Model.
From S2P Require Import Enums.
From S2P Require Import Runtime.
From S2P Require Import Queries.
From S2P Require Import Password.
From S2P Require Import Tokens.
From S2P Require Import Codes.
From S2P Require Import Signup.
From S2P Require Import Mfa.
From S2P Require Import Login.
From S2P Require Import Session.
From S2P Require Import PasswordFlows.
From S2P Require Import Sso.
From S2P Require Import Admin.
From S2P Require Import Passkey.
From S2P Require Import Json.
From S2P Require Import Http.
From S2P Require Import Routes.

#[local] Open Scope string_scope.
#[local] Open Scope Z_scope.
#[local] Open Scope go_scope.

(** The JSON forms of values other packages define: the WebAuthn options, and
    the [changes] column of the audit log as Postgres prints it. *)
Class JsonLib `(WL : WebAuthnLib) := {
  creation_json : CredentialCreation → res json;
  assertion_json : CredentialAssertion → res json;
  changes_json : changes → json;
  request_of : HttpRequest → Request        (** the [*http.Request] the WebAuthn library reads *)
}.

(** ** The struct tags of the services' results *)

Definition AdminUser_json (u : AdminUser) : json :=
  JObject ([("id", JString (au_ID u)); ("email", JString (au_Email u)); ("username", JString (au_Username u));
            ("display_name", JString (au_DisplayName u)); ("status", JString (au_Status u));
            ("role", JString (au_Role u)); ("created_at", JString (au_CreatedAt u))]
           ++ omitempty "last_login" (au_LastLogin u) ++ omitempty "deleted_at" (au_DeletedAt u)).
Definition AdminListUsersResult_json (x : AdminListUsersResult) : json :=
  JObject [("users", JArray (List.map AdminUser_json (lu_Users x))); ("total", json_int (lu_Total x))].

Definition PasskeyInfo_json (p : PasskeyInfo) : json :=
  JObject ([("id", JString (pi_ID p))] ++ omitempty "name" (pi_Name p)
           ++ [("created_at", JString (pi_CreatedAt p))] ++ omitempty "last_used_at" (pi_LastUsedAt p)).

Definition session_json (message access refresh userID username : string) : json :=
  json_map [("message", JString message); ("token", JString access); ("refresh_token", JString refresh);
            ("user", json_map [("id", JString userID); ("username", JString username)])].

Record Services `{OidcLib} `{WebAuthnLib} := mkServices {
  sv_GoogleJWKS : option oidc_KeySet;
  sv_AppleJWKS : option oidc_KeySet;
  sv_WebAuthn : option WebAuthn
}.

Section handlers.
Context `{TL : TextLib} `{UL : UuidLib} `{HL : HashLib} `{JL : JwtLib} `{OL : TotpLib} `{AL : AeadLib}
  `{WL : WebAuthnLib} `{CL : TimeLib} `{OI : OidcLib} `{JN : !JsonLib WL}.

Definition AuditLogEntry_json (x : AuditLogEntry) : json :=
  JObject ([("id", JString (ale_ID x))]
           ++ omitempty "actor_id" (ale_ActorID x) ++ omitempty "actor_username" (ale_ActorUsername x)
           ++ omitempty "actor_email" (ale_ActorEmail x) ++ omitempty "target_user_id" (ale_TargetUserID x)
           ++ omitempty "target_username" (ale_TargetUsername x) ++ omitempty "target_email" (ale_TargetEmail x)
           ++ [("action", JString (AuditAction_string (ale_Action x)))]
           ++ match ale_Changes x with Some c => [("changes", changes_json c)] | None => [] end
           ++ omitempty "reason" (ale_Reason x) ++ omitempty "ip" (ale_IP x)
           ++ omitempty "user_agent" (ale_UserAgent x)
           ++ [("created_at", JString (ale_CreatedAt x))]).
Definition AdminListAuditLogsResult_json (x : AdminListAuditLogsResult) : json :=
  JObject [("entries", JArray (List.map AuditLogEntry_json (la_Entries x))); ("total", json_int (la_Total x))].

Definition PasskeyLoginChallenge_json (x : PasskeyLoginChallenge) : res json :=
  res_map (λ options, JObject [("ceremony_id", JString (plc_CeremonyID x)); ("options", options)])
    (assertion_json (plc_Options x)).

(** ** Shared steps *)

Definition Handle : Type := HttpRequest → Params → Ctx → Go Response.

(** [utils.JSONError(w, err); return] *)
Definition respond_error (err : ErrorCode) : Go Response := cfg <- get_cfg ;; ret (JSONError cfg err).
(** [utils.JSONResponse(w, status, payload)] *)
Definition respond (status : Z) (payload : res json) : Go Response :=
  cfg <- get_cfg ;; ret (JSONResponse cfg status payload).
Definition respond_message (msg : string) : Go Response :=
  respond StatusOK (Ok (string_map_json [("message", msg)])).
(** [if !utils.DecodeJSONHandler(w, r, &payload) { return }] *)
Definition with_payload (fields : list string) (r : HttpRequest) (k : payload → Go Response) : Go Response :=
  match DecodeJSONHandler fields (rq_Body r) with
  | inl p => k p
  | inr err => respond_error err
  end.
(** [user, ok := ctx.Value(entities.UserContextKey).(...); if !ok || user == nil] *)
Definition with_user (ctx : Ctx) (k : UserContext → Go Response) : Go Response :=
  match ctx_User ctx with
  | Some user => k user
  | None => respond_error Unauthorized
  end.
(** [result, err := service(...); if err != nil { utils.JSONError(w, *err); return }] *)
Definition answer {A} (service : Go (svc A)) (k : A → Go Response) : Go Response :=
  r <- service ;;
  match r with
  | Fail err => respond_error err
  | Done a => k a
  end.

(** ** Health check, sign-up *)

Definition HealthCheckHandler : Handle := λ r ps ctx,
  respond StatusOK (Ok (string_map_json [("status", "ok")])).

Definition StartEmailVerificationHandler : Handle := λ r ps ctx,
  with_payload ["email"] r (λ p,
  answer (StartEmailVerification (field "email" p)) (λ _,
  respond_message "Verification code sent")).

Definition VerifyEmailCodeHandler : Handle := λ r ps ctx,
  with_payload ["code"; "email"] r (λ p,
  answer (VerifyEmailCode (field "email" p) (field "code" p)) (λ token,
  respond StatusOK (Ok (json_map [("message", JString "Email verified"); ("token", JString token)])))).

Definition CompleteEmailJoinHandler : Handle := λ r ps ctx,
  with_payload ["username"; "password"; "confirm_password"] r (λ p,
  answer (CompleteEmailJoin ctx (field "username" p) (field "password" p) (field "confirm_password" p)) (λ x,
  respond StatusCreated (Ok (session_json "Account created successfully" (ej_AccessToken x) (ej_RefreshToken x)
                               (ej_UserID x) (ej_Username x))))).

(** ** Sessions *)

Definition LoginHandler : Handle := λ r ps ctx,
  with_payload ["email"; "password"] r (λ p,
  answer (Login.Login ctx (field "email" p) (field "password" p)) (λ x,
  if lr_MFARequired x then
    respond StatusOK (Ok (json_map [("message", JString "MFA verification required");
                                    ("mfa_required", JBoolean true);
                                    ("challenge_token", JString (lr_MFAChallengeToken x));
                                    ("methods", JArray (List.map JString (lr_MFAMethods x)))]))
  else respond StatusOK (Ok (session_json "Login successful" (lr_AccessToken x) (lr_RefreshToken x)
                               (lr_UserID x) (lr_Username x))))).

Definition LogoutHandler : Handle := λ r ps ctx,
  with_user ctx (λ user,
  answer (Logout (uc_SessionID user)) (λ _, respond_message "Logged out")).

Definition RefreshTokenHandler : Handle := λ r ps ctx,
  with_payload ["refresh_token"] r (λ p,
  let sessionID := GetContextString (ctx_SessionIDFromExpiredJWT ctx) "" in
  let userID := GetContextString (ctx_UserIDFromExpiredJWT ctx) "" in
  answer (RefreshToken sessionID userID (field "refresh_token" p)) (λ x,
  respond StatusOK (Ok (json_map [("message", JString "Token refreshed"); ("token", JString (rt_AccessToken x));
                                  ("refresh_token", JString (rt_RefreshToken x))])))).

(** ** Passwords *)

Definition RequestPasswordResetHandler : Handle := λ r ps ctx,
  with_payload ["email"; "source"] r (λ p,
  answer (RequestPasswordReset (field "email" p) (field "source" p)) (λ _,
  respond_message "If that email has an account, a password reset link has been sent")).

Definition ResetPasswordHandler : Handle := λ r ps ctx,
  with_payload ["token"; "new_password"; "confirm_password"] r (λ p,
  answer (PasswordFlows.ResetPassword (field "token" p) (field "new_password" p) (field "confirm_password" p)) (λ _,
  respond_message "Password reset successfully. Please log in again.")).

Definition ChangePasswordHandler : Handle := λ r ps ctx,
  with_user ctx (λ user,
  with_payload ["current_password"; "new_password"; "confirm_password"] r (λ p,
  answer (ChangePassword (uc_ID user) (uc_SessionID user) (field "current_password" p) (field "new_password" p)
            (field "confirm_password" p)) (λ _,
  respond_message "Password changed successfully. You've been logged out of all other sessions."))).

(** ** Multi-factor authentication *)

Definition MFAEnrollHandler : Handle := λ r ps ctx,
  with_user ctx (λ user,
  answer (EnrollMFA (uc_ID user) (uc_Username user)) (λ x,
  respond StatusOK (Ok (string_map_json [("secret", me_Secret x); ("provisioning_uri", me_ProvisioningURI x)])))).

Definition recovery_json (message : string) (codes : list string) : json :=
  json_map [("message", JString message); ("recovery_codes", JArray (List.map JString codes))].

Definition MFAVerifyEnrollmentHandler : Handle := λ r ps ctx,
  with_user ctx (λ user,
  with_payload ["code"] r (λ p,
  answer (VerifyMFAEnrollment (uc_ID user) (field "code" p)) (λ codes,
  respond StatusOK (Ok (recovery_json "MFA enabled successfully" codes))))).

Definition MFADisableHandler : Handle := λ r ps ctx,
  with_user ctx (λ user,
  with_payload ["current_password"] r (λ p,
  answer (DisableMFA (uc_ID user) (field "current_password" p)) (λ _, respond_message "MFA disabled"))).

Definition MFAVerifyLoginHandler : Handle := λ r ps ctx,
  with_payload ["challenge_token"; "method"; "code"] r (λ p,
  answer (VerifyMFALogin ctx (field "challenge_token" p) (field "method" p) (field "code" p)) (λ x,
  respond StatusOK (Ok (session_json "Login successful" (lr_AccessToken x) (lr_RefreshToken x)
                          (lr_UserID x) (lr_Username x))))).

Definition MFASendLoginCodeHandler : Handle := λ r ps ctx,
  with_payload ["challenge_token"; "method"] r (λ p,
  answer (SendMFALoginCode (field "challenge_token" p) (field "method" p)) (λ _, respond_message "Code sent.")).

Definition MFAEmailEnrollHandler : Handle := λ r ps ctx,
  with_user ctx (λ user,
  answer (EnrollEmailMFA (uc_ID user)) (λ _, respond_message "Verification code sent to your email.")).

Definition MFAEmailVerifyEnrollmentHandler : Handle := λ r ps ctx,
  with_user ctx (λ user,
  with_payload ["code"] r (λ p,
  answer (VerifyEmailMFAEnrollment (uc_ID user) (field "code" p)) (λ codes,
  respond StatusOK (Ok (recovery_json "Email MFA enabled successfully" codes))))).

Definition MFAEmailDisableHandler : Handle := λ r ps ctx,
  with_user ctx (λ user,
  with_payload ["current_password"] r (λ p,
  answer (DisableEmailMFA (uc_ID user) (field "current_password" p)) (λ _, respond_message "Email MFA disabled"))).

(** ** Single sign-on *)

Definition sso_handler (keys : option oidc_KeySet) (issuer audience : string) (provider : ProviderName)
    (origin : UserOrigin) (r : HttpRequest) (ctx : Ctx) : Go Response :=
  match keys with
  | None => respond_error SSONotConfigured
  | Some kf =>
      with_payload ["id_token"] r (λ p,
      claims <- VerifyOIDCToken (field "id_token" p) kf issuer audience ;;
      match claims with
      | Err _ => respond_error SSOTokenInvalid
      | Ok claims =>
          answer (SSOLogin ctx provider origin claims) (λ x,
          respond StatusOK (Ok (session_json "Login successful" (lr_AccessToken x) (lr_RefreshToken x)
                                  (lr_UserID x) (lr_Username x))))
      end)
  end.

Definition SSOGoogleHandler (svcs : Services) : Handle := λ r ps ctx,
  cfg <- get_cfg ;;
  sso_handler (sv_GoogleJWKS svcs) GoogleIssuer (cfg_GoogleClientID cfg) ProviderNameGoogle UserOriginGoogle r ctx.
Definition SSOAppleHandler (svcs : Services) : Handle := λ r ps ctx,
  cfg <- get_cfg ;;
  sso_handler (sv_AppleJWKS svcs) AppleIssuer (cfg_AppleClientID cfg) ProviderNameApple UserOriginApple r ctx.

(** ** Administration *)

(** Missing keys of the map rank 0. *)
Definition roleRank (role : string) : Z :=
  if String.eqb role (UserRole_string UserRoleUser) then 0
  else if String.eqb role (UserRole_string UserRoleModerator) then 1
  else if String.eqb role (UserRole_string UserRoleAdmin) then 2
  else 0.

Definition requireRole (min : UserRole) (next : Handle) : Handle := λ r ps ctx,
  match ctx_User ctx with
  | None => respond_error Unauthorized
  | Some user =>
      if roleRank (uc_Role user) <? roleRank (UserRole_string min) then respond_error Forbidden
      else next r ps ctx
  end.

Definition AdminListUsersHandler : Handle := λ r ps ctx,
  answer (ListUsers (mkAdminListUsersParams (Query_Get r "search") (Query_Get r "status") (Query_Get r "role")
                       (Atoi (Query_Get r "limit")) (Atoi (Query_Get r "offset")))) (λ x,
  respond StatusOK (Ok (AdminListUsersResult_json x))).

Definition AdminGetUserHandler : Handle := λ r ps ctx,
  answer (GetUser (ByName ps "id")) (λ x, respond StatusOK (Ok (AdminUser_json x))).

Definition AdminListAuditLogsHandler : Handle := λ r ps ctx,
  answer (ListAuditLogs (Query_Get r "target_user_id") (Atoi (Query_Get r "limit")) (Atoi (Query_Get r "offset"))) (λ x,
  respond StatusOK (Ok (AdminListAuditLogsResult_json x))).

(** The five actions with a reason. *)
Definition admin_reason_handler
    (service : Ctx → string → string → string → string → Go (svc unit)) (msg : string) : Handle := λ r ps ctx,
  with_user ctx (λ actor,
  with_payload ["reason"] r (λ p,
  answer (service ctx (uc_ID actor) (uc_Username actor) (ByName ps "id") (field "reason" p)) (λ _,
  respond_message msg))).

Definition AdminBanUserHandler : Handle := admin_reason_handler BanUser "User banned.".
Definition AdminUnbanUserHandler : Handle := admin_reason_handler UnbanUser "User unbanned.".
Definition AdminDisableUserHandler : Handle := admin_reason_handler DisableUser "User disabled.".
Definition AdminEnableUserHandler : Handle := admin_reason_handler EnableUser "User enabled.".
Definition AdminForceLogoutUserHandler : Handle := admin_reason_handler ForceLogoutUser "All sessions revoked.".

Definition AdminResetUserPasswordHandler : Handle := λ r ps ctx,
  with_user ctx (λ actor,
  answer (AdminResetUserPassword ctx (uc_ID actor) (uc_Username actor) (ByName ps "id")) (λ _,
  respond_message "Password reset email sent.")).

Definition AdminChangeUserRoleHandler : Handle := λ r ps ctx,
  with_user ctx (λ actor,
  with_payload ["role"] r (λ p,
  answer (ChangeUserRole ctx (uc_ID actor) (uc_Username actor) (ByName ps "id") (field "role" p)) (λ _,
  respond_message "Role updated."))).

(** A request without a body is not decoded. *)
Definition AdminDeleteUserHandler : Handle := λ r ps ctx,
  with_user ctx (λ actor,
  let run p := answer (DeleteUser ctx (uc_ID actor) (uc_Username actor) (ByName ps "id") (field "reason" p)) (λ _,
               respond_message "User deleted.") in
  if negb (rq_ContentLength r =? 0) then with_payload ["reason"] r run else run (zero_payload ["reason"])).

(** ** Passkeys *)

Definition PasskeyRegisterBeginHandler (svcs : Services) : Handle := λ r ps ctx,
  with_user ctx (λ user,
  answer (BeginPasskeyRegistration (sv_WebAuthn svcs) (uc_ID user) (uc_Username user)) (λ options,
  respond StatusOK (creation_json options))).

Definition PasskeyRegisterFinishHandler (svcs : Services) : Handle := λ r ps ctx,
  with_user ctx (λ user,
  answer (FinishPasskeyRegistration (sv_WebAuthn svcs) (uc_ID user) (uc_Username user) (Query_Get r "name")
            (request_of r)) (λ _,
  respond_message "Passkey registered.")).

Definition PasskeyLoginBeginHandler (svcs : Services) : Handle := λ r ps ctx,
  answer (BeginPasskeyLogin (sv_WebAuthn svcs)) (λ challenge,
  respond StatusOK (PasskeyLoginChallenge_json challenge)).

Definition PasskeyLoginFinishHandler (svcs : Services) : Handle := λ r ps ctx,
  answer (FinishPasskeyLogin ctx (sv_WebAuthn svcs) (Query_Get r "ceremony_id") (request_of r)) (λ x,
  respond StatusOK (Ok (session_json "Login successful" (lr_AccessToken x) (lr_RefreshToken x)
                          (lr_UserID x) (lr_Username x)))).

Definition PasskeyListHandler : Handle := λ r ps ctx,
  with_user ctx (λ user,
  answer (ListPasskeys (uc_ID user)) (λ passkeys,
  respond StatusOK (Ok (json_map [("passkeys", JArray (List.map PasskeyInfo_json passkeys))])))).

Definition PasskeyRenameHandler : Handle := λ r ps ctx,
  with_user ctx (λ user,
  with_payload ["name"] r (λ p,
  answer (RenamePasskey (uc_ID user) (ByName ps "id") (field "name" p)) (λ _, respond_message "Passkey renamed."))).

Definition PasskeyDeleteHandler : Handle := λ r ps ctx,
  with_user ctx (λ user,
  with_payload ["current_password"] r (λ p,
  answer (DeletePasskey (uc_ID user) (field "current_password" p) (ByName ps "id")) (λ _,
  respond_message "Passkey removed."))).
End handlers.
