(* ===== verification/Middleware.v ===== *)
(** * internal/middleware: the layers around the router

    A layer writes to the connection's [Writer]; it returns or it panics
    ([served]).  [RateLimitMiddleware] asks the limiter, a parameter whose
    store is Redis; [TimeoutMiddleware] buffers the answer of what it wraps and
    drops it when the deadline has passed. *)

From S2P Require Import Prelude.
From S2P Require Import GoLib.
From S2P Require Import Utils.
From S2P Require Import Model.
From S2P Require Import Runtime.
From S2P Require Import Queries.
From S2P Require Import Tokens.
From S2P Require Import Json.
From S2P Require Import Http.
From S2P Require Import Routes.

#[local] Open Scope string_scope.
#[local] Open Scope Z_scope.
#[local] Open Scope go_scope.

(** A layer returns with, or panics over, what has been written. *)
Inductive served :=
  | Returned (w : Writer)
  | Panicked (w : Writer).

Definition Layer : Type := HttpRequest → Ctx → Writer → Go served.

(** What a layer further in panicked with is recovered, or passed on. *)
Definition catch {A} (m : Go A) : Go (option A) := λ e w, let '(o, w') := m e w in (Some o, w').

(** The limiter ([limiter.Get]): whether the limit of a key is reached, or an
    error of its store. *)
Class LimiterLib := { limiter_Get : string → Go (res bool) }.

(** Its store is Redis, under the prefix [rl]. *)
Class LimiterLaws (LL : LimiterLib) := {
  limiter_db : ∀ k e w, w_db (limiter_Get k e w).2 = w_db w;
  limiter_tx : ∀ k e w, w_tx (limiter_Get k e w).2 = w_tx w;
  limiter_mail : ∀ k e w, w_mail (limiter_Get k e w).2 = w_mail w;
  limiter_redis : ∀ k e w key, HasPrefix key "rl" = false →
    w_redis (limiter_Get k e w).2 !! key = w_redis w !! key;
  limiter_returns : ∀ k e w, e_redis_nil e = false → (limiter_Get k e w).1 ≠ None
}.

(** ** Context values *)
Definition set_ctx_User (u : UserContext) (c : Ctx) : Ctx :=
  mkCtx (Some u) (ctx_EmailFromTempJWT c) (ctx_JTIFromTempJWT c) (ctx_ClientIP c) (ctx_UserAgent c)
    (ctx_SessionIDFromExpiredJWT c) (ctx_UserIDFromExpiredJWT c).
Definition set_ctx_TempJWT (email id : string) (c : Ctx) : Ctx :=
  mkCtx (ctx_User c) (Some email) (Some id) (ctx_ClientIP c) (ctx_UserAgent c)
    (ctx_SessionIDFromExpiredJWT c) (ctx_UserIDFromExpiredJWT c).
Definition set_ctx_ExpiredJWT (sessionID userID : string) (c : Ctx) : Ctx :=
  mkCtx (ctx_User c) (ctx_EmailFromTempJWT c) (ctx_JTIFromTempJWT c) (ctx_ClientIP c) (ctx_UserAgent c)
    (Some sessionID) (Some userID).
Definition set_ctx_client (ip agent : string) (c : Ctx) : Ctx :=
  mkCtx (ctx_User c) (ctx_EmailFromTempJWT c) (ctx_JTIFromTempJWT c) (Some ip) (Some agent)
    (ctx_SessionIDFromExpiredJWT c) (ctx_UserIDFromExpiredJWT c).

Definition write_error (err : ErrorCode) (w : Writer) : Go served :=
  cfg <- get_cfg ;; ret (Returned (write_response (JSONError cfg err) w)).

Definition RequestIDMiddleware `{UuidLib} (next : Layer) : Layer := λ r ctx w,
  let given := Header_Get (rq_Header r) "X-Request-ID" in
  if String.eqb given "" then
    id <- new_uuid ;; next r ctx (writer_Set "X-Request-ID" (uuid_String id) w)
  else next r ctx (writer_Set "X-Request-ID" given w).

(** The request's address and agent enter the context; a panic further in is
    recovered and answered with an internal error. *)
Definition LoggerMiddleware (next : Layer) : Layer := λ r ctx w,
  let ctx := set_ctx_client (rq_RemoteAddr r) (UserAgent r) ctx in
  s <- next r ctx w ;;
  match s with
  | Returned w => ret (Returned w)
  | Panicked w => write_error InternalServerError w
  end.

Definition needs_json (m : string) : bool :=
  String.eqb m MethodPost || String.eqb m MethodPut || String.eqb m MethodPatch.

Definition JSONMiddleware (next : Layer) : Layer := λ r ctx w,
  if needs_json (rq_Method r) && negb (HasPrefix (Header_Get (rq_Header r) "Content-Type") "application/json")
  then write_error InvalidPayloadMedia w
  else next r ctx (writer_Set "Content-Type" "application/json" w).

Definition cors_headers (cfg : Config) (origin : string) (w : Writer) : Writer :=
  let w :=
    if String.eqb (cfg_Env cfg) "development" && Nat.eqb (length (cfg_AllowedOrigins cfg)) 0 then
      writer_Set "Access-Control-Allow-Origin" "*" w
    else if negb (String.eqb origin "") && IsOriginAllowed origin (cfg_AllowedOrigins cfg) then
      writer_Set "Access-Control-Allow-Credentials" "true"
        (writer_Set "Vary" "Origin" (writer_Set "Access-Control-Allow-Origin" origin w))
    else w in
  writer_Set "Access-Control-Allow-Methods" "GET, POST, PUT, PATCH, DELETE, OPTIONS"
    (writer_Set "Access-Control-Allow-Headers" "Content-Type, Authorization" w).

Definition security_headers (w : Writer) : Writer :=
  List.fold_left (λ w h, writer_Set (fst h) (snd h) w)
    [("X-Content-Type-Options", "nosniff"); ("X-Frame-Options", "DENY"); ("X-XSS-Protection", "1; mode=block");
     ("Strict-Transport-Security", "max-age=63072000; includeSubDomains"); ("Referrer-Policy", "no-referrer");
     ("Content-Security-Policy", "default-src 'self'; script-src 'self'; style-src 'self'; img-src 'self' data:; font-src 'self'; frame-ancestors 'none';")]
    w.

Definition ResponseHeadersMiddleware (next : Layer) : Layer := λ r ctx w,
  cfg <- get_cfg ;;
  let w := cors_headers cfg (Header_Get (rq_Header r) "Origin") w in
  if String.eqb (rq_Method r) MethodOptions then ret (Returned (WriteHeader StatusNoContent w))
  else next r ctx (security_headers w).

(** ** Rate limits *)

Definition clientIP (r : HttpRequest) : string :=
  match SplitHostPort (rq_RemoteAddr r) with
  | Some (host, _) => if negb (String.eqb host "") then host else List.hd "" (Split (rq_RemoteAddr r) ":")
  | None => List.hd "" (Split (rq_RemoteAddr r) ":")
  end.

Section middleware.
Context `{UL : UuidLib} `{JL : JwtLib} `{LL : LimiterLib}.

(** [None] lets the request through. *)
Definition checkRateLimit (key : string) : Go (option ErrorCode) :=
  r <- limiter_Get key ;;
  match r with
  | Err _ => ret (Some InternalServerError)
  | Ok reached => ret (if reached then Some TooManyAttempts else None)
  end.

(** A step of a layer that may panic. *)
Definition attempt {A} (m : Go A) (w : Writer) (k : A → Go served) : Go served :=
  o <- catch m ;;
  match o with
  | Some a => k a
  | None => ret (Panicked w)
  end.

Definition RateLimitMiddleware (next : Layer) : Layer := λ r ctx w,
  attempt (checkRateLimit ("ip:" ++ clientIP r)) w (λ refused,
  match refused with
  | Some err => write_error err w
  | None => next r ctx w
  end).

Definition UserRateLimitMiddleware (next : Layer) : Layer := λ r ctx w,
  match ctx_User ctx with
  | None => next r ctx w
  | Some user =>
      if String.eqb (uc_ID user) "" then next r ctx w
      else attempt (checkRateLimit ("user:" ++ uc_ID user)) w (λ refused,
        match refused with
        | Some err => write_error err w
        | None => next r ctx w
        end)
  end.

(** ** Authentication *)

Fixpoint isAlternateRoute (path : string) (routes : list string) : bool :=
  match routes with
  | [] => false
  | route :: routes => if String.eqb path route then true else isAlternateRoute path routes
  end.

Definition JWTMiddleware (next : Layer) : Layer := λ r ctx w,
  if isAlternateRoute (rq_Path r) OpenRoutes then next r ctx w
  else
    let authHeader := Header_Get (rq_Header r) "Authorization" in
    if String.eqb (rq_Path r) V1_RefreshToken then
      attempt (VerifyAndParseExpiredJWT authHeader) w (λ x,
        match x with
        | Err _ => write_error Unauthorized w
        | Ok (sessionID, userID) => next r (set_ctx_ExpiredJWT sessionID userID ctx) w
        end)
    else if isAlternateRoute (rq_Path r) TemporaryJWTRoutes then
      attempt (VerifyAndParseTemporaryJWT authHeader RoleJoiner) w (λ x,
        match x with
        | Err _ => write_error Unauthorized w
        | Ok (email, id) => next r (set_ctx_TempJWT email id ctx) w
        end)
    else
      attempt (VerifyAndParseJWT authHeader) w (λ x,
        match x with
        | Err _ => write_error Unauthorized w
        | Ok user => next r (set_ctx_User user ctx) w
        end).

(** ** The deadline: [http.TimeoutHandler] *)

Definition timeout_body : string := Marshal (JObject [("error", JString "request timeout")]).
Definition StatusTimeout : Z := StatusServiceUnavailable.

Definition TimeoutMiddleware (next : HttpRequest → Ctx → Go Response) : Layer := λ r ctx w,
  cfg <- get_cfg ;;
  t0 <- now ;;
  o <- catch (next r ctx) ;;
  t1 <- now ;;
  if cfg_RequestTimeout cfg <=? t1 - t0 then
    ret (Returned (writer_Write timeout_body (WriteHeader StatusTimeout w)))
  else match o with
       | Some resp => ret (Returned (write_response resp w))
       | None => ret (Panicked w)
       end.
End middleware.
