(* ===== verification/Server.v ===== *)
(** * The server: NewHandler and BuildHandlerStack

    internal/handlers/router.go and build_handler_stack.go: the registered
    routes, each with its role gate, under the middleware stack. *)

From S2P Require Import Prelude.
From S2P Require Import GoLib.
From S2P Require Import Utils.
From S2P Require Import Model.
From S2P Require Import Runtime.
From S2P Require Import Queries.
From S2P Require Import Password.
From S2P Require Import Tokens.
From S2P Require Import Codes.
From S2P Require Import Sso.
From S2P Require Import Admin.
From S2P Require Import Passkey.
From S2P Require Import Json.
From S2P Require Import Http.
From S2P Require Import Routes.
From S2P Require Import Handlers.
From S2P Require Import Middleware.

#[local] Open Scope string_scope.
#[local] Open Scope Z_scope.
#[local] Open Scope go_scope.

Section server.
Context `{TL : TextLib} `{UL : UuidLib} `{HL : HashLib} `{JL : JwtLib} `{OL : TotpLib} `{AL : AeadLib}
  `{WL : WebAuthnLib} `{CL : TimeLib} `{OI : OidcLib} `{JN : !JsonLib WL} `{LL : LimiterLib} `{RL : RouterLib}.
Context (svcs : Services).

Definition GET (path : string) (h : Handle) : route Handle := ((MethodGet, path), h).
Definition POST (path : string) (h : Handle) : route Handle := ((MethodPost, path), h).
Definition DELETE (path : string) (h : Handle) : route Handle := ((MethodDelete, path), h).

(** Routes served without a session. *)
Definition open_routes : list (route Handle) :=
  [GET V1_HealthCheck HealthCheckHandler;
   POST V1_StartEmailVerification StartEmailVerificationHandler;
   POST V1_VerifyEmail VerifyEmailCodeHandler;
   POST V1_Login LoginHandler;
   POST V1_RequestPasswordReset RequestPasswordResetHandler;
   POST V1_ResetPassword ResetPasswordHandler;
   POST V1_MFAVerifyLogin MFAVerifyLoginHandler;
   POST V1_MFASendLoginCode MFASendLoginCodeHandler;
   POST V1_SSOGoogle (SSOGoogleHandler svcs);
   POST V1_SSOApple (SSOAppleHandler svcs);
   POST V1_PasskeyLoginBegin (PasskeyLoginBeginHandler svcs);
   POST V1_PasskeyLoginFinish (PasskeyLoginFinishHandler svcs)].

(** Routes with a token of their own. *)
Definition token_routes : list (route Handle) :=
  [POST V1_CompleteEmailJoin CompleteEmailJoinHandler;
   POST V1_RefreshToken RefreshTokenHandler].

(** Routes of a signed-in user. *)
Definition session_routes : list (route Handle) :=
  [POST V1_Logout LogoutHandler;
   POST V1_ChangePassword ChangePasswordHandler;
   POST V1_MFAEnroll MFAEnrollHandler;
   POST V1_MFAVerifyEnrollment MFAVerifyEnrollmentHandler;
   POST V1_MFADisable MFADisableHandler;
   POST V1_MFAEmailEnroll MFAEmailEnrollHandler;
   POST V1_MFAEmailVerify MFAEmailVerifyEnrollmentHandler;
   POST V1_MFAEmailDisable MFAEmailDisableHandler;
   POST V1_PasskeyRegisterBegin (PasskeyRegisterBeginHandler svcs);
   POST V1_PasskeyRegisterFinish (PasskeyRegisterFinishHandler svcs);
   GET V1_PasskeyList PasskeyListHandler;
   POST V1_PasskeyRename PasskeyRenameHandler;
   DELETE V1_PasskeyDetail PasskeyDeleteHandler].

(** The admin routes, with the least role each demands. *)
Definition admin_routes : list (UserRole * route Handle) :=
  [(UserRoleModerator, GET V1_AdminUsers AdminListUsersHandler);
   (UserRoleModerator, GET V1_AdminUserDetail AdminGetUserHandler);
   (UserRoleModerator, POST V1_AdminUserBan AdminBanUserHandler);
   (UserRoleModerator, POST V1_AdminUserUnban AdminUnbanUserHandler);
   (UserRoleModerator, POST V1_AdminUserDisable AdminDisableUserHandler);
   (UserRoleModerator, POST V1_AdminUserEnable AdminEnableUserHandler);
   (UserRoleModerator, POST V1_AdminUserForceLogout AdminForceLogoutUserHandler);
   (UserRoleModerator, POST V1_AdminUserResetPassword AdminResetUserPasswordHandler);
   (UserRoleModerator, GET V1_AdminAuditLogs AdminListAuditLogsHandler);
   (UserRoleAdmin, POST V1_AdminUserRole AdminChangeUserRoleHandler);
   (UserRoleAdmin, DELETE V1_AdminUserDetail AdminDeleteUserHandler)].
Definition gated (x : UserRole * route Handle) : route Handle :=
  let '(min, (mp, h)) := x in (mp, requireRole min h).

Definition registered : list (route Handle) :=
  (open_routes ++ token_routes ++ session_routes ++ List.map gated admin_routes)%list.

(** [router.ServeHTTP] with its NotFound and MethodNotAllowed handlers. *)
Definition router (r : HttpRequest) (ctx : Ctx) : Go Response :=
  match router_serve registered r with
  | RHandle h ps => h r ps ctx
  | RNotFound | RMethodNotAllowed => respond_error RouteNotFound
  | ROwn resp => ret resp
  end.

Definition BuildHandlerStack : Layer :=
  RequestIDMiddleware (LoggerMiddleware (JSONMiddleware (ResponseHeadersMiddleware (RateLimitMiddleware
    (JWTMiddleware (UserRateLimitMiddleware (TimeoutMiddleware router))))))).

Definition no_ctx : Ctx := mkCtx None None None None None None None.

(** The handler of the server: what the client of a request gets.  A panic that
    is not recovered closes the connection. *)
Definition NewHandler (r : HttpRequest) : Go Response :=
  s <- BuildHandlerStack r no_ctx new_writer ;;
  match s with
  | Returned w => ret (reply w)
  | Panicked _ => panic
  end.
End server.
