(* ===== verification/Startup.v ===== *)
(** * cmd: starting the server, and the scheduled maintenance command

    [main] up to [server.Start]: the configuration, the connections it checks,
    the optional providers, and the handler it serves.  An error is
    [log.Fatalf]: the process exits with status 1.  What the clients answer at
    start-up is a parameter. *)

From S2P Require Import Prelude.
From S2P Require Import GoLib.
From S2P Require Import Utils.
From S2P Require Import Model.
From S2P Require Import Runtime.
From S2P Require Import Queries.
From S2P Require Import Sso.
From S2P Require Import Maintenance.
From S2P Require Import Passkey.
From S2P Require Import Json.
From S2P Require Import Http.
From S2P Require Import Config.
From S2P Require Import Handlers.

#[local] Open Scope string_scope.
#[local] Open Scope Z_scope.
#[local] Open Scope go_scope.
#[local] Open Scope config_scope.

(** The clients' constructors and first calls.  [redis.NewClient] and
    [resend.NewClient] do not fail, and never return nil. *)
Class StartLib `(OI : OidcLib) `(WL : WebAuthnLib) := {
  sentry_Init : string → string → res unit;                    (** DSN and sample rate *)
  pgxpool_New : string → res unit;
  pgxpool_Ping : string → res unit;
  redis_Ping : string → res unit;
  redisstore_NewStore : string → Z → res unit;                 (** prefix and retries *)
  keyfunc_NewDefaultCtx : list string → res oidc_KeySet;
  webauthn_New : string → string → list string → res WebAuthn
}.

Section startup.
Context `{KL : KeyLib} `{OI : OidcLib} `{WL : WebAuthnLib} `{SL : !StartLib OI WL}.

Definition GoogleJWKSURL : string := "https://www.googleapis.com/oauth2/v3/certs".
Definition AppleJWKSURL : string := "https://appleid.apple.com/auth/keys".

Definition NewProviderKeyfunc (jwksURL : string) : res oidc_KeySet := keyfunc_NewDefaultCtx [jwksURL].

Definition newProviderKeyfuncOrNil (clientID jwksURL : string) : option oidc_KeySet :=
  if String.eqb clientID "" then None
  else match NewProviderKeyfunc jwksURL with
       | Err _ => None
       | Ok kf => Some kf
       end.

Definition newWebAuthnOrNil (cfg : Config) : option WebAuthn :=
  if String.eqb (cfg_WebAuthnRPID cfg) "" then None
  else match webauthn_New (cfg_WebAuthnRPID cfg) (cfg_WebAuthnRPDisplayName cfg) (cfg_WebAuthnRPOrigins cfg) with
       | Err _ => None
       | Ok w => Some w
       end.

Definition NewServices (googleJWKS appleJWKS : option oidc_KeySet) (webAuthn : option WebAuthn) : Services :=
  mkServices _ _ googleJWKS appleJWKS webAuthn.

Definition InitSentry (getenv : string → string) : res unit :=
  sentry_Init (getenv "SENTRY_DSN") (getStringConfig getenv "SENTRY_SAMPLE_RATE" "1").

(** The configuration and the services the server starts with. *)
Definition main (getenv : string → string) : res (Config * Services) :=
  let! cfg := Load getenv in
  let! _sentry := InitSentry getenv in
  let! _pool := pgxpool_New (cfg_DSN cfg) in
  let! _ping := pgxpool_Ping (cfg_DSN cfg) in
  let! _redis := redis_Ping (cfg_RedisAddress cfg) in
  let! _store := redisstore_NewStore "rl" 1 in
  let googleJWKS := newProviderKeyfuncOrNil (cfg_GoogleClientID cfg) GoogleJWKSURL in
  let appleJWKS := newProviderKeyfuncOrNil (cfg_AppleClientID cfg) AppleJWKSURL in
  let webAuthn := newWebAuthnOrNil cfg in
  Ok (cfg, NewServices googleJWKS appleJWKS webAuthn).

(** cmd/cron: what the process needs before the jobs run, and its exit status. *)
Definition cron_setup (getenv : string → string) : res Config :=
  let! cfg := Load getenv in
  let! _sentry := InitSentry getenv in
  let! _pool := pgxpool_New (cfg_DSN cfg) in
  let! _ping := pgxpool_Ping (cfg_DSN cfg) in
  Ok cfg.

Definition cron_main (getenv : string → string) : Go Z :=
  match cron_setup getenv with
  | Err _ => ret 1
  | Ok _ =>
      r <- RunMaintenance ;;
      match r with
      | Err _ => ret 1
      | Ok _ => ret 0
      end
  end.
End startup.

(** ** How the process ends once it serves: server.go *)

(** [log.Fatalf] calls [os.Exit(1)]; a [main] that returns exits with 0.  Either
    way the process ends, and no goroutine of it goes on. *)
Definition fatal_status : Z := 1.
Definition main_status : Z := 0.

(** The error of [ListenAndServe], which returns with no other than
    [ErrServerClosed] once [Shutdown] has been called. *)
Inductive ServeError :=
  | ErrServerClosed
  | ErrServe (err : error).

(** The goroutine of [Start], when [ListenAndServe] returns: the exit status, if
    it ends the process. *)
Definition Start (err : ServeError) : option Z :=
  match err with
  | ErrServerClosed => None
  | ErrServe _ => Some fatal_status
  end.

(** [gracefulShutdown] after a signal, from what [server.Shutdown] returns. *)
Definition gracefulShutdown (err : option error) : Z :=
  match err with
  | Some _ => fatal_status
  | None => main_status
  end.
