(* ===== verification/Logging.v ===== *)
(** * config/logger.go, utils/logging.go and the lines of LoggerMiddleware

    The zap logger and Sentry are libraries: a logger is a parameter with the
    documented laws of its methods, and a call to Sentry is recorded as it is made.
    The layers of the file Middleware are what a request does to the service; the
    [logged_] layers here are the same code with what it reports: the logger's
    own lines, those of the rate limits and of the authentication.  What a handler
    reports, inside [TimeoutMiddleware], is left out. *)

From S2P Require Import Prelude.
From S2P Require Import GoLib.
From S2P Require Import Encoding.
From S2P Require Import Utils.
From S2P Require Import Model.
From S2P Require Import Runtime.
From S2P Require Import Queries.
From S2P Require Import Tokens.
From S2P Require Import Sso.
From S2P Require Import Maintenance.
From S2P Require Import Passkey.
From S2P Require Import Json.
From S2P Require Import Emails.
From S2P Require Import Http.
From S2P Require Import Config.
From S2P Require Import Startup.
From S2P Require Import Routes.
From S2P Require Import Middleware.

#[local] Open Scope string_scope.
#[local] Open Scope Z_scope.
#[local] Open Scope go_scope.

(** ** zap *)

Inductive Level := DebugLevel | InfoLevel | WarnLevel | ErrorLevel | DPanicLevel | PanicLevel | FatalLevel.
Definition level_rank (l : Level) : Z :=
  match l with
  | DebugLevel => -1 | InfoLevel => 0 | WarnLevel => 1 | ErrorLevel => 2 | DPanicLevel => 3 | PanicLevel => 4
  | FatalLevel => 5
  end.

(** The value of a recovered panic is not carried. *)
Inductive FieldValue := VString (s : string) | VInt (n : Z) | VDuration (d : Z) | VError (err : error) | VPanic.
Definition Field : Type := string * FieldValue.

Inductive LevelEncoder := LowercaseLevelEncoder.
Inductive TimeEncoder := ISO8601TimeEncoder.
Inductive DurationEncoder := StringDurationEncoder.
Record EncoderConfig := mkEncoderConfig {
  enc_TimeKey : string; enc_LevelKey : string; enc_NameKey : string; enc_CallerKey : string;
  enc_MessageKey : string; enc_StacktraceKey : string;
  enc_EncodeLevel : LevelEncoder; enc_EncodeTime : TimeEncoder; enc_EncodeDuration : DurationEncoder
}.
Inductive Encoder := NewConsoleEncoder (c : EncoderConfig) | NewJSONEncoder (c : EncoderConfig).

(** How a call to a logger ends. *)
Inductive log_end := Continues | Panics (msg : string) | Exits (status : Z).

(** A line is what a call writes, but for its timestamp. *)
Class ZapLib := {
  Logger : Type;
  Line : Type;
  zap_New : Encoder → Level → Logger;  (** of [NewCore(enc, AddSync(os.Stdout), NewAtomicLevelAt(level))] *)
  zap_NewNop : Logger;
  zap_With : Logger → list Field → Logger;
  zap_Write : Logger → Level → string → list Field → list Line;
  zap_Ends : Logger → Level → string → log_end
}.

(** Documented: a no-op logger writes nothing, [With] puts fields in front of those
    of each call, a core writes one line for a call at its level or above, and
    [Panic] and [Fatal] panic and exit even where they write nothing. *)
Class ZapLaws (ZL : ZapLib) := {
  zap_nop_Write : ∀ l msg fs, zap_Write zap_NewNop l msg fs = [];
  zap_With_Write : ∀ lg gs l msg fs, zap_Write (zap_With lg gs) l msg fs = zap_Write lg l msg (gs ++ fs)%list;
  zap_below : ∀ enc min l msg fs, level_rank l < level_rank min → zap_Write (zap_New enc min) l msg fs = [];
  zap_above : ∀ enc min l msg fs, level_rank min ≤ level_rank l →
    ∃ line, zap_Write (zap_New enc min) l msg fs = [line];
  zap_Panic_Ends : ∀ lg msg, zap_Ends lg PanicLevel msg = Panics msg;
  zap_Fatal_Ends : ∀ lg msg, zap_Ends lg FatalLevel msg = Exits 1;
  zap_Write_Ends : ∀ lg l msg, level_rank l < level_rank DPanicLevel → zap_Ends lg l msg = Continues
}.

(** ** Sentry *)

Record SentryUser := mkSentryUser { su_ID : string; su_IPAddress : string; su_Data : list (string * string) }.

(** What leaves the process: a line, or a call to Sentry. *)
Inductive Report `{ZapLib} :=
  | ZapLine (line : Line)
  | ConfigureScope (tags : list (string * string)) (user : option SentryUser)
  | Recover (tags : list (string * string)) (user : SentryUser)  (** in a scope of its own, then [Flush] *)
  | CaptureException (err : error)
  | CaptureMessage (msg : string).

Section logging.
Context `{ZL : ZapLib}.

(** The log of the process: what was reported, and how often the clock was read to
    do so. *)
Record Log := mkLog { log_reads : nat; log_out : list Report }.
Context (log_clock : nat → Z).

Definition tell (rs : list Report) (l : Log) : Log := mkLog (log_reads l) (log_out l ++ rs)%list.
Definition log_now (l : Log) : Z * Log := (log_clock (log_reads l), mkLog (S (log_reads l)) (log_out l)).
Definition Since (start : Z) (l : Log) : Z * Log := let '(t, l) := log_now l in (t - start, l).
Definition zap_lines (lg : Logger) (lvl : Level) (msg : string) (fs : list Field) : list Report :=
  ZapLine <$> zap_Write lg lvl msg fs.
(** A call of a method of a logger. *)
Definition zap_call (lvl : Level) (lg : Logger) (msg : string) (fs : list Field) (l : Log) : log_end * Log :=
  (zap_Ends lg lvl msg, tell (zap_lines lg lvl msg fs) l).

(** ** config/logger.go *)

Definition encoderCfg : EncoderConfig :=
  mkEncoderConfig "timestamp" "level" "logger" "" "message" "stacktrace"
    LowercaseLevelEncoder ISO8601TimeEncoder StringDurationEncoder.
Definition InitLogger (env : string) : Logger :=
  if String.eqb env "development" then zap_New (NewConsoleEncoder encoderCfg) DebugLevel
  else zap_New (NewJSONEncoder encoderCfg) InfoLevel.

(** ** utils/logging.go *)

Record DynamicLogger := mkDynamicLogger { dl_Base : Logger; dl_StartTime : Z }.

Definition withDuration (d : DynamicLogger) (l : Log) : Logger * Log :=
  let '(duration, l) := Since (dl_StartTime d) l in
  (zap_With (dl_Base d) [("duration", VDuration duration)], l).

(** What the logger layer and the layer before it put in the context. *)
Record LogCtx := mkLogCtx {
  lc_RequestID : option string;
  lc_StartTime : option Z;
  lc_Logger : option DynamicLogger
}.

Definition getLogger (ctx : LogCtx) (l : Log) : Logger * Log :=
  match lc_Logger ctx with
  | Some dynamic => withDuration dynamic l
  | None => (zap_NewNop, l)
  end.

Definition GetContextTime (ctx : LogCtx) (l : Log) : Z * Log :=
  match lc_StartTime ctx with
  | Some val => (val, l)
  | None => log_now l
  end.

(** [time.Time.IsZero]: the first of January of the year 1 *)
Definition IsZero (t : Z) : bool := t =? -62135596800 * Second.
Definition Milliseconds (d : Z) : Z := Z.quot d 1000000.
Definition SendSentryLog (ctx : LogCtx) (err : error) (l : Log) : Log :=
  let '(startTime, l) := GetContextTime ctx l in
  let l := if negb (IsZero startTime) then
             let '(d, l) := Since startTime l in
             tell [ConfigureScope [("duration_ms", print_int (Milliseconds d))] None] l
           else tell [ConfigureScope [] None] l in
  tell [CaptureException err] l.

Definition LogInfo (ctx : LogCtx) (msg : string) (fields : list Field) (l : Log) : log_end * Log :=
  let '(logger, l) := getLogger ctx l in zap_call InfoLevel logger msg fields l.
Definition LogWarn (ctx : LogCtx) (msg : string) (fields : list Field) (l : Log) : log_end * Log :=
  let '(logger, l) := getLogger ctx l in zap_call WarnLevel logger msg fields l.
Definition LogError (ctx : LogCtx) (msg : string) (fields : list Field) (l : Log) : log_end * Log :=
  let '(logger, l) := getLogger ctx l in zap_call ErrorLevel logger msg fields l.
Definition LogDebug (ctx : LogCtx) (msg : string) (fields : list Field) (l : Log) : log_end * Log :=
  let '(logger, l) := getLogger ctx l in zap_call DebugLevel logger msg fields l.
Definition LogPanic (ctx : LogCtx) (msg : string) (fields : list Field) (l : Log) : log_end * Log :=
  let '(logger, l) := getLogger ctx l in zap_call PanicLevel logger msg fields l.
Definition LogFatal (ctx : LogCtx) (msg : string) (fields : list Field) (l : Log) : log_end * Log :=
  let '(logger, l) := getLogger ctx l in zap_call FatalLevel logger msg fields l.

(** ** middleware/logging.go, with what it reports *)

(** A layer that reports, over the context of the log. *)
Definition LoggedLayer : Type := HttpRequest → Ctx → LogCtx → Writer → Log → Go (served * Log).

(** A layer whose own lines are left out. *)
Definition silent (next : Layer) : LoggedLayer := λ r ctx _ w l,
  s <- next r ctx w ;; ret (s, l).

Definition logged_RequestIDMiddleware `{UuidLib} (next : LoggedLayer) : LoggedLayer := λ r ctx lc w l,
  let enter id := next r ctx (mkLogCtx (Some id) (lc_StartTime lc) (lc_Logger lc)) (writer_Set "X-Request-ID" id w) l in
  let given := Header_Get (rq_Header r) "X-Request-ID" in
  if String.eqb given "" then id <- new_uuid ;; enter (uuid_String id) else enter given.

Definition safe (v : option UserContext) (get : UserContext → string) : string :=
  match v with None => "" | Some v => get v end.

Definition request_fields (r : HttpRequest) (requestID : string) (userCtx : option UserContext) : list Field :=
  [("path", VString (rq_Path r)); ("method", VString (rq_Method r)); ("request_id", VString requestID);
   ("session_id", VString (safe userCtx uc_SessionID)); ("user_id", VString (safe userCtx uc_ID));
   ("remote_addr", VString (rq_RemoteAddr r))].
Definition request_scope (r : HttpRequest) (requestID : string) (userCtx : option UserContext) : Report :=
  ConfigureScope [("method", rq_Method r); ("path", rq_Path r); ("request_id", requestID);
                  ("user_role", safe userCtx uc_Role)]
    (Some (mkSentryUser (safe userCtx uc_ID) (rq_RemoteAddr r) [("session_id", safe userCtx uc_SessionID)])).
Definition panic_scope (r : HttpRequest) (requestID : string) (userCtx : option UserContext) : Report :=
  Recover [("request_id", requestID); ("path", rq_Path r)] (mkSentryUser (safe userCtx uc_ID) (rq_RemoteAddr r) []).

(** The writer is the [entities.ResponseWriter] of the outermost layer, whose status
    the last line carries. *)
Definition logged_LoggerMiddleware (logger : Logger) (next : LoggedLayer) : LoggedLayer := λ r ctx lc w l,
  let '(start, l) := log_now l in
  let requestID := default "" (lc_RequestID lc) in
  let userCtx := ctx_User ctx in
  let reqLogger := zap_With logger (request_fields r requestID userCtx) in
  let lc := mkLogCtx (lc_RequestID lc) (Some start) (Some (mkDynamicLogger reqLogger start)) in
  let ctx := set_ctx_client (rq_RemoteAddr r) (UserAgent r) ctx in
  let l := tell [request_scope r requestID userCtx] l in
  let l := snd (zap_call InfoLevel reqLogger "Processing Request" [] l) in
  x <- next r ctx lc w l ;;
  let '(s, l) := x in
  let '(duration, l) := Since start l in
  match s with
  | Panicked w =>
      let l := tell [panic_scope r requestID userCtx] l in
      let l := snd (zap_call ErrorLevel reqLogger "Recovered from panic"
                      [("error", VPanic); ("duration", VDuration duration)] l) in
      s <- write_error InternalServerError w ;; ret (s, l)
  | Returned w =>
      let l := snd (zap_call InfoLevel (zap_With reqLogger [("duration", VDuration duration)]) "Request Completed"
                      [("status", VInt (wr_Status w))] l) in
      ret (Returned w, l)
  end.

(** ** The layers inside it, with what they report *)

Definition logged_JSONMiddleware (next : LoggedLayer) : LoggedLayer := λ r ctx lc w l,
  if needs_json (rq_Method r) && negb (HasPrefix (Header_Get (rq_Header r) "Content-Type") "application/json")
  then s <- write_error InvalidPayloadMedia w ;; ret (s, l)
  else next r ctx lc (writer_Set "Content-Type" "application/json" w) l.

Definition logged_ResponseHeadersMiddleware (next : LoggedLayer) : LoggedLayer := λ r ctx lc w l,
  cfg <- get_cfg ;;
  let w := cors_headers cfg (Header_Get (rq_Header r) "Origin") w in
  if String.eqb (rq_Method r) MethodOptions then ret (Returned (WriteHeader StatusNoContent w), l)
  else next r ctx lc (security_headers w) l.

(** A step that may panic, with what it reports when it does not: nothing here
    reports and then panics. *)
Definition logged_attempt {A} (m : Go (A * Log)) (w : Writer) (l : Log) (k : A → Log → Go (served * Log)) :
    Go (served * Log) :=
  o <- catch m ;;
  match o with
  | Some (a, l) => k a l
  | None => ret (Panicked w, l)
  end.

(** What [limiter.Context] says beside [Reached]: the limit, what remains of it, and
    when it is reset. *)
Definition limit_fields (key : string) (numbers : Z * Z * Z) : list Field :=
  [("rate_key", VString key); ("limit", VInt (fst (fst numbers))); ("remaining", VInt (snd (fst numbers)));
   ("reset", VInt (snd numbers))].

(** The scope of [sentry.WithScope] ends before [CaptureMessage], so the message
    goes without it. *)
Definition logged_checkRateLimit `{LL : LimiterLib} (numbers : string → Log → Z * Z * Z) (lc : LogCtx) (key : string) (l : Log) :
    Go (option ErrorCode * Log) :=
  r <- limiter_Get key ;;
  match r with
  | Err err => ret (Some InternalServerError, snd (LogError lc "Rate limiter store error" [("error", VError err)] l))
  | Ok reached =>
      let fields := limit_fields key (numbers key l) in
      let l := snd (LogDebug lc "Rate limiting check" fields l) in
      if negb reached then ret (None, l)
      else let l := tell [CaptureMessage "Rate limit exceeded"] l in
           ret (Some TooManyAttempts, snd (LogWarn lc "Rate limit exceeded" fields l))
  end.

Definition logged_RateLimitMiddleware `{LL : LimiterLib} numbers (next : LoggedLayer) : LoggedLayer := λ r ctx lc w l,
  logged_attempt (logged_checkRateLimit numbers lc ("ip:" ++ clientIP r) l) w l (λ refused l,
  match refused with
  | Some err => s <- write_error err w ;; ret (s, l)
  | None => next r ctx lc w l
  end).

Definition logged_UserRateLimitMiddleware `{LL : LimiterLib} numbers (next : LoggedLayer) : LoggedLayer := λ r ctx lc w l,
  match ctx_User ctx with
  | None => next r ctx lc w l
  | Some user =>
      if String.eqb (uc_ID user) "" then next r ctx lc w l
      else logged_attempt (logged_checkRateLimit numbers lc ("user:" ++ uc_ID user) l) w l (λ refused l,
        match refused with
        | Some err => s <- write_error err w ;; ret (s, l)
        | None => next r ctx lc w l
        end)
  end.

(** *** auth/session.go and auth/jwt.go *)

(** [IsValidSession] and [IsValidTemporarySession], over the prefix of the key. *)
Definition logged_valid_session (prefix failed : string) (lc : LogCtx) (sessionID : string) (exp : Z) (l : Log) :
    Go (bool * Log) :=
  t <- now ;;
  nil <- redis_is_nil ;;
  if (exp <? t) || nil then ret (false, l)
  else r <- redis_Exists (prefix ++ sessionID) ;;
       match r with
       | Err err => ret (false, snd (LogError lc failed [("error", VError err)] l))
       | Ok exists_ => ret (exists_ =? 1, l)
       end.
Definition logged_IsValidSession := logged_valid_session "session:" "Redis session lookup failed".
Definition logged_IsValidTemporarySession :=
  logged_valid_session "temporary_session:" "Redis temporary session lookup failed".

Definition logged_VerifyAndParseJWT `{JL : JwtLib} (lc : LogCtx) (authHeader : string) (l : Log) : Go (res UserContext * Log) :=
  r <- parseJWT authHeader false ;;
  match r with
  | Err err => ret (Err err, l)
  | Ok claims =>
      if String.eqb (jc_UserID claims) "" || String.eqb (jc_ID claims) ""
         || String.eqb (jc_Role claims) RoleJoiner then
        ret (Err (ErrMsg "invalid claims"), l)
      else match jc_ExpiresAt claims with
           | None => panic
           | Some exp =>
               x <- logged_IsValidSession lc (jc_ID claims) exp l ;;
               let '(ok, l) := x in
               if negb ok then ret (Err (ErrMsg "session expired or invalid"), l)
               else ret (Ok (mkUserContext (jc_UserID claims) (jc_Username claims) (jc_ID claims)
                               (jc_Role claims)), l)
           end
  end.

Definition logged_VerifyAndParseTemporaryJWT `{JL : JwtLib} (lc : LogCtx) (authHeader wantRole : string) (l : Log) :
    Go (res (string * string) * Log) :=
  r <- parseJWT authHeader false ;;
  match r with
  | Err err => ret (Err err, l)
  | Ok claims =>
      if String.eqb (jc_Subject claims) "" || String.eqb (jc_ID claims) ""
         || negb (String.eqb (jc_Role claims) wantRole) then
        ret (Err (ErrMsg "invalid claims"), l)
      else match jc_ExpiresAt claims with
           | None => panic
           | Some exp =>
               x <- logged_IsValidTemporarySession lc (jc_ID claims) exp l ;;
               let '(ok, l) := x in
               if negb ok then ret (Err (ErrMsg "session is expired or invalid"), l)
               else ret (Ok (jc_Subject claims, jc_ID claims), l)
           end
  end.

(** A refused token: a debug line and the answer. *)
Definition logged_refusal (lc : LogCtx) (msg : string) (err : error) (w : Writer) (l : Log) : Go (served * Log) :=
  let l := snd (LogDebug lc msg [("error", VError err)] l) in
  s <- write_error Unauthorized w ;; ret (s, l).

Definition logged_JWTMiddleware `{JL : JwtLib} (next : LoggedLayer) : LoggedLayer := λ r ctx lc w l,
  if isAlternateRoute (rq_Path r) OpenRoutes then next r ctx lc w l
  else
    let authHeader := Header_Get (rq_Header r) "Authorization" in
    if String.eqb (rq_Path r) V1_RefreshToken then
      logged_attempt (x <- VerifyAndParseExpiredJWT authHeader ;; ret (x, l)) w l (λ x l,
        match x with
        | Err err => logged_refusal lc "Refresh token JWT validation failed" err w l
        | Ok (sessionID, userID) => next r (set_ctx_ExpiredJWT sessionID userID ctx) lc w l
        end)
    else if isAlternateRoute (rq_Path r) TemporaryJWTRoutes then
      logged_attempt (logged_VerifyAndParseTemporaryJWT lc authHeader RoleJoiner l) w l (λ x l,
        match x with
        | Err err => logged_refusal lc "Temporary JWT validation failed" err w l
        | Ok (email, id) => next r (set_ctx_TempJWT email id ctx) lc w l
        end)
    else
      logged_attempt (logged_VerifyAndParseJWT lc authHeader l) w l (λ x l,
        match x with
        | Err err => logged_refusal lc "JWT validation failed" err w l
        | Ok user => next r (set_ctx_User user ctx) lc w l
        end).

(** ** services/maintenance_service.go and cmd/cron, with what they report *)

Fixpoint logged_run_jobs (ctx : LogCtx) (js : list maintenanceJob) (failed : list string) (l : Log)
    : Go (list string * Log) :=
  match js with
  | [] => ret (failed, l)
  | job :: js =>
      r <- db_stmt (job_run job) ;;
      match r with
      | Err err =>
          let l := snd (LogError ctx "Maintenance job failed" [("job", VString (job_name job)); ("error", VError err)] l) in
          logged_run_jobs ctx js (failed ++ [job_name job])%list l
      | Ok _ =>
          let l := snd (LogInfo ctx "Maintenance job completed" [("job", VString (job_name job))] l) in
          logged_run_jobs ctx js failed l
      end
  end.
Definition logged_RunMaintenance (ctx : LogCtx) (l : Log) : Go (res unit * Log) :=
  x <- logged_run_jobs ctx jobs [] l ;;
  let '(failed, l) := x in
  ret (if (0 <? length failed)%nat then Err (maintenance_error failed) else Ok (), l).

(** The context of a process: [context.Background()] with a deadline. *)
Definition background : LogCtx := mkLogCtx None None None.

Definition logged_cron_main `{KL : KeyLib} `{OI : OidcLib} `{WL : WebAuthnLib} `{SL : !StartLib OI WL} (getenv : string → string) (l : Log) : Go (Z * Log) :=
  match cron_setup getenv with
  | Err _ => ret (1, l)
  | Ok cfg =>
      let logger := InitLogger (cfg_Env cfg) in
      let '(start, l) := log_now l in
      x <- logged_RunMaintenance background l ;;
      let '(r, l) := x in
      let '(duration, l) := Since start l in
      match r with
      | Err err =>
          let l := snd (zap_call ErrorLevel logger "Maintenance run completed with failures"
                          [("error", VError err); ("duration", VDuration duration)] l) in
          ret (1, tell [CaptureException err] l)
      | Ok _ =>
          ret (0, snd (zap_call InfoLevel logger "Maintenance run completed successfully"
                         [("duration", VDuration duration)] l))
      end
  end.
End logging.
