(* ===== verification/Dispatch.v ===== *)
(** * The route table

    Which handler a path reaches: no two patterns of the table match the same
    path, the open paths reach open handlers only, and every admin pattern
    reaches its handler behind its role gate. *)

From S2P Require Import Prelude.
From S2P Require Import GoLib.
From S2P Require Import Utils.
From S2P Require Import Model.
From S2P Require Import Runtime.
From S2P Require Import Queries.
From S2P Require Import Password.
From S2P Require Import Tokens.
From S2P Require Import Codes.
From S2P Require Import Sso.
From S2P Require Import Admin.
From S2P Require Import Passkey.
From S2P Require Import Http.
From S2P Require Import Routes.
From S2P Require Import Handlers.
From S2P Require Import Middleware.
From S2P Require Import Server.

#[local] Open Scope string_scope.
#[local] Open Scope Z_scope.

(** Two patterns some path could match both. *)
Definition is_param (s : string) : bool := match s with String c _ => Ascii.eqb c ":" | EmptyString => false end.
Definition overlap (p q : string) : bool := is_param p || is_param q || String.eqb p q.
Fixpoint overlaps (ps qs : list string) : bool :=
  match ps, qs with
  | [], [] => true
  | p :: ps, q :: qs => overlap p q && overlaps ps qs
  | _, _ => false
  end.
Definition patterns_overlap (p q : string) : bool := overlaps (Split p "/") (Split q "/").

Lemma match_segment_cons p pat s path ps :
  match_segments (p :: pat) (s :: path) = Some ps →
  (is_param p = true ∨ p = s) ∧ ∃ ps', match_segments pat path = Some ps'.
Proof.
  cbn [match_segments]. unfold is_param. destruct p as [|c name].
  - destruct (String.eqb_spec "" s) as [<-|]; [eauto|done].
  - destruct (Ascii.eqb c ":") eqn:Ec.
    + destruct (match_segments pat path); [eauto|done].
    + destruct (String.eqb_spec (String c name) s) as [<-|]; [eauto|done].
Qed.

Lemma match_overlaps ps qs path a b :
  match_segments ps path = Some a → match_segments qs path = Some b → overlaps ps qs = true.
Proof.
  revert qs path a b. induction ps as [|p ps IH]; intros qs path a b Ha Hb.
  - destruct path; [|done]. by destruct qs.
  - destruct path as [|s path]; [done|]. destruct qs as [|q qs]; [done|].
    apply match_segment_cons in Ha as (Hp & a' & Ha). apply match_segment_cons in Hb as (Hq & b' & Hb).
    cbn [overlaps]. rewrite (IH _ _ _ _ Ha Hb), andb_true_r. unfold overlap.
    destruct Hp as [->| ->], Hq as [->| ->]; rewrite ?orb_true_r; try done.
    rewrite String.eqb_refl. by rewrite orb_true_r.
Qed.

Lemma path_match_overlap p q path a b :
  path_match p path = Some a → path_match q path = Some b → patterns_overlap p q = true.
Proof. apply match_overlaps. Qed.

(** A path without a colon segment, as a pattern, matches itself. *)
Lemma match_literal l : List.forallb (λ s, negb (is_param s)) l = true → match_segments l l = Some [].
Proof.
  induction l as [|s l IH]; [done|]. cbn [List.forallb match_segments]. intros [Hs Hl]%andb_true_iff.
  unfold is_param in Hs. destruct s as [|c s]; [by rewrite String.eqb_refl, IH|].
  apply negb_true_iff in Hs as ->. by rewrite String.eqb_refl, IH.
Qed.

(** A pattern without a parameter matches its own path only. *)
Lemma Join_Split s c : Join (Split s c) (String c "") = s.
Proof.
  induction s as [|a s IH]; [done|]. cbn [Split]. destruct (Ascii.eqb_spec a c) as [->|_].
  - destruct (Split s c) eqn:E; [by destruct s; cbn in E; repeat case_match|]. cbn in *. by rewrite IH.
  - destruct (Split s c) as [|h [|h' l]]; cbn in *; by rewrite <- IH.
Qed.
Lemma match_own_segments l path ps :
  List.forallb (λ s, negb (is_param s)) l = true → match_segments l path = Some ps → path = l.
Proof.
  revert path ps. induction l as [|p l IH]; intros [|s path] ps; [done..|]. cbn [List.forallb].
  intros [Hp Hl]%andb_true_iff (Hs & ps' & H')%match_segment_cons. apply negb_true_iff in Hp.
  destruct Hs as [Hs| ->]; [congruence|]. by rewrite (IH _ _ Hl H').
Qed.
Lemma path_match_own p path ps :
  List.forallb (λ s, negb (is_param s)) (Split p "/") = true → path_match p path = Some ps → path = p.
Proof.
  intros Hp H. apply match_own_segments in H; [|done]. by rewrite <- (Join_Split path "/"), H, Join_Split.
Qed.

Section table.
Context `{TL : TextLib} `{UL : UuidLib} `{HL : HashLib} `{JL : JwtLib} `{OL : TotpLib} `{AL : AeadLib}
  `{WL : WebAuthnLib} `{CL : TimeLib} `{OI : OidcLib} `{JN : !JsonLib WL} `{LL : LimiterLib} `{RL : RouterLib}.
Context (svcs : Services).

(** The table without its handlers. *)
Definition pats (l : list (route Handle)) : list (string * string) := List.map fst l.

Definition pairwise_apart (l : list (string * string)) : bool :=
  List.forallb (λ x, List.forallb (λ y,
    negb (String.eqb (fst x) (fst y) && patterns_overlap (snd x) (snd y)) || bool_decide (x = y)) l) l.

Lemma registered_apart : pairwise_apart (pats (registered svcs)) = true.
Proof. vm_compute. reflexivity. Qed.
Lemma registered_distinct : NoDup (pats (registered svcs)).
Proof.
  assert (bool_decide (NoDup (pats (registered svcs))) = true) as H by (vm_compute; reflexivity).
  by apply bool_decide_eq_true in H.
Qed.

(** A request has at most one route. *)
Lemma registered_unambiguous m p q h k path a b :
  ((m, p), h) ∈ registered svcs → ((m, q), k) ∈ registered svcs →
  path_match p path = Some a → path_match q path = Some b → p = q ∧ h = k.
Proof.
  intros Hp Hq Ha Hb. pose proof registered_apart as H. unfold pairwise_apart in H.
  assert (∀ r, r ∈ registered svcs → In (fst r) (pats (registered svcs))) as Hin.
  { intros r Hr. apply in_map. by apply list_elem_of_In. }
  pose proof (proj1 (forallb_forall _ _) H _ (Hin _ Hp)) as H1.
  pose proof (proj1 (forallb_forall _ _) H1 _ (Hin _ Hq)) as H2. cbn [fst snd] in H2.
  rewrite String.eqb_refl, (path_match_overlap _ _ _ _ _ Ha Hb) in H2. cbn [andb negb orb] in H2.
  apply bool_decide_eq_true in H2. injection H2 as ->. split; [done|].
  pose proof (NoDup_proj_eq fst _ _ _ registered_distinct Hp Hq eq_refl) as E. by injection E.
Qed.

Context `{!RouterLaws RL}.

(** Every registered route answers the requests of its method and pattern. *)
Lemma router_dispatch r pat h ps ctx :
  ((rq_Method r, pat), h) ∈ registered svcs → path_match pat (rq_Path r) = Some ps →
  (∀ p, p ∈ ps → p.2 ≠ "") → router svcs r ctx = h r ps ctx.
Proof.
  intros Hin Hm Hne. unfold router.
  rewrite (router_complete _ (registered svcs) r pat h ps Hin Hm Hne); [done|].
  intros pat' h' ps' Hin' Hm'. destruct (registered_unambiguous _ _ _ _ _ _ _ _ Hin Hin' Hm Hm') as [-> ->]. done.
Qed.

(** The open paths are the paths of the open routes, and reach nothing else. *)
Lemma open_paths : List.map (λ x, snd (fst x)) (open_routes svcs) = OpenRoutes.
Proof. reflexivity. Qed.

Definition apart_from_open (l : list (route Handle)) : bool :=
  List.forallb (λ x, List.forallb (λ p, negb (patterns_overlap (snd (fst x)) p)) OpenRoutes) l.
Lemma others_apart_from_open :
  apart_from_open (token_routes ++ session_routes svcs ++ List.map gated admin_routes) = true.
Proof. vm_compute. reflexivity. Qed.
Lemma open_literal : List.forallb (λ p, List.forallb (λ s, negb (is_param s)) (Split p "/")) OpenRoutes = true.
Proof. vm_compute. reflexivity. Qed.

Lemma open_path_open_handler r h ps :
  rq_Path r ∈ OpenRoutes → router_serve (registered svcs) r = RHandle h ps → ∃ mp, (mp, h) ∈ open_routes svcs.
Proof.
  intros Hopen Hs. destruct (router_sound _ _ _ _ _ Hs) as (pat & Hin & Hm).
  unfold registered in Hin. apply elem_of_app in Hin as [Hin|Hin]; [eauto|]. exfalso.
  pose proof (proj1 (forallb_forall _ _) others_apart_from_open _ (proj1 (list_elem_of_In _ _) Hin)) as H.
  apply list_elem_of_In in Hopen. pose proof (proj1 (forallb_forall _ _) H _ Hopen) as H'. cbn [fst snd] in H'.
  pose proof (proj1 (forallb_forall _ _) open_literal _ Hopen) as Hl.
  apply match_literal in Hl. by rewrite (path_match_overlap _ _ _ _ _ Hm Hl) in H'.
Qed.
End table.
