(* ===== verification/ToyServer.v ===== *)
(** * A concrete router, limiter and JSON library, with their laws

    With [Toy], an executable server: the examples of the HTTP layer run it. *)

From S2P Require Import Prelude.
From S2P Require Import GoLib.
From S2P Require Import Encoding.
From S2P Require Import Utils.
From S2P Require Import Model.
From S2P Require Import Runtime.
From S2P Require Import Queries.
From S2P Require Import Passkey.
From S2P Require Import Toy.
From S2P Require Import Json.
From S2P Require Import Http.
From S2P Require Import Routes.
From S2P Require Import Handlers.
From S2P Require Import Middleware.
From S2P Require Import Server.

#[local] Open Scope string_scope.
#[local] Open Scope Z_scope.
#[local] Open Scope go_scope.

Module ToyServer.
Import Toy.

(** The first matching route of the method. *)
Fixpoint first_match {H : Type} (table : list (route H)) (r : HttpRequest) : routed H :=
  match table with
  | [] => RNotFound
  | ((m, pat), h) :: table =>
      if String.eqb m (rq_Method r) then
        match path_match pat (rq_Path r) with
        | Some ps => RHandle h ps
        | None => first_match table r
        end
      else first_match table r
  end.

#[export] Instance router_lib : RouterLib := { router_serve H table r := first_match table r }.

Lemma first_match_sound {H : Type} (table : list (route H)) r h ps :
  first_match table r = RHandle h ps →
  ∃ pat, ((rq_Method r, pat), h) ∈ table ∧ path_match pat (rq_Path r) = Some ps.
Proof.
  induction table as [|[[m pat] k] table IH]; [done|]. cbn [first_match]. intros E.
  assert (∀ l, first_match table r = l → l = RHandle h ps →
    ∃ pat0, ((rq_Method r, pat0), h) ∈ ((m, pat), k) :: table ∧ path_match pat0 (rq_Path r) = Some ps) as Htl.
  { intros l <- Hl. destruct (IH Hl) as (p & Hin & Hm). exists p. split; [by right|done]. }
  destruct (String.eqb_spec m (rq_Method r)) as [->|]; [|by eapply Htl].
  destruct (path_match pat (rq_Path r)) eqn:Em; [|by eapply Htl].
  injection E as -> ->. exists pat. split; [left|done].
Qed.

Lemma first_match_some {H : Type} (table : list (route H)) r pat h ps :
  ((rq_Method r, pat), h) ∈ table → path_match pat (rq_Path r) = Some ps →
  ∃ h' ps', first_match table r = RHandle h' ps'.
Proof.
  induction table as [|[[m pat'] k] table IH]; intros Hin Hm; [set_solver|]. cbn [first_match].
  destruct (String.eqb m (rq_Method r)) eqn:Em.
  - destruct (path_match pat' (rq_Path r)) eqn:Ep; [eauto|].
    apply elem_of_cons in Hin as [[= <- <- <-]|Hin]; [congruence|eauto].
  - apply elem_of_cons in Hin as [[= <- <- <-]|Hin]; [by rewrite String.eqb_refl in Em|eauto].
Qed.

#[export] Instance router_laws : RouterLaws router_lib.
Proof.
  split.
  - intros H table r h ps. apply first_match_sound.
  - intros H table r pat h ps Hin Hm _ Hu.
    destruct (first_match_some _ _ _ _ _ Hin Hm) as (h' & ps' & E).
    destruct (first_match_sound _ _ _ _ E) as (pat' & Hin' & Hm').
    destruct (Hu _ _ _ Hin' Hm') as [-> ->]. cbn [router_serve router_lib]. rewrite E. congruence.
Qed.

(** A fixed window of the configured period: the count so far, until it expires. *)
Definition count_of (v : option rval) : Z :=
  match v with Some (RStr s) => default 0 (Z.of_N <$> parse_digits s) | _ => 0 end.
#[export] Instance limiter_lib : LimiterLib := {
  limiter_Get key :=
    cfg <- get_cfg ;;
    redis_call (λ t m,
      let k := "rl:" ++ key in
      let n := count_of (rlookup m t k) + 1 in
      (Ok (rate_Limit (cfg_RateLimit cfg) <? n),
       <[k := (RStr (print_nat (Z.to_N n)), Some (t + rate_Period (cfg_RateLimit cfg)))]> m)) }.

Lemma limiter_run (P : World → Prop) k e w :
  P w → (∀ v, P (tick (set_w_redis (<["rl:" ++ k := v]> (w_redis w)) w))) → P (tick w) → P (limiter_Get k e w).2.
Proof.
  intros H0 H1 H2. unfold limiter_Get, limiter_lib, bind, get_cfg, redis_call.
  destruct (e_redis_nil e); [done|]. destruct (e_fault e (w_tick w)); [apply H1|done|apply H1].
Qed.

#[export] Instance limiter_laws : LimiterLaws limiter_lib.
Proof.
  split.
  - intros k e w. by apply (limiter_run (λ w', w_db w' = w_db w)).
  - intros k e w. by apply (limiter_run (λ w', w_tx w' = w_tx w)).
  - intros k e w. by apply (limiter_run (λ w', w_mail w' = w_mail w)).
  - intros k e w key Hk. apply (limiter_run (λ w', w_redis w' !! key = w_redis w !! key)); [done| |done].
    intros v. cbn [w_redis tick set_w_redis]. rewrite lookup_insert_ne; [done|]. intros <-. cbn in Hk. discriminate.
  - intros k e w Hn. unfold limiter_Get, limiter_lib, bind, get_cfg, redis_call. rewrite Hn.
    by destruct (e_fault e (w_tick w)).
Qed.

#[export] Instance json_lib : JsonLib webauthn := {
  creation_json (s : string) := Ok (JString s);
  assertion_json (s : string) := Ok (JString s);
  changes_json _ := JObject [];
  request_of r := (Query_Get r "credential", Query_Get r "handle") }.

Definition svcs : Services := mkServices oidc webauthn (Some ()) (Some ()) (Some ()).

(** A JSON request with a bearer token. *)
Definition headers (token : string) : Header :=
  <["Content-Type" := "application/json"]> (if String.eqb token "" then ∅ else {["Authorization" := "Bearer " ++ token]}).
Definition request (method path token : string) (fields : list (string * string)) : HttpRequest :=
  let body := Marshal (JObject (List.map (λ f, (fst f, JString (snd f))) fields)) in
  mkHttpRequest method path [] (headers token) body (len body) "192.0.2.1:5000".
End ToyServer.
