(* ===== verification/HttpRefine.v ===== *)
(** * The HTTP server refines the request machine

    Whatever a client sends, and whatever fails, what the server does to the
    store is a sequence of steps of the machine of [Requests]: the layers around
    the services touch no table. *)

From S2P Require Import Prelude.
From S2P Require Import GoLib.
From S2P Require Import Utils.
From S2P Require Import Model.
From S2P Require Import Runtime.
From S2P Require Import Logic.
From S2P Require Import Queries.
From S2P Require Import Store.
From S2P Require Import Password.
From S2P Require Import Tokens.
From S2P Require Import Codes.
From S2P Require Import Signup.
From S2P Require Import Mfa.
From S2P Require Import Login.
From S2P Require Import Session.
From S2P Require Import PasswordFlows.
From S2P Require Import Sso.
From S2P Require Import Maintenance.
From S2P Require Import Admin.
From S2P Require Import Passkey.
From S2P Require Import Requests.
From S2P Require Import Json.
From S2P Require Import Http.
From S2P Require Import Routes.
From S2P Require Import Handlers.
From S2P Require Import Middleware.
From S2P Require Import Server.
From S2P Require Import Dispatch.
From S2P Require Import Toy.
From S2P Require Import ToyServer.
From stdpp Require Import relations.

#[local] Open Scope string_scope.
#[local] Open Scope Z_scope.
#[local] Open Scope go_scope.

(** ** Calls that touch no table *)
Section layers.
Context (R : relation DB) `{!PreOrder R}.

Lemma db_tracks_catch {A} (m : Go A) : db_tracks R m → db_tracks R (catch m).
Proof. intros H e w. specialize (H e w). unfold catch. by destruct (m e w). Qed.
Lemma db_tracks_attempt {A} (m : Go A) wr k :
  db_tracks R m → (∀ a, db_tracks R (k a)) → db_tracks R (attempt m wr k).
Proof.
  intros Hm Hk. apply db_tracks_bind; [done|by apply db_tracks_catch|]. intros [a|]; [apply Hk|tracked].
Qed.
Lemma db_tracks_write_error err wr : db_tracks R (write_error err wr).
Proof. unfold write_error. db_tracks. Qed.
Lemma db_tracks_respond_error err : db_tracks R (respond_error err).
Proof. unfold respond_error. db_tracks. Qed.
Lemma db_tracks_respond status v : db_tracks R (respond status v).
Proof. unfold respond. db_tracks. Qed.
Lemma db_tracks_respond_message msg : db_tracks R (respond_message msg).
Proof. apply db_tracks_respond. Qed.
Lemma db_tracks_answer {A} (service : Go (svc A)) k :
  db_tracks R service → (∀ a, db_tracks R (k a)) → db_tracks R (answer service k).
Proof.
  intros Hs Hk. apply db_tracks_bind; [done..|]. intros [a|err]; [apply Hk|apply db_tracks_respond_error].
Qed.
Lemma db_tracks_with_payload fields r k :
  (∀ p, db_tracks R (k p)) → db_tracks R (with_payload fields r k).
Proof. intros Hk. unfold with_payload. destruct (DecodeJSONHandler _ _); [apply Hk|apply db_tracks_respond_error]. Qed.
Lemma db_tracks_with_user ctx k : (∀ u, db_tracks R (k u)) → db_tracks R (with_user ctx k).
Proof. intros Hk. unfold with_user. destruct (ctx_User ctx); [apply Hk|apply db_tracks_respond_error]. Qed.
Lemma db_tracks_requireRole min (h : Handle) r ps ctx :
  db_tracks R (h r ps ctx) → db_tracks R (requireRole min h r ps ctx).
Proof.
  intros Hh. unfold requireRole. destruct (ctx_User ctx); [|apply db_tracks_respond_error].
  destruct (_ <? _); [apply db_tracks_respond_error|done].
Qed.
End layers.
#[export] Hint Resolve db_tracks_write_error db_tracks_respond_error db_tracks_respond
  db_tracks_respond_message : tracks.

Ltac http_step :=
  lazymatch goal with
  | |- db_tracks _ (attempt _ _ _) => apply db_tracks_attempt; [typeclasses eauto|..|intros ?]
  | |- db_tracks _ (catch _) => apply db_tracks_catch
  | |- db_tracks _ (answer _ _) => apply db_tracks_answer; [typeclasses eauto|..|intros ?]
  | |- db_tracks _ (with_payload _ _ _) => apply db_tracks_with_payload; [typeclasses eauto|intros ?]
  | |- db_tracks _ (with_user _ _) => apply db_tracks_with_user; [typeclasses eauto|intros ?]
  | |- db_tracks _ (requireRole _ _ _ _ _) => apply db_tracks_requireRole; [typeclasses eauto|]
  | |- _ => db_tracks_step
  end.
Ltac http := intros; repeat http_step.

Section refine.
Context `{TL : TextLib} `{UL : UuidLib} `{HL : HashLib} `{JL : JwtLib} `{OL : TotpLib} `{AL : AeadLib}
  `{WL : WebAuthnLib} `{CL : TimeLib} `{OI : OidcLib} `{JN : !JsonLib WL} `{LL : LimiterLib} `{RL : RouterLib}.

#[local] Instance reachable_preorder : PreOrder reachable.
Proof. unfold reachable. split; [intros d; reflexivity|intros a b c H1 H2; by trans b]. Qed.

(** A service is a request, its answer kept. *)
Lemma served_by {A} (r : request) (m : Go A) : run_request r = (m ;;; ret ()) → db_tracks reachable m.
Proof.
  intros E e w. apply rtc_once. apply (Serve _ _ r e w eq_refl). rewrite E. unfold final, bind.
  by destruct (m e w) as [[a|] w'].
Qed.

Ltac by_request :=
  lazymatch goal with
  | |- db_tracks reachable ?m => let r := request_of m in apply (served_by r); reflexivity
  end.

Lemma VerifyOIDCToken_in R `{!PreOrder R} a b c d : db_tracks R (VerifyOIDCToken a b c d).
Proof. unfold VerifyOIDCToken. db_tracks. Qed.
Hint Resolve VerifyOIDCToken_in : tracks.

Ltac handler := http; try by_request.

Context (svcs : Services).

Definition handle_ok (h : Handle) : Prop := ∀ r ps ctx, db_tracks reachable (h r ps ctx).

Lemma sso_handler_ok a b c d f r ctx : db_tracks reachable (sso_handler a b c d f r ctx).
Proof. unfold sso_handler. handler. Qed.
Lemma open_routes_ok : Forall (λ x, handle_ok (snd x)) (open_routes svcs).
Proof.
  repeat constructor; intros r ps ctx; cbn [snd GET POST];
    unfold HealthCheckHandler, StartEmailVerificationHandler, VerifyEmailCodeHandler, LoginHandler,
      RequestPasswordResetHandler, ResetPasswordHandler, MFAVerifyLoginHandler, MFASendLoginCodeHandler,
      SSOGoogleHandler, SSOAppleHandler, PasskeyLoginBeginHandler, PasskeyLoginFinishHandler;
    handler; apply sso_handler_ok.
Qed.
Lemma token_routes_ok : Forall (λ x, handle_ok (snd x)) token_routes.
Proof.
  repeat constructor; intros r ps ctx; cbn [snd POST];
    unfold CompleteEmailJoinHandler, RefreshTokenHandler; handler.
Qed.
Lemma session_routes_ok : Forall (λ x, handle_ok (snd x)) (session_routes svcs).
Proof.
  repeat constructor; intros r ps ctx; cbn [snd GET POST DELETE];
    unfold LogoutHandler, ChangePasswordHandler, MFAEnrollHandler, MFAVerifyEnrollmentHandler, MFADisableHandler,
      MFAEmailEnrollHandler, MFAEmailVerifyEnrollmentHandler, MFAEmailDisableHandler,
      PasskeyRegisterBeginHandler, PasskeyRegisterFinishHandler, PasskeyListHandler, PasskeyRenameHandler,
      PasskeyDeleteHandler; handler.
Qed.
Lemma admin_routes_ok : Forall (λ x, handle_ok (snd x)) (List.map gated admin_routes).
Proof.
  cbn [List.map gated admin_routes GET POST DELETE]. repeat constructor; intros r ps ctx; cbn [snd];
    apply db_tracks_requireRole; try typeclasses eauto;
    unfold AdminListUsersHandler, AdminGetUserHandler, AdminBanUserHandler, AdminUnbanUserHandler,
      AdminDisableUserHandler, AdminEnableUserHandler, AdminForceLogoutUserHandler,
      AdminResetUserPasswordHandler, AdminListAuditLogsHandler, AdminChangeUserRoleHandler,
      AdminDeleteUserHandler, admin_reason_handler; handler.
Qed.
Lemma registered_ok x : x ∈ registered svcs → handle_ok (snd x).
Proof.
  revert x. apply Forall_forall. unfold registered. rewrite !Forall_app.
  auto using open_routes_ok, token_routes_ok, session_routes_ok, admin_routes_ok.
Qed.

(** ** The stack *)

Lemma parseJWT_in R `{!PreOrder R} a b : db_tracks R (parseJWT a b).
Proof. unfold parseJWT. db_tracks. Qed.
Hint Resolve parseJWT_in : tracks.
Lemma VerifyAndParseJWT_in R `{!PreOrder R} a : db_tracks R (VerifyAndParseJWT a).
Proof. unfold VerifyAndParseJWT, IsValidSession. db_tracks. Qed.
Lemma VerifyAndParseTemporaryJWT_in R `{!PreOrder R} a b : db_tracks R (VerifyAndParseTemporaryJWT a b).
Proof. unfold VerifyAndParseTemporaryJWT, IsValidTemporarySession. db_tracks. Qed.
Lemma VerifyAndParseExpiredJWT_in R `{!PreOrder R} a : db_tracks R (VerifyAndParseExpiredJWT a).
Proof. unfold VerifyAndParseExpiredJWT. db_tracks. Qed.
Hint Resolve VerifyAndParseJWT_in VerifyAndParseTemporaryJWT_in VerifyAndParseExpiredJWT_in : tracks.

Context `{!LimiterLaws LL} `{!RouterLaws RL}.

Lemma checkRateLimit_in R `{!PreOrder R} k : db_tracks R (checkRateLimit k).
Proof.
  unfold checkRateLimit. apply db_tracks_bind; [done|..|http].
  intros e w. by rewrite limiter_db.
Qed.
Hint Resolve checkRateLimit_in : tracks.

Lemma router_in r ctx : db_tracks reachable (router svcs r ctx).
Proof.
  unfold router. destruct (router_serve _ _) as [h ps| | |resp] eqn:E; [|http..].
  destruct (router_sound _ _ _ _ _ E) as (pat & Hin & _). apply (registered_ok _ Hin).
Qed.
Hint Resolve router_in : tracks.

Lemma stack_in r ctx wr : db_tracks reachable (BuildHandlerStack svcs r ctx wr).
Proof.
  unfold BuildHandlerStack, RequestIDMiddleware, LoggerMiddleware, JSONMiddleware, ResponseHeadersMiddleware,
    RateLimitMiddleware, JWTMiddleware, UserRateLimitMiddleware, TimeoutMiddleware.
  http.
Qed.
Hint Resolve stack_in : tracks.

Lemma NewHandler_in r : db_tracks reachable (NewHandler svcs r).
Proof. unfold NewHandler. http. Qed.
End refine.

Section http_histories.
Context `{TL : TextLib} `{UL : UuidLib} `{HL : HashLib} `{JL : JwtLib} `{OL : TotpLib} `{AL : AeadLib}
  `{WL : WebAuthnLib} `{CL : TimeLib} `{OI : OidcLib} `{JN : !JsonLib WL} `{LL : LimiterLib} `{RL : RouterLib}.

(** The server handles one HTTP request. *)
Inductive http_serve (svcs : Services) (d d' : DB) : Prop :=
  | HttpServe r e w : w_db w = d → w_db (final (NewHandler svcs r) e w) = d' → http_serve svcs d d'.

(** The HTTP server refines the request machine: what any sequence of HTTP
    requests does to the store - any method, path, header and body, any fault,
    panics and expired deadlines included - is a history of requests, so that
    everything shown of histories holds of the server. *)
Lemma http_refines_requests (HLL : LimiterLaws LL) (HRL : RouterLaws RL) svcs d d' :
  rtc (http_serve svcs) d d' → reachable d d'.
Proof.
  induction 1 as [d|d1 d2 d3 [r e w <- <-] _ IH]; [apply rtc_refl|].
  trans (w_db (final (NewHandler svcs r) e w)); [exact (NewHandler_in svcs r e w)|exact IH].
Qed.
End http_histories.

(** ** An example: a sign-in through Google over HTTP *)

Import Toy ToyServer.

Definition google_request : HttpRequest := ToyServer.request MethodPost V1_SSOGoogle "" [("id_token", "sub")].
Definition google_db : DB := w_db (final (NewHandler svcs google_request) env (world empty_db)).

Lemma google_served : http_serve svcs empty_db google_db.
Proof. exact (HttpServe _ _ _ google_request env (world empty_db) eq_refl eq_refl). Qed.
Lemma google_session : length (sessions google_db) = 1%nat.
Proof. by vm_compute. Qed.

Lemma http_refines_requests_witness : length (sessions google_db) = 1%nat ∧ reachable empty_db google_db.
Proof.
  split; [exact google_session|].
  exact (http_refines_requests limiter_laws router_laws svcs _ _ (rtc_once _ _ google_served)).
Defined.
