(* ===== verification/ServerSpec.v ===== *)
(** * What the server guarantees around its handlers

    A request reaches a handler only through the gates of the stack - media
    type, rate limits, authentication - and otherwise changes nothing; the admin
    routes demand their role. *)

From S2P Require Import Prelude.
From S2P Require Import GoLib.
From S2P Require Import Utils.
From S2P Require Import Model.
From S2P Require Import Runtime.
From S2P Require Import Logic.
From S2P Require Import Queries.
From S2P Require Import Password.
From S2P Require Import Tokens.
From S2P Require Import Codes.
From S2P Require Import Sso.
From S2P Require Import Admin.
From S2P Require Import Passkey.
From S2P Require Import Json.
From S2P Require Import Http.
From S2P Require Import Routes.
From S2P Require Import Handlers.
From S2P Require Import Middleware.
From S2P Require Import Server.
From S2P Require Import Dispatch.
From S2P Require Import Requests.
From S2P Require Import Login.
From S2P Require Import Scenes.
From S2P Require Import Toy.
From S2P Require Import ToyServer.

#[local] Open Scope string_scope.
#[local] Open Scope Z_scope.
#[local] Open Scope go_scope.

(** Nothing but the clock and the limiter's own keys moves. *)
Definition same_service (w w' : World) : Prop :=
  w_db w' = w_db w ∧ w_mail w' = w_mail w
  ∧ ∀ key, HasPrefix key "rl" = false → w_redis w' !! key = w_redis w !! key.

#[export] Instance same_service_preorder : PreOrder same_service.
Proof.
  split; [by intros w|]. intros w1 w2 w3 (Hd & Hm & Hr) (Hd' & Hm' & Hr').
  split_and!; [congruence..|]. intros key Hk. by rewrite Hr', Hr.
Qed.

(** ** Calls that leave the service as it is *)
Definition still {A} (m : Go A) : Prop := ∀ e w, same_service w (m e w).2.

Lemma still_ret {A} (a : A) : still (ret a).
Proof. intros e w. reflexivity. Qed.
Lemma still_panic {A} : still (@panic A).
Proof. intros e w. reflexivity. Qed.
Lemma still_tick {A} (f : Env → World → A) : still (λ e w, (Some (f e w), tick w)).
Proof. intros e w. by split_and!. Qed.
Lemma still_get_cfg : still get_cfg.
Proof. intros e w. reflexivity. Qed.
Lemma still_redis_is_nil : still redis_is_nil.
Proof. intros e w. reflexivity. Qed.
Lemma still_Exists k : still (redis_Exists k).
Proof.
  intros e w. unfold redis_Exists, redis_call. destruct (e_redis_nil e); [reflexivity|].
  destruct (e_fault e (w_tick w)); rewrite ?set_w_redis_id; by split_and!.
Qed.
Lemma still_bind {A B} (m : Go A) (k : A → Go B) : still m → (∀ a, still (k a)) → still (bind m k).
Proof.
  intros Hm Hk e w. specialize (Hm e w). unfold bind. destruct (m e w) as [[a|] w']; [|done].
  etransitivity; [exact Hm|apply Hk].
Qed.
Lemma still_catch {A} (m : Go A) : still m → still (catch m).
Proof. intros H e w. specialize (H e w). unfold catch. by destruct (m e w). Qed.

Create HintDb still.
#[export] Hint Resolve still_ret still_panic still_get_cfg still_redis_is_nil still_Exists : still.
#[export] Hint Extern 1 (still now) => apply still_tick : still.
#[export] Hint Extern 1 (still new_uuid) => apply still_tick : still.
Ltac still_step :=
  match goal with
  | |- still (bind _ _) => apply still_bind; [..|intros ?]
  | |- still (match ?x with _ => _ end) => destruct x
  | |- still (let '_ := ?x in _) => destruct x
  | |- still _ => solve [eauto with still]
  end.
Ltac still := intros; repeat still_step.

(** What a still call answers, somewhere on the way. *)
Lemma wp_still {A} e (Q : option A → World → Prop) w (m : Go A) :
  still m → (∀ o w1, same_service w w1 → o = result m e w → Q o w1) → wp m e Q w.
Proof. intros Hm HQ. apply HQ; [apply Hm|done]. Qed.

Section server_spec.
Context `{TL : TextLib} `{UL : UuidLib} `{HL : HashLib} `{JL : JwtLib} `{OL : TotpLib} `{AL : AeadLib}
  `{WL : WebAuthnLib} `{CL : TimeLib} `{OI : OidcLib} `{JN : !JsonLib WL} `{LL : LimiterLib} `{RL : RouterLib}.

Lemma still_parseJWT a b : still (parseJWT a b).
Proof. unfold parseJWT. still. Qed.
Hint Resolve still_parseJWT : still.
Lemma still_VerifyAndParseJWT a : still (VerifyAndParseJWT a).
Proof. unfold VerifyAndParseJWT, IsValidSession. still. Qed.
Lemma still_VerifyAndParseTemporaryJWT a b : still (VerifyAndParseTemporaryJWT a b).
Proof. unfold VerifyAndParseTemporaryJWT, IsValidTemporarySession. still. Qed.
Lemma still_VerifyAndParseExpiredJWT a : still (VerifyAndParseExpiredJWT a).
Proof. unfold VerifyAndParseExpiredJWT. still. Qed.

Section walk.
Context (HLL : LimiterLaws LL).

Lemma still_checkRateLimit k : still (checkRateLimit k).
Proof.
  unfold checkRateLimit. apply still_bind; [|still]. intros e w.
  split_and!; [by rewrite limiter_db|by rewrite limiter_mail|intros; by apply limiter_redis].
Qed.

Lemma checkRateLimit_passes k e w :
  result (checkRateLimit k) e w = Some None → result (limiter_Get k) e w = Some (Ok false).
Proof.
  unfold result, checkRateLimit, bind. destruct (limiter_Get k e w) as [[[[]|err]|] w1]; done.
Qed.

(** ** Refusals *)

(** The statuses of the layers' own answers. *)
Definition refusal_statuses : list Z := [204; 401; 415; 429; 500].
Definition refusal (s : served) : Prop :=
  match s with
  | Returned wr => rs_Status (reply wr) ∈ refusal_statuses
  | Panicked wr => wr_Sent wr = None
  end.

Lemma reply_error cfg err wr :
  wr_Sent wr = None → rs_Status (reply (write_response (JSONError cfg err) wr)) = Status (Errors err).
Proof. destruct wr as [h s b st]. cbn. by intros ->. Qed.

(** The layer answers with an error, and nothing else happens. *)
Lemma wp_write_error e (Q : option served → World → Prop) w0 w err wr :
  same_service w0 w → wr_Sent wr = None → Status (Errors err) ∈ refusal_statuses →
  (∀ s w1, same_service w0 w1 → refusal s → Q (Some s) w1) → wp (write_error err wr) e Q w.
Proof.
  intros Hw Hs Hc HQ. apply HQ; [done|]. cbn [refusal]. by rewrite reply_error.
Qed.

(** A still step of a layer: it panics, or the layer goes on with its answer. *)
Lemma wp_attempt {A} e (Q : option served → World → Prop) w0 w (m : Go A) wr k :
  same_service w0 w → still m → wr_Sent wr = None →
  (∀ s w1, same_service w0 w1 → refusal s → Q (Some s) w1) →
  (∀ a w1, same_service w0 w1 → result m e w = Some a → wp (k a) e Q w1) →
  wp (attempt m wr k) e Q w.
Proof.
  intros Hw Hm Hs Href Hk. unfold attempt. apply wp_bind. apply wp_still; [by apply still_catch|].
  intros o w1 Hw1 ->. assert (result (catch m) e w = Some (result m e w)) as ->.
  { unfold result, catch. by destruct (m e w). }
  assert (same_service w0 w1) as Hw01 by (by trans w). destruct (result m e w) as [a|] eqn:E; [by apply Hk|].
  by apply Href.
Qed.

(** ** Admission *)

Definition bearer (r : HttpRequest) : string := Header_Get (rq_Header r) "Authorization".

(** The call answers [a] for the request, in the service's present state. *)
Definition answers {A} (m : Go A) (e : Env) (w : World) (a : A) : Prop :=
  ∃ w1, same_service w w1 ∧ result m e w1 = Some a.

(** The context with which the authentication layer lets a request through. *)
Inductive admitted (r : HttpRequest) (e : Env) (w : World) (ctx : Ctx) : Ctx → Prop :=
  | AdmitOpen : rq_Path r ∈ OpenRoutes → admitted r e w ctx ctx
  | AdmitRefresh s u :
      rq_Path r = V1_RefreshToken → answers (VerifyAndParseExpiredJWT (bearer r)) e w (Ok (s, u)) →
      admitted r e w ctx (set_ctx_ExpiredJWT s u ctx)
  | AdmitJoiner email id :
      rq_Path r ∈ TemporaryJWTRoutes →
      answers (VerifyAndParseTemporaryJWT (bearer r) RoleJoiner) e w (Ok (email, id)) →
      admitted r e w ctx (set_ctx_TempJWT email id ctx)
  | AdmitUser user :
      rq_Path r ∉ OpenRoutes → rq_Path r ∉ TemporaryJWTRoutes → rq_Path r ≠ V1_RefreshToken →
      answers (VerifyAndParseJWT (bearer r)) e w (Ok user) →
      admitted r e w ctx (set_ctx_User user ctx).

(** What stands before the handlers has let the request through. *)
Record gates_passed (r : HttpRequest) (e : Env) (w : World) (ctx : Ctx) : Prop := {
  gate_media : needs_json (rq_Method r) = true →
    HasPrefix (Header_Get (rq_Header r) "Content-Type") "application/json" = true;
  gate_method : rq_Method r ≠ MethodOptions;
  gate_address : answers (limiter_Get ("ip:" ++ clientIP r)) e w (Ok false);
  gate_auth : admitted r e w (set_ctx_client (rq_RemoteAddr r) (UserAgent r) no_ctx) ctx;
  gate_user : ∀ user, ctx_User ctx = Some user → uc_ID user ≠ "" →
    answers (limiter_Get ("user:" ++ uc_ID user)) e w (Ok false)
}.

Lemma isAlternateRoute_true p l : isAlternateRoute p l = true ↔ p ∈ l.
Proof.
  induction l as [|a l IH]; cbn [isAlternateRoute]; [set_solver|].
  destruct (String.eqb_spec p a) as [->|]; set_solver.
Qed.
Lemma isAlternateRoute_false p l : isAlternateRoute p l = false ↔ p ∉ l.
Proof. rewrite <- isAlternateRoute_true. by destruct (isAlternateRoute p l). Qed.

(** Through one layer after the other. *)
Section layers.
Context (e : Env) (r : HttpRequest) (w0 : World) (Q : option served → World → Prop).
Context (Href : ∀ s w1, same_service w0 w1 → refusal s → Q (Some s) w1).

Lemma wp_RateLimit (next : Layer) ctx wr w :
  same_service w0 w → wr_Sent wr = None →
  (∀ w1, same_service w0 w1 → answers (limiter_Get ("ip:" ++ clientIP r)) e w0 (Ok false) →
     wp (next r ctx wr) e Q w1) →
  wp (RateLimitMiddleware next r ctx wr) e Q w.
Proof.
  intros Hw Hs Hn. apply (wp_attempt _ _ w0); auto using still_checkRateLimit.
  intros [err|] w1 Hw1 Hr.
  - apply (wp_write_error _ _ w0); auto. revert Hr. unfold result, checkRateLimit, bind.
    destruct (limiter_Get _ e w) as [[[[]|]|] ?]; intros [= <-]; simpl; set_solver.
  - apply Hn; [done|]. exists w. split; [done|]. by apply checkRateLimit_passes.
Qed.

Lemma wp_UserRateLimit (next : Layer) ctx wr w :
  same_service w0 w → wr_Sent wr = None →
  (∀ w1, same_service w0 w1 →
     (∀ user, ctx_User ctx = Some user → uc_ID user ≠ "" →
        answers (limiter_Get ("user:" ++ uc_ID user)) e w0 (Ok false)) → wp (next r ctx wr) e Q w1) →
  wp (UserRateLimitMiddleware next r ctx wr) e Q w.
Proof.
  intros Hw Hs Hn. unfold UserRateLimitMiddleware. destruct (ctx_User ctx) as [user|]; [|by apply Hn].
  destruct (String.eqb_spec (uc_ID user) "") as [E|E].
  - apply Hn; [done|]. intros u [= <-]. done.
  - apply (wp_attempt _ _ w0); auto using still_checkRateLimit. intros [err|] w1 Hw1 Hr.
    + apply (wp_write_error _ _ w0); auto. revert Hr. unfold result, checkRateLimit, bind.
      destruct (limiter_Get _ e w) as [[[[]|]|] ?]; intros [= <-]; simpl; set_solver.
    + apply Hn; [done|]. intros u [= <-] _. exists w. split; [done|]. by apply checkRateLimit_passes.
Qed.

Lemma wp_JWT (next : Layer) ctx wr w :
  same_service w0 w → wr_Sent wr = None →
  (∀ ctx' w1, same_service w0 w1 → admitted r e w0 ctx ctx' → wp (next r ctx' wr) e Q w1) →
  wp (JWTMiddleware next r ctx wr) e Q w.
Proof.
  intros Hw Hs Hn. unfold JWTMiddleware. destruct (isAlternateRoute _ OpenRoutes) eqn:Eo.
  { apply Hn; [done|]. apply AdmitOpen. by apply isAlternateRoute_true. }
  destruct (String.eqb_spec (rq_Path r) V1_RefreshToken) as [Er|Er];
    [|destruct (isAlternateRoute _ TemporaryJWTRoutes) eqn:Et];
    (apply (wp_attempt _ _ w0); auto using still_VerifyAndParseExpiredJWT,
       still_VerifyAndParseTemporaryJWT, still_VerifyAndParseJWT);
    intros [x|err] w1 Hw1 Hx; try (apply (wp_write_error _ _ w0); auto; simpl; set_solver).
  - destruct x as [s u]. apply Hn; [done|]. apply AdmitRefresh; [done|]. by exists w.
  - destruct x as [em id]. apply Hn; [done|].
    apply AdmitJoiner; [by apply isAlternateRoute_true|by exists w].
  - apply Hn; [done|]. apply AdmitUser; [by apply isAlternateRoute_false..|done|by exists w].
Qed.
End layers.

(** ** The whole stack *)
Context (svcs : Services).

Lemma cors_unsent cfg o wr : wr_Sent (cors_headers cfg o wr) = wr_Sent wr.
Proof. unfold cors_headers. by repeat case_match. Qed.
Lemma secured_unsent cfg o k v wr :
  wr_Sent wr = None → wr_Sent (security_headers (cors_headers cfg o (writer_Set k v wr))) = None.
Proof. intros <-. unfold security_headers. cbn [List.fold_left writer_Set wr_Sent]. by rewrite cors_unsent. Qed.
Lemma reply_header code wr : wr_Sent wr = None → rs_Status (reply (WriteHeader code wr)) = code.
Proof. destruct wr as [h s b st]. cbn. by intros ->. Qed.

(** What the logger makes of the layers below it. *)
Definition recovered (s : served) : Go served :=
  match s with
  | Returned wr => ret (Returned wr)
  | Panicked wr => write_error InternalServerError wr
  end.

Lemma stack_walk r e w (Q : option served → World → Prop) :
  (∀ wr w1, same_service w w1 → rs_Status (reply wr) ∈ refusal_statuses → Q (Some (Returned wr)) w1) →
  (∀ ctx wr w1, same_service w w1 → wr_Sent wr = None → gates_passed r e w ctx →
     wp (TimeoutMiddleware (router svcs) r ctx wr) e
       (λ o w2, match o with Some s => wp (recovered s) e Q w2 | None => Q None w2 end) w1) →
  wp (BuildHandlerStack svcs r no_ctx new_writer) e Q w.
Proof.
  intros Href Hpass.
  assert (∀ s w1, same_service w w1 → refusal s → wp (recovered s) e Q w1) as Hrec.
  { intros [wr|wr] w1 Hw Hs; cbn [recovered]; [by apply Href|]. apply Href; [done|].
    cbn [refusal] in Hs. rewrite reply_error by done. simpl. set_solver. }
  assert (∀ wr w1, same_service w w1 → wr_Sent wr = None →
    wp (LoggerMiddleware (JSONMiddleware (ResponseHeadersMiddleware (RateLimitMiddleware
         (JWTMiddleware (UserRateLimitMiddleware (TimeoutMiddleware (router svcs)))))))
         r no_ctx wr) e Q w1) as Hlog.
  { intros wr w1 Hw Hs. unfold LoggerMiddleware. apply wp_bind. unfold JSONMiddleware.
    destruct (needs_json (rq_Method r) && _) eqn:Ej.
    { apply (wp_write_error _ _ w); [done..| |]; [simpl; set_solver|]. intros s w2 Hw2 Hr. by apply Hrec. }
    unfold ResponseHeadersMiddleware. apply wp_bind, wp_get_cfg. cbv beta iota.
    destruct (String.eqb_spec (rq_Method r) MethodOptions) as [Eo|Eo].
    { apply wp_ret. apply (Hrec (Returned _)); [done|]. cbn [refusal].
      rewrite reply_header by (by rewrite cors_unsent). unfold StatusNoContent. set_solver. }
    apply (wp_RateLimit _ _ w); [auto using secured_unsent..|].
    intros w2 Hw2 Hip. apply (wp_JWT _ _ w); [auto using secured_unsent..|].
    intros ctx w3 Hw3 Hadm.
    apply (wp_UserRateLimit _ _ w); [auto using secured_unsent..|].
    intros w4 Hw4 Huser. apply Hpass; [done|by apply secured_unsent|].
    split; [|done..]. intros Hn. rewrite Hn in Ej. by apply negb_false_iff in Ej. }
  unfold BuildHandlerStack, RequestIDMiddleware. destruct (String.eqb _ _).
  - apply wp_bind, wp_new_uuid. cbv beta iota. apply Hlog; [by split_and!|done].
  - by apply Hlog.
Qed.
(** The request was answered by the stack, and nothing else happened. *)
Definition refused (codes : list Z) (e : Env) (w : World) (m : Go Response) : Prop :=
  same_service w (final m e w) ∧ ∃ resp, result m e w = Some resp ∧ rs_Status resp ∈ codes.

(** C2: a request changes nothing, and is refused, unless it passes every gate:
    a JSON media type where one is needed, the limit of its address, the
    authentication its path demands (none only on the open routes), and the
    limit of its user. *)
Theorem effects_are_gated r e w :
  (∃ ctx, gates_passed r e w ctx) ∨ refused refusal_statuses e w (NewHandler svcs r).
Proof.
  cut (wp (NewHandler svcs r) e (λ o w', (∃ ctx, gates_passed r e w ctx)
         ∨ same_service w w' ∧ ∃ resp, o = Some resp ∧ rs_Status resp ∈ refusal_statuses) w); [done|].
  unfold NewHandler. apply wp_bind, stack_walk; [intros wr w1 Hw1 Hc; apply wp_ret; right; by eauto|].
  intros ctx wr w1 Hw1 Hs Hg. apply wp_any. intros [s|] w2; [|left; by eauto].
  apply wp_any. intros [s'|] w3; [|left; by eauto]. apply wp_any. left. by eauto.
Qed.

(** ** The admin boundary *)
Context (HRL : RouterLaws RL).

Lemma wp_Timeout r ctx wr e w (Q : option served → World → Prop) :
  (∀ w1, w1 = tick w →
     wp (router svcs r ctx) e (λ o w2, ∀ w3, w3 = tick w2 →
       Q (Some (Returned (writer_Write timeout_body (WriteHeader StatusTimeout wr)))) w3
       ∧ match o with
         | Some resp => Q (Some (Returned (write_response resp wr))) w3
         | None => Q (Some (Panicked wr)) w3
         end) w1) →
  wp (TimeoutMiddleware (router svcs) r ctx wr) e Q w.
Proof.
  intros H. unfold TimeoutMiddleware. apply wp_bind, wp_get_cfg. apply wp_bind, wp_now. apply wp_bind.
  specialize (H _ eq_refl). unfold wp, catch in *. destruct (router svcs r ctx e (tick w)) as [o w2].
  cbn [fst snd] in *. destruct (H _ eq_refl) as [H1 H2]. apply wp_bind, wp_now. cbv beta iota.
  destruct (_ <=? _); [done|]. by destruct o.
Qed.

(** An admin path is neither open nor one of the token routes. *)
Definition admin_patterns : list string := List.map (λ x, snd (fst (snd x))) (admin_routes (HL:=HL)).
Definition special_paths : list string := OpenRoutes ++ TemporaryJWTRoutes ++ [V1_RefreshToken].

Lemma admin_apart :
  List.forallb (λ p, List.forallb (λ q, negb (patterns_overlap p q)) special_paths) admin_patterns = true.
Proof. vm_compute. reflexivity. Qed.
Lemma special_literal : List.forallb (λ p, List.forallb (λ s, negb (is_param s)) (Split p "/")) special_paths = true.
Proof. vm_compute. reflexivity. Qed.

Lemma admin_not_special min m pat h path ps :
  (min, ((m, pat), h)) ∈ admin_routes (HL:=HL) → path_match pat path = Some ps → path ∉ special_paths.
Proof.
  intros Hin Hm Hsp. apply list_elem_of_In in Hsp.
  assert (In pat admin_patterns) as Hpat.
  { apply list_elem_of_In in Hin. by apply (in_map (λ x, snd (fst (snd x)))) in Hin. }
  pose proof (proj1 (forallb_forall _ _) (proj1 (forallb_forall _ _) admin_apart _ Hpat) _ Hsp) as H.
  pose proof (match_literal _ (proj1 (forallb_forall _ _) special_literal _ Hsp)) as Hl.
  cbv beta in H. by rewrite (path_match_overlap _ _ _ _ _ Hm Hl) in H.
Qed.

(** The statuses a request without the authority gets; 503 when the answer came
    too late. *)
Definition denial_statuses : list Z := [403; 503] ++ refusal_statuses.

Lemma reply_response resp wr : wr_Sent wr = None → rs_Status (reply (write_response resp wr)) = rs_Status resp.
Proof. destruct wr as [hd s b st], resp. cbn. by intros ->. Qed.
Lemma reply_timeout wr :
  wr_Sent wr = None → rs_Status (reply (writer_Write timeout_body (WriteHeader StatusTimeout wr))) = 503.
Proof. destruct wr as [hd s b st]. cbn. by intros ->. Qed.

(** C3: an admin route runs only for a caller whose access token is accepted and
    whose role ranks at least as high as the route demands; any other request to
    it is refused and changes nothing. *)
Theorem admin_boundary min pat h r ps e w :
  (min, ((rq_Method r, pat), h)) ∈ admin_routes (HL:=HL) →
  path_match pat (rq_Path r) = Some ps → (∀ p, p ∈ ps → p.2 ≠ "") →
  (∃ user, answers (VerifyAndParseJWT (bearer r)) e w (Ok user)
     ∧ roleRank (UserRole_string min) ≤ roleRank (uc_Role user))
  ∨ refused denial_statuses e w (NewHandler svcs r).
Proof.
  intros Hin Hm Hne. set (G := ∃ user, _ ∧ _).
  cut (wp (NewHandler svcs r) e (λ o w', G ∨ same_service w w' ∧
         ∃ resp, o = Some resp ∧ rs_Status resp ∈ denial_statuses) w); [done|].
  assert (∀ c, c ∈ refusal_statuses → c ∈ denial_statuses) as Hsub by (intros c Hc; apply elem_of_app; by right).
  pose proof (admin_not_special _ _ _ _ _ _ Hin Hm) as Hsp. unfold special_paths in Hsp.
  apply not_elem_of_app in Hsp as [Ho [Ht Hf]%not_elem_of_app].
  unfold NewHandler. apply wp_bind, stack_walk.
  { intros wr w1 Hw1 Hc. apply wp_ret. right. eauto. }
  intros ctx wr w1 Hw1 Hs Hg. destruct (gate_auth _ _ _ _ Hg) as [?|?? E|????|user _ _ _ Hacc]; [done|exfalso; apply Hf; rewrite E; left|done|].
  apply wp_Timeout. intros w2 ->. rewrite (router_dispatch svcs r pat (requireRole min h) ps); [|..|done].
  2:{ unfold registered. rewrite !elem_of_app. do 3 right.
      apply list_elem_of_In, (in_map gated) in Hin. by apply list_elem_of_In. }
  2:{ done. }
  unfold requireRole. cbn [ctx_User set_ctx_User].
  destruct (Z.ltb_spec (roleRank (uc_Role user)) (roleRank (UserRole_string min))) as [Hr|Hr].
  - apply wp_bind, wp_get_cfg, wp_ret. intros w3 ->.
    assert (same_service w (tick (tick w1))) as Hw3 by (trans w1; [done|by split_and!]).
    split; cbv beta iota; apply wp_ret, wp_ret; right; (split; [exact Hw3|]); eexists; (split; [done|]).
    + rewrite reply_timeout by done. unfold denial_statuses. set_solver.
    + rewrite reply_response by done. unfold denial_statuses. simpl. set_solver.
  - apply wp_any. intros o w3 w4 _.
    assert (∀ s, wp (recovered s) e (λ o w', match o with
        | Some b => wp (match b with Returned wr => ret (reply wr) | Panicked _ => panic end) e
            (λ o w', G ∨ same_service w w' ∧ ∃ resp, o = Some resp ∧ rs_Status resp ∈ denial_statuses) w'
        | None => G ∨ same_service w w' ∧ ∃ resp, (None : option Response) = Some resp ∧ rs_Status resp ∈ denial_statuses
        end) w4) as HG.
    { intros s. apply wp_any. intros [s'|] w5; [apply wp_any; intros|]; left; exists user; by split. }
    split; [apply HG|]. destruct o; apply HG.
Qed.
End walk.
End server_spec.

(** ** Examples: Ann, an ordinary user *)

Import Toy ToyServer.

Definition users_request : HttpRequest := ToyServer.request MethodGet V1_AdminUsers (Login.lr_AccessToken ann_out) [].
Definition stranger_request : HttpRequest := ToyServer.request MethodPost V1_Logout "garbage" [].

Lemma users_forbidden : rs_Status <$> result (NewHandler svcs users_request) env w_in = Some 403.
Proof. by vm_compute. Qed.
Lemma stranger_unauthorized : rs_Status <$> result (NewHandler svcs stranger_request) env w_in = Some 401.
Proof. by vm_compute. Qed.

Lemma users_route : (UserRoleModerator, ((rq_Method users_request, V1_AdminUsers), AdminListUsersHandler)) ∈ admin_routes.
Proof. left. Qed.
Lemma users_params : path_match V1_AdminUsers (rq_Path users_request) = Some [].
Proof. by vm_compute. Qed.

Lemma admin_boundary_witness :
  rs_Status <$> result (NewHandler svcs users_request) env w_in = Some 403
  ∧ ((∃ user, answers (VerifyAndParseJWT (bearer users_request)) env w_in (Ok user)
        ∧ roleRank (UserRole_string UserRoleModerator) ≤ roleRank (uc_Role user))
     ∨ refused denial_statuses env w_in (NewHandler svcs users_request)).
Proof.
  split; [exact users_forbidden|].
  refine (admin_boundary limiter_laws svcs router_laws UserRoleModerator V1_AdminUsers AdminListUsersHandler
    users_request [] env w_in users_route users_params _).
  intros p Hp. exfalso. revert Hp. apply not_elem_of_nil.
Defined.

Lemma effects_are_gated_witness :
  rs_Status <$> result (NewHandler svcs stranger_request) env w_in = Some 401
  ∧ ((∃ ctx, gates_passed stranger_request env w_in ctx)
     ∨ refused refusal_statuses env w_in (NewHandler svcs stranger_request)).
Proof.
  split; [exact stranger_unauthorized|].
  exact (effects_are_gated limiter_laws svcs stranger_request env w_in).
Defined.
