(* ===== verification/JsonSpec.v ===== *)
(** * Request bodies and response bodies

    The scanner ends on every input; any spelling of an object of strings, those
    of [json.Marshal] among them, is read as its members; a body that ends inside
    its object, or goes past the limit, is answered with an error. *)

From S2P Require Import Prelude.
From S2P Require Import GoLib.
From S2P Require Import Encoding.
From S2P Require Import Utils.
From S2P Require Import Json.

#[local] Open Scope string_scope.
#[local] Open Scope Z_scope.

(** ** Termination *)

(** The scan did not run out of steps, and leaves at most [n] bytes. *)
Definition within {A} (n : nat) (r : scanned A) : Prop :=
  match r with SDone _ rest => (String.length rest ≤ n)%nat | SFuel => False | _ => True end.

Lemma within_bind {A B} n m (r : scanned A) (k : A → string → scanned B) :
  within n r → (∀ a rest, (String.length rest ≤ n)%nat → within m (k a rest)) → within m (scan_bind r k).
Proof. destruct r; simpl; auto. Qed.
Lemma within_map {A B} n (f : A → B) r : within n r → within n (scan_map f r).
Proof. by destruct r. Qed.
Lemma within_le {A} n m (r : scanned A) : within n r → (n ≤ m)%nat → within m r.
Proof. destruct r; simpl; lia || done. Qed.

Lemma skip_ws_length s : (String.length (skip_ws s) ≤ String.length s)%nat.
Proof. induction s as [|c s IH]; simpl; [done|]. destruct (is_json_space c); simpl; lia. Qed.

Lemma scan_string_within hex s : within (String.length s) (scan_string hex s).
Proof.
  assert (∀ n hex s, (String.length s ≤ n)%nat → within n (scan_string hex s)) as H; [|by apply H].
  clear. induction n as [|n IH]; intros hex [|c r] Hn; simpl in Hn |- *; try done; [lia|].
  apply le_S_n in Hn. destruct hex as [|hex].
  - destruct (Ascii.eqb c dquote); [simpl; lia|]. destruct (Ascii.eqb c backslash).
    + destruct r as [|e r]; [done|]. simpl in Hn.
      destruct (is_escape e); [|destruct (Ascii.eqb e "u"); [|done]];
        (apply within_map, (within_le n); [apply IH; lia|lia]).
    + destruct (_ <? _)%N; [done|]. apply within_map, (within_le n); [by apply IH|lia].
  - destruct (is_hex c); [|done]. apply within_map, (within_le n); [by apply IH|lia].
Qed.

Lemma digit_prefix_length s : (String.length (digit_prefix s).2 ≤ String.length s)%nat.
Proof.
  induction s as [|c s IH]; simpl; [done|]. destruct (is_digit c); [|done].
  destruct (digit_prefix s). simpl in *. lia.
Qed.
Lemma scan_digits_within s : within (pred (String.length s)) (scan_digits s).
Proof.
  destruct s as [|c s]; [done|]. unfold scan_digits. destruct (is_digit c) eqn:Ec; [|done].
  cbn [digit_prefix]. rewrite Ec. pose proof (digit_prefix_length s) as H. destruct (digit_prefix s). simpl in *. lia.
Qed.
Lemma scan_integer_within s : within (pred (String.length s)) (scan_integer s).
Proof.
  destruct s as [|c s]; [done|]. unfold scan_integer. destruct (Ascii.eqb c "0"); [simpl; lia|apply scan_digits_within].
Qed.
Lemma scan_fraction_within s : within (String.length s) (scan_fraction s).
Proof.
  destruct s as [|c s]; [simpl; lia|]. unfold scan_fraction. destruct (Ascii.eqb c "."); [|simpl; lia].
  eapply within_le; [apply within_map, scan_digits_within|simpl; lia].
Qed.
Lemma scan_exponent_within s : within (String.length s) (scan_exponent s).
Proof.
  destruct s as [|c s]; [simpl; lia|]. unfold scan_exponent. destruct (_ || _); [|simpl; lia].
  destruct s as [|sg s]; [done|]. destruct (_ || _);
    (eapply within_le; [apply within_map, scan_digits_within|simpl; lia]).
Qed.
Lemma scan_number_within s : within (pred (String.length s)) (scan_number s).
Proof.
  unfold scan_number. set (p := match s with EmptyString => _ | _ => _ end).
  assert (String.length (snd p) ≤ String.length s)%nat as Hp.
  { subst p. destruct s as [|c s]; [done|]. destruct (Ascii.eqb c "-"); simpl; lia. }
  destruct p as [sign r]. simpl in Hp. eapply within_bind; [apply scan_integer_within|]. intros i r1 H1.
  eapply within_bind; [apply scan_fraction_within|]. intros f r2 H2.
  eapply within_le; [apply within_map, scan_exponent_within|lia].
Qed.
Lemma scan_literal_within {A} p (v : A) s : within (String.length s) (scan_literal p v s).
Proof.
  revert s. induction p as [|a p IH]; intros [|c s]; simpl; try done.
  destruct (Ascii.eqb a c); [|done]. eapply within_le; [apply IH|lia].
Qed.

(** A match on the next byte that is not white space. *)
Lemma within_next {A} n s (k : ascii → string → scanned A) :
  (∀ c r, (S (String.length r) ≤ String.length s)%nat → within n (k c r)) →
  within n (match skip_ws s with EmptyString => SMore | String c r => k c r end).
Proof.
  intros H. pose proof (skip_ws_length s) as Hl. destruct (skip_ws s) as [|c r]; [done|]. by apply H.
Qed.

Lemma scan_within n :
  (∀ s, (2 * String.length s + 1 ≤ n)%nat → within (pred (String.length s)) (scan_value n s))
  ∧ (∀ s, (2 * String.length s + 1 ≤ n)%nat → within (pred (String.length s)) (scan_members n s))
  ∧ (∀ s, (2 * String.length s + 2 ≤ n)%nat → within (pred (String.length s)) (scan_elements n s)).
Proof.
  induction n as [|n (IHv & IHm & IHe)]; [split_and!; intros s H; lia|].
  split_and!; intros s Hn.
  - cbn [scan_value]. apply within_next. intros c r Hr.
    destruct (Ascii.eqb c "{").
    { apply within_next. intros c' r' Hr'. destruct (Ascii.eqb c' "}"); [simpl; lia|].
      apply within_map. eapply within_le; [apply IHm|]; lia. }
    destruct (Ascii.eqb c "[").
    { apply within_next. intros c' r' Hr'. destruct (Ascii.eqb c' "]"); [simpl; lia|].
      apply within_map. eapply within_le; [apply IHe|]; lia. }
    destruct (Ascii.eqb c dquote).
    { eapply within_le; [apply within_map, scan_string_within|lia]. }
    destruct (Ascii.eqb c "-" || is_digit c) eqn:Ed.
    { eapply within_le; [apply within_map, scan_number_within|simpl; lia]. }
    destruct (Ascii.eqb c "t"); [|destruct (Ascii.eqb c "f"); [|destruct (Ascii.eqb c "n"); [|done]]];
      (eapply within_le; [apply scan_literal_within|lia]).
  - cbn [scan_members]. apply within_next. intros c r Hr. destruct (negb _); [done|].
    eapply within_bind; [apply scan_string_within|]. intros k r1 H1. cbv beta.
    apply within_next. intros c2 r2 Hr2. destruct (negb _); [done|].
    eapply within_bind; [apply IHv; lia|]. intros v r3 Hr3. cbv beta.
    apply within_next. intros c4 r4 Hr4. destruct (Ascii.eqb c4 ",").
    + apply within_map. eapply within_le; [apply IHm|]; lia.
    + destruct (Ascii.eqb c4 "}"); simpl; lia || done.
  - cbn [scan_elements]. eapply within_bind; [apply IHv; lia|]. intros v r1 Hr1. cbv beta.
    apply within_next. intros c2 r2 Hr2. destruct (Ascii.eqb c2 ",").
    + apply within_map. eapply within_le; [apply IHe|]; lia.
    + destruct (Ascii.eqb c2 "]"); simpl; lia || done.
Qed.

Lemma within_fuel {A} n (r : scanned A) : within n r → r ≠ SFuel.
Proof. by destruct r. Qed.

Lemma scan_bind_ext {A B} n (r : scanned A) (k k' : A → string → scanned B) :
  within n r → (∀ a rest, (String.length rest ≤ n)%nat → k a rest = k' a rest) → scan_bind r k = scan_bind r k'.
Proof. destruct r; simpl; auto. Qed.
Lemma next_ext {A} s (k k' : ascii → string → scanned A) :
  (∀ c r, (S (String.length r) ≤ String.length s)%nat → k c r = k' c r) →
  match skip_ws s with EmptyString => SMore | String c r => k c r end
  = match skip_ws s with EmptyString => SMore | String c r => k' c r end.
Proof.
  intros H. pose proof (skip_ws_length s) as Hl. destruct (skip_ws s) as [|c r]; [done|]. by apply H.
Qed.

(** Once there are enough steps, their number does not matter. *)
Lemma scan_steps n :
  ∀ m,
  (∀ s, (2 * String.length s + 1 ≤ n)%nat → (2 * String.length s + 1 ≤ m)%nat → scan_value n s = scan_value m s)
  ∧ (∀ s, (2 * String.length s + 1 ≤ n)%nat → (2 * String.length s + 1 ≤ m)%nat → scan_members n s = scan_members m s)
  ∧ (∀ s, (2 * String.length s + 2 ≤ n)%nat → (2 * String.length s + 2 ≤ m)%nat → scan_elements n s = scan_elements m s).
Proof.
  induction n as [|n IH]; [intros m; split_and!; intros s H; lia|].
  intros [|m]; [split_and!; intros s _ H; lia|]. destruct (IH m) as (IHv & IHm & IHe).
  pose proof (scan_within n) as (Wv & _ & _).
  split_and!; intros s Hn Hm.
  - cbn [scan_value]. apply next_ext. intros c r Hr.
    destruct (Ascii.eqb c "{").
    { apply next_ext. intros c' r' Hr'. destruct (Ascii.eqb c' "}"); [done|]. by rewrite IHm by lia. }
    destruct (Ascii.eqb c "["); [|done].
    apply next_ext. intros c' r' Hr'. destruct (Ascii.eqb c' "]"); [done|]. by rewrite IHe by lia.
  - cbn [scan_members]. apply next_ext. intros c r Hr. destruct (negb _); [done|].
    eapply scan_bind_ext; [apply scan_string_within|]. intros k r1 H1. cbv beta.
    apply next_ext. intros c2 r2 Hr2. destruct (negb _); [done|]. rewrite <- IHv by lia.
    eapply scan_bind_ext; [apply Wv; lia|]. intros v r3 Hr3. cbv beta.
    apply next_ext. intros c4 r4 Hr4. destruct (Ascii.eqb c4 ","); [|done]. by rewrite IHm by lia.
  - cbn [scan_elements]. rewrite <- IHv by lia.
    eapply scan_bind_ext; [apply Wv; lia|]. intros v r1 Hr1. cbv beta.
    apply next_ext. intros c2 r2 Hr2. destruct (Ascii.eqb c2 ","); [|done]. by rewrite IHe by lia.
Qed.

Lemma scan_ends s :
  scan_value (scan_fuel s) s ≠ SFuel
  ∧ (∀ n, (scan_fuel s ≤ n)%nat → scan_value n s = scan_value (scan_fuel s) s)
  ∧ (∀ v rest, scan_value (scan_fuel s) s = SDone v rest → (String.length rest < String.length s)%nat).
Proof.
  assert (2 * String.length s + 1 ≤ scan_fuel s)%nat as Hf by (unfold scan_fuel; lia).
  pose proof (proj1 (scan_within (scan_fuel s)) s Hf) as Hw. split_and!.
  - by eapply within_fuel.
  - intros n Hn. apply scan_steps; lia.
  - intros v rest E. rewrite E in Hw. simpl in Hw. destruct s as [|c s]; [done|]. simpl in *. lia.
Qed.

(** ** Strings *)

(** A valid UTF-8 sequence: its first byte, and the rest of it. *)
Definition high (s : string) : bool := string_forall (λ c, negb (is_ascii_char c)) s.
Definition sequence (c : ascii) (a : string) : Prop :=
  high a = true ∧ ∀ r, utf8_width c (a ++ r) = S (String.length a).

Fixpoint valid_from (keep : nat) (s : string) : bool :=
  match s with
  | EmptyString => Nat.eqb keep 0
  | String c r =>
      match keep with
      | S keep => valid_from keep r
      | O => match utf8_width c r with O => false | S k => valid_from k r end
      end
  end.
Definition valid_utf8 : string → bool := valid_from 0.

Lemma is_ascii_N c : is_ascii_char c = (N_of_ascii c <? 128)%N.
Proof. by destruct c as [[] [] [] [] [] [] [] []]. Qed.
Lemma cont_high lo hi c : (128 ≤ lo)%N → cont lo hi c = true → is_ascii_char c = false.
Proof.
  intros Hlo H. unfold cont in H. apply andb_true_iff in H as [H _]. apply N.leb_le in H.
  rewrite is_ascii_N. apply N.ltb_ge. lia.
Qed.
Lemma width_ascii c r : is_ascii_char c = true → utf8_width c r = 1%nat.
Proof. rewrite is_ascii_N. unfold utf8_width. by intros ->. Qed.
Lemma width_high c r : is_ascii_char c = false → utf8_width c r ≠ 1%nat.
Proof. rewrite is_ascii_N. unfold utf8_width. intros ->. by repeat case_match. Qed.

(** What is valid is a sequence followed by what is valid. *)
Lemma width_sequence c r k :
  utf8_width c r = S k → ∃ a r', r = a ++ r' ∧ String.length a = k ∧ sequence c a.
Proof.
  unfold sequence, utf8_width. cbv zeta.
  assert (∀ lo, (128 <= (if lo : bool then 160 else 128))%N) as H1 by (intros []; lia).
  assert (∀ lo, (128 <= (if lo : bool then 144 else 128))%N) as H2 by (intros []; lia).
  assert (128 <= 128)%N as H3 by lia.
  destruct (N_of_ascii c <? 128)%N; [intros [= <-]; by exists "", r|].
  destruct (N_of_ascii c <? 194)%N; [done|].
  destruct (N_of_ascii c <? 224)%N.
  { destruct r as [|x r]; [done|]. destruct (cont 128 191 x) eqn:Ex; [|done]. intros [= <-].
    exists (String x ""), r. split_and!; [done..| |intros r0; cbn; by rewrite Ex].
    cbn. by rewrite (cont_high _ _ _ H3 Ex). }
  destruct (N_of_ascii c <? 240)%N.
  { destruct r as [|x [|y r]]; [done|by rewrite andb_false_r|].
    destruct (cont _ _ x) eqn:Ex, (cont 128 191 y) eqn:Ey; try done. intros [= <-].
    exists (String x (String y "")), r. split_and!; [done..| |intros r0; cbn; by rewrite Ex, Ey].
    cbn. by rewrite (cont_high _ _ _ (H1 _) Ex), (cont_high _ _ _ H3 Ey). }
  destruct (N_of_ascii c <? 245)%N; [|done].
  destruct r as [|x [|y [|z r]]]; [done|by rewrite andb_false_r..|].
  destruct (cont _ _ x) eqn:Ex, (cont 128 191 y) eqn:Ey, (cont 128 191 z) eqn:Ez; try done. intros [= <-].
  exists (String x (String y (String z ""))), r. split_and!; [done..| |intros r0; cbn; by rewrite Ex, Ey, Ez].
  cbn. by rewrite (cont_high _ _ _ (H2 _) Ex), (cont_high _ _ _ H3 Ey), (cont_high _ _ _ H3 Ez).
Qed.

Lemma valid_keep a r : valid_from (String.length a) (a ++ r) = valid_utf8 r.
Proof. induction a as [|c a IH]; [done|exact IH]. Qed.

(** Induction on valid strings, a sequence at a time. *)
Lemma valid_ind (P : string → Prop) :
  P "" → (∀ c a r, sequence c a → valid_utf8 r = true → P r → P (String c (a ++ r))) →
  ∀ s, valid_utf8 s = true → P s.
Proof.
  intros H0 HS s. remember (String.length s) as n eqn:En.
  assert (String.length s ≤ n)%nat as Hn by lia. clear En. revert s Hn.
  induction n as [|n IH]; intros [|c r] Hn Hv; try done; [simpl in Hn; lia|].
  unfold valid_utf8 in Hv. cbn [valid_from] in Hv. destruct (utf8_width c r) as [|k] eqn:Ew; [done|].
  destruct (width_sequence _ _ _ Ew) as (a & r' & -> & <- & Ha). rewrite valid_keep in Hv.
  apply HS; [done..|]. apply IH; [|done]. simpl in Hn. rewrite string_length_app in Hn. lia.
Qed.

Lemma escape_keep a r : escape_from (String.length a) 0 (a ++ r) = a ++ escape_from 0 0 r.
Proof. induction a as [|c a IH]; [done|]. cbn. by rewrite IH. Qed.
Lemma unquote_keep a t : unquote_from (String.length a) (a ++ t) = a ++ unquote t.
Proof. induction a as [|c a IH]; [done|]. cbn. by rewrite IH. Qed.

Lemma scan_map_ext {A B} (f g : A → B) r : (∀ a, f a = g a) → scan_map f r = scan_map g r.
Proof. intros H. destruct r; simpl; congruence. Qed.
Lemma scan_map_map {A B C} (f : A → B) (g : B → C) r : scan_map g (scan_map f r) = scan_map (λ a, g (f a)) r.
Proof. by destruct r. Qed.
Lemma scan_map_id r : scan_map (String.append "") r = r.
Proof. by destruct r. Qed.

(** A character written as itself. *)
Definition plain (c : ascii) : bool :=
  negb (Ascii.eqb c dquote) && negb (Ascii.eqb c backslash) && (32 <=? N_of_ascii c)%N.
Lemma scan_plain c t : plain c = true → scan_string 0 (String c t) = scan_map (String c) (scan_string 0 t).
Proof.
  unfold plain. intros [[H1 H2]%andb_true_iff H3]%andb_true_iff. cbn [scan_string].
  apply negb_true_iff in H1 as ->. apply negb_true_iff in H2 as ->.
  destruct (N.ltb_spec (N_of_ascii c) 32) as [Hl|]; [|done]. apply N.leb_le in H3. lia.
Qed.
Lemma plain_backslash c : plain c = true → Ascii.eqb c backslash = false.
Proof. unfold plain. destruct (Ascii.eqb c backslash); [|done]. by rewrite andb_false_r. Qed.
Lemma high_plain c : is_ascii_char c = false → plain c = true.
Proof. by destruct c as [[] [] [] [] [] [] [] []]. Qed.
Lemma safe_plain_char c : html_safe c = true → plain c = true.
Proof. by destruct c as [[] [] [] [] [] [] [] []]. Qed.
Lemma scan_high a t : high a = true → scan_string 0 (a ++ t) = scan_map (String.append a) (scan_string 0 t).
Proof.
  induction a as [|c a IH]; [by rewrite scan_map_id|]. intros [Hc Ha]%andb_true_iff.
  apply negb_true_iff in Hc. change (String c a ++ t) with (String c (a ++ t)).
  rewrite scan_plain by (by apply high_plain). by rewrite (IH Ha), scan_map_map.
Qed.

Lemma scan_u a b c d t :
  is_hex a && is_hex b && is_hex c && is_hex d = true →
  let E r := String backslash (String "u" (String a (String b (String c (String d r))))) in
  scan_string 0 (E t) = scan_map E (scan_string 0 t).
Proof.
  intros [[[Ha Hb]%andb_true_iff Hc]%andb_true_iff Hd]%andb_true_iff. cbn [scan_string].
  change (Ascii.eqb backslash dquote) with false. change (Ascii.eqb backslash backslash) with true.
  change (is_escape "u") with false. change (Ascii.eqb "u" "u") with true. cbv iota.
  rewrite Ha, Hb, Hc, Hd. by destruct (scan_string 0 t).
Qed.

(** How JSON may spell a string between its quotes: a character as itself, if it is
    no quote, backslash or control character; a short escape; or [\u] and the
    digits of a code point, or of a surrogate pair. *)
Definition hex_digits (a b c d : ascii) : bool := is_hex a && is_hex b && is_hex c && is_hex d.
Definition u_escape (a b c d : ascii) (t : string) : string :=
  String backslash (String "u" (String a (String b (String c (String d t))))).
Definition surrogate_pair (r1 r2 : N) : bool :=
  ((55296 <=? r1) && (r1 <? 56320) && (56320 <=? r2) && (r2 <? 57344))%N.
Inductive spells : string → string → Prop :=
  | SpellsEnd : spells "" ""
  | SpellsChar c a t v :
      sequence c a → plain c = true → spells t v → spells (String c (a ++ t)) (String c (a ++ v))
  | SpellsEscape e t v :
      is_escape e = true → spells t v → spells (String backslash (String e t)) (String (unescape e) v)
  | SpellsCode a b c d t v :
      hex_digits a b c d = true → is_surrogate (hex4 a b c d) = false → spells t v →
      spells (u_escape a b c d t) (encode_rune (hex4 a b c d) ++ v)
  | SpellsPair a b c d a' b' c' d' t v :
      hex_digits a b c d = true → hex_digits a' b' c' d' = true →
      surrogate_pair (hex4 a b c d) (hex4 a' b' c' d') = true → spells t v →
      spells (u_escape a b c d (u_escape a' b' c' d' t))
        (encode_rune (utf16_DecodeRune (hex4 a b c d) (hex4 a' b' c' d')) ++ v).

Lemma scan_spelled t v rest : spells t v → scan_string 0 (t ++ String dquote rest) = SDone t rest.
Proof.
  induction 1 as [|c a t v [Ha Hw] Hp _ IH|e t v He _ IH|a b c d t v Hx _ _ IH|a b c d a' b' c' d' t v Hx Hx' _ _ IH]; [done|..].
  - change (String c (a ++ t) ++ String dquote rest) with (String c ((a ++ t) ++ String dquote rest)).
    by rewrite string_app_assoc, scan_plain, scan_high, IH by done.
  - cbn [String.append scan_string]. change (Ascii.eqb backslash dquote) with false.
    change (Ascii.eqb backslash backslash) with true. cbv iota. by rewrite He, IH.
  - etransitivity; [exact (scan_u a b c d (t ++ String dquote rest) Hx)|]. by rewrite IH.
  - etransitivity; [exact (scan_u a b c d (u_escape a' b' c' d' t ++ String dquote rest) Hx)|].
    pose proof (scan_u a' b' c' d' (t ++ String dquote rest) Hx') as E. cbv zeta in E.
    cbn [u_escape String.append]. rewrite E. by rewrite IH.
Qed.
Lemma pair_decodes r1 r2 :
  surrogate_pair r1 r2 = true → is_surrogate r1 = true ∧ (utf16_DecodeRune r1 r2 =? ReplacementChar)%N = false.
Proof.
  unfold surrogate_pair, utf16_DecodeRune, is_surrogate, ReplacementChar. intros H. rewrite H.
  apply andb_true_iff in H as [[[H1 H2]%andb_true_iff H3]%andb_true_iff H4].
  apply N.leb_le in H1, H3. apply N.ltb_lt in H2, H4. split.
  - apply andb_true_iff. split; [by apply N.leb_le|apply N.ltb_lt; lia].
  - apply N.eqb_neq. lia.
Qed.
Lemma unquote_code a b c d r :
  unquote_from 0 (u_escape a b c d r) =
    if is_surrogate (hex4 a b c d) then
      match r with
      | String _ (String _ (String a' (String b' (String c' (String d' r'))))) =>
          let dec := utf16_DecodeRune (hex4 a b c d) (hex4 a' b' c' d') in
          if HasPrefix r (String backslash "u") && negb (dec =? ReplacementChar)%N
          then encode_rune dec ++ unquote_from 0 r'
          else encode_rune ReplacementChar ++ unquote_from 0 r
      | _ => encode_rune ReplacementChar ++ unquote_from 0 r
      end
    else encode_rune (hex4 a b c d) ++ unquote_from 0 r.
Proof. reflexivity. Qed.
Lemma pair_prefix a b c d t : HasPrefix (u_escape a b c d t) (String backslash "u") = true.
Proof. by destruct t. Qed.
Lemma unquote_spelled t v : spells t v → unquote t = v.
Proof.
  induction 1 as [|c a t v [Ha Hw] Hp _ IH|e t v He _ IH|a b c d t v Hx Hs _ IH|a b c d a' b' c' d' t v Hx Hx' Hs _ IH]; [done|..];
    unfold unquote in *.
  - cbn [unquote_from]. by rewrite Hw, unquote_keep, plain_backslash, <- IH by done.
  - cbn [unquote_from]. change (Ascii.eqb backslash backslash) with true. cbv iota.
    assert (Ascii.eqb e "u" = false) as -> by (by destruct (Ascii.eqb_spec e "u") as [->|]). by rewrite IH.
  - rewrite unquote_code. by rewrite Hs, IH.
  - destruct (pair_decodes _ _ Hs) as [Hsur Hdec]. rewrite unquote_code, Hsur. unfold u_escape at 1. cbv beta iota zeta.
    fold (u_escape a' b' c' d' t). by rewrite pair_prefix, Hdec, IH.
Qed.
Lemma escape_ascii_spells c t v :
  is_ascii_char c = true → html_safe c = false → spells t v → spells (escape_ascii c t) (String c v).
Proof.
  destruct c as [[] [] [] [] [] [] [] []]; intros Ha Hs H; try discriminate;
    first [refine (SpellsEscape _ t v _ H); reflexivity|refine (SpellsCode "0" "0" _ _ t v _ _ H); reflexivity].
Qed.
Lemma width_226 x r :
  utf8_width (char 226) (String x r) =
    (if cont 128 191 x && match r with String b _ => cont 128 191 b | _ => false end then 3%nat else 0%nat).
Proof. reflexivity. Qed.
(** A sequence that begins like a line separator is one. *)
Lemma line_separator_sequence c a r d :
  is_ascii_char c = false → sequence c a → line_separator c (a ++ r) = Some d →
  c = char 226 ∧ (d = "8"%char ∧ a = String (char 128) (String (char 168) "")
                  ∨ d = "9"%char ∧ a = String (char 128) (String (char 169) "")).
Proof.
  intros Hc [_ Hw] El. destruct a as [|x a]; [by destruct (width_high c r Hc (Hw r))|].
  destruct a as [|y a].
  { exfalso. specialize (Hw ""). cbn [String.append] in Hw. unfold line_separator in El. cbn [String.append] in El.
    destruct r as [|y r]; [done|]. destruct (Ascii.eqb_spec c (char 226)) as [->|]; [|done].
    by rewrite width_226, andb_false_r in Hw. }
  unfold line_separator in El. cbn [String.append] in El.
  destruct (Ascii.eqb_spec c (char 226)) as [->|]; [|done]. destruct (Ascii.eqb_spec x (char 128)) as [->|]; [|done].
  cbn [andb] in El. split; [done|]. assert (a = "") as ->.
  { specialize (Hw ""). cbn [String.append] in Hw. rewrite width_226 in Hw. destruct (_ && _); [|done]. injection Hw. by destruct a. }
  destruct (Ascii.eqb_spec y (char 168)) as [->|]; [injection El as <-; by left|].
  destruct (Ascii.eqb_spec y (char 169)) as [->|]; [injection El as <-; by right|done].
Qed.
(** What [json.Marshal] writes of a valid string is a spelling of it. *)
Lemma escape_spells s : valid_utf8 s = true → spells (escape_from 0 0 s) s.
Proof.
  revert s. refine (valid_ind (λ s, spells (escape_from 0 0 s) s) SpellsEnd _). intros c a r Hq _ IH. destruct (is_ascii_char c) eqn:Ec.
  - assert (a = "") as ->. { destruct Hq as [_ Hw]. specialize (Hw ""). rewrite width_ascii in Hw by done. by destruct a. }
    cbn [String.append escape_from]. destruct (html_safe c) eqn:Es.
    + exact (SpellsChar c "" _ _ Hq (safe_plain_char c Es) IH).
    + rewrite Ec. by apply escape_ascii_spells.
  - assert (html_safe c = false) as Hs by (by destruct c as [[] [] [] [] [] [] [] []]).
    cbn [escape_from]. rewrite Hs, Ec, (proj2 Hq). destruct (line_separator c (a ++ r)) as [d|] eqn:El.
    + destruct (line_separator_sequence c a r d Ec Hq El) as (-> & [[-> ->]|[-> ->]]);
        refine (SpellsCode "2" "0" "2" _ _ _ _ _ IH); reflexivity.
    + rewrite escape_keep. by apply SpellsChar; [|apply high_plain|].
Qed.

(** ** Objects of strings *)

Definition spaces_only (s : string) : bool := string_forall is_json_space s.
Lemma skip_spaces w t : spaces_only w = true → skip_ws (w ++ t) = skip_ws t.
Proof. induction w as [|c w IH]; [done|]. intros [Hc Hw]%andb_true_iff. simpl. by rewrite Hc, IH. Qed.
Lemma newline_spaces indent depth : spaces_only (newline indent depth) = true.
Proof. unfold newline. destruct indent; [|done]. simpl. induction (depth + (depth + 0))%nat; [done|simpl; done]. Qed.

Definition string_members (l : list (string * string)) : list (string * json) :=
  List.map (λ m, (fst m, JString (snd m))) l.
Definition valid_members (l : list (string * string)) : Prop :=
  ∀ m, m ∈ l → valid_utf8 m.1 = true ∧ valid_utf8 m.2 = true.

Definition literal (t : string) : string := String dquote (t ++ String dquote "").
(** How JSON may spell the members of an object of strings, and the object: any
    spelling of each string, any white space between the tokens. *)
Definition member_text (w1 k w2 w3 v w4 : string) : string := w1 ++ literal k ++ w2 ++ ":" ++ w3 ++ literal v ++ w4.
Inductive spells_members : string → list (string * string) → Prop :=
  | SpellsLast w1 k' k w2 w3 v' v w4 :
      spaces_only w1 = true → spaces_only w2 = true → spaces_only w3 = true → spaces_only w4 = true →
      spells k' k → spells v' v → spells_members (member_text w1 k' w2 w3 v' w4) [(k, v)]
  | SpellsMember w1 k' k w2 w3 v' v w4 t l :
      spaces_only w1 = true → spaces_only w2 = true → spaces_only w3 = true → spaces_only w4 = true →
      spells k' k → spells v' v → spells_members t l →
      spells_members (member_text w1 k' w2 w3 v' w4 ++ "," ++ t) ((k, v) :: l).
Inductive spells_object : string → list (string * string) → Prop :=
  | SpellsEmpty w : spaces_only w = true → spells_object ("{" ++ w ++ "}") []
  | SpellsObject t l : spells_members t l → spells_object ("{" ++ t ++ "}") l.

Lemma skip_literal w t u : spaces_only w = true → skip_ws (w ++ literal t ++ u) = String dquote (t ++ String dquote u).
Proof. intros Hw. rewrite skip_spaces by done. unfold literal. cbn [String.append]. by rewrite string_app_assoc. Qed.
Lemma scan_member n w1 k' k w2 w3 v' v w4 t :
  spaces_only w1 = true → spaces_only w2 = true → spaces_only w3 = true → spaces_only w4 = true →
  spells k' k → spells v' v →
  scan_members (S (S n)) (member_text w1 k' w2 w3 v' w4 ++ t) =
    match skip_ws t with
    | EmptyString => SMore
    | String c r =>
        if Ascii.eqb c "," then scan_map (cons (k, JString v)) (scan_members (S n) r)
        else if Ascii.eqb c "}" then SDone [(k, JString v)] r
        else SSyntax
    end.
Proof.
  intros H1 H2 H3 H4 Hk Hv. unfold member_text. rewrite !string_app_assoc. cbn [scan_members]. rewrite skip_literal by done.
  change (negb (Ascii.eqb dquote dquote)) with false. cbv iota. rewrite (scan_spelled _ _ _ Hk). cbn [scan_bind].
  rewrite skip_spaces by done. cbn [String.append skip_ws]. change (is_json_space ":") with false. cbv iota.
  change (negb (Ascii.eqb ":" ":")) with false. cbv iota. cbn [scan_value]. rewrite skip_literal by done.
  change (Ascii.eqb dquote "{") with false. change (Ascii.eqb dquote "[") with false.
  change (Ascii.eqb dquote dquote) with true. cbv iota. rewrite (scan_spelled _ _ _ Hv). cbn [scan_bind scan_map].
  rewrite skip_spaces by done. by rewrite (unquote_spelled _ _ Hk), (unquote_spelled _ _ Hv).
Qed.
Lemma scan_all_members t l rest n :
  spells_members t l → (S (length l) ≤ n)%nat → scan_members n (t ++ String "}" rest) = SDone (string_members l) rest.
Proof.
  intros H. revert n. induction H as [w1 k' k w2 w3 v' v w4 ? ? ? ? Hk Hv|w1 k' k w2 w3 v' v w4 t l ? ? ? ? Hk Hv _ IH];
    intros [|[|n]] Hn; cbn [length] in Hn; try lia.
  - by rewrite (scan_member _ _ _ k _ _ _ v).
  - rewrite !string_app_assoc, (scan_member _ _ _ k _ _ _ v) by done. cbn [String.append skip_ws].
    change (is_json_space ",") with false. cbv iota. change (Ascii.eqb "," ",") with true. cbv iota.
    by rewrite IH by lia.
Qed.
Lemma scan_object n w t l rest :
  spaces_only w = true → spells_object t l → (S (S (length l)) ≤ n)%nat →
  scan_value n (w ++ t ++ rest) = SDone (JObject (string_members l)) rest.
Proof.
  intros Hw Ht Hn. destruct n as [|n]; [lia|]. cbn [scan_value]. rewrite skip_spaces by done.
  destruct Ht as [w'|t l Ht]; cbn [String.append skip_ws]; change (is_json_space "{") with false; cbv iota;
    change (Ascii.eqb "{" "{") with true; cbv iota; rewrite string_app_assoc.
  - by rewrite skip_spaces.
  - cbn [String.append].
    assert (∃ r, skip_ws (t ++ String "}" rest) = String dquote r) as [r ->].
    { destruct Ht; unfold member_text; rewrite !string_app_assoc; rewrite skip_literal by done; by eexists. }
    change (Ascii.eqb dquote "}") with false. cbv iota. by rewrite (scan_all_members t l) by (done || lia).
Qed.

(** What [json.Marshal] and [json.MarshalIndent] write is such a spelling. *)
Definition written_member (indent : bool) (m : string * string) : string :=
  quote m.1 ++ (if indent then ": " else ":") ++ quote m.2.
Lemma written_member_text indent pre m post t :
  pre ++ written_member indent m ++ post ++ t
  = member_text pre (escape_from 0 0 m.1) "" (if indent then " " else "") (escape_from 0 0 m.2) post ++ t.
Proof. unfold written_member, member_text, quote, literal. rewrite !string_app_assoc. by destruct indent. Qed.
Lemma written_members_spell indent nl pre post l :
  spaces_only nl = true → spaces_only pre = true → spaces_only post = true → valid_members l → l ≠ [] →
  spells_members (pre ++ Join (List.map (written_member indent) l) ("," ++ nl) ++ post) l.
Proof.
  intros Hnl Hpre Hpost. revert pre Hpre. induction l as [|[k v] l IH]; intros pre Hpre Hv Hne; [done|].
  destruct (Hv (k, v)) as [Hk%escape_spells Hv'%escape_spells]; [left|].
  assert (spaces_only (if indent then " " else "") = true) as H3 by (by destruct indent).
  destruct l as [|m l].
  - cbn [List.map Join]. rewrite <- (string_app_nil_r post), (written_member_text indent pre (k, v)), string_app_nil_r.
    by apply SpellsLast.
  - cbn [List.map]. change (Join (written_member indent (k, v) :: ?x :: ?y) ?s)
      with (written_member indent (k, v) ++ s ++ Join (x :: y) s).
    rewrite !string_app_assoc. change (written_member indent (k, v) ++ "," ++ nl ++ ?u)
      with (written_member indent (k, v) ++ "" ++ "," ++ nl ++ u).
    rewrite written_member_text. apply SpellsMember; try done. apply IH; [done| |done]. intros x Hx. apply Hv. by right.
Qed.
Definition object_text (indent : bool) (l : list (string * string)) : string :=
  render indent 0 (JObject (string_members l)).
Lemma object_text_spells indent l : valid_members l → spells_object (object_text indent l) l.
Proof.
  intros Hv. destruct l as [|m l]; [exact (SpellsEmpty "" eq_refl)|].
  assert (object_text indent (m :: l) = "{" ++ (newline indent 1 ++ Join (List.map (written_member indent) (m :: l)) ("," ++ newline indent 1)
      ++ newline indent 0) ++ "}") as ->.
  { unfold object_text. cbn [render string_members List.map]. rewrite !string_app_assoc. do 3 f_equal. f_equal. f_equal. f_equal.
    unfold string_members. by rewrite List.map_map. }
  apply SpellsObject, written_members_spell; try apply newline_spaces; done.
Qed.

(** ** More input

    A scan that has ended, or failed, before the end of the input does so
    whatever follows. *)
Definition stable {A} (t : string) (r r' : scanned A) : Prop :=
  match r with
  | SDone v rest => r' = SDone v (rest ++ t)
  | SSyntax => r' = SSyntax
  | _ => True
  end.
(** The same for a scan that may go on at the end of the input. *)
Definition settled {A} (t : string) (r r' : scanned A) : Prop :=
  match r with SDone v EmptyString => True | _ => stable t r r' end.

Lemma stable_settled {A} t (r r' : scanned A) : stable t r r' → settled t r r'.
Proof. destruct r as [v []| | |]; done. Qed.
Lemma stable_bind {A B} t (r r' : scanned A) (k k' : A → string → scanned B) :
  stable t r r' → (∀ a rest, stable t (k a rest) (k' a (rest ++ t))) →
  stable t (scan_bind r k) (scan_bind r' k').
Proof. destruct r; cbn; intros Hr Hk; subst; cbn; auto. Qed.
Lemma stable_map {A B} t (f : A → B) r r' : stable t r r' → stable t (scan_map f r) (scan_map f r').
Proof. intros H. by apply stable_bind. Qed.
Lemma settled_map {A B} t (f : A → B) r r' : settled t r r' → settled t (scan_map f r) (scan_map f r').
Proof. destruct r as [v [|c rest]| | |]; cbn; intros Hr; subst; done. Qed.
(** After a value that may go on, the end of the input is not an answer. *)
Lemma settled_bind {A B} t (r r' : scanned A) (k k' : A → string → scanned B) :
  settled t r r' → (∀ a, k a "" = SMore) →
  (∀ a rest, stable t (k a rest) (k' a (rest ++ t))) → stable t (scan_bind r k) (scan_bind r' k').
Proof.
  destruct r as [v [|c rest]| | |]; cbn; intros Hr H0 Hk; subst; cbn; auto.
  by rewrite H0.
Qed.

Lemma skip_ws_app s t : skip_ws s ≠ "" → skip_ws (s ++ t) = skip_ws s ++ t.
Proof. induction s as [|c s IH]; [done|]. simpl. by destruct (is_json_space c). Qed.
Lemma stable_next {A} t s (k k' : ascii → string → scanned A) :
  (∀ c r, stable t (k c r) (k' c (r ++ t))) →
  stable t (match skip_ws s with EmptyString => SMore | String c r => k c r end)
    (match skip_ws (s ++ t) with EmptyString => SMore | String c r => k' c r end).
Proof.
  intros H. destruct (skip_ws s) as [|c r] eqn:E; [done|].
  rewrite skip_ws_app by (by rewrite E). rewrite E. apply H.
Qed.

Lemma scan_string_stable t hex s : stable t (scan_string hex s) (scan_string hex (s ++ t)).
Proof.
  assert (∀ n hex s, (String.length s ≤ n)%nat → stable t (scan_string hex s) (scan_string hex (s ++ t))) as H;
    [|by eapply H].
  clear. induction n as [|n IH]; intros hex [|c r] Hn; simpl in Hn; try done; [lia|].
  apply le_S_n in Hn. cbn. destruct hex as [|hex].
  - destruct (Ascii.eqb c dquote); [done|]. destruct (Ascii.eqb c backslash).
    + destruct r as [|e r]; [done|]. simpl in Hn. cbn.
      destruct (is_escape e); [|destruct (Ascii.eqb e "u"); [|done]]; apply stable_map, IH; lia.
    + destruct (_ <? _)%N; [done|]. by apply stable_map, IH.
  - destruct (is_hex c); [|done]. by apply stable_map, IH.
Qed.

Lemma digit_prefix_app s t d c r : digit_prefix s = (d, String c r) → digit_prefix (s ++ t) = (d, String c r ++ t).
Proof.
  revert d. induction s as [|a s IH]; intros d; [done|]. simpl. destruct (is_digit a); [|by intros [= <- <- <-]].
  destruct (digit_prefix s) as [d' u]. intros [= <- ->]. by rewrite (IH d').
Qed.
Lemma scan_digits_settled t s : settled t (scan_digits s) (scan_digits (s ++ t)).
Proof.
  destruct s as [|c s]; [done|]. unfold scan_digits. cbn [String.append].
  destruct (is_digit c) eqn:Ec; [|done]. change (String c (s ++ t)) with (String c s ++ t).
  destruct (digit_prefix (String c s)) as [d [|c' r]] eqn:E; [done|]. by rewrite (digit_prefix_app _ _ _ _ _ E).
Qed.
Lemma scan_integer_settled t s : settled t (scan_integer s) (scan_integer (s ++ t)).
Proof.
  destruct s as [|c s]; [done|]. unfold scan_integer. cbn [String.append].
  destruct (Ascii.eqb c "0"); [by apply stable_settled|]. apply (scan_digits_settled t (String c s)).
Qed.
Lemma scan_fraction_settled t s : settled t (scan_fraction s) (scan_fraction (s ++ t)).
Proof.
  destruct s as [|c s]; [done|]. unfold scan_fraction. cbn [String.append].
  destruct (Ascii.eqb c "."); [by apply settled_map, scan_digits_settled|done].
Qed.
Lemma scan_exponent_settled t s : settled t (scan_exponent s) (scan_exponent (s ++ t)).
Proof.
  destruct s as [|c s]; [done|]. unfold scan_exponent. cbn [String.append].
  destruct (_ || _); [|done]. destruct s as [|sg s]; [done|]. cbn [String.append].
  destruct (_ || _); apply settled_map; [apply scan_digits_settled|].
  apply (scan_digits_settled t (String sg s)).
Qed.
(** Composition of scans that may go on. *)
Lemma settled_then {A B} t (r r' : scanned A) (k : A → string → scanned B) :
  settled t r r' → (∀ a, ∃ b, k a "" = SDone b "") → (∀ a rest, settled t (k a rest) (k a (rest ++ t))) →
  settled t (scan_bind r k) (scan_bind r' k).
Proof.
  intros Hr H0 Hk. destruct r as [v [|c rest]| | |]; cbn [settled stable] in Hr; subst; cbn [scan_bind]; try done.
  destruct (H0 v) as [b Hb]. by rewrite Hb.
Qed.
Lemma scan_number_settled t s : s ≠ "" → settled t (scan_number s) (scan_number (s ++ t)).
Proof.
  intros Hs. unfold scan_number. destruct s as [|c s]; [done|]. cbn [String.append].
  assert (∀ sign u, settled t
    (scan_bind (scan_integer u) (λ i r, scan_bind (scan_fraction r) (λ f r,
       scan_map (λ e, sign ++ i ++ f ++ e) (scan_exponent r))))
    (scan_bind (scan_integer (u ++ t)) (λ i r, scan_bind (scan_fraction r) (λ f r,
       scan_map (λ e, sign ++ i ++ f ++ e) (scan_exponent r))))) as H.
  { intros sign u. apply settled_then; [apply scan_integer_settled|intros a; by eexists|]. intros i r.
    apply settled_then; [apply scan_fraction_settled|intros a; by eexists|]. intros f r'.
    apply settled_map, scan_exponent_settled. }
  destruct (Ascii.eqb c "-"); [apply H|]. apply (H "" (String c s)).
Qed.
Lemma scan_literal_stable {A} t p (v : A) s : stable t (scan_literal p v s) (scan_literal p v (s ++ t)).
Proof.
  revert s. induction p as [|a p IH]; intros s; [by destruct s|]. destruct s as [|c s]; [done|]. cbn.
  destruct (Ascii.eqb a c); [apply IH|done].
Qed.

Lemma scan_stable t n :
  (∀ s, settled t (scan_value n s) (scan_value n (s ++ t)))
  ∧ (∀ s, stable t (scan_members n s) (scan_members n (s ++ t)))
  ∧ (∀ s, stable t (scan_elements n s) (scan_elements n (s ++ t))).
Proof.
  induction n as [|n (IHv & IHm & IHe)]; [by split_and!|].
  split_and!; intros s.
  - cbn [scan_value]. destruct (skip_ws s) as [|c r] eqn:E; [done|].
    rewrite skip_ws_app by (by rewrite E). rewrite E. cbn [String.append].
    destruct (Ascii.eqb c "{").
    { apply stable_settled, stable_next. intros c' r'. destruct (Ascii.eqb c' "}"); [done|]. by apply stable_map. }
    destruct (Ascii.eqb c "[").
    { apply stable_settled, stable_next. intros c' r'. destruct (Ascii.eqb c' "]"); [done|]. by apply stable_map. }
    destruct (Ascii.eqb c dquote); [by apply stable_settled, stable_map, scan_string_stable|].
    destruct (_ || _); [by apply settled_map, (scan_number_settled t (String c r))|].
    destruct (Ascii.eqb c "t"); [|destruct (Ascii.eqb c "f"); [|destruct (Ascii.eqb c "n"); [|done]]];
      apply stable_settled, scan_literal_stable.
  - cbn [scan_members]. apply stable_next. intros c r. destruct (negb _); [done|].
    apply stable_bind; [apply scan_string_stable|]. intros k r1. apply stable_next. intros c2 r2.
    destruct (negb _); [done|]. apply settled_bind; [apply IHv|done|]. intros v r3.
    apply stable_next. intros c4 r4. destruct (Ascii.eqb c4 ","); [by apply stable_map|]. by destruct (Ascii.eqb c4 "}").
  - cbn [scan_elements]. apply settled_bind; [apply IHv|done|]. intros v r1.
    apply stable_next. intros c2 r2. destruct (Ascii.eqb c2 ","); [by apply stable_map|]. by destruct (Ascii.eqb c2 "]").
Qed.
Lemma scan_object_stable t n s :
  stable t (scan_value n (String "{" s)) (scan_value n (String "{" s ++ t)).
Proof.
  destruct n as [|n]; [done|]. cbn [scan_value String.append skip_ws].
  change (is_json_space "{") with false. cbv iota. change (Ascii.eqb "{" "{") with true. cbv iota.
  apply stable_next. intros c r. destruct (Ascii.eqb c "}"); [done|]. apply stable_map, scan_stable.
Qed.

(** ** Bodies *)

Lemma spelled_brace t l : spells_object t l → ∃ s, t = String "{" s.
Proof. destruct 1; by eexists. Qed.

Lemma scan_fuel_object w t l rest :
  spaces_only w = true → spells_object t l →
  scan_value (scan_fuel (w ++ t ++ rest)) (w ++ t ++ rest) = SDone (JObject (string_members l)) rest.
Proof.
  intros Hw Ht. destruct (scan_ends (w ++ t ++ rest)) as (_ & Hn & _).
  rewrite <- (Hn (scan_fuel (w ++ t ++ rest) + S (S (length l)))%nat) by lia.
  apply scan_object; [done..|lia].
Qed.
(** A proper part of an object makes the scanner ask for more. *)
Lemma scan_partial t l a b :
  spells_object t l → t = a ++ b → a ≠ "" → b ≠ "" → scan_value (scan_fuel a) a = SMore.
Proof.
  intros Ht E Ha Hb. pose proof (scan_fuel_object "" t l "" eq_refl Ht) as Hs. cbn [String.append] in Hs.
  rewrite string_app_nil_r in Hs. destruct a as [|c a]; [done|].
  destruct (spelled_brace t l Ht) as [s ->]. injection E as <- ->. set (n := scan_fuel (String "{" (a ++ b))) in *.
  destruct (scan_ends (String "{" a)) as (Hf & Hn & _).
  assert (scan_fuel (String "{" a) ≤ n)%nat as Hle.
  { unfold n, scan_fuel. cbn [String.length]. rewrite string_length_app. lia. }
  rewrite <- (Hn n Hle) in *. pose proof (scan_object_stable b n a) as Hst. cbn [String.append] in Hst.
  rewrite Hs in Hst. destruct (scan_value n (String "{" a)) as [v rest| | |]; cbn in Hst; [|done..].
  injection Hst as _ Hst. destruct rest; [|done]. cbn in Hst. by subst b.
Qed.

(** A body that ends inside its JSON object is answered as an internal
    error, and an object that extends past the limit as too large, whatever
    fields the handler expects. *)
Lemma partial_body_answers fields t l (Ht : spells_object t l) :
  (∀ a b, t = a ++ b → a ≠ "" → b ≠ "" → len a ≤ defaultMaxJSONBytes →
     DecodeJSONHandler fields a = inr InternalServerError)
  ∧ (defaultMaxJSONBytes < len t → DecodeJSONHandler fields t = inr InvalidPayloadSize).
Proof.
  split.
  - intros a b E Ha Hb Hl. unfold DecodeJSONHandler, decodeJSONBody. cbv zeta.
    rewrite substring_all by (unfold len, defaultMaxJSONBytes in *; lia).
    rewrite (scan_partial t l a b) by done. destruct (Z.ltb_spec defaultMaxJSONBytes (len a)); [lia|].
    destruct (spelled_brace t l Ht) as [s Hbr]. destruct a as [|c a]; [done|].
    rewrite Hbr in E. injection E as <- ->. reflexivity.
  - intros Hl. unfold DecodeJSONHandler, decodeJSONBody. cbv zeta.
    set (a := String.substring 0 (Z.to_nat defaultMaxJSONBytes) t).
    destruct (substring_prefix (Z.to_nat defaultMaxJSONBytes) t) as [b Eb]. fold a in Eb.
    assert (String.length a = Z.to_nat defaultMaxJSONBytes) as Hla.
    { apply substring_length. unfold len in Hl. lia. }
    rewrite (scan_partial t l a b Ht Eb).
    + by destruct (Z.ltb_spec defaultMaxJSONBytes (len t)); [|lia].
    + intros E0. rewrite E0 in Hla. unfold defaultMaxJSONBytes in Hla. cbn [String.length] in Hla. lia.
    + intros ->. rewrite string_app_nil_r in Eb. unfold len in Hl. rewrite Eb, Hla in Hl. unfold defaultMaxJSONBytes in Hl. lia.
Qed.

(** ** Decoding what was encoded *)

Lemma set_field_names f v p : List.map fst (set_field f v p) = List.map fst p.
Proof.
  unfold set_field. rewrite List.map_map. apply map_ext. intros [k x]. cbn.
  destruct (String.eqb_spec k f) as [->|]; done.
Qed.
Lemma field_set_field f v p name :
  f ∈ List.map fst p → field name (set_field f v p) = if String.eqb f name then v else field name p.
Proof.
  unfold field. induction p as [|[k x] p IH]; cbn [set_field List.map List.find fst]; intros Hin; [set_solver|].
  destruct (String.eqb_spec k f) as [->|Hk]; cbn [fst].
  - destruct (String.eqb_spec f name) as [->|Hf]; [done|].
    clear IH Hin. induction p as [|[k y] p IH]; [done|]. cbn [List.map List.find fst].
    destruct (String.eqb_spec k f) as [->|Hk]; cbn [fst].
    + rewrite !(proj2 (String.eqb_neq f name) Hf). exact IH.
    + by destruct (String.eqb k name).
  - destruct (String.eqb_spec k name) as [->|Hn].
    + by rewrite (proj2 (String.eqb_neq f name)) by congruence.
    + apply IH. set_solver.
Qed.

Lemma field_cons f k v l : field f ((k, v) :: l) = if String.eqb k f then v else field f l.
Proof. unfold field. cbn [List.find fst]. by destruct (String.eqb k f). Qed.

Lemma struct_field_exact fields f : f ∈ fields → struct_field fields f = Some f.
Proof.
  intros Hf. unfold struct_field. destruct (List.find (String.eqb f) fields) as [g|] eqn:E.
  - apply find_some in E as [_ E]. apply String.eqb_eq in E as ->. done.
  - apply list_elem_of_In in Hf. eapply find_none in E; [|exact Hf]. by rewrite String.eqb_refl in E.
Qed.

(** The last assignment to a field wins; here each field is assigned once. *)
Lemma assign_strings fields l p :
  (∀ m, m ∈ l → m.1 ∈ fields) → NoDup (List.map fst l) → List.map fst p = fields →
  ∃ p', assign_members fields (string_members l) p = Some p' ∧ List.map fst p' = fields
    ∧ ∀ f, f ∈ fields → field f p' = if bool_decide (f ∈ List.map fst l) then field f l else field f p.
Proof.
  revert p. induction l as [|[k v] l IH]; intros p Hin Hnd Hp.
  { exists p. split_and!; [done..|]. intros f _. rewrite bool_decide_eq_false_2; [done|]. cbn. set_solver. }
  cbn [List.map fst] in Hnd. apply NoDup_cons in Hnd as [Hk Hnd].
  destruct (IH (set_field k v p)) as (p' & E & Hp' & Hf).
  { intros m Hm. apply Hin. by right. } { done. } { by rewrite set_field_names. }
  exists p'. cbn [string_members List.map fst snd assign_members].
  rewrite struct_field_exact by (apply (Hin (k, v)); left). split_and!; [done..|].
  intros f Hf'. rewrite (Hf f Hf'), field_set_field by (rewrite Hp; apply (Hin (k, v)); left).
  rewrite field_cons. destruct (String.eqb_spec k f) as [->|Hne].
  - rewrite bool_decide_eq_false_2 by done. by rewrite bool_decide_eq_true_2 by left.
  - destruct (bool_decide (f ∈ List.map fst l)) eqn:Eb; bool_to_prop.
    + by rewrite bool_decide_eq_true_2 by (by right).
    + rewrite bool_decide_eq_false_2; [done|]. intros [->|?]%elem_of_cons; done.
Qed.

Lemma decoder_More_spaces w : spaces_only w = true → decoder_More w = false.
Proof. intros Hw. unfold decoder_More. by rewrite <- (string_app_nil_r w), skip_spaces. Qed.

(** C37: a handler reads exactly the fields a client sends: any JSON text within the
    limit that says an object of some fields of the payload, each at most once and
    each a valid string - in any order, with any white space between and around the
    tokens and any spelling of each string, escapes and surrogate pairs included -
    decodes to those values, and to empty strings for the other fields.  What
    [json.Marshal] and [json.MarshalIndent] write of such an object is one of these
    texts. *)
Theorem DecodeJSONHandler_roundtrip fields t l w1 w2
  (Ht : spells_object t l) (H1 : spaces_only w1 = true) (H2 : spaces_only w2 = true)
  (Hin : ∀ m, m ∈ l → m.1 ∈ fields) (Hnd : NoDup (List.map fst l))
  (Hlen : len (w1 ++ t ++ w2) ≤ defaultMaxJSONBytes) :
  (∃ p, DecodeJSONHandler fields (w1 ++ t ++ w2) = inl p ∧ List.map fst p = fields
     ∧ ∀ f, f ∈ fields → field f p = field f l)
  ∧ (valid_members l → spells_object (Marshal (JObject (string_members l))) l
                       ∧ spells_object (MarshalIndent (JObject (string_members l))) l).
Proof.
  split; [|intros Hv; split; [by apply (object_text_spells false)|by apply (object_text_spells true)]].
  destruct (assign_strings fields l (zero_payload fields) Hin Hnd) as (p & E & Hp & Hf).
  { unfold zero_payload. rewrite List.map_map. apply List.map_id. }
  exists p. unfold DecodeJSONHandler, decodeJSONBody. cbv zeta.
  rewrite substring_all by (unfold len, defaultMaxJSONBytes in *; lia). rewrite (scan_fuel_object w1 t l w2) by done.
  destruct (Z.ltb_spec defaultMaxJSONBytes (len (w1 ++ t ++ w2))); [lia|]. cbn [andb].
  cbn [unmarshal]. rewrite E, decoder_More_spaces by done. split_and!; [done..|]. intros f Hff. rewrite (Hf f Hff).
  destruct (bool_decide _) eqn:Eb; [done|]. bool_to_prop.
  assert (field f (zero_payload fields) = "") as ->.
  { unfold field, zero_payload. clear. induction fields as [|g fields IH]; [done|]. cbn.
    by destruct (String.eqb g f). }
  unfold field. destruct (List.find _ l) as [[k v]|] eqn:Ef; [|done].
  apply find_some in Ef as [Hl Ek]. apply String.eqb_eq in Ek. cbn in Ek. subst k.
  exfalso. apply Eb. apply list_elem_of_In. by apply (in_map fst) in Hl.
Qed.


(** ** Examples *)

Definition login_fields : list (string * string) := [("password", String dquote "<b>"); ("email", "ann@example.com")].

Lemma login_fields_valid : valid_members login_fields.
Proof. intros m Hm. unfold login_fields in Hm. set_unfold. by destruct Hm as [->|[->|[]]]. Qed.

(** A client's own text: spaces and a line break, an [a] written by its code point,
    an escaped quote, and a surrogate pair. *)
Definition client_key : string := "p" ++ String backslash "u0061ssword".
Definition client_value : string := String backslash (String dquote ("<" ++ String backslash ("ud83d" ++ String backslash "ude00"))).
Definition client_text : string :=
  "{" ++ (member_text " " client_key " " "" client_value "" ++ "," ++ member_text (String (char 10) "") "email" "" " " "a" "") ++ "}".
Definition smile : string := String (char 240) (String (char 159) (String (char 152) (String (char 128) ""))).
Definition client_fields : list (string * string) := [("password", String dquote "<" ++ smile); ("email", "a")].
Lemma ascii_sequence c : is_ascii_char c = true → sequence c "".
Proof. intros H. split; [done|]. intros r. by apply width_ascii. Qed.
Lemma plain_spells s : string_forall (λ c, is_ascii_char c && plain c) s = true → spells s s.
Proof.
  induction s as [|c s IH]; [intros _; apply SpellsEnd|]. intros [[Hc Hp]%andb_true_iff Hs]%andb_true_iff.
  exact (SpellsChar c "" s s (ascii_sequence c Hc) Hp (IH Hs)).
Qed.
Lemma client_key_spells : spells client_key "password".
Proof.
  refine (SpellsChar "p" "" _ "assword" (ascii_sequence _ _) _ (SpellsCode "0" "0" "6" "1" "ssword" "ssword" _ _ (plain_spells _ _)));
    reflexivity.
Qed.
Lemma client_value_spells : spells client_value (String dquote "<" ++ smile).
Proof.
  refine (SpellsEscape dquote _ ("<" ++ smile) _ (SpellsChar "<" "" _ smile (ascii_sequence _ _) _
            (SpellsPair "d" "8" "3" "d" "d" "e" "0" "0" "" "" _ _ _ SpellsEnd))); reflexivity.
Qed.
Lemma client_text_spells : spells_object client_text client_fields.
Proof.
  apply SpellsObject, SpellsMember, SpellsLast; try done; try exact client_key_spells; try exact client_value_spells;
    by apply plain_spells.
Qed.

Lemma DecodeJSONHandler_roundtrip_witness :
  (len (client_text ++ " ") ≤ defaultMaxJSONBytes)
  ∧ ∃ p, DecodeJSONHandler ["email"; "password"; "otp"] (client_text ++ " ") = inl p
      ∧ List.map fst p = ["email"; "password"; "otp"]
      ∧ ∀ f, f ∈ ["email"; "password"; "otp"] → field f p = field f client_fields.
Proof.
  assert (len (client_text ++ " ") ≤ defaultMaxJSONBytes) as Hl by (by vm_compute).
  split; [exact Hl|]. refine (proj1 (DecodeJSONHandler_roundtrip ["email"; "password"; "otp"] client_text client_fields "" " "
    client_text_spells eq_refl eq_refl _ _ Hl)).
  - intros m Hm. unfold client_fields in Hm. set_unfold. destruct Hm as [->|[->|[]]]; auto.
  - apply (bool_decide_unpack _). by vm_compute.
Defined.

Definition login_text : string := object_text false [("password", String dquote "<b>"); ("email", "ann@example.com")].
Lemma login_text_spells : spells_object login_text [("password", String dquote "<b>"); ("email", "ann@example.com")].
Proof. apply object_text_spells. intros m Hm. set_unfold. by destruct Hm as [->|[->|[]]]. Qed.
Lemma partial_body_answers_witness :
  DecodeJSONHandler ["email"; "password"] (String.substring 0 20 login_text) = inr InternalServerError.
Proof.
  refine (proj1 (partial_body_answers ["email"; "password"] login_text _ login_text_spells)
    _ (String.substring 20 100 login_text) _ _ _ _); by vm_compute.
Defined.

(** Closing brackets after the object are not noticed. *)
Example trailing_bracket_accepted :
  DecodeJSONHandler ["email"] (object_text false [("email", "a")] ++ "}}]") = inl [("email", "a")].
Proof. by vm_compute. Qed.
(** [null] is a payload of empty fields. *)
Example null_is_a_payload : DecodeJSONHandler ["email"] "null" = inl [("email", "")].
Proof. by vm_compute. Qed.
