(* ===== verification/ConfigSpec.v ===== *)
(** * Which environments load, and what a loaded configuration guarantees *)

From S2P Require Import Prelude.
From S2P Require Import GoLib.
From S2P Require Import Encoding.
From S2P Require Import Utils.
From S2P Require Import Model.
From S2P Require Import Runtime.
From S2P Require Import Password.
From S2P Require Import Json.
From S2P Require Import Http.
From S2P Require Import Config.
From S2P Require Import Toy.

#[local] Open Scope string_scope.
#[local] Open Scope Z_scope.

Lemma try_Ok {A B} (m : res A) (k : A → res B) b : try m k = Ok b → ∃ a, m = Ok a ∧ k a = Ok b.
Proof. destruct m; [|done]. eauto. Qed.

Ltac try_Ok H :=
  repeat match type of H with
  | try _ _ = Ok _ => let a := fresh "a" in let E := fresh "E" in apply try_Ok in H as (a & E & H); cbv beta in H
  end.

(** ** Integers *)

Lemma ParseInt_range s : min_int64 ≤ fst (ParseInt s) ≤ max_int64.
Proof.
  unfold ParseInt, min_int64, max_int64.
  destruct (match s with EmptyString => _ | _ => _ end) as [neg digits].
  destruct (parse_magnitude digits) as [n|]; [|cbn; lia].
  destruct neg; [destruct (Z.leb_spec (Z.of_N n) (2 ^ 63))|destruct (Z.ltb_spec (Z.of_N n) (2 ^ 63))]; cbn [fst]; lia.
Qed.

Lemma wrap_range w x : 0 < w → - 2 ^ (w - 1) ≤ wrap_signed w x < 2 ^ (w - 1).
Proof.
  intros Hw. unfold wrap_signed. pose proof (Z.mod_pos_bound (x + 2 ^ (w - 1)) (2 ^ w)).
  assert (2 ^ w = 2 * 2 ^ (w - 1)) as E.
  { replace w with (1 + (w - 1)) at 1 by lia. rewrite Z.pow_add_r by lia. lia. }
  assert (0 < 2 ^ (w - 1)) by (apply Z.pow_pos_nonneg; lia). lia.
Qed.

(** A product that fits is the product. *)
Lemma mul64_exact a b : min_int64 ≤ a * b ≤ max_int64 → mul64 a b = a * b.
Proof. unfold min_int64, max_int64, mul64. intros H. apply wrap_signed_id; lia. Qed.

Section spec.
Context `{KL : KeyLib}.
Context (getenv : string → string).

Definition required : list string :=
  ["DATABASE_URL"; "PASSWORD_PEPPERS"; "ACTIVE_PEPPER_ID"; "SENTRY_DSN"; "REDIS_ADDR"; "RESEND_API_KEY";
   "MFA_ENCRYPTION_KEY"; "JWT_PRIVATE_KEY_FILE"; "JWT_PUBLIC_KEY_FILE"].
Definition integers : list (string * string) :=
  [("REQUEST_RATE_LIMIT", "10"); ("REQUEST_TIMEOUT_SECONDS", "10"); ("LOGIN_MAX_FAILED_ATTEMPTS", "5");
   ("LOGIN_LOCK_DURATION_MINUTES", "15"); ("PASSWORD_RESET_TOKEN_TTL_MINUTES", "30")].

Lemma require_Ok k v : requireStringConfig getenv k = Ok v → v = getenv k ∧ getenv k ≠ "".
Proof. unfold requireStringConfig. destruct (String.eqb_spec (getenv k) ""); [done|]. by intros [= <-]. Qed.
Lemma parseInt_Ok k f v :
  parseIntConfig getenv k f = Ok v → ParseInt (getStringConfig getenv k f) = (v, true) ∧ min_int64 ≤ v ≤ max_int64.
Proof.
  unfold parseIntConfig. pose proof (ParseInt_range (getStringConfig getenv k f)) as Hr.
  destruct (ParseInt _) as [i []]; [|done]. by intros [= <-].
Qed.
Lemma mfa_key_Ok raw key : loadMFAEncryptionKey raw = Ok key → len key = 32.
Proof.
  unfold loadMFAEncryptionKey. destruct (StdEncoding_DecodeString raw); [|done].
  destruct (Z.eqb_spec (len s) 32); [|done]. by intros [= <-].
Qed.
Lemma parseList_nonempty k f x : x ∈ parseListConfig getenv k f → x ≠ "".
Proof.
  unfold parseListConfig. destruct (String.eqb _ _); [set_solver|]. intros Hx%list_elem_of_In.
  apply filter_In in Hx as [_ Hx]. bool_to_prop. done.
Qed.

(** What the environment says of a duration in units of [unit]. *)
Definition duration_of (key fallback : string) (unit d : Z) : Prop :=
  ∃ n, ParseInt (getStringConfig getenv key fallback) = (n, true)
    ∧ (min_int64 ≤ n * unit ≤ max_int64 → d = n * unit) ∧ min_int64 ≤ d ≤ max_int64.

Lemma duration_mul key fallback unit n :
  parseIntConfig getenv key fallback = Ok n → duration_of key fallback unit (mul64 n unit).
Proof.
  intros H. apply parseInt_Ok in H as [H _]. exists n. split_and!; [done|apply mul64_exact| |];
    pose proof (wrap_range 64 (n * unit) eq_refl) as Hw; unfold mul64, min_int64, max_int64; lia.
Qed.

(** What [Load] sees to in a configuration.  It does not look at the entries of the
    peppers, at the sign of the numbers, or at whether the two keys belong
    together. *)
Record load_guarantees (cfg : Config) : Prop := {
  ok_mfa_key : len (cfg_MFAEncryptionKey cfg) = 32;
  ok_strings : cfg_DSN cfg ≠ "" ∧ cfg_PasswordPeppersRaw cfg ≠ "" ∧ cfg_ActivePepperID cfg ≠ ""
    ∧ cfg_RedisAddress cfg ≠ "" ∧ cfg_ResendAPIKey cfg ≠ "" ∧ cfg_Env cfg ≠ "" ∧ cfg_Port cfg ≠ "";
  ok_origins : ("" ∉ cfg_AllowedOrigins cfg) ∧ ("" ∉ cfg_WebAuthnRPOrigins cfg);
  ok_ttls : 0 < cfg_OTP_TTL cfg ∧ 0 < cfg_MFAChallengeTTL cfg ∧ cfg_AccessTTL cfg < cfg_TemporaryTokenTTL cfg
    ∧ (0 < cfg_AccessTTL cfg < cfg_RefreshTTL cfg);
  ok_recovery : 0 ≤ cfg_MFARecoveryCodeCount cfg;
  ok_timeout : duration_of "REQUEST_TIMEOUT_SECONDS" "10" Second (cfg_RequestTimeout cfg);
  ok_lock : duration_of "LOGIN_LOCK_DURATION_MINUTES" "15" Minute (cfg_LoginLockDuration cfg);
  ok_reset : duration_of "PASSWORD_RESET_TOKEN_TTL_MINUTES" "30" Minute (cfg_PasswordResetTTL cfg);
  ok_rate : rate_Period (cfg_RateLimit cfg) = Second
}.

Lemma getString_nonempty k f : f ≠ "" → getStringConfig getenv k f ≠ "".
Proof. unfold getStringConfig. by destruct (String.eqb_spec (getenv k) ""). Qed.

(** The environments that load: every required variable is set, every number parses,
    the MFA key is 32 bytes in base64, and the key files hold Ed25519 keys. *)
Definition private_key : Prop := ∃ file type bytes key,
  os_ReadFile (getenv "JWT_PRIVATE_KEY_FILE") = Ok file ∧ pem_Decode file = Some (type, bytes)
  ∧ (type = "ENCRYPTED PRIVATE KEY" ∧ getenv "JWT_PRIVATE_KEY_PASSPHRASE" ≠ ""
       ∧ pkcs8_ParsePKCS8PrivateKey bytes (getenv "JWT_PRIVATE_KEY_PASSPHRASE") = Ok (Some key)
     ∨ type = "PRIVATE KEY" ∧ x509_ParsePKCS8PrivateKey bytes = Ok (Some key)).
Definition public_key : Prop := ∃ file bytes key,
  os_ReadFile (getenv "JWT_PUBLIC_KEY_FILE") = Ok file ∧ pem_Decode file = Some ("PUBLIC KEY", bytes)
  ∧ x509_ParsePKIXPublicKey bytes = Ok (Some key).
Record loadable : Prop := {
  lo_required : ∀ k, k ∈ required → getenv k ≠ "";
  lo_integers : ∀ k f, (k, f) ∈ integers → ∃ n, ParseInt (getStringConfig getenv k f) = (n, true);
  lo_float : ParseFloat_ok (getStringConfig getenv "SENTRY_SAMPLE_RATE" "1") = true;
  lo_mfa_key : ∃ key, StdEncoding_DecodeString (getenv "MFA_ENCRYPTION_KEY") = Some key ∧ len key = 32;
  lo_private : private_key;
  lo_public : public_key
}.

Lemma require_iff k : (∃ v, requireStringConfig getenv k = Ok v) ↔ getenv k ≠ "".
Proof. unfold requireStringConfig. destruct (String.eqb_spec (getenv k) ""); naive_solver. Qed.
Lemma parseInt_iff k f :
  (∃ v, parseIntConfig getenv k f = Ok v) ↔ ∃ n, ParseInt (getStringConfig getenv k f) = (n, true).
Proof. unfold parseIntConfig. destruct (ParseInt _) as [i []]; split; intros [v Hv]; simplify_eq; eauto. Qed.
Lemma parseFloat_iff k f : (∃ v, parseFloatConfig getenv k f = Ok v) ↔ ParseFloat_ok (getStringConfig getenv k f) = true.
Proof. unfold parseFloatConfig. destruct (ParseFloat_ok _); naive_solver. Qed.
Lemma mfa_key_iff raw :
  (∃ key, loadMFAEncryptionKey raw = Ok key) ↔ ∃ key, StdEncoding_DecodeString raw = Some key ∧ len key = 32.
Proof.
  unfold loadMFAEncryptionKey. destruct (StdEncoding_DecodeString raw) as [s|]; [|naive_solver].
  destruct (Z.eqb_spec (len s) 32); cbn [negb]; naive_solver.
Qed.
Lemma private_key_iff :
  (∃ key, loadPrivateKey getenv (getenv "JWT_PRIVATE_KEY_FILE") = Ok key) ↔ private_key.
Proof.
  unfold loadPrivateKey, private_key, readKeyFile, requireStringConfig, ed25519_key. split.
  - intros [key H]. destruct (os_ReadFile _) as [file|]; [|done]. cbn [try] in H.
    destruct (pem_Decode file) as [[type bytes]|] eqn:Ep; [|done].
    destruct (String.eqb_spec type "ENCRYPTED PRIVATE KEY") as [->|]; [|destruct (String.eqb_spec type "PRIVATE KEY") as [->|]; [|done]].
    + destruct (String.eqb_spec (getenv "JWT_PRIVATE_KEY_PASSPHRASE") ""); [done|]. cbn [try] in H.
      destruct (pkcs8_ParsePKCS8PrivateKey _ _) as [[k|]|] eqn:E; [|done..]. exists file, "ENCRYPTED PRIVATE KEY", bytes, k. auto 10.
    + destruct (x509_ParsePKCS8PrivateKey bytes) as [[k|]|] eqn:E; [|done..]. exists file, "PRIVATE KEY", bytes, k. auto 10.
  - intros (file & type & bytes & key & -> & Ep & H). cbn [try]. rewrite Ep. destruct H as [(-> & Hne & H)|[-> H]].
    + cbn. destruct (String.eqb_spec (getenv "JWT_PRIVATE_KEY_PASSPHRASE") ""); [done|]. cbn [try]. rewrite H. by eexists.
    + cbn. rewrite H. by eexists.
Qed.
Lemma public_key_iff :
  (∃ key, loadPublicKey (getenv "JWT_PUBLIC_KEY_FILE") = Ok key) ↔ public_key.
Proof.
  unfold loadPublicKey, public_key, readKeyFile, ed25519_key. split.
  - intros [key H]. destruct (os_ReadFile _) as [file|]; [|done]. cbn [try] in H.
    destruct (pem_Decode file) as [[type bytes]|] eqn:Ep; [|done].
    destruct (String.eqb_spec type "PUBLIC KEY") as [->|]; [|done].
    destruct (x509_ParsePKIXPublicKey bytes) as [[k|]|] eqn:E; [|done..]. exists file, bytes, k. auto 10.
  - intros (file & bytes & key & -> & Ep & H). cbn [try]. rewrite Ep. cbn. rewrite H. by eexists.
Qed.
Lemma loadable_loads : loadable → ∃ cfg, Load getenv = Ok cfg.
Proof.
  intros [Hreq Hint Hf Hm Hp Hq]. unfold Load.
  assert (∀ k, k ∈ required → requireStringConfig getenv k = Ok (getenv k)) as Hr.
  { intros k Hk. unfold requireStringConfig. destruct (String.eqb_spec (getenv k) ""); [by destruct (Hreq k Hk)|done]. }
  rewrite !Hr by (unfold required; set_solver). cbn [try].
  apply mfa_key_iff in Hm as [mk Hm]. apply private_key_iff in Hp as [pk Hp]. apply public_key_iff in Hq as [qk Hq].
  apply parseFloat_iff in Hf as [fl Hf]. rewrite Hm, Hp, Hq, Hf.
  assert (∀ k f, (k, f) ∈ integers → ∃ v, parseIntConfig getenv k f = Ok v) as Hi by (intros k f Hk; by apply parseInt_iff, Hint).
  destruct (Hi "REQUEST_RATE_LIMIT" "10") as [? ->]; [unfold integers; set_solver|].
  destruct (Hi "REQUEST_TIMEOUT_SECONDS" "10") as [? ->]; [unfold integers; set_solver|].
  destruct (Hi "LOGIN_MAX_FAILED_ATTEMPTS" "5") as [? ->]; [unfold integers; set_solver|].
  destruct (Hi "LOGIN_LOCK_DURATION_MINUTES" "15") as [? ->]; [unfold integers; set_solver|].
  destruct (Hi "PASSWORD_RESET_TOKEN_TTL_MINUTES" "30") as [? ->]; [unfold integers; set_solver|].
  by eexists.
Qed.

(** C39: the process starts exactly in the environments in which every required
    variable is set, every number parses, the MFA key decodes to 256 bits and the
    key files hold Ed25519 keys; and the configuration it then has is the checked
    one: no required string and no origin of a list is empty, the token lifetimes
    are positive and ordered, and a duration is the number of minutes or seconds
    given whenever that fits in 64 bits. *)
Theorem Load_checks :
  ((∃ cfg, Load getenv = Ok cfg) ↔ loadable)
  ∧ ∀ cfg, Load getenv = Ok cfg → load_guarantees cfg.
Proof.
  split; [split; [|apply loadable_loads]|].
  - intros [cfg H]. unfold Load in H. try_Ok H. clear H. split.
    + intros k Hk. apply require_iff. unfold required in Hk. set_unfold. destruct_or! Hk; subst; eauto.
    + intros k f Hk. apply parseInt_iff. unfold integers in Hk. set_unfold. destruct_or! Hk; simplify_eq; eauto.
    + apply parseFloat_iff. eauto.
    + apply mfa_key_iff. repeat match goal with E : requireStringConfig _ _ = Ok _ |- _ => apply require_Ok in E as [-> ?] end. eauto.
    + apply private_key_iff. repeat match goal with E : requireStringConfig _ _ = Ok _ |- _ => apply require_Ok in E as [-> ?] end. eauto.
    + apply public_key_iff. repeat match goal with E : requireStringConfig _ _ = Ok _ |- _ => apply require_Ok in E as [-> ?] end. eauto.
  - intros cfg. unfold Load. intros H. try_Ok H. injection H as <-.
    repeat match goal with
    | E : requireStringConfig _ _ = Ok _ |- _ => apply require_Ok in E as [-> ?]
    end. split; cbn; eauto using duration_mul, mfa_key_Ok.
    + split_and!; try done; by apply getString_nonempty.
    + split; intros Hx; by apply parseList_nonempty in Hx.
    + unfold Hour, Minute, Second. lia.
    + lia.
Qed.
End spec.

(** ** An example environment *)

#[export] Instance toy_keys : KeyLib := {
  os_ReadFile f := Ok f;
  pem_Decode s := if String.eqb s "pub.pem" then Some ("PUBLIC KEY", "k") else Some ("PRIVATE KEY", "k");
  x509_ParsePKCS8PrivateKey b := Ok (Some b);
  pkcs8_ParsePKCS8PrivateKey b p := Ok (Some b);
  x509_ParsePKIXPublicKey b := Ok (Some b);
  ParseFloat_ok s := true }.

Definition toy_vars : list (string * string) :=
  [("DATABASE_URL", "postgres:"); ("PASSWORD_PEPPERS", "p1:AAAA"); ("ACTIVE_PEPPER_ID", "p1"); ("SENTRY_DSN", "s");
   ("REDIS_ADDR", "redis:6379"); ("RESEND_API_KEY", "re"); ("JWT_PRIVATE_KEY_FILE", "key.pem");
   ("JWT_PUBLIC_KEY_FILE", "pub.pem"); ("ALLOWED_ORIGINS", "https://a.example, ,https://b.example");
   ("MFA_ENCRYPTION_KEY", "AAAAAAAAAAAAAAAAAAAAAAAAAAAAAAAAAAAAAAAAAAA=")].
Definition toy_env (timeout : string) (k : string) : string :=
  if String.eqb k "REQUEST_TIMEOUT_SECONDS" then timeout else values_Get toy_vars k.

Definition toy_config (timeout : string) : Config :=
  match Load (toy_env timeout) with Ok cfg => cfg | Err _ => Toy.cfg end.
Lemma toy_loads : Load (toy_env "20") = Ok (toy_config "20").
Proof. by vm_compute. Qed.

Lemma Load_checks_witness :
  loadable (toy_env "20") ∧ load_guarantees (toy_env "20") (toy_config "20").
Proof.
  destruct (Load_checks (toy_env "20")) as [Hiff Hok]. split; [|exact (Hok (toy_config "20") toy_loads)].
  apply Hiff. exact (ex_intro _ (toy_config "20") toy_loads).
Defined.

(** An active pepper that is not among the peppers loads, and no password can be
    hashed or verified. *)
Definition stray_env (k : string) : string := if String.eqb k "ACTIVE_PEPPER_ID" then "p2" else toy_env "20" k.
Example stray_pepper_loads :
  match Load stray_env with
  | Ok cfg => match NewStaticPepperManager (cfg_PasswordPeppersRaw cfg) (cfg_ActivePepperID cfg) with
              | Ok _ => False
              | Err _ => True
              end
  | Err _ => False
  end.
Proof. by vm_compute. Qed.

(** A timeout too large for 64 bits of nanoseconds wraps to a negative one. *)
Example timeout_wraps : cfg_RequestTimeout (toy_config "9223372037") = - 9223372036709551616.
Proof. by vm_compute. Qed.
