(* ===== verification/Returns.v ===== *)
(** * Requests return

    A request panics only where the code says so: on a nil Redis client, when
    the random source fails, for a negative number of recovery codes, or on an
    access token without an expiry.  Where none of that happens, every service
    returns, whatever calls fail. *)

From S2P Require Import Prelude.
From S2P Require Import GoLib.
From S2P Require Import Utils.
From S2P Require Import Model.
From S2P Require Import Runtime.
From S2P Require Import Logic.
From S2P Require Import Queries.
From S2P Require Import Password.
From S2P Require Import Tokens.
From S2P Require Import Codes.
From S2P Require Import Signup.
From S2P Require Import Mfa.
From S2P Require Import Login.
From S2P Require Import Session.
From S2P Require Import PasswordFlows.
From S2P Require Import Sso.
From S2P Require Import Maintenance.
From S2P Require Import Admin.
From S2P Require Import Passkey.
From S2P Require Import Requests.
From S2P Require Import Toy.

#[local] Open Scope string_scope.
#[local] Open Scope Z_scope.
#[local] Open Scope go_scope.

(** The conditions under which nothing panics; calls may fail. *)
Record healthy (e : Env) : Prop := {
  healthy_redis : e_redis_nil e = false;
  healthy_random : ∀ n, e_rand_int e n ≠ None;
  healthy_recovery : 0 ≤ cfg_MFARecoveryCodeCount (e_cfg e)
}.

Definition returns {A} (e : Env) (m : Go A) : Prop := ∀ w, (m e w).1 ≠ None.

Section rules.
Context (e : Env) (He : healthy e).

Lemma returns_ret {A} (a : A) : returns e (ret a).
Proof. by intros w. Qed.
Lemma returns_bind {A B} (m : Go A) (k : A → Go B) : returns e m → (∀ a, returns e (k a)) → returns e (bind m k).
Proof.
  intros Hm Hk w. specialize (Hm w). unfold bind. destruct (m e w) as [[a|] w']; [apply Hk|done].
Qed.
Lemma returns_primitive {A} (f : Env → World → A) (g : World → World) : returns e (λ e w, (Some (f e w), g w)).
Proof. by intros w. Qed.
Lemma returns_db_stmt {A} (st : Stmt A) : returns e (db_stmt st).
Proof. intros w. unfold db_stmt. destruct (run_stmt _ _ _). by destruct (e_fault _ _). Qed.
Lemma returns_redis_call {A} f : returns e (@redis_call A f).
Proof.
  intros w. unfold redis_call. rewrite (healthy_redis e He). destruct (f _ _). by destruct (e_fault _ _).
Qed.
Lemma returns_send_mail m : returns e (send_mail m).
Proof. intros w. unfold send_mail. by destruct (e_fault _ _). Qed.
Lemma returns_SetActorID a : returns e (SetActorID a).
Proof. intros w. unfold SetActorID. by destruct (e_fault _ _). Qed.
Lemma returns_WithTx {A} (fn : Go (res A)) : returns e fn → returns e (WithTx fn).
Proof.
  intros H w. unfold WithTx. destruct (e_fault e (w_tick w)); [|done..].
  specialize (H (set_w_tx (Some (mkTx (e_clock e (w_tick w)) "")) (tick w))).
  destruct (fn _ _) as [[[a|err]|] w2]; [|done..]. by destruct (e_fault e (w_tick w2)).
Qed.
Lemma returns_WithActor {A} a (fn : Go (res A)) : returns e fn → returns e (WithActor a fn).
Proof.
  intros H. apply returns_WithTx, returns_bind; [apply returns_SetActorID|].
  intros [?|?]; [done|apply returns_ret].
Qed.
Lemma returns_for_each {A B} (f : A → Go B) l : (∀ a, returns e (f a)) → returns e (for_each f l).
Proof.
  intros H. induction l as [|a l IH]; [apply returns_ret|]. by apply returns_bind.
Qed.
Lemma returns_for_each_ok {A} (f : A → Go (res unit)) l : (∀ a, returns e (f a)) → returns e (for_each_ok f l).
Proof.
  intros H. induction l as [|a l IH]; [apply returns_ret|]. apply returns_bind; [done|].
  intros [?|?]; [done|apply returns_ret].
Qed.
Lemma returns_GenerateCode : returns e GenerateCode.
Proof.
  intros w. unfold GenerateCode, rand_int, bind. pose proof (healthy_random e He (w_tick w)).
  by destruct (e_rand_int e (w_tick w)).
Qed.
Lemma returns_cfg {A} (k : Config → Go A) : returns e (k (e_cfg e)) → returns e (bind get_cfg k).
Proof. intros H w. apply H. Qed.
End rules.

Create HintDb returns.
#[export] Hint Resolve returns_ret returns_db_stmt returns_redis_call returns_send_mail returns_SetActorID
  returns_GenerateCode : returns.
#[export] Hint Extern 1 (returns _ now) => apply returns_primitive : returns.
#[export] Hint Extern 1 (returns _ new_uuid) => apply returns_primitive : returns.
#[export] Hint Extern 1 (returns _ (rand_read _)) => apply returns_primitive : returns.
#[export] Hint Extern 1 (returns _ rand_int) => apply returns_primitive : returns.
#[export] Hint Extern 1 (returns _ burn) => apply returns_primitive : returns.
#[export] Hint Extern 1 (returns _ get_cfg) => apply returns_primitive : returns.
#[export] Hint Extern 1 (returns _ redis_is_nil) => apply returns_primitive : returns.


(** Walk along the code, opening the functions it calls. *)
Ltac returns_step :=
  match goal with
  | |- returns _ (bind get_cfg _) => apply returns_cfg; cbv beta
  | |- returns _ (bind _ _) => apply returns_bind; [|intros ?]
  | |- returns _ (WithActor _ _) => apply returns_WithActor
  | |- returns _ (WithTx _) => apply returns_WithTx
  | |- returns _ (for_each _ _) => apply returns_for_each; intros ?
  | |- returns _ (for_each_ok _ _) => apply returns_for_each_ok; intros ?
  | |- returns _ (match ?x with _ => _ end) => destruct x
  | |- returns _ (let '_ := ?x in _) => destruct x
  | |- returns _ _ => solve [eauto with returns]
  | |- returns _ ?m => let h := head_of m in unfold h
  end.
Ltac returns := intros; repeat returns_step.

Section services.
Context `{TL : TextLib} `{UL : UuidLib} `{HL : HashLib} `{JL : JwtLib} `{OL : TotpLib} `{AL : AeadLib}
  `{WL : WebAuthnLib} `{CL : TimeLib} `{OI : OidcLib} `{JLaws : !JwtLaws JL}.
Context (e : Env) (He : healthy e).

Lemma returns_try_peppers peps password salt want p : returns e (try_peppers peps password salt want p).
Proof. induction peps as [|[id pep] peps IH]; cbn [try_peppers]; [returns|]. unfold IDKey. returns. Qed.
Hint Resolve returns_try_peppers : returns.
Lemma returns_VerifyDummyPassword p : returns e (VerifyDummyPassword p).
Proof. unfold VerifyDummyPassword. cbn [Split dummyPHC Ascii.eqb Bool.eqb]. unfold IDKey. returns. Qed.
Hint Resolve returns_VerifyDummyPassword : returns.
Lemma returns_recovery_codes n a b : returns e (generate_recovery_codes n a b).
Proof.
  revert a b. induction n as [|n IH]; intros a b; cbn [generate_recovery_codes]; [returns|].
  apply returns_bind; [returns|]. intros [x|err]; [apply IH|returns].
Qed.
Hint Resolve returns_recovery_codes : returns.
Lemma returns_generateRecoveryCodes :
  returns e (generateRecoveryCodes (cfg_MFARecoveryCodeCount (e_cfg e))).
Proof.
  unfold generateRecoveryCodes. pose proof (healthy_recovery e He).
  destruct (Z.ltb_spec (cfg_MFARecoveryCodeCount (e_cfg e)) 0); [lia|returns].
Qed.
Hint Resolve returns_generateRecoveryCodes : returns.
Lemma returns_try_usernames base a n : returns e (try_usernames base a n).
Proof. revert a. induction n as [|n IH]; intros a; cbn [try_usernames]; [returns|]. returns; apply IH. Qed.
Hint Resolve returns_try_usernames : returns.
Lemma returns_update_used rows a b : returns e (update_used_credential rows a b).
Proof. induction rows as [|r rows IH]; cbn [update_used_credential]; returns. Qed.
Hint Resolve returns_update_used : returns.
Lemma returns_run_jobs js failed : returns e (run_jobs js failed).
Proof. revert failed. induction js as [|j js IH]; intros failed; cbn [run_jobs]; returns; apply IH. Qed.
Hint Resolve returns_run_jobs : returns.


(** The parser that demands an expiry returns claims that have one. *)
Lemma parseJWT_expiry h w :
  match (parseJWT h false e w).1 with Some (Ok c) => jc_ExpiresAt c ≠ None | Some (Err _) => True | None => False end.
Proof.
  unfold parseJWT. destruct (_ || _); [done|]. unfold bind, get_cfg, now; cbn.
  destruct (jwt_ParseWithClaims _ _ _ _) as [c|] eqn:E; [|done]; cbn.
  destruct (jwt_parse_validates _ _ _ _ _ E eq_refl) as (_ & _ & H & _).
  by destruct (H eq_refl) as [x ->].
Qed.
Lemma returns_VerifyAndParseTemporaryJWT h role : returns e (VerifyAndParseTemporaryJWT h role).
Proof.
  intros w. unfold VerifyAndParseTemporaryJWT. unfold bind at 1. pose proof (parseJWT_expiry h w) as H.
  destruct (parseJWT h false e w) as [[[c|err]|] w']; cbn in H |- *; [|done|done].
  destruct (_ || _); [done|]. destruct (jc_ExpiresAt c); [|done]. revert w'. 
  match goal with |- ∀ w', (?m e w').1 ≠ None => change (returns e m) end. returns.
Qed.
Lemma returns_VerifyAndParseJWT h : returns e (VerifyAndParseJWT h).
Proof.
  intros w. unfold VerifyAndParseJWT. unfold bind at 1. pose proof (parseJWT_expiry h w) as H.
  destruct (parseJWT h false e w) as [[[c|err]|] w']; cbn in H |- *; [|done|done].
  destruct (_ || _); [done|]. destruct (jc_ExpiresAt c); [|done]. revert w'.
  match goal with |- ∀ w', (?m e w').1 ≠ None => change (returns e m) end. returns.
Qed.
Hint Resolve returns_VerifyAndParseTemporaryJWT returns_VerifyAndParseJWT : returns.

(** Where Redis is configured, the random source answers and the number of
    recovery codes is not negative, every service returns: no request, from any
    state and whichever calls fail, panics. *)
Lemma requests_return (r : request) w : (run_request r e w).1 ≠ None.
Proof.
  revert w. change (returns e (run_request r)). destruct r; cbn [run_request]; returns.
Qed.
End services.

(** ** An example: every second call is lost *)

Import Toy.

Definition flaky : Env :=
  mkEnv cfg false (e_clock env) (λ n, if Nat.even n then FLost else FNone) (e_uuid env) (e_rand_read env)
    (e_rand_int env) (e_gen_uuid env).
Lemma flaky_healthy : healthy flaky.
Proof. by split. Qed.

Lemma requests_return_witness :
  (example_ban = RBanUser nobody "admin" "root" joined_id "spam")
  ∧ (run_request example_ban flaky (world joined_db)).1 = Some ().
Proof.
  split; [reflexivity|]. pose proof (requests_return flaky flaky_healthy example_ban (world joined_db)) as H.
  destruct (run_request example_ban flaky (world joined_db)).1 as [[]|]; [reflexivity|].
  exfalso. exact (H eq_refl).
Defined.
