(* ===== verification/LifecycleSpec.v ===== *)
(** * The life of a session

    An abstract machine for one session: absent, live with its owner, token hash
    and expiry, or revoked.  It opens once, its token is replaced only by who
    presents the current one, and revocation is final.  Every request, whatever
    fails, moves the row of a session along this machine, by events its kind of
    request may cause. *)

From S2P Require Import Prelude.
From S2P Require Import GoLib.
From S2P Require Import Utils.
From S2P Require Import Model.
From S2P Require Import Runtime.
From S2P Require Import Logic.
From S2P Require Import Queries.
From S2P Require Import Store.
From S2P Require Import Password.
From S2P Require Import Tokens.
From S2P Require Import Codes.
From S2P Require Import Signup.
From S2P Require Import Login.
From S2P Require Import Session.
From S2P Require Import Sso.
From S2P Require Import Admin.
From S2P Require Import Passkey.
From S2P Require Import Frames.
From S2P Require Import Walks.
From S2P Require Import Toy.
From S2P Require Import Requests.
From S2P Require Import Scenes.
From S2P Require Import SessionSpec.
From stdpp Require Import relations.

#[local] Open Scope string_scope.
#[local] Open Scope Z_scope.
#[local] Open Scope go_scope.

(** ** The machine *)

Inductive life :=
  | Absent
  | Live (owner : option uuid) (hash : option string) (expires : Z)
  | Revoked (owner : option uuid) (hash : option string) (expires : Z).

Inductive event :=
  | Open
  | Rotate (user hash : string)
  | Revoke.

Inductive life_step `{UL : UuidLib} : event → life → life → Prop :=
  | step_open u h x : life_step Open Absent (Live u h x)
  | step_rotate u h x h' x' :
      life_step (Rotate (ouuid_String u) (text_String h)) (Live u h x) (Live u h' x')
  | step_revoke u h x : life_step Revoke (Live u h x) (Revoked u h x).

(** The machine under a set of events. *)
Definition moves `{UL : UuidLib} (may : event → Prop) : relation life := rtc (λ s s', ∃ ev, may ev ∧ life_step ev s s').

(** ** The abstraction *)

Definition life_of_row (s : Session) : life :=
  if sql_eq (se_Revoked s) (Some true) then Revoked (se_UserID s) (se_RefreshTokenHash s) (se_ExpiresAt s)
  else Live (se_UserID s) (se_RefreshTokenHash s) (se_ExpiresAt s).
Definition life_of (sid : uuid) (d : DB) : life :=
  match select (id_is se_ID (Some sid)) (sessions d) with
  | s :: _ => life_of_row s
  | [] => Absent
  end.

(** ** What a request may do to a session *)

Definition signs_in `{WL : WebAuthnLib} (r : request) : bool :=
  match r with
  | RCompleteEmailJoin _ _ _ _ | RLogin _ _ _ | RVerifyMFALogin _ _ _ _ | RSSOLogin _ _ _ _
  | RFinishPasskeyLogin _ _ _ _ => true
  | _ => false
  end.

Definition may_cause `{WL : WebAuthnLib} `{UL : UuidLib} `{HL : HashLib} (r : request) (sid : uuid) (ev : event) : Prop :=
  match ev with
  | Revoke => True
  | Open => signs_in r = true
  | Rotate user hash =>
      ∃ s raw, r = RRefreshToken s user raw ∧ uuid_Parse s = Some sid ∧ hash = HashOpaqueToken raw
  end.

(** Stores whose rows of [sid] are related by the machine. *)
Definition lives `{UL : UuidLib} (may : event → Prop) (sid : uuid) : relation DB := λ d d', moves may (life_of sid d) (life_of sid d').
#[export] Instance lives_preorder `{UL : UuidLib} may sid : PreOrder (lives may sid).
Proof. split; [intros d; apply rtc_refl|]. intros d1 d2 d3 H12 H23. exact (rtc_trans _ _ _ H12 H23). Qed.

Section lives.
Context `{TL : TextLib} `{UL : UuidLib} `{HL : HashLib} `{JL : JwtLib} `{OL : TotpLib} `{AL : AeadLib}
  `{WL : WebAuthnLib} `{CL : TimeLib} `{OI : OidcLib}.
Context (may : event → Prop) (sid : uuid) (Hrevoke : may Revoke).

Lemma moves_once ev s s' : may ev → life_step ev s s' → moves may s s'.
Proof. intros Hm Hs. apply rtc_once. eauto. Qed.

Lemma lives_same d d' : sessions d' = sessions d → lives may sid d d'.
Proof. intros H. unfold lives, life_of. rewrite H. apply rtc_refl. Qed.

(** An update that moves the rows of [sid] moves the session. *)
Lemma lives_update p f d d' :
  sessions d' = update p f (sessions d) → (∀ s, se_ID (f s) = se_ID s) →
  (∀ s, fetch_one (id_is se_ID (Some sid)) (sessions d) = Ok s → p s = true →
     moves may (life_of_row s) (life_of_row (f s))) →
  lives may sid d d'.
Proof.
  intros Hd Hid Hmove. unfold lives, life_of. unfold fetch_one in Hmove.
  rewrite Hd, select_update by (intros s _; unfold id_is; by rewrite Hid).
  destruct (select _ (sessions d)) as [|s l]; [apply rtc_refl|]. cbn [update List.map].
  destruct (p s) eqn:Hp; [by apply Hmove|apply rtc_refl].
Qed.

Lemma revoke_moves s s' :
  se_Revoked s = Some false → se_Revoked s' = Some true → se_UserID s' = se_UserID s →
  se_RefreshTokenHash s' = se_RefreshTokenHash s → se_ExpiresAt s' = se_ExpiresAt s →
  moves may (life_of_row s) (life_of_row s').
Proof.
  intros H H' Hu Hh Hx. unfold life_of_row. rewrite H, H', Hu, Hh, Hx. cbn.
  apply (moves_once Revoke); [done|constructor].
Qed.

Lemma lives_revoke p f d d' :
  sessions d' = update p f (sessions d) → (∀ s, p s = true → se_Revoked s = Some false) →
  (∀ s, se_ID (f s) = se_ID s ∧ se_Revoked (f s) = Some true ∧ se_UserID (f s) = se_UserID s
     ∧ se_RefreshTokenHash (f s) = se_RefreshTokenHash s ∧ se_ExpiresAt (f s) = se_ExpiresAt s) →
  lives may sid d d'.
Proof.
  intros Hd Hp Hf. eapply lives_update; [done|intros s; apply Hf|]. intros s _ Hs.
  destruct (Hf s) as (_ & ? & ? & ? & ?). apply revoke_moves; auto.
Qed.

Lemma lives_untouched d d' : untouched d d' → lives may sid d d'.
Proof. intros [_ Hs]. by apply lives_same. Qed.

Lemma lives_users p f : st_in (lives may sid) (update_users p f).
Proof. intros c d a d' (l & _ & Hs & _)%update_users_frame. by apply lives_same. Qed.
Lemma lives_insert_user a b c d : st_in (lives may sid) (insert_user a b c d).
Proof. intros ????. unfold insert_user. destruct (checks _); [done|]. intros [= _ <-]. by apply lives_same. Qed.

Ltac lives_stmt :=
  open_stmt;
  first [ apply lives_untouched; stmt_untouched | by apply lives_same
        | eapply lives_revoke; [reflexivity|intros s Hs; unfold active_session_of in Hs; bool_to_prop; congruence|by intros s] ].

#[export] Instance lives_plain : Plain (lives may sid).
Proof.
  split; [typeclasses eauto|..]; try solve [lives_stmt]. intros id c. apply lives_users.
Qed.
#[export] Instance lives_joins : Joins (lives may sid).
Proof. split; intros; apply lives_insert_user. Qed.
#[export] Instance lives_sets_role : SetsRole (lives may sid).
Proof. intros role id. apply lives_users. Qed.
#[export] Instance lives_deletes_users : DeletesUsers (lives may sid).
Proof. intros id c. apply lives_users. Qed.
#[export] Instance lives_sets_status : SetsStatus (lives may sid).
Proof. intros status id. apply lives_users. Qed.

(** A session opens where there was none. *)
#[export] Instance lives_opens : may Open → Opens (lives may sid).
Proof.
  intros Hopen id user x h ip ua c d s d'. unfold CreateRefreshSession. destruct (checks _) eqn:Hck; [done|].
  intros [= _ <-]. apply checks_cons in Hck as [Hfresh%negb_true_iff _].
  unfold lives, life_of, id_is. cbn [sessions set_sessions sql_eq].
  unfold select. rewrite List.filter_app. cbn [List.filter se_ID].
  destruct (bool_decide_reflect (id = sid)) as [->|Hne]; [|rewrite app_nil_r; apply rtc_refl].
  apply select_none in Hfresh. unfold select in Hfresh. rewrite Hfresh. cbn.
  apply (moves_once Open); [done|constructor].
Qed.

(** ** A token is replaced only by who presents it *)
Lemma RotateRefreshSession_lives hash x id c d a d' :
  (∀ s, id = sid → GetRefreshSession (Some sid) c d = Ok s →
     may (Rotate (ouuid_String (se_UserID s)) (text_String (se_RefreshTokenHash s)))) →
  RotateRefreshSession hash x (Some id) c d = (Ok a, d') → lives may sid d d'.
Proof.
  intros Hmay. unfold RotateRefreshSession. destruct (fetch_one _ _); [|done]. intros [= _ <-].
  eapply lives_update; [done|done|]. intros s Hs [H H1]%andb_true_iff.
  apply sql_eq_true in H1 as (b & Hb & [= <-]). assert (may (Rotate (ouuid_String (se_UserID s)) (text_String (se_RefreshTokenHash s)))) as Hm.
  { apply Hmay; [|done]. apply id_is_true in H. apply fetch_one_Ok in Hs as [_ Hs%id_is_true]. congruence. }
  unfold life_of_row. cbn. rewrite Hb. cbn.
  apply (moves_once _ _ _ Hm). constructor.
Qed.

Lemma wp_lives {A} d0 (m : Go A) e w :
  db_tracks (lives may sid) m → lives may sid d0 (w_db w) → wp m e (λ _ w', lives may sid d0 (w_db w')) w.
Proof. intros Hm Hd. apply (wp_db_tracks (lives may sid)); [done|]. intros o w' Hw. by transitivity (w_db w). Qed.

Ltac idle :=
  apply wp_lives; [db_tracks|cbn; repeat match goal with E : w_db _ = w_db _ |- _ => rewrite E; clear E end; reflexivity].

Lemma RefreshToken_lives s user raw :
  (uuid_Parse s = Some sid → may (Rotate user (HashOpaqueToken raw))) → db_tracks (lives may sid) (RefreshToken s user raw).
Proof.
  intros Hmay e w. change (wp (RefreshToken s user raw) e (λ _ w', lives may sid (w_db w) (w_db w')) w).
  unfold RefreshToken. destruct (_ || _); [apply wp_ret; reflexivity|].
  destruct (uuid_Parse s) as [spg|] eqn:Hs; [|apply wp_ret; reflexivity].
  wp_step. wp_frame; [|by rewrite <- H].
  destruct r as [v|err]; [|idle]. destruct (negb _); [idle|].
  wp_step. wp_step; [idle|]. rename a into row, H0 into Hrow. destruct (session_mismatch _ _ _) eqn:Hm; [idle|].
  wp_step. wp_step; [idle|]. destruct (not_usable _ _); [idle|].
  wp_step. wp_step. wp_step. wp_frame; [|cbn in *; by rewrite H, H1].
  destruct r as [tp|]; [|cbn in *; idle].
  apply session_mismatch_false in Hm as (_ & <- & Hh).
  wp_step. apply wp_db_stmt; [intros ?; cbn in *; idle|].
  intros a' d' Hrot; split; wp_step; rewrite H; cbn in *; rewrite H1;
    (eapply RotateRefreshSession_lives; [|exact Hrot]); intros s0 -> Hs0; unfold GetRefreshSession in *; rewrite <- H1, Hrow in Hs0;
    injection Hs0 as <-; rewrite Hh; by apply Hmay.
Qed.
End lives.

Section lifecycle.
Context `{TL : TextLib} `{UL : UuidLib} `{HL : HashLib} `{JL : JwtLib} `{OL : TotpLib} `{AL : AeadLib}
  `{WL : WebAuthnLib} `{CL : TimeLib} `{OI : OidcLib}.

(** C4: every request implements the session machine: whatever fails, it moves
    the row of any session by events its kind of request may cause - a sign-in
    opens it, a refresh replaces the token only for the session it names and by
    presenting the owner and the current token, and revocation is final. *)
Theorem requests_refine_session_machine r sid e w :
  moves (may_cause r sid) (life_of sid (w_db w)) (life_of sid (w_db (final (run_request r) e w))).
Proof.
  assert (Plain (lives (may_cause r sid) sid)) as Hp by (by apply lives_plain).
  pose proof (lives_sets_status (may_cause r sid) sid) as Hst. pose proof (lives_joins (may_cause r sid) sid) as Hj.
  pose proof (lives_sets_role (may_cause r sid) sid) as Hr. pose proof (lives_deletes_users (may_cause r sid) sid) as Hd.
  enough (db_tracks (lives (may_cause r sid) sid) (run_request r)) as H by apply H.
  destruct (signs_in r) eqn:Hin.
  - pose proof (lives_opens (may_cause r sid) sid Hin) as Ho. destruct r; try discriminate Hin; cbn [run_request]; db_tracks.
  - destruct r; try discriminate Hin; cbn [run_request]; unfold BanUser, UnbanUser, DisableUser, EnableUser; db_tracks.
    apply RefreshToken_lives; [done|]. intros Hs. exists sessionID, rawRefreshToken. done.
Qed.

(** The machine never leaves [Revoked], never forgets a session, and keeps its owner. *)
Definition owner (s : life) : option (option uuid) :=
  match s with Absent => None | Live u _ _ | Revoked u _ _ => Some u end.
Lemma moves_owner may s s' u : moves may s s' → owner s = Some u → owner s' = Some u.
Proof. induction 1 as [|s1 s2 s3 (ev & _ & Hs) _ IH]; [done|]. intros H. apply IH. by destruct Hs. Qed.
Lemma moves_revoked may u h x s' : moves may (Revoked u h x) s' → s' = Revoked u h x.
Proof. inversion 1 as [|? ? ? (ev & _ & Hs) _]; [done|]. inversion Hs. Qed.
Lemma moves_weaken (may may' : event → Prop) s s' : (∀ ev, may ev → may' ev) → moves may s s' → moves may' s s'.
Proof. intros H. apply rtc_subrel. intros ? ? (ev & Hm & Hs). eauto. Qed.

(** The same for histories. *)
Lemma history_refines_session_machine sid d d' :
  reachable d d' →
  moves (λ _, True) (life_of sid d) (life_of sid d')
  ∧ (∀ u, owner (life_of sid d) = Some u → owner (life_of sid d') = Some u)
  ∧ (∀ u h x, life_of sid d = Revoked u h x → life_of sid d' = Revoked u h x).
Proof.
  intros H. assert (moves (λ _, True) (life_of sid d) (life_of sid d')) as Hm.
  { induction H as [|d1 d2 d3 [r e w <- <-] _ IH]; [apply rtc_refl|]. eapply rtc_trans; [|exact IH].
    eapply moves_weaken; [|apply requests_refine_session_machine]. done. }
  split_and!; [done|intros u; by eapply moves_owner|]. intros u h x E. rewrite E in Hm. by eapply moves_revoked.
Qed.
End lifecycle.

(** ** Example: Ann's session is live, rotates, and is revoked *)

Import Toy.

Example ann_session_lives :
  owner (life_of (se_ID ann_session) (w_db w_in)) = owner (life_of (se_ID ann_session) (w_db w_out))
  ∧ life_of (se_ID ann_session) empty_db = Absent
  ∧ life_of (se_ID ann_session) (w_db w_out)
      = Revoked (se_UserID ann_session) (se_RefreshTokenHash ann_session) (se_ExpiresAt ann_session).
Proof. vm_compute. done. Qed.
