(* ===== verification/StartupSpec.v ===== *)
(** * A server that started does not panic

    What [main] checks before it serves is what the services rely on: with a
    Redis client, a loaded configuration and a working random source, no handler
    and no layer panics, whatever a client sends and whichever calls fail. *)

From S2P Require Import Prelude.
From S2P Require Import GoLib.
From S2P Require Import Utils.
From S2P Require Import Model.
From S2P Require Import Runtime.
From S2P Require Import Logic.
From S2P Require Import Queries.
From S2P Require Import Store.
From S2P Require Import Password.
From S2P Require Import Tokens.
From S2P Require Import Codes.
From S2P Require Import Signup.
From S2P Require Import Mfa.
From S2P Require Import Login.
From S2P Require Import Session.
From S2P Require Import PasswordFlows.
From S2P Require Import Sso.
From S2P Require Import Maintenance.
From S2P Require Import Admin.
From S2P Require Import Passkey.
From S2P Require Import Requests.
From S2P Require Import Json.
From S2P Require Import Http.
From S2P Require Import Config.
From S2P Require Import Routes.
From S2P Require Import Handlers.
From S2P Require Import Middleware.
From S2P Require Import Server.
From S2P Require Import Startup.
From S2P Require Import Toy.
From S2P Require Import ToyServer.
From S2P Require Import ConfigSpec.
From S2P Require Import Returns.

#[local] Open Scope string_scope.
#[local] Open Scope Z_scope.
#[local] Open Scope go_scope.

(** ** Handlers return *)
Section handlers.
Context `{TL : TextLib} `{UL : UuidLib} `{HL : HashLib} `{JL : JwtLib} `{OL : TotpLib} `{AL : AeadLib}
  `{WL : WebAuthnLib} `{CL : TimeLib} `{OI : OidcLib} `{JN : !JsonLib WL} `{LL : LimiterLib} `{RL : RouterLib}
  `{JLaws : !JwtLaws JL}.
Context (e : Env) (He : healthy e) (svcs : Services).

Lemma returned_by {A} (r : request) (m : Go A) : run_request r = (m ;;; ret ()) → returns e m.
Proof.
  intros E w. pose proof (requests_return e He r w) as H. rewrite E in H. unfold bind in H.
  by destruct (m e w) as [[a|] w'].
Qed.

Lemma returns_VerifyOIDCToken a b c d : returns e (VerifyOIDCToken a b c d).
Proof. returns. Qed.
Hint Resolve returns_VerifyOIDCToken : returns.

Ltac handler_step :=
  lazymatch goal with
  | |- returns _ (answer ?m _) =>
      apply returns_bind; [let r := request_of m in apply (returned_by r); reflexivity|intros [?|?]]
  | |- _ => returns_step
  end.
Ltac handler := intros; repeat handler_step.

Definition handle_returns (h : Handle) : Prop := ∀ r ps ctx, returns e (h r ps ctx).

Lemma registered_return x : x ∈ registered svcs → handle_returns (snd x).
Proof.
  revert x. apply Forall_forall.
  unfold registered, open_routes, token_routes, session_routes, admin_routes. cbn [List.app List.map gated].
  repeat first [apply Forall_nil_2|apply Forall_cons_2]; intros r ps ctx; cbn [snd GET POST DELETE]; handler.
Qed.

Context `{!LimiterLaws LL} `{!RouterLaws RL}.

Lemma router_returns r ctx : returns e (router svcs r ctx).
Proof.
  unfold router. destruct (router_serve _ _) as [h ps| | |resp] eqn:E; [|returns..].
  destruct (router_sound _ _ _ _ _ E) as (pat & Hin & _). exact (registered_return _ Hin r ps ctx).
Qed.

(** ** Layers settle: they return what they wrote *)

Definition settles (m : Go served) : Prop := ∀ w, ∃ wr, (m e w).1 = Some (Returned wr).

Lemma settles_ret wr : settles (ret (Returned wr)).
Proof. intros w. by exists wr. Qed.
Lemma settles_bind {A} (m : Go A) k : returns e m → (∀ a, settles (k a)) → settles (bind m k).
Proof.
  intros Hm Hk w. specialize (Hm w). unfold bind. destruct (m e w) as [[a|] w']; [apply Hk|done].
Qed.
Lemma settles_attempt {A} (m : Go A) wr k : returns e m → (∀ a, settles (k a)) → settles (attempt m wr k).
Proof.
  intros Hm Hk w. specialize (Hm w). unfold attempt, catch, bind. destruct (m e w) as [[a|] w']; [apply Hk|done].
Qed.
Lemma settles_write_error err wr : settles (write_error err wr).
Proof. intros w. by eexists. Qed.
Lemma checkRateLimit_returns k : returns e (checkRateLimit k).
Proof.
  unfold checkRateLimit. apply returns_bind; [|returns]. intros w.
  exact (limiter_returns k e w (healthy_redis e He)).
Qed.
Lemma TimeoutMiddleware_settles next r ctx wr :
  returns e (next r ctx) → settles (TimeoutMiddleware next r ctx wr).
Proof.
  intros Hn w. unfold TimeoutMiddleware, bind, get_cfg, now, catch; cbn.
  match goal with |- context [next r ctx e ?w1] => specialize (Hn w1); destruct (next r ctx e w1) as [[resp|] w2] end;
    [|done]. cbn. by destruct (_ <=? _); eexists.
Qed.
Hint Resolve checkRateLimit_returns router_returns returns_VerifyAndParseTemporaryJWT returns_VerifyAndParseJWT : returns.

(** The layers whose panics [LoggerMiddleware] would recover. *)
Definition guarded : Layer :=
  JSONMiddleware (ResponseHeadersMiddleware (RateLimitMiddleware (JWTMiddleware (UserRateLimitMiddleware
    (TimeoutMiddleware (router svcs)))))).
Lemma stack_guarded : BuildHandlerStack svcs = RequestIDMiddleware (LoggerMiddleware guarded).
Proof. reflexivity. Qed.

Ltac settle_step :=
  match goal with
  | |- settles (TimeoutMiddleware _ _ _ _) => apply TimeoutMiddleware_settles
  | |- settles (attempt _ _ _) => apply settles_attempt; [|intros ?]
  | |- settles (bind _ _) => apply settles_bind; [|intros ?]
  | |- settles (write_error _ _) => apply settles_write_error
  | |- settles (ret _) => apply settles_ret
  | |- settles (match ?x with _ => _ end) => destruct x
  | |- settles ?m => let h := head_of m in unfold h
  | |- returns _ _ => solve [eauto with returns|returns]
  end.
Lemma guarded_settles r ctx wr : settles (guarded r ctx wr).
Proof.
  repeat settle_step.
Qed.
End handlers.

(** ** From [main] to the handlers *)

(** An environment of the server [main] started: the configuration it loaded,
    and its Redis client.  The random source answers; any other call may fail. *)
Record serves (cfg : Config) (e : Env) : Prop := {
  serves_cfg : e_cfg e = cfg;
  serves_redis : e_redis_nil e = false;
  serves_random : ∀ n, e_rand_int e n ≠ None
}.

Section started.
Context `{TL : TextLib} `{UL : UuidLib} `{HL : HashLib} `{JL : JwtLib} `{OL : TotpLib} `{AL : AeadLib}
  `{WL : WebAuthnLib} `{CL : TimeLib} `{OI : OidcLib} `{JN : !JsonLib WL} `{LL : LimiterLib} `{RL : RouterLib}
  `{KL : KeyLib} `{SL : !StartLib OI WL}.

Lemma main_Ok getenv cfg svcs :
  main getenv = Ok (cfg, svcs) →
  Load getenv = Ok cfg ∧ cfg_MFARecoveryCodeCount cfg = 10
  ∧ (cfg_GoogleClientID cfg = "" → sv_GoogleJWKS svcs = None)
  ∧ (cfg_AppleClientID cfg = "" → sv_AppleJWKS svcs = None)
  ∧ (cfg_WebAuthnRPID cfg = "" → sv_WebAuthn svcs = None).
Proof.
  unfold main. intros H. try_Ok H. injection H as -> <-. split; [done|]. split.
  - match goal with E : Load _ = Ok _ |- _ => unfold Load in E; try_Ok E; by injection E as <- end.
  - unfold newProviderKeyfuncOrNil, newWebAuthnOrNil. cbn. split_and!; by intros ->.
Qed.

(** C36: a server that started never panics: with the configuration [main] loaded
    and the services it built, the layers [LoggerMiddleware] guards - headers,
    limits, authentication, deadline, router and every handler - return for any
    request, from any state and whichever calls fail; and a provider that is not
    configured is off. *)
Theorem started_server_never_panics (HJ : JwtLaws JL) (HLL : LimiterLaws LL) (HRL : RouterLaws RL)
    getenv cfg svcs e :
  main getenv = Ok (cfg, svcs) → serves cfg e →
  (∀ r ctx wr w, ∃ wr', result (guarded svcs r ctx wr) e w = Some (Returned wr'))
  ∧ (cfg_GoogleClientID cfg = "" → sv_GoogleJWKS svcs = None)
  ∧ (cfg_AppleClientID cfg = "" → sv_AppleJWKS svcs = None)
  ∧ (cfg_WebAuthnRPID cfg = "" → sv_WebAuthn svcs = None).
Proof.
  intros (_ & Hn & Hproviders)%main_Ok [Hcfg Hredis Hrandom]. split; [|exact Hproviders].
  intros r ctx wr. apply guarded_settles; [|done..]. split; [done..|]. rewrite Hcfg, Hn. lia.
Qed.

(** The maintenance command exits with 0 exactly when it was set up and every
    job succeeded. *)
Lemma cron_exit_status getenv e w :
  result (cron_main getenv) e w = Some 0 ↔
  is_ok (cron_setup getenv) = true ∧ result RunMaintenance e w = Some (Ok ()).
Proof.
  unfold cron_main, result. destruct (cron_setup getenv); cbn; [|naive_solver]. unfold bind.
  destruct (RunMaintenance e w) as [[[[]|]|] w']; cbn; naive_solver.
Qed.
End started.

(** ** An example *)

Import Toy ToyServer.

#[export] Instance start_lib : StartLib oidc webauthn := {
  sentry_Init _ _ := Ok ();
  pgxpool_New _ := Ok ();
  pgxpool_Ping _ := Ok ();
  redis_Ping _ := Ok ();
  redisstore_NewStore _ _ := Ok ();
  keyfunc_NewDefaultCtx _ := Ok ();
  webauthn_New _ _ _ := Ok () }.

Definition started_cfg : Config := toy_config "20".
Definition started_svcs : Services := mkServices oidc webauthn None None None.
Lemma toy_starts : main (toy_env "20") = Ok (started_cfg, started_svcs).
Proof. by vm_compute. Qed.
Definition started_env : Env :=
  mkEnv started_cfg false (e_clock env) (λ n, if Nat.even n then FLost else FNone) (e_uuid env) (e_rand_read env)
    (e_rand_int env) (e_gen_uuid env).
Lemma started_serves : serves started_cfg started_env.
Proof. by split. Qed.

Definition login_request : HttpRequest :=
  request MethodPost V1_Login "" [("email", "ann@example.com"); ("password", "secret")].
Lemma started_server_never_panics_witness :
  main (toy_env "20") = Ok (started_cfg, started_svcs)
  ∧ ∃ wr', result (guarded started_svcs login_request no_ctx new_writer) started_env (world empty_db)
           = Some (Returned wr').
Proof.
  split; [exact toy_starts|].
  exact (proj1 (started_server_never_panics jwt_laws limiter_laws router_laws (toy_env "20") started_cfg started_svcs
                  started_env toy_starts started_serves) login_request no_ctx new_writer (world empty_db)).
Defined.
