(* ===== verification/AccountSpec.v ===== *)
(** * The standing of an account

    An abstract machine for what an account may do: its role, its status and
    whether it is deleted.  It starts as an active user; only the admin actions
    that name it, by another account, move it, no action makes an admin or
    touches an admin's role, and a deleted account never moves again.  Every
    request, whatever fails, moves the row of an account along this machine, by
    events its kind of request may cause. *)

From S2P Require Import Prelude.
From S2P Require Import GoLib.
From S2P Require Import Utils.
From S2P Require Import Model.
From S2P Require Import Runtime.
From S2P Require Import Logic.
From S2P Require Import Queries.
From S2P Require Import Store.
From S2P Require Import Password.
From S2P Require Import Tokens.
From S2P Require Import Codes.
From S2P Require Import Signup.
From S2P Require Import Mfa.
From S2P Require Import Login.
From S2P Require Import Session.
From S2P Require Import PasswordFlows.
From S2P Require Import Sso.
From S2P Require Import Admin.
From S2P Require Import Passkey.
From S2P Require Import Frames.
From S2P Require Import Walks.
From S2P Require Import Toy.
From S2P Require Import Requests.
From S2P Require Import Scenes.
From stdpp Require Import relations.

#[local] Open Scope string_scope.
#[local] Open Scope Z_scope.
#[local] Open Scope go_scope.

(** ** The machine *)

Inductive standing :=
  | Nobody
  | Account (role : UserRole) (status : option UserStatus) (deleted : bool).

Inductive act :=
  | Join
  | SetStatus (status : UserStatus)
  | SetRole (role : UserRole)
  | Delete.

Inductive act_step : act → standing → standing → Prop :=
  | step_join : act_step Join Nobody (Account UserRoleUser (Some UserStatusActive) false)
  | step_status s r old : act_step (SetStatus s) (Account r old false) (Account r (Some s) false)
  | step_role r' r st :
      r ≠ UserRoleAdmin → r' ≠ UserRoleAdmin → act_step (SetRole r') (Account r st false) (Account r' st false)
  | step_delete r st : act_step Delete (Account r st false) (Account r st true).

(** The machine under a set of acts. *)
Definition acts (may : act → Prop) : relation standing := rtc (λ s s', ∃ a, may a ∧ act_step a s s').

(** ** The abstraction *)

Definition standing_of_row (u : User) : standing := Account (u_Role u) (u_Status u) (is_valid (u_DeletedAt u)).
Definition standing_of (uid : uuid) (d : DB) : standing :=
  match select (id_is u_ID (Some uid)) (users d) with
  | u :: _ => standing_of_row u
  | [] => Nobody
  end.

(** ** What a request may do to an account *)

Definition may_do `{TL : TextLib} `{WL : WebAuthnLib} `{UL : UuidLib} (r : request) (uid : uuid) (a : act) : Prop :=
  match r, a with
  | RCompleteEmailJoin _ _ _ _, Join | RSSOLogin _ _ _ _, Join => True
  | RBanUser _ actor _ target _, SetStatus s => s = UserStatusBanned ∧ targets actor target uid
  | RUnbanUser _ actor _ target _, SetStatus s => s = UserStatusActive ∧ targets actor target uid
  | RDisableUser _ actor _ target _, SetStatus s => s = UserStatusDisabled ∧ targets actor target uid
  | REnableUser _ actor _ target _, SetStatus s => s = UserStatusActive ∧ targets actor target uid
  | RChangeUserRole _ actor _ target new, SetRole role => parseUserRole new = Some role ∧ targets actor target uid
  | RDeleteUser _ actor _ target _, Delete => targets actor target uid
  | _, _ => False
  end.

(** Stores whose rows of [uid] are related by the machine. *)
Definition stands (may : act → Prop) (uid : uuid) : relation DB :=
  λ d d', acts may (standing_of uid d) (standing_of uid d').
#[export] Instance stands_preorder may uid : PreOrder (stands may uid).
Proof. split; [intros d; apply rtc_refl|]. intros d1 d2 d3 H12 H23. exact (rtc_trans _ _ _ H12 H23). Qed.

Section stands.
Context `{TL : TextLib} `{UL : UuidLib} `{HL : HashLib} `{JL : JwtLib} `{OL : TotpLib} `{AL : AeadLib}
  `{WL : WebAuthnLib} `{CL : TimeLib} `{OI : OidcLib}.
Context (may : act → Prop) (uid : uuid).

Lemma acts_once a s s' : may a → act_step a s s' → acts may s s'.
Proof. intros Hm Hs. apply rtc_once. eauto. Qed.

Lemma stands_same d d' : users d' = users d → stands may uid d d'.
Proof. intros H. unfold stands, standing_of. rewrite H. apply rtc_refl. Qed.
Lemma stands_untouched d d' : untouched d d' → stands may uid d d'.
Proof. intros [Hu _]. by apply stands_same. Qed.

(** An update of the accounts: what it does to the row of [uid]; the trigger has
    let it pass. *)
Lemma stands_update_users p f :
  (∀ u, u_ID (f u) = u_ID u) →
  (∀ u, u_ID u = uid → p u = true → demotes u (f u) = false →
     acts may (standing_of_row u) (standing_of_row (f u))) →
  st_in (stands may uid) (update_users p f).
Proof.
  intros Hid Hf c d [] d' H. pose proof H as (l & Hu & _)%update_users_frame.
  unfold stands, standing_of.
  rewrite Hu, select_update by (intros u _; unfold id_is; by rewrite Hid).
  destruct (select _ (users d)) as [|u us] eqn:E; [apply rtc_refl|]. cbn [update List.map].
  assert (u ∈ select (id_is u_ID (Some uid)) (users d)) as [Hin Hu1%id_is_true]%elem_of_select by (rewrite E; left).
  destruct (p u) eqn:Hp; [|apply rtc_refl]. apply Hf; [congruence|done|].
  unfold update_users in H. destruct (List.existsb _ _) eqn:Hd; [done|].
  eapply exists_row_false in Hd; [exact Hd|]. by apply elem_of_select.
Qed.

Ltac stands_stmt := open_stmt; first [apply stands_untouched; stmt_untouched | by apply stands_same].

#[export] Instance stands_plain : Plain (stands may uid).
Proof.
  split; [typeclasses eauto|..]; try solve [stands_stmt]. intros id c.
  apply stands_update_users; [done|]. intros u _ _ _. apply rtc_refl.
Qed.
#[export] Instance stands_opens : Opens (stands may uid).
Proof. intros id user x h ip ua. unfold CreateRefreshSession. open_stmt. by apply stands_same. Qed.
#[export] Instance stands_rotates : Rotates (stands may uid).
Proof. intros h x id. stands_stmt. Qed.

Lemma stands_insert_user email display origin :
  may Join → st_in (stands may uid) (insert_user email display UserRoleUser origin).
Proof.
  intros Hjoin c d u d'. unfold insert_user. destruct (checks _) eqn:Hck; [done|]. intros [= _ <-].
  apply checks_cons in Hck as [_ Hck]. apply checks_cons in Hck as [Hfresh%negb_true_iff _]. cbn [u_ID] in Hfresh.
  unfold stands, standing_of, id_is. cbn [users set_users sql_eq].
  unfold select. rewrite List.filter_app. cbn [List.filter u_ID].
  destruct (bool_decide_reflect (s_gen c 0%nat = uid)) as [Heq|Hne]; [|rewrite app_nil_r; apply rtc_refl].
  apply select_none in Hfresh. unfold select in Hfresh. rewrite Heq in Hfresh. rewrite Hfresh. cbn.
  apply (acts_once Join); [done|constructor].
Qed.
Lemma stands_joins : may Join → Joins (stands may uid).
Proof. intros Hjoin. split; intros; by apply stands_insert_user. Qed.

Lemma undeleted_row pg u : undeleted_user (Some pg) u = true → u_ID u = uid → pg = uid ∧ is_valid (u_DeletedAt u) = false.
Proof. intros [H%id_is_true H']%andb_true_iff <-. apply negb_true_iff in H'. split; [congruence|done]. Qed.

Lemma SetUserStatus_stands status pg :
  (pg = uid → may (SetStatus status)) → st_in (stands may uid) (SetUserStatus (Some status) (Some pg)).
Proof.
  intros Hmay. apply stands_update_users; [done|]. intros u Hid Hp _.
  destruct (undeleted_row _ _ Hp Hid) as [Hpg Hd]. unfold standing_of_row. cbn. rewrite Hd.
  apply (acts_once (SetStatus status)); [by apply Hmay|constructor].
Qed.
Lemma SetUserRole_stands role pg :
  role ≠ UserRoleAdmin → (pg = uid → may (SetRole role)) → st_in (stands may uid) (SetUserRole role (Some pg)).
Proof.
  intros Hrole Hmay. apply stands_update_users; [done|]. intros u Hid Hp Hdem.
  destruct (undeleted_row _ _ Hp Hid) as [Hpg Hd]. unfold standing_of_row. cbn. rewrite Hd.
  apply (acts_once (SetRole role)); [by apply Hmay|]. constructor; [|done]. intros Ha.
  unfold demotes in Hdem. cbn in Hdem. by rewrite Ha, bool_decide_true, bool_decide_false in Hdem.
Qed.
Lemma SoftDeleteUser_stands pg : (pg = uid → may Delete) → st_in (stands may uid) (SoftDeleteUser (Some pg)).
Proof.
  intros Hmay c. apply stands_update_users; [done|]. intros u Hid Hp _.
  destruct (undeleted_row _ _ Hp Hid) as [Hpg Hd]. unfold standing_of_row. cbn. rewrite Hd.
  apply (acts_once Delete); [by apply Hmay|constructor].
Qed.
End stands.

Section accounts.
Context `{TL : TextLib} `{UL : UuidLib} `{HL : HashLib} `{JL : JwtLib} `{OL : TotpLib} `{AL : AeadLib}
  `{WL : WebAuthnLib} `{CL : TimeLib} `{OI : OidcLib}.

(** Every request implements the account machine: whatever fails, it moves
    the standing of any account - role, status, deletion - only by an act its
    kind of request may do.  Sign-ups make active users; nothing but the admin
    actions that name the account, by another one, changes its standing; no
    action makes an admin or changes an admin's role; and deletion is final. *)
Lemma requests_refine_account_machine r uid e w :
  acts (may_do r uid) (standing_of uid (w_db w)) (standing_of uid (w_db (final (run_request r) e w))).
Proof.
  assert (Plain (stands (may_do r uid) uid)) as Hp by apply stands_plain.
  pose proof (stands_opens (may_do r uid) uid) as Ho. pose proof (stands_rotates (may_do r uid) uid) as Hr.
  enough (db_tracks (stands (may_do r uid) uid) (run_request r)) as H by apply H.
  destruct r; cbn [run_request]; unfold BanUser, UnbanUser, DisableUser, EnableUser; db_tracks.
  1-2: lazymatch goal with |- db_tracks (stands ?may ?u) _ => pose proof (stands_joins may u I : Joins (stands may u)); tracked end.
  1-4: by (apply setUserStatusAction_in; [done|]; intros pg Hpg; apply SetUserStatus_stands; intros ->).
  - apply ChangeUserRole_in; [done|]. intros pg role Hpg Hnew Hr'. apply SetUserRole_stands; [done|]. by intros ->.
  - apply DeleteUser_in; [done|]. intros pg Hpg. apply SoftDeleteUser_stands. by intros ->.
Qed.

(** What the machine gives of a history: an admin stays one, nobody becomes one,
    and a deleted account stays exactly as it was. *)
Lemma acts_deleted may r st s' : acts may (Account r st true) s' → s' = Account r st true.
Proof. inversion 1 as [|? ? ? (a & _ & Hs) _]; [done|]. inversion Hs. Qed.
Lemma acts_admin may s s' :
  acts may s s' → (∃ st x, s = Account UserRoleAdmin st x) ↔ (∃ st x, s' = Account UserRoleAdmin st x).
Proof.
  induction 1 as [s|s1 s2 s3 (a & _ & Hs) _ IH]; [done|]. rewrite <- IH. clear IH. destruct Hs; naive_solver.
Qed.
Lemma history_makes_no_admin uid d d' :
  reachable d d' →
  (∃ st x, standing_of uid d = Account UserRoleAdmin st x) ↔ (∃ st x, standing_of uid d' = Account UserRoleAdmin st x).
Proof.
  induction 1 as [d|d1 d2 d3 [r e w <- <-] _ IH]; [done|]. rewrite <- IH.
  eapply acts_admin, requests_refine_account_machine.
Qed.
End accounts.

(** ** Example: an account joins and is banned *)

Import Toy.

Example joined_standing :
  let uid := match users joined_db with u :: _ => u_ID u | [] => MkUUID EmptyString end in
  standing_of uid empty_db = Nobody
  ∧ standing_of uid joined_db = Account UserRoleUser (Some UserStatusActive) false
  ∧ standing_of uid banned_db = Account UserRoleUser (Some UserStatusBanned) false.
Proof. vm_compute. done. Qed.
