(* ===== verification/InterleaveSpec.v ===== *)
(** * What holds however the calls of requests alternate

    The schema's invariant and the machines of accounts and sessions, for pools:
    the statements the services make are such that no order of them breaks these,
    whatever arrives, fails or is cut off.  And a pool of one request is that
    request: it comes to its end, with the effect [run_request] gives it. *)

From S2P Require Import Prelude.
From S2P Require Import GoLib.
From S2P Require Import Utils.
From S2P Require Import Model.
From S2P Require Import Runtime.
From S2P Require Import Logic.
From S2P Require Import Queries.
From S2P Require Import Store.
From S2P Require Import Password.
From S2P Require Import Tokens.
From S2P Require Import Codes.
From S2P Require Import Login.
From S2P Require Import Session.
From S2P Require Import Sso.
From S2P Require Import Admin.
From S2P Require Import Passkey.
From S2P Require Import Frames.
From S2P Require Import Walks.
From S2P Require Import Toy.
From S2P Require Import Requests.
From S2P Require Import Scenes.
From S2P Require Import Calls.
From S2P Require Import Steps.
From S2P Require Import Pool.
From S2P Require Import Interleave.
From S2P Require Import LifecycleSpec.
From S2P Require Import AccountSpec.
From stdpp Require Import relations.

#[local] Open Scope string_scope.
#[local] Open Scope Z_scope.
#[local] Open Scope go_scope.

Section interleavings.
Context `{TL : TextLib} `{UL : UuidLib} `{HL : HashLib} `{JL : JwtLib} `{OL : TotpLib} `{AL : AeadLib}
  `{WL : WebAuthnLib} `{CL : TimeLib} `{OI : OidcLib}.

(** A request that runs alone is what [run_request] says: after enough of its
    calls it has given its answer, or panicked, and store, Redis and mailbox are
    those of its run - for every request, from every state, whatever fails. *)
Lemma request_alone r e w :
  ∃ n, play e (replicate n 0%nat) (mkPool [start r] w)
       = mkPool [mkThread r (match result (verdict_of r) e w with Some v => Ret v | None => Panic end)]
           (final (run_request r) e w).
Proof.
  unfold final, result. rewrite <- verdict_request. unfold bind, ret. destruct (play_alone e r (program r) w) as [n Hn].
  exists n. unfold start, job_prog, request_jobs. rewrite Hn, run_program. by destruct (verdict_of r e w) as [[v|] w'].
Qed.

(** ** The invariant of the store *)

Lemma safe_permits r : permits safe r.
Proof. destruct r; cbn [permits]; eauto with tracks typeclass_instances. Qed.

(** The schema's constraints - unique keys, references, checks - hold after
    any number of requests at the same time, in any order of their calls,
    whichever calls fail and whichever requests are cut off. *)
Lemma interleaving_keeps_invariant w po :
  pool_steps (mkPool [] w) po → wf (w_db w) → wf (po_db po).
Proof.
  intros Hs. assert (running (mkPool [] w)) as Hr by (exists w; apply rtc_refl).
  destruct (running_tracks safe _ _ Hr Hs) as [_ H]; [intros r _; apply safe_permits|exact H].
Qed.

(** ** The account machine *)

Lemma stands_permits may uid r : (∀ a, may_do r uid a → may a) → permits (stands may uid) r.
Proof.
  intros Hmay. destruct r; cbn [permits]; eauto with typeclass_instances.
  1, 3: by split; [apply stands_opens|apply stands_joins, Hmay].
  1: by intros h x id _; apply stands_rotates.
  1-4: by intros pg Hpg; apply SetUserStatus_stands; intros ->; by apply Hmay.
  - intros pg role Hpg Hrole Hne. apply SetUserRole_stands; [done|]. intros ->. by apply Hmay.
  - intros pg Hpg. apply SoftDeleteUser_stands. intros ->. by apply Hmay.
Qed.
Lemma interleaving_stands uid po po' :
  running po → pool_steps po po' →
  stands (λ a, ∃ r, r ∈ accepted po' ∧ may_do r uid a) uid (po_db po) (po_db po').
Proof.
  intros Hr Hs. apply running_tracks; [apply stands_plain|done..|]. intros r Hin. apply stands_permits. eauto.
Qed.

(** ** The session machine *)

(** What a request may do to a session when others run: a refresh replaces the
    token of the session it names, but the token it presents may have been
    replaced since it was read. *)
Definition may_cause_late (r : request) (sid : uuid) (ev : event) : Prop :=
  match ev with
  | Revoke => True
  | Open => signs_in r = true
  | Rotate _ _ => ∃ s user raw, r = RRefreshToken s user raw ∧ uuid_Parse s = Some sid
  end.

Lemma lives_permits may sid r : may Revoke → (∀ ev, may_cause_late r sid ev → may ev) → permits (lives may sid) r.
Proof.
  intros Hrev Hmay. destruct r; cbn [permits]; eauto with typeclass_instances.
  1, 5: split; [apply lives_opens, Hmay; done|apply lives_joins].
  1, 2, 10: by apply lives_opens, Hmay.
  2-5: intros pg _; apply lives_sets_status.
  2: intros pg role _ _ _; apply lives_sets_role.
  2: intros pg _; apply lives_deletes_users.
  intros h x id Hid c d a d'. apply RotateRefreshSession_lives. intros s -> _. apply Hmay. cbn. eauto.
Qed.
Lemma interleaving_lives sid po po' :
  running po → pool_steps po po' →
  lives (λ ev, ev = Revoke ∨ ∃ r, r ∈ accepted po' ∧ may_cause_late r sid ev) sid (po_db po) (po_db po').
Proof.
  intros Hr Hs. apply running_tracks; [apply lives_plain; by left|done..|].
  intros r Hin. apply lives_permits; [by left|]. eauto.
Qed.

(** The machines of accounts and sessions are implemented by requests that run
    at the same time: between any two moments of a server, the standing of every
    account and the life of every session have moved only by acts and events
    that some request accepted by then may cause.  So no order of calls makes an
    admin, revives a deleted account or brings back a revoked session. *)
Lemma interleaving_refines_machines uid sid po po' :
  running po → pool_steps po po' →
  acts (λ a, ∃ r, r ∈ accepted po' ∧ may_do r uid a) (standing_of uid (po_db po)) (standing_of uid (po_db po'))
  ∧ moves (λ ev, ev = Revoke ∨ ∃ r, r ∈ accepted po' ∧ may_cause_late r sid ev)
      (life_of sid (po_db po)) (life_of sid (po_db po')).
Proof. intros Hr Hs. split; [by apply interleaving_stands|by apply interleaving_lives]. Qed.

(** Accounts and sessions keep what they cannot lose, however the calls alternate. *)
Corollary interleaving_is_permanent uid sid po po' :
  running po → pool_steps po po' →
  (∀ r st, standing_of uid (po_db po) = Account r st true → standing_of uid (po_db po') = Account r st true)
  ∧ ((∃ st x, standing_of uid (po_db po) = Account UserRoleAdmin st x)
      ↔ (∃ st x, standing_of uid (po_db po') = Account UserRoleAdmin st x))
  ∧ (∀ u, owner (life_of sid (po_db po)) = Some u → owner (life_of sid (po_db po')) = Some u)
  ∧ (∀ u h x, life_of sid (po_db po) = Revoked u h x → life_of sid (po_db po') = Revoked u h x).
Proof.
  intros Hr Hs. pose proof (interleaving_stands uid po po' Hr Hs) as Ha. pose proof (interleaving_lives sid po po' Hr Hs) as Hl.
  split_and!.
  - intros r st E. unfold stands in Ha. rewrite E in Ha. by eapply acts_deleted.
  - by eapply acts_admin.
  - intros u. by eapply moves_owner.
  - intros u h x E. unfold lives in Hl. rewrite E in Hl. by eapply moves_revoked.
Qed.
End interleavings.

(** ** Example: two people take the same username at the same time

    Both see the name free; the constraint lets one of them have it. *)

Import Toy.

Definition take_name (email : string) : request :=
  RCompleteEmailJoin (mkCtx None (Some email) None None None None None) "cleo" ann_password ann_password.
Definition rivals : list request := [take_name "cleo@example.com"; take_name "cleopatra@example.com"].
(** The two alternate call by call. *)
Definition alternating (n : nat) : list nat := concat (replicate n [0; 1]%nat).
Definition w_rivals : World := world empty_db.
Definition raced : pool request verdict := play env (alternating 40) (mkPool (start <$> rivals) w_rivals).

Example rivals_both_saw_it_free :
  let midway := play env (alternating 1) (mkPool (start <$> rivals) w_rivals) in
  users (po_db midway) = [] ∧ List.map u_Username (users (po_db raced)) = ["cleo"]
  ∧ List.map (λ th, match th_rest th with Ret _ => true | _ => false end) (po_threads raced) = [true; true].
Proof. vm_compute. done. Qed.

Lemma raced_steps : pool_steps (mkPool [] w_rivals) raced.
Proof. eapply rtc_trans; [apply (accept_all rivals)|by apply play_steps]. Qed.

Lemma interleaving_keeps_invariant_witness :
  length (users (po_db raced)) = 1%nat ∧ wf (po_db raced).
Proof.
  split; [by vm_compute|]. exact (interleaving_keeps_invariant w_rivals raced raced_steps wf_empty).
Defined.

(** Ann's session, before and after she logs out in one window and refreshes in
    another. *)
Definition two_windows : list request :=
  [RLogout (uuid_Bytes (se_ID ann_session)); RRefreshToken (uuid_Bytes (se_ID ann_session)) (uuid_Bytes (u_ID ann_user)) (lr_RefreshToken ann_out)].
Definition before_windows : pool request verdict := mkPool (start <$> two_windows) w_in.
Definition after_windows : pool request verdict := play env (alternating 20) before_windows.
Lemma before_windows_running : running before_windows.
Proof. exists w_in. apply accept_all. Qed.
Lemma after_windows_steps : pool_steps before_windows after_windows.
Proof. by apply play_steps. Qed.

Lemma interleaving_refines_machines_witness :
  (life_of (se_ID ann_session) (po_db before_windows), life_of (se_ID ann_session) (po_db after_windows))
    = (Live (se_UserID ann_session) (se_RefreshTokenHash ann_session) (se_ExpiresAt ann_session),
       Revoked (se_UserID ann_session) (se_RefreshTokenHash ann_session) (se_ExpiresAt ann_session))
  ∧ moves (λ ev, ev = Revoke ∨ ∃ r, r ∈ accepted after_windows ∧ may_cause_late r (se_ID ann_session) ev)
      (life_of (se_ID ann_session) (po_db before_windows)) (life_of (se_ID ann_session) (po_db after_windows)).
Proof.
  split; [by vm_compute|].
  exact (proj2 (interleaving_refines_machines (u_ID ann_user) (se_ID ann_session) before_windows after_windows
                  before_windows_running after_windows_steps)).
Defined.
