(* ===== verification/RaceSpec.v ===== *)
(** * Races: what the checks of a request miss when another runs in between

    Each check below is a read followed, some calls later, by the write it
    allows, and nothing holds the two together.  The examples give an order of
    calls for each, on states the service itself reaches, under an environment
    where no call fails; the theorems about single requests ([SessionSpec],
    [PasswordSpec], [MfaSpec], [PasskeySpec], [BlockedSpec]) exclude these outcomes for requests
    that do not overlap. *)

From S2P Require Import Prelude.
From S2P Require Import GoLib.
From S2P Require Import Utils.
From S2P Require Import Model.
From S2P Require Import Runtime.
From S2P Require Import Logic.
From S2P Require Import Queries.
From S2P Require Import Password.
From S2P Require Import Tokens.
From S2P Require Import Codes.
From S2P Require Import Signup.
From S2P Require Import Mfa.
From S2P Require Import Login.
From S2P Require Import Session.
From S2P Require Import PasswordFlows.
From S2P Require Import Admin.
From S2P Require Import Passkey.
From S2P Require Import Toy.
From S2P Require Import Requests.
From S2P Require Import Scenes.
From S2P Require Import Calls.
From S2P Require Import Steps.
From S2P Require Import Pool.
From S2P Require Import Interleave.
From S2P Require Import SessionSpec.
From S2P Require Import PasswordSpec.
From S2P Require Import MfaSpec.
From S2P Require Import EnrollSpec.
From S2P Require Import PasskeySpec.

#[local] Open Scope string_scope.
#[local] Open Scope Z_scope.
#[local] Open Scope go_scope.

Import Toy.

(** The answers of a pool whose requests have all come to an end. *)
Definition outcomes_of (po : pool request verdict) : list (option verdict) :=
  List.map (λ th, match th_rest th with Ret v => Some v | _ => None end) (po_threads po).

(** [rs], started together from [w], with their calls in the given order. *)
Definition race (rs : list request) (order : list nat) (w : World) : pool request verdict := play env order (mkPool (start <$> rs) w).
(** All of them in turn; one after the other. *)
Definition in_turn (n : nat) : list nat := concat (replicate 80 (seq 0 n)).
Definition one_by_one (n : nat) : list nat := concat (List.map (replicate 80) (seq 0 n)).
(** Request 0 makes [k] calls, then request 1 runs, then request 0 goes on. *)
Definition overtaken (k : nat) : list nat := replicate k 0%nat ++ replicate 80 1%nat ++ replicate 80 0%nat.

(** ** One refresh token, two refreshes *)

Definition refresh : request := RRefreshToken ann_sid ann_uid ann_raw.

(** Both clients that present the token at the same time get a new pair. *)
Example refresh_token_used_twice :
  outcomes_of (race [refresh; refresh] (in_turn 2) w_in) = [Some Served; Some Served]
  ∧ outcomes_of (race [refresh; refresh] (one_by_one 2) w_in) = [Some Served; Some (Refused SessionExpired)].
Proof. split; by vm_compute. Qed.

(** ** A refresh and a logout *)

(** The logout is done, the refresh is refused, and the access token that was
    issued before both is accepted again: the refresh has put the session's key
    back into Redis. *)
Example refresh_undoes_logout :
  let po := race [refresh; RLogout ann_sid] (overtaken 4) w_in in
  outcomes_of po = [Some (Refused TokenGenerationFailed); Some Served]
  ∧ (∃ u, result (VerifyAndParseJWT ("Bearer " ++ lr_AccessToken ann_out)) env (po_world po) = Some (Ok u) ∧ uc_ID u = ann_uid).
Proof.
  cbv zeta. split; [by vm_compute|].
  eexists. split; [vm_compute; reflexivity|by vm_compute].
Qed.

(** ** A login and a ban *)

(** The ban is done and the login succeeds: the banned account has a session. *)
Definition ban : request := RBanUser nobody "root-id" "root" (uuid_Bytes (u_ID ann_user)) "spam".
Example login_overtaken_by_ban :
  let po := race [RLogin nobody ann ann_password; ban] (overtaken 3) w_joined in
  outcomes_of po = [Some Served; Some Served]
  ∧ List.map u_Status (users (po_db po)) = [Some UserStatusBanned]
  ∧ List.existsb (λ s, negb (bool_Bool (se_Revoked s))) (sessions (po_db po)) = true.
Proof. vm_compute. done. Qed.

(** ** One reset token, two resets *)

Definition reset (p : string) : request := RResetPassword reset_token p p.
Example reset_token_used_twice :
  outcomes_of (race [reset new_password; reset "the other new password"] (in_turn 2) w_asked) = [Some Served; Some Served]
  ∧ outcomes_of (race [reset new_password; reset "the other new password"] (one_by_one 2) w_asked)
    = [Some Served; Some (Refused InvalidOrExpiredToken)].
Proof. split; by vm_compute. Qed.

(** ** Guesses at a code *)

(** Ten guesses at the code of a sign-up, the last one right.  One after the
    other, the sixth is already refused; at the same time, all of them are
    compared with the code and the last is accepted. *)
Definition guesses : list request :=
  List.map (RVerifyEmailCode ann)
    ["900001"; "900002"; "900003"; "900004"; "900005"; "900006"; "900007"; "900008"; "900009"; ann_code].
Example guesses_not_counted :
  outcomes_of (race guesses (one_by_one 10) w_started)
    = (replicate 5 (Some (Refused IncorrectCode)) ++ replicate 5 (Some (Refused TooManyAttempts)))%list
  ∧ outcomes_of (race guesses (in_turn 10) w_started) = (replicate 9 (Some (Refused IncorrectCode)) ++ [Some Served])%list.
Proof. split; by vm_compute. Qed.

(** ** One recovery code, two logins *)

Definition second_step_with (code : string) : request := RVerifyMFALogin nobody (lr_MFAChallengeToken ann_challenged) "" code.
Example recovery_code_used_twice :
  outcomes_of (race [second_step_with bob_recovery; second_step_with bob_recovery] (in_turn 2) w_challenged)
    = [Some Served; Some Served]
  ∧ outcomes_of (race [second_step_with bob_recovery; second_step_with bob_recovery] (one_by_one 2) w_challenged)
    = [Some Served; Some (Refused InvalidOrExpiredToken)].
Proof. split; by vm_compute. Qed.

(** ** One TOTP code, two logins *)

(** Ann has an authenticator; she, and somebody who saw her type, have got past her
    password, each with a challenge of their own.  A code is good for one login, but
    the step it belongs to is read first and written at the end. *)
Definition w_totp : World := final (VerifyMFAEnrollment ann_uid "000120") env w_enrolling.
Definition challenged (w : World) : LoginOutcome * World :=
  (outcome (mkLoginOutcome "" "" "" "" false "" []) (result (Login.Login nobody ann ann_password) env w),
   final (Login.Login nobody ann ann_password) env w).
Definition challenge1 : LoginOutcome := (challenged w_totp).1.
Definition challenge2 : LoginOutcome := (challenged (challenged w_totp).2).1.
Definition w_totp_challenged : World := (challenged (challenged w_totp).2).2.
Definition totp_logins : list request :=
  [RVerifyMFALogin nobody (lr_MFAChallengeToken challenge1) "totp" "000121";
   RVerifyMFALogin nobody (lr_MFAChallengeToken challenge2) "totp" "000121"].
Example totp_code_used_twice :
  outcomes_of (race totp_logins (in_turn 2) w_totp_challenged) = [Some Served; Some Served]
  ∧ outcomes_of (race totp_logins (one_by_one 2) w_totp_challenged) = [Some Served; Some (Refused InvalidMFACode)].
Proof. split; by vm_compute. Qed.

(** ** One passkey ceremony, two logins *)

Definition passkey_login : request := RFinishPasskeyLogin nobody site ceremony assertion.
Example ceremony_used_twice :
  outcomes_of (race [passkey_login; passkey_login] (in_turn 2) w_ceremony) = [Some Served; Some Served]
  ∧ outcomes_of (race [passkey_login; passkey_login] (one_by_one 2) w_ceremony) = [Some Served; Some (Refused InvalidOrExpiredToken)].
Proof. split; by vm_compute. Qed.

(** All of these are runs of the server. *)
Lemma race_running rs order w : running (race rs order w).
Proof. by apply play_running. Qed.
