(* ===== verification/Caller.v ===== *)
(** * Who a request comes from

    Behind the authentication layer a request context names the caller only as a
    token of the request vouches for it ([vouched]), and a service is run for that
    caller, on the admin routes with the role they demand ([on_behalf]). *)

From S2P Require Import Prelude.
From S2P Require Import GoLib.
From S2P Require Import Utils.
From S2P Require Import Model.
From S2P Require Import Runtime.
From S2P Require Import Logic.
From S2P Require Import Queries.
From S2P Require Import Store.
From S2P Require Import Tokens.
From S2P Require Import Admin.
From S2P Require Import Passkey.
From S2P Require Import Requests.
From S2P Require Import Calls.
From S2P Require Import Steps.
From S2P Require Import Pool.
From S2P Require Import TokenSpec.
From S2P Require Import Http.
From S2P Require Import Routes.
From S2P Require Import Handlers.
From S2P Require Import Middleware.
From stdpp Require Import list.

#[local] Open Scope string_scope.
#[local] Open Scope Z_scope.
#[local] Open Scope go_scope.

Section caller.
Context `{JL : JwtLib} (cfg : Config).

(** ** The tokens a header carries *)

(** The claims of a token in the header that is signed with the configured key;
    [opts] says whether it has to be in force at the time. *)
Definition carries (opts : ParserOpts) (hdr : string) (c : JWTClaims) : Prop :=
  ∃ t tok, hdr = "Bearer " ++ tok ∧ jwt_ParseWithClaims t (keyFunc cfg) opts tok = Ok c.
(** The options of a parse that passes expired tokens. *)
Definition lax : ParserOpts := mkParserOpts None None false true.

Definition bears (hdr : string) (u : UserContext) : Prop :=
  ∃ c, carries TokenSpec.strict hdr c ∧ jc_Role c ≠ RoleJoiner
    ∧ u = mkUserContext (jc_UserID c) (jc_Username c) (jc_ID c) (jc_Role c).
Definition bears_expired (hdr sessionID userID : string) : Prop :=
  ∃ c, carries lax hdr c ∧ jc_Role c ≠ RoleJoiner ∧ jc_ID c = sessionID ∧ jc_UserID c = userID.
Definition bears_temporary (hdr email id : string) : Prop :=
  ∃ c, carries TokenSpec.strict hdr c ∧ jc_Role c = RoleJoiner ∧ jc_Subject c = email ∧ jc_ID c = id.

Definition authorization (r : HttpRequest) : string := Header_Get (rq_Header r) "Authorization".

(** ** The context *)

(** The layers before authentication name nobody. *)
Definition anonymous (r : HttpRequest) (ctx : Ctx) : Prop := ctx_User ctx = None.
Record vouched (r : HttpRequest) (ctx : Ctx) : Prop := mkVouched {
  vc_user u : ctx_User ctx = Some u → bears (authorization r) u;
  vc_expired : rq_Path r = V1_RefreshToken → ∃ sid uid,
    ctx_SessionIDFromExpiredJWT ctx = Some sid ∧ ctx_UserIDFromExpiredJWT ctx = Some uid
    ∧ bears_expired (authorization r) sid uid;
  vc_temporary : rq_Path r = V1_CompleteEmailJoin → ∃ email id,
    ctx_EmailFromTempJWT ctx = Some email ∧ ctx_JTIFromTempJWT ctx = Some id
    ∧ bears_temporary (authorization r) email id
}.

Lemma vouched_open r ctx : anonymous r ctx → isAlternateRoute (rq_Path r) OpenRoutes = true → vouched r ctx.
Proof.
  intros Hn Hr. split; [by rewrite Hn|intros E..]; rewrite E in Hr; vm_compute in Hr; discriminate.
Qed.
Lemma vouched_expired r ctx sid uid :
  anonymous r ctx → rq_Path r = V1_RefreshToken → bears_expired (authorization r) sid uid →
  vouched r (set_ctx_ExpiredJWT sid uid ctx).
Proof. intros Hn Hr H. split; cbn; [by rewrite Hn|by exists sid, uid|intros E; by rewrite E in Hr]. Qed.
Lemma vouched_temporary r ctx email id :
  anonymous r ctx → rq_Path r ≠ V1_RefreshToken → bears_temporary (authorization r) email id →
  vouched r (set_ctx_TempJWT email id ctx).
Proof. intros Hn Hr H. split; cbn; [by rewrite Hn|done|by exists email, id]. Qed.
Lemma vouched_user r ctx u :
  rq_Path r ≠ V1_RefreshToken → isAlternateRoute (rq_Path r) TemporaryJWTRoutes = false → bears (authorization r) u →
  vouched r (set_ctx_User u ctx).
Proof. intros Hr Ht H. split; cbn; [by intros ? [= <-]|done|]. intros E. by rewrite E in Ht. Qed.

(** ** For whom a service is run *)

Section on_behalf.
Context `{WL : WebAuthnLib}.

(** The caller of the request, of a role no less than another. *)
Definition signed_in (hdr : string) (P : UserContext → Prop) : Prop := ∃ u, bears hdr u ∧ P u.
Definition ranked (min : UserRole) (u : UserContext) : Prop := roleRank (UserRole_string min) ≤ roleRank (uc_Role u).

Definition on_behalf (hdr : string) (q : Requests.request) : Prop :=
  match q with
  | RCompleteEmailJoin ctx _ _ _ => ∃ email id,
      ctx_EmailFromTempJWT ctx = Some email ∧ ctx_JTIFromTempJWT ctx = Some id ∧ bears_temporary hdr email id
  | RRefreshToken sid uid _ => bears_expired hdr sid uid
  | RLogout sid => signed_in hdr (λ u, uc_SessionID u = sid)
  | RChangePassword uid sid _ _ _ => signed_in hdr (λ u, uc_ID u = uid ∧ uc_SessionID u = sid)
  | REnrollMFA uid _ | RVerifyMFAEnrollment uid _ | RDisableMFA uid _
  | REnrollEmailMFA uid | RVerifyEmailMFAEnrollment uid _ | RDisableEmailMFA uid _
  | RBeginPasskeyRegistration _ uid _ | RFinishPasskeyRegistration _ uid _ _ _
  | RListPasskeys uid | RRenamePasskey uid _ _ | RDeletePasskey uid _ _ => signed_in hdr (λ u, uc_ID u = uid)
  | RListUsers _ | RGetUser _ | RListAuditLogs _ _ _ => signed_in hdr (ranked UserRoleModerator)
  | RBanUser _ actor _ _ _ | RUnbanUser _ actor _ _ _ | RDisableUser _ actor _ _ _ | REnableUser _ actor _ _ _
  | RForceLogoutUser _ actor _ _ _ | RAdminResetUserPassword _ actor _ _ =>
      signed_in hdr (λ u, uc_ID u = actor ∧ ranked UserRoleModerator u)
  | RChangeUserRole _ actor _ _ _ | RDeleteUser _ actor _ _ _ =>
      signed_in hdr (λ u, uc_ID u = actor ∧ ranked UserRoleAdmin u)
  | _ => True
  end.
End on_behalf.
End caller.

(** ** What verification vouches for *)

Section verify.
Context `{UL : UuidLib} `{JL : JwtLib} (cfg : Config) (I : DB → Prop) (R : relation DB) `{!PreOrder R}.
#[local] Instance caller_setting : Setting := configured cfg.

Definition s_parseJWT a b : Steps (parseJWT a b).
Proof. steps. Defined.
#[local] Hint Resolve s_parseJWT : steps.
Definition s_VerifyAndParseJWT a : Steps (VerifyAndParseJWT a).
Proof. steps. Defined.
Definition s_VerifyAndParseTemporaryJWT a b : Steps (VerifyAndParseTemporaryJWT a b).
Proof. steps. Defined.
Definition s_VerifyAndParseExpiredJWT a : Steps (VerifyAndParseExpiredJWT a).
Proof. steps. Defined.

Definition parse_opts (allowExpired : bool) : ParserOpts := if allowExpired then lax else TokenSpec.strict.
Definition yields {A} (P : A → Prop) (x : res A) : Prop := ∀ a, x = Ok a → P a.
(** A tree with what it returns. *)
Definition gives {A} {m : Go A} (s : Steps m) (Q : A → Prop) : Prop := along I R (steps_of s) Q.
Lemma gives_bind {A B} (P : A → Prop) Q {m : Go A} {k : A → Go B} (s : Steps m) (t : ∀ a, Steps (k a)) :
  gives s P → (∀ a, P a → gives (t a) Q) → gives (s_bind s t) Q.
Proof. apply along_pbind. Qed.
Lemma gives_cfg : gives s_cfg (λ c, c = cfg).
Proof. apply along_call; [cbn [perform]; db_tracks|]. intros e w He _. cbn. by intros ? [= <-]. Qed.
Lemma gives_tracked {A B} Q {m : Go A} {k : A → Go B} (s : Steps m) (t : ∀ a, Steps (k a)) :
  tracks I R s → (∀ a, gives (t a) Q) → gives (s_bind s t) Q.
Proof. intros Hs Ht. by apply (gives_bind any). Qed.

Ltac gives_step :=
  lazymatch goal with
  | |- gives (s_bind s_cfg _) _ => apply (gives_bind (λ c, c = cfg) _ _ _ gives_cfg); intros ? ->
  | |- gives (s_bind _ _) _ => apply gives_tracked; [solve [tracks]|intros ?]
  | |- gives (s_ret _) _ => hnf
  | |- gives s_panic _ => exact Logic.I
  | |- gives (match ?x with _ => _ end) _ =>
      lazymatch goal with
      | |- @gives ?A _ ?s ?Q =>
          let T := type of s in
          lazymatch eval cbv beta in T with @Steps _ ?m => change (@gives A m s Q) end
      end; destruct x eqn:?
  end.
Ltac gives := repeat gives_step; try (by intros ? [=]).

Lemma bearer_token hdr :
  String.eqb hdr "" || negb (HasPrefix hdr "Bearer ") = false → hdr = "Bearer " ++ TrimPrefix hdr "Bearer ".
Proof.
  unfold HasPrefix, TrimPrefix. destruct (drop_prefix "Bearer " hdr) eqn:E; [|by rewrite orb_true_r].
  intros _. by apply drop_prefix_Some.
Qed.
Lemma gives_parseJWT hdr b : gives (s_parseJWT hdr b) (yields (carries cfg (parse_opts b) hdr)).
Proof.
  unfold s_parseJWT. gives; intros c [= <-]; eexists _, _;
    (split; [by apply bearer_token|]); destruct b; try discriminate; exact Heqr.
Qed.
#[local] Opaque s_parseJWT.

Lemma gives_VerifyAndParseJWT hdr : gives (s_VerifyAndParseJWT hdr) (yields (bears cfg hdr)).
Proof.
  unfold s_VerifyAndParseJWT. eapply gives_bind; [apply gives_parseJWT|]. intros [c|] Hc; gives.
  bool_to_prop. intros u [= <-]. exists c. split; [by apply Hc|done].
Qed.
Lemma gives_VerifyAndParseTemporaryJWT hdr :
  gives (s_VerifyAndParseTemporaryJWT hdr RoleJoiner) (yields (λ x, bears_temporary cfg hdr x.1 x.2)).
Proof.
  unfold s_VerifyAndParseTemporaryJWT. eapply gives_bind; [apply gives_parseJWT|]. intros [c|] Hc; gives.
  bool_to_prop. intros u [= <-]. exists c. split; [by apply Hc|done].
Qed.
Lemma gives_VerifyAndParseExpiredJWT hdr :
  gives (s_VerifyAndParseExpiredJWT hdr) (yields (λ x, bears_expired cfg hdr x.1 x.2)).
Proof.
  unfold s_VerifyAndParseExpiredJWT. eapply gives_bind; [apply gives_parseJWT|]. intros [c|] Hc; gives.
  bool_to_prop. intros u [= <-]. exists c. split; [by apply Hc|done].
Qed.
End verify.
#[export] Hint Resolve s_VerifyAndParseJWT s_VerifyAndParseTemporaryJWT s_VerifyAndParseExpiredJWT : steps.
