(* ===== verification/HttpSteps.v ===== *)
(** * The HTTP server as trees of calls

    The handlers, the router and the layers around it, walked as the services are:
    [http_program] is the tree of calls of an HTTP request, which runs as
    [NewHandler] does.  Along it the store moves as the services move it: the
    layers touch no table. *)

From S2P Require Import Prelude.
From S2P Require Import GoLib.
From S2P Require Import Utils.
From S2P Require Import Model.
From S2P Require Import Runtime.
From S2P Require Import Logic.
From S2P Require Import Queries.
From S2P Require Import Store.
From S2P Require Import Password.
From S2P Require Import Tokens.
From S2P Require Import Codes.
From S2P Require Import Signup.
From S2P Require Import Mfa.
From S2P Require Import Login.
From S2P Require Import Session.
From S2P Require Import PasswordFlows.
From S2P Require Import Sso.
From S2P Require Import Maintenance.
From S2P Require Import Admin.
From S2P Require Import Passkey.
From S2P Require Import Walks.
From S2P Require Import Requests.
From S2P Require Import Calls.
From S2P Require Import Steps.
From S2P Require Import Pool.
From S2P Require Import Interleave.
From S2P Require Import Json.
From S2P Require Import Http.
From S2P Require Import Routes.
From S2P Require Import Handlers.
From S2P Require Import Middleware.
From S2P Require Import Server.
From S2P Require Import Dispatch.
From S2P Require Import HttpRefine.
From S2P Require Import Caller.
From stdpp Require Import relations list.

#[local] Open Scope string_scope.
#[local] Open Scope Z_scope.
#[local] Open Scope go_scope.

(** ** Recovering from panics *)

(** Where panics are recovered, each call of the tree is guarded. *)
Fixpoint pcatch {A} (p : prog A) : prog (option A) :=
  match p with
  | Ret a => Ret (Some a)
  | Panic => Ret None
  | Do c k => Do (CCatch c) (λ o, match o with Some x => pcatch (k x) | None => Ret None end)
  end.
Lemma run_pcatch {A} (p : prog A) e w : run (pcatch p) e w = catch (run p) e w.
Proof.
  revert w. induction p as [a| |X c k IH]; intros w; [done..|]. cbn. unfold bind, catch_call, catch.
  destruct (perform c e w) as [[x|] w']; [|done]. rewrite IH. done.
Qed.
Lemma ends_pcatch {A} (p : prog A) Q : ends True p Q → ends False (pcatch p) (λ o, ∀ a, o = Some a → Q a).
Proof.
  induction p as [a| |X c k IH]; [by intros H ? [= <-]|done|]. intros [_ Hk]. split.
  - right. intros e w. cbn. unfold catch_call. by destruct (perform c e w).
  - intros [x|]; [by apply IH|done].
Qed.
Definition s_catch {A} {m : Go A} (s : Steps m) : Steps (catch m).
Proof.
  refine (mkSteps _ _ (pcatch (steps_of s)) _). intros e w. rewrite run_pcatch. unfold catch. by rewrite (steps_run s).
Defined.
Definition s_limiter `{LimiterLib} k : Steps (limiter_Get k) := s_call (CLimiter (limiter_Get k)).

Ltac http_steps_step :=
  lazymatch goal with
  | |- Steps (catch _) => apply s_catch
  | |- Steps (limiter_Get _) => apply s_limiter
  | _ => steps_step
  end.
Ltac http_steps := intros; repeat http_steps_step.

Section along.
Context `{ST : Setting} (I : DB → Prop) (R : relation DB).

Lemma along_pcatch {A} (p : prog A) Q : along I R p Q → along I R (pcatch p) (λ o, ∀ a, o = Some a → Q a).
Proof.
  induction p as [a| |X c k IH]; [by intros H ? [= <-]|done|]. intros [Hc Hk]. split.
  - intros e w. specialize (Hc e w). cbn. unfold catch_call. by destruct (perform c e w).
  - intros [x|] (e & w & He & HI & Hx); [|done]. apply IH, Hk. exists e, w. split; [done|]. split; [done|].
    revert Hx. cbn. unfold catch_call. destruct (perform c e w). cbn. by intros [= ->].
Qed.
Lemma tracks_catch {A} {m : Go A} (s : Steps m) : tracks I R s → tracks I R (s_catch s).
Proof. intros Hs. eapply along_mono; [by apply along_pcatch|done]. Qed.
(** What a longer tree does at every call, its beginning does. *)
Lemma along_begin {A B} (p : prog A) (q : A → prog B) Q : along I R (pbind p q) Q → along I R p any.
Proof. induction p as [a| |X c k IH]; [done..|]. intros [Hc Hk]. split; eauto. Qed.
End along.

(** ** The trees of the handlers *)

Section server.
Context `{TL : TextLib} `{UL : UuidLib} `{HL : HashLib} `{JL : JwtLib} `{OL : TotpLib} `{AL : AeadLib}
  `{WL : WebAuthnLib} `{CL : TimeLib} `{OI : OidcLib} `{JN : !JsonLib WL} `{LL : LimiterLib} `{RL : RouterLib}.

Definition tree (h : Handle) : Type := ∀ r ps ctx, Steps (h r ps ctx).

Definition s_respond_error err : Steps (respond_error err).
Proof. steps. Defined.

Definition s_requireRole min h (t : tree h) : tree (requireRole min h).
Proof.
  intros r ps ctx. unfold requireRole. destruct (ctx_User ctx); [destruct (_ <? _)|].
  - apply s_respond_error.
  - exact (t r ps ctx).
  - apply s_respond_error.
Defined.

(** The trees of the routes of a table. *)
Fixpoint trees (table : list (route Handle)) : Type :=
  match table with
  | [] => unit
  | x :: table => tree (snd x) * trees table
  end.
Fixpoint trees_app {l1 l2} : trees l1 → trees l2 → trees (l1 ++ l2) :=
  match l1 with
  | [] => λ _ t2, t2
  | x :: l1 => λ t1 t2, (fst t1, trees_app (snd t1) t2)
  end.

Context (svcs : Services).

(** Each handler of a table by the walk. *)
Ltac trees_step :=
  lazymatch goal with
  | |- (_ * _)%type => refine (pair _ _)
  | |- unit => exact tt
  | |- tree (requireRole _ _) => apply s_requireRole
  | |- tree (snd (GET _ _)) => cbn [snd GET]
  | |- tree (snd (POST _ _)) => cbn [snd POST]
  | |- tree (snd (DELETE _ _)) => cbn [snd DELETE]
  | |- tree (snd (gated _)) => cbn [snd gated GET POST DELETE]
  | |- tree _ => unfold tree; http_steps
  | |- trees _ => hnf
  end.

Definition s_open_routes : trees (open_routes svcs).
Proof. repeat trees_step. Defined.
Definition s_token_routes : trees token_routes.
Proof. repeat trees_step. Defined.
Definition s_session_routes : trees (session_routes svcs).
Proof. repeat trees_step. Defined.
Definition s_admin_routes : trees (List.map gated admin_routes).
Proof. repeat trees_step. Defined.
Definition s_registered : trees (registered svcs) :=
  trees_app s_open_routes (trees_app s_token_routes (trees_app s_session_routes s_admin_routes)).

(** A request that a method and pattern take, with the parameters of its path. *)
Definition on_route (r : HttpRequest) (mp : string * string) (ps : Routes.Params) : Prop :=
  rq_Method r = fst mp ∧ path_match (snd mp) (rq_Path r) = Some ps.

(** What holds of all trees of a table, each on the requests of its route. *)
Section trees_all.
Context (P : HttpRequest → Ctx → prog Response → Prop).
Fixpoint trees_all (table : list (route Handle)) : trees table → Prop :=
  match table with
  | [] => λ _, True
  | x :: table => λ t,
      (∀ r ps ctx, on_route r (fst x) ps → P r ctx (steps_of (fst t r ps ctx))) ∧ trees_all table (snd t)
  end.
Lemma trees_all_app l1 l2 t1 t2 : trees_all l1 t1 → trees_all l2 t2 → trees_all (l1 ++ l2) (trees_app t1 t2).
Proof. induction l1 as [|x l1 IH]; [done|]. intros [H1 H2] H. split; [done|]. by apply IH. Qed.
Lemma trees_all_registered :
  trees_all _ s_open_routes → trees_all _ s_token_routes → trees_all _ s_session_routes → trees_all _ s_admin_routes →
  trees_all _ s_registered.
Proof. intros. unfold registered, s_registered. by repeat apply trees_all_app. Qed.
End trees_all.
Lemma trees_all_mono (P Q : HttpRequest → Ctx → prog Response → Prop) table t :
  (∀ r ctx p, P r ctx p → Q r ctx p) → trees_all P table t → trees_all Q table t.
Proof. intros HPQ. induction table as [|x l IH]; [done|]. intros [Hx Ht]. split; [|by apply IH]. intros. by apply HPQ, Hx. Qed.

(** ** The router and the stack *)

(** The route of a request's method whose pattern its path matches. *)
Definition matches (r : HttpRequest) (x : route Handle) : bool :=
  String.eqb (fst (fst x)) (rq_Method r) && match path_match (snd (fst x)) (rq_Path r) with Some _ => true | None => false end.
Fixpoint pick (r : HttpRequest) (table : list (route Handle)) : trees table → Routes.Params → Ctx → prog Response :=
  match table with
  | [] => λ _ _ _, Panic
  | x :: table => λ t ps ctx,
      if matches r x then steps_of (fst t r ps ctx) else pick r table (snd t) ps ctx
  end.

Lemma matches_spec r x :
  matches r x = true ↔ fst (fst x) = rq_Method r ∧ ∃ ps, path_match (snd (fst x)) (rq_Path r) = Some ps.
Proof.
  unfold matches. rewrite andb_true_iff, String.eqb_eq. destruct (path_match _ _) as [ps|]; naive_solver.
Qed.
Lemma run_pick r table t h ps ctx e w :
  (∃ x, x ∈ table ∧ matches r x = true) → (∀ x, x ∈ table → matches r x = true → snd x = h) →
  run (pick r table t ps ctx) e w = h r ps ctx e w.
Proof.
  induction table as [|x table IH]; intros [y [Hy Hm]] Hh; [by apply not_elem_of_nil in Hy|]. cbn [pick].
  destruct (matches r x) eqn:Ex; [rewrite (steps_run (fst t r ps ctx)), (Hh x); [done|by left|done]|].
  apply IH; [|intros z Hz; apply Hh; by right].
  apply elem_of_cons in Hy as [->|Hy]; [congruence|eauto].
Qed.


Definition router_program (r : HttpRequest) (ctx : Ctx) : prog Response :=
  match router_serve (registered svcs) r with
  | RHandle _ ps => pick r (registered svcs) s_registered ps ctx
  | RNotFound | RMethodNotAllowed => steps_of (s_respond_error RouteNotFound)
  | ROwn resp => Ret resp
  end.
Lemma run_router `{!RouterLaws RL} r ctx e w : run (router_program r ctx) e w = router svcs r ctx e w.
Proof.
  unfold router_program, router. destruct (router_serve (registered svcs) r) as [h ps| | |resp] eqn:E; [|by rewrite steps_run..|done].
  destruct (router_sound _ _ _ _ _ E) as (pat & Hin & Hm). apply run_pick.
  - exists ((rq_Method r, pat), h). split; [done|]. apply matches_spec. eauto.
  - intros [[m pat'] h'] Hin' [Em [ps' Hm']]%matches_spec. cbn in Em, Hm'. subst m.
    by destruct (registered_unambiguous svcs _ _ _ _ _ _ _ _ Hin' Hin Hm' Hm).
Qed.
Lemma router_program_all `{!RouterLaws RL} (P : HttpRequest → Ctx → prog Response → Prop) r ctx :
  trees_all P (registered svcs) s_registered → P r ctx Panic → (∀ err, P r ctx (steps_of (s_respond_error err))) →
  (∀ resp, router_serve (registered svcs) r = ROwn resp → P r ctx (Ret resp)) → P r ctx (router_program r ctx).
Proof.
  intros Ht HP Herr Hown. unfold router_program. destruct (router_serve (registered svcs) r) as [h ps| | |resp] eqn:E; [|done..|auto].
  destruct (router_sound _ _ _ _ _ E) as (pat & Hin & Hm).
  assert (∀ x, x ∈ registered svcs → matches r x = true → on_route r (fst x) ps) as Hon.
  { intros [[m pat'] h'] Hx [Em [ps' Hm']]%matches_spec. cbn in Em, Hm'. subst m. split; [done|]. cbn.
    by destruct (registered_unambiguous svcs _ _ _ _ _ _ _ _ Hx Hin Hm' Hm) as [-> _]. }
  clear E Hin Hown. revert Ht Hon. generalize s_registered. induction (registered svcs) as [|x table IH]; [done|].
  intros t [Hx Ht] Hon. cbn [pick]. destruct (matches r x) eqn:Ex; [apply Hx, Hon; [by left|done]|].
  apply IH; [done|]. intros y Hy. apply Hon. by right.
Qed.
Definition s_router `{!RouterLaws RL} r ctx : Steps (router svcs r ctx) := mkSteps _ _ (router_program r ctx) (run_router r ctx).

(** The layers, around the tree of what they wrap. *)
Definition layer_tree (l : Layer) : Type := ∀ r ctx wr, Steps (l r ctx wr).
Definition s_write_error err wr : Steps (write_error err wr).
Proof. steps. Defined.
#[local] Hint Resolve s_write_error : steps.
Definition s_checkRateLimit k : Steps (checkRateLimit k).
Proof. http_steps. Defined.
#[local] Hint Resolve s_checkRateLimit : steps.

Section layers.
Context {l : Layer} (t : layer_tree l).
Ltac layer := unfold layer_tree in *; http_steps.
Definition s_RequestIDMiddleware : layer_tree (RequestIDMiddleware l).
Proof. layer. Defined.
Definition s_LoggerMiddleware : layer_tree (LoggerMiddleware l).
Proof. layer. Defined.
Definition s_JSONMiddleware : layer_tree (JSONMiddleware l).
Proof. layer. Defined.
Definition s_ResponseHeadersMiddleware : layer_tree (ResponseHeadersMiddleware l).
Proof. layer. Defined.
Definition s_RateLimitMiddleware : layer_tree (RateLimitMiddleware l).
Proof. layer. Defined.
Definition s_UserRateLimitMiddleware : layer_tree (UserRateLimitMiddleware l).
Proof. layer. Defined.
Definition s_JWTMiddleware : layer_tree (JWTMiddleware l).
Proof. layer. Defined.
End layers.
Definition s_TimeoutMiddleware {next} (t : ∀ r ctx, Steps (next r ctx)) : layer_tree (TimeoutMiddleware next).
Proof. unfold layer_tree. http_steps. Defined.

Definition s_stack `{!RouterLaws RL} : layer_tree (BuildHandlerStack svcs) :=
  s_RequestIDMiddleware (s_LoggerMiddleware (s_JSONMiddleware (s_ResponseHeadersMiddleware (s_RateLimitMiddleware
    (s_JWTMiddleware (s_UserRateLimitMiddleware (s_TimeoutMiddleware s_router))))))).
Definition s_NewHandler `{!RouterLaws RL} r : Steps (NewHandler svcs r).
Proof. unfold NewHandler. apply s_bind; [apply s_stack|]. http_steps. Defined.

(** The tree of calls of an HTTP request. *)
Definition http_program `{!RouterLaws RL} (r : HttpRequest) : prog Response := steps_of (s_NewHandler r).

Lemma run_http `{!RouterLaws RL} r e w : run (http_program r) e w = NewHandler svcs r e w.
Proof. apply steps_run. Qed.

End server.

(** ** Which services a request runs *)

Section issues.
Context `{JL : JwtLib} `{WL : WebAuthnLib} (cfg : Config).

(** The routes behind which a service is called. *)
Definition routes_of (q : Requests.request) : list (string * string) :=
  match q with
  | RStartEmailVerification _ => [(MethodPost, V1_StartEmailVerification)]
  | RVerifyEmailCode _ _ => [(MethodPost, V1_VerifyEmail)]
  | RCompleteEmailJoin _ _ _ _ => [(MethodPost, V1_CompleteEmailJoin)]
  | RLogin _ _ _ => [(MethodPost, V1_Login)]
  | RVerifyMFALogin _ _ _ _ => [(MethodPost, V1_MFAVerifyLogin)]
  | RSendMFALoginCode _ _ => [(MethodPost, V1_MFASendLoginCode)]
  | RRefreshToken _ _ _ => [(MethodPost, V1_RefreshToken)]
  | RLogout _ => [(MethodPost, V1_Logout)]
  | RRequestPasswordReset _ _ => [(MethodPost, V1_RequestPasswordReset)]
  | RResetPassword _ _ _ => [(MethodPost, V1_ResetPassword)]
  | RChangePassword _ _ _ _ _ => [(MethodPost, V1_ChangePassword)]
  | REnrollMFA _ _ => [(MethodPost, V1_MFAEnroll)]
  | RVerifyMFAEnrollment _ _ => [(MethodPost, V1_MFAVerifyEnrollment)]
  | RDisableMFA _ _ => [(MethodPost, V1_MFADisable)]
  | REnrollEmailMFA _ => [(MethodPost, V1_MFAEmailEnroll)]
  | RVerifyEmailMFAEnrollment _ _ => [(MethodPost, V1_MFAEmailVerify)]
  | RDisableEmailMFA _ _ => [(MethodPost, V1_MFAEmailDisable)]
  | RSSOLogin _ _ _ _ => [(MethodPost, V1_SSOGoogle); (MethodPost, V1_SSOApple)]
  | RListUsers _ => [(MethodGet, V1_AdminUsers)]
  | RGetUser _ => [(MethodGet, V1_AdminUserDetail)]
  | RBanUser _ _ _ _ _ => [(MethodPost, V1_AdminUserBan)]
  | RUnbanUser _ _ _ _ _ => [(MethodPost, V1_AdminUserUnban)]
  | RDisableUser _ _ _ _ _ => [(MethodPost, V1_AdminUserDisable)]
  | REnableUser _ _ _ _ _ => [(MethodPost, V1_AdminUserEnable)]
  | RForceLogoutUser _ _ _ _ _ => [(MethodPost, V1_AdminUserForceLogout)]
  | RChangeUserRole _ _ _ _ _ => [(MethodPost, V1_AdminUserRole)]
  | RDeleteUser _ _ _ _ _ => [(MethodDelete, V1_AdminUserDetail)]
  | RAdminResetUserPassword _ _ _ _ => [(MethodPost, V1_AdminUserResetPassword)]
  | RListAuditLogs _ _ _ => [(MethodGet, V1_AdminAuditLogs)]
  | RBeginPasskeyRegistration _ _ _ => [(MethodPost, V1_PasskeyRegisterBegin)]
  | RFinishPasskeyRegistration _ _ _ _ _ => [(MethodPost, V1_PasskeyRegisterFinish)]
  | RBeginPasskeyLogin _ => [(MethodPost, V1_PasskeyLoginBegin)]
  | RFinishPasskeyLogin _ _ _ _ => [(MethodPost, V1_PasskeyLoginFinish)]
  | RListPasskeys _ => [(MethodGet, V1_PasskeyList)]
  | RRenamePasskey _ _ _ => [(MethodPost, V1_PasskeyRename)]
  | RDeletePasskey _ _ _ => [(MethodDelete, V1_PasskeyDetail)]
  | RRunMaintenance => []
  end.
(** The account or passkey a service is given from the path. *)
Definition target_of (q : Requests.request) : option string :=
  match q with
  | RGetUser target | RBanUser _ _ _ target _ | RUnbanUser _ _ _ target _ | RDisableUser _ _ _ target _
  | REnableUser _ _ _ target _ | RForceLogoutUser _ _ _ target _ | RChangeUserRole _ _ _ target _
  | RDeleteUser _ _ _ target _ | RAdminResetUserPassword _ _ _ target => Some target
  | RRenamePasskey _ passkey _ | RDeletePasskey _ _ passkey => Some passkey
  | _ => None
  end.
(** An HTTP request may run a service behind its route, on what its path names,
    for the caller its token names. *)
Definition issues (r : HttpRequest) (q : Requests.request) : Prop :=
  on_behalf cfg (authorization r) q
  ∧ ∃ mp ps, mp ∈ routes_of q ∧ on_route r mp ps ∧ ∀ target, target_of q = Some target → target = ByName ps "id".
End issues.

(** ** What they do to the store *)

Section store.
Context `{TL : TextLib} `{UL : UuidLib} `{HL : HashLib} `{JL : JwtLib} `{OL : TotpLib} `{AL : AeadLib}
  `{WL : WebAuthnLib} `{CL : TimeLib} `{OI : OidcLib} `{JN : !JsonLib WL} `{LL : LimiterLib} `{RL : RouterLib}.
Context (cfg : Config) (svcs : Services) (I : DB → Prop) (R : relation DB) `{!Plain R}.
#[local] Instance http_setting : Setting := configured cfg.

(** A service called by a handler is the service of a request. *)
Lemma tracks_service q {A} {m : Go (svc A)} (s : Steps m) :
  along I R (program q) any → program q = steps_of (s_judged s) → tracks I R s.
Proof. intros H E. rewrite E in H. exact (along_begin _ _ _ _ _ H). Qed.
(** On a request whose services keep to [R]. *)
Definition permitted (r : HttpRequest) : Prop := ∀ q, issues cfg r q → along I R (program q) any.
Lemma permitted_on r mp ps q :
  permitted r → on_route r mp ps → on_behalf cfg (authorization r) q → mp ∈ routes_of q →
  (∀ target, target_of q = Some target → target = ByName ps "id") → along I R (program q) any.
Proof. intros Hr Hon Hfor Hin Ht. apply Hr. split; [done|]. by exists mp, ps. Qed.

Lemma tracks_respond_error err : tracks I R (s_respond_error err).
Proof. tracks. Qed.
Lemma tracks_requireRole min h (t : tree h) r ps ctx :
  (∀ u, ctx_User ctx = Some u → ranked min u → tracks I R (t r ps ctx)) → tracks I R (s_requireRole min h t r ps ctx).
Proof.
  intros Ht. unfold s_requireRole, requireRole. destruct (ctx_User ctx) as [u|]; [|apply tracks_respond_error].
  destruct (roleRank (uc_Role u) <? _) eqn:E; [apply tracks_respond_error|]. apply (Ht u); [done|].
  unfold ranked. lia.
Qed.

(** The caller of the service is the one the context names; the routes with a token
    of their own are taken by their path alone. *)
Lemma on_own_path r mp ps :
  on_route r mp ps → List.forallb (λ s, negb (is_param s)) (Split (snd mp) "/") = true → rq_Path r = snd mp.
Proof. intros [_ H] Hl. by eapply path_match_own. Qed.
Lemma expired_caller r ctx ps raw :
  vouched cfg r ctx → on_route r (MethodPost, V1_RefreshToken) ps →
  on_behalf cfg (authorization r)
    (RRefreshToken (GetContextString (ctx_SessionIDFromExpiredJWT ctx) "") (GetContextString (ctx_UserIDFromExpiredJWT ctx) "") raw).
Proof.
  intros Hv Hon%on_own_path; [|done]. destruct (vc_expired _ _ _ Hv Hon) as (sid & uid & -> & -> & H). exact H.
Qed.
Lemma temporary_caller r ctx ps name p1 p2 :
  vouched cfg r ctx → on_route r (MethodPost, V1_CompleteEmailJoin) ps →
  on_behalf cfg (authorization r) (RCompleteEmailJoin ctx name p1 p2).
Proof. intros Hv Hon%on_own_path; [|done]. exact (vc_temporary _ _ _ Hv Hon). Qed.

Ltac by_caller :=
  lazymatch goal with
  | Hv : vouched _ ?r ?ctx, Hon : on_route ?r _ ?ps |- _ =>
      lazymatch goal with
      | |- on_behalf _ _ (RRefreshToken _ _ _) => by apply (expired_caller r ctx ps)
      | |- on_behalf _ _ (RCompleteEmailJoin _ _ _ _) => by apply (temporary_caller r ctx ps)
      | Hu : ctx_User ctx = Some ?u |- _ => exists u; split; [exact (vc_user _ _ _ Hv u Hu)|cbv beta; auto]
      | |- _ => exact Logic.I
      end
  end.
Ltac by_service :=
  lazymatch goal with
  | |- @tracks _ _ _ _ ?m _ =>
      let q := Requests.request_of m in
      apply (tracks_service q); [|reflexivity];
      lazymatch goal with
      | Hr : permitted ?r, Hon : on_route ?r ?mp ?ps |- _ =>
          apply (permitted_on r mp ps q Hr Hon); [by_caller|cbn; set_solver|by intros ? [= <-]]
      end
  end.
Ltac http_tracks_step :=
  lazymatch goal with
  | |- tracks _ _ (s_catch _) => apply tracks_catch
  | |- tracks _ _ (s_requireRole _ _ _ _ _ _) => apply tracks_requireRole; intros ? ? ?
  | |- tracks _ _ (s_bind _ _) => tracks_step
  | |- tracks _ _ (match ctx_User ?ctx with _ => _ end) => retype; destruct (ctx_User ctx) eqn:?; simplify_eq
  | |- tracks _ _ (match _ with _ => _ end) => tracks_step
  | |- _ => first [by_service | tracks_step]
  end.
Ltac http_tracks := intros; repeat http_tracks_step.

Ltac as_tracks := lazymatch goal with |- along ?I ?R (steps_of ?s) any => change (tracks I R s) end; retype.
Ltac by_trees :=
  lazymatch goal with
  | |- trees_all _ _ ?t => let h := head_of t in unfold h;
      repeat first [exact Logic.I | apply conj; [cbn [fst snd]; intros r ps ctx Hon Hv Hr; as_tracks; http_tracks|]]
  end.

Definition served_for (r : HttpRequest) (ctx : Ctx) (p : prog Response) : Prop :=
  vouched cfg r ctx → permitted r → along I R p any.
Lemma tracks_registered : trees_all served_for (registered svcs) (s_registered svcs).
Proof. apply trees_all_registered; by_trees. Qed.
Context `{!LimiterLaws LL} `{!RouterLaws RL}.

Lemma tracks_router r ctx : vouched cfg r ctx → permitted r → tracks I R (s_router svcs r ctx).
Proof.
  apply (router_program_all svcs served_for); [apply tracks_registered|done| |done].
  intros err _ _. apply tracks_respond_error.
Qed.
Lemma tracks_limiter k : tracks I R (s_limiter k).
Proof. apply tracks_call. intros e w. cbn. by rewrite limiter_db. Qed.
#[local] Hint Resolve tracks_limiter : steps.

(** A layer inside which the context says no more than [V]. *)
Definition layer_tracks (V : HttpRequest → Ctx → Prop) {l : Layer} (t : layer_tree l) : Prop :=
  ∀ r ctx wr, V r ctx → permitted r → tracks I R (t r ctx wr).
Section layers.
Context (V : HttpRequest → Ctx → Prop) {l : Layer} (t : layer_tree l) (Ht : layer_tracks V t).
Ltac layer := unfold layer_tracks in *; http_tracks.
Lemma tracks_RequestIDMiddleware : layer_tracks V (s_RequestIDMiddleware t).
Proof. layer. Qed.
Lemma tracks_LoggerMiddleware :
  (∀ r ctx ip agent, V r ctx → V r (set_ctx_client ip agent ctx)) → layer_tracks V (s_LoggerMiddleware t).
Proof. intros HV. layer. Qed.
Lemma tracks_JSONMiddleware : layer_tracks V (s_JSONMiddleware t).
Proof. layer. Qed.
Lemma tracks_ResponseHeadersMiddleware : layer_tracks V (s_ResponseHeadersMiddleware t).
Proof. layer. Qed.
Lemma tracks_RateLimitMiddleware : layer_tracks V (s_RateLimitMiddleware t).
Proof. layer. Qed.
Lemma tracks_UserRateLimitMiddleware : layer_tracks V (s_UserRateLimitMiddleware t).
Proof. layer. Qed.
End layers.

(** A guarded step of which something is known, when it answers. *)
Lemma tracks_guarded {A} (P : A → Prop) {m : Go A} {k : option A → Go served} (s : Steps m) (t : ∀ o, Steps (k o)) :
  along I R (steps_of s) P → (∀ a, P a → tracks I R (t (Some a))) → tracks I R (t None) →
  tracks I R (s_bind (s_catch s) t).
Proof.
  intros Hs Ht Hn. apply (tracks_bind_post I R (λ o, ∀ a, o = Some a → P a)); [by apply along_pcatch|].
  intros [a|] Ha; auto.
Qed.
(** Past authentication the context names whom a token vouches for. *)
Lemma tracks_JWTMiddleware {l : Layer} (t : layer_tree l) :
  layer_tracks (vouched cfg) t → layer_tracks anonymous (s_JWTMiddleware t).
Proof.
  intros Ht r ctx wr Hv Hr. unfold s_JWTMiddleware, JWTMiddleware.
  destruct (isAlternateRoute (rq_Path r) OpenRoutes) eqn:Eo; [by apply Ht; [apply vouched_open|]|].
  destruct (String.eqb_spec (rq_Path r) V1_RefreshToken) as [Er|Er]; [|destruct (isAlternateRoute (rq_Path r) TemporaryJWTRoutes) eqn:Et].
  - apply (tracks_guarded _ _ _ (gives_VerifyAndParseExpiredJWT cfg I R _)); [|done].
    intros [[sid uid]|] Hx; [|tracks]. apply Ht; [|done]. by apply vouched_expired, (Hx _ eq_refl).
  - apply (tracks_guarded _ _ _ (gives_VerifyAndParseTemporaryJWT cfg I R _)); [|done].
    intros [[email id]|] Hx; [|tracks]. apply Ht; [|done]. by apply vouched_temporary, (Hx _ eq_refl).
  - apply (tracks_guarded _ _ _ (gives_VerifyAndParseJWT cfg I R _)); [|done].
    intros [u|] Hx; [|tracks]. apply Ht; [|done]. apply vouched_user; [done..|]. exact (Hx _ eq_refl).
Qed.
Lemma tracks_TimeoutMiddleware V {next} (t : ∀ r ctx, Steps (next r ctx)) :
  (∀ r ctx, V r ctx → permitted r → tracks I R (t r ctx)) → layer_tracks V (s_TimeoutMiddleware t).
Proof. unfold layer_tracks. http_tracks. Qed.
Lemma tracks_stack : layer_tracks anonymous (s_stack svcs).
Proof.
  apply tracks_RequestIDMiddleware, tracks_LoggerMiddleware; [|done].
  apply tracks_JSONMiddleware, tracks_ResponseHeadersMiddleware, tracks_RateLimitMiddleware,
    tracks_JWTMiddleware, tracks_UserRateLimitMiddleware, tracks_TimeoutMiddleware, tracks_router.
Qed.

(** Every call of an HTTP request moves the store as the services it may run do. *)
Lemma http_along r : permitted r → along I R (http_program svcs r) any.
Proof. intros Hr. apply tracks_bind; [by apply tracks_stack|]. intros s. by destruct s. Qed.
End store.
