(* ===== verification/Deploy.v ===== *)
(** * The deployment: a server that starts, serves and stops, and the cron job

    internal/server/server.go and the two commands over one store.  The server
    process is down, serving, or draining after a signal; every request gets a
    goroutine.  The signal closes the listener, not the connections accepted by
    then: each of them may still bring a request while [Shutdown] waits, for as
    long as it is given, for the requests that have no answer yet.  A process that
    ends, in whatever way, ends its goroutines where they are: the semantics of a
    process, not a choice of this program.  The maintenance command is a process
    of its own and runs at any time. *)

From S2P Require Import Prelude.
From S2P Require Import GoLib.
From S2P Require Import Utils.
From S2P Require Import Model.
From S2P Require Import Runtime.
From S2P Require Import Logic.
From S2P Require Import Queries.
From S2P Require Import Store.
From S2P Require Import Password.
From S2P Require Import Tokens.
From S2P Require Import Codes.
From S2P Require Import Sso.
From S2P Require Import Maintenance.
From S2P Require Import Admin.
From S2P Require Import Passkey.
From S2P Require Import Walks.
From S2P Require Import Requests.
From S2P Require Import Calls.
From S2P Require Import Steps.
From S2P Require Import Pool.
From S2P Require Import Interleave.
From S2P Require Import Json.
From S2P Require Import Http.
From S2P Require Import Config.
From S2P Require Import Routes.
From S2P Require Import Handlers.
From S2P Require Import Middleware.
From S2P Require Import Server.
From S2P Require Import Startup.
From S2P Require Import HttpSteps.
From stdpp Require Import relations list.

#[local] Open Scope string_scope.
#[local] Open Scope Z_scope.
#[local] Open Scope go_scope.

(** What runs: the handling of an HTTP request, or the maintenance command in an
    environment. *)
Inductive job :=
  | JHttp (r : HttpRequest)
  | JCron (getenv : string → string).
Inductive outcome :=
  | Replied (resp : Response)
  | CronExited (status : Z).
Definition is_http (j : job) : bool := match j with JHttp _ => true | JCron _ => false end.

(** The server process; [Down] has its exit status, none if it was killed or
    never ran, and [Draining] the number of accepted connections that may still
    bring a request. *)
Inductive phase :=
  | Down (status : option Z)
  | Serving
  | Draining (conns : nat).

(** [dp_late] are the requests whose deadline has passed: their answer is given. *)
Record deployment := mkDeployment {
  dp_phase : phase;
  dp_pool : pool job outcome;
  dp_late : list nat
}.

Section deployment.
Context `{TL : TextLib} `{UL : UuidLib} `{HL : HashLib} `{JL : JwtLib} `{OL : TotpLib} `{AL : AeadLib}
  `{WL : WebAuthnLib} `{CL : TimeLib} `{OI : OidcLib} `{JN : !JsonLib WL} `{LL : LimiterLib} `{RL : RouterLib}
  `{KL : KeyLib} `{SL : !StartLib OI WL}.
Context `{!RouterLaws RL} (cfg : Config) (svcs : Services).

(** The configuration is loaded once: every call of a process sees that one.
    (Maintenance looks at none.) *)
#[local] Instance deployment_setting : Setting := configured cfg.

Definition s_cron_main getenv : Steps (cron_main getenv).
Proof. steps. Defined.
Definition job_program (j : job) : prog outcome :=
  match j with
  | JHttp r => pbind (http_program svcs r) (λ resp, Ret (Replied resp))
  | JCron getenv => pbind (steps_of (s_cron_main getenv)) (λ status, Ret (CronExited status))
  end.
#[local] Instance deployment_jobs : Jobs job outcome := job_program.

Definition arrive (j : job) (po : pool job outcome) : pool job outcome :=
  mkPool (po_threads po ++ [start j]) (po_world po).
(** The process of the server ends: its goroutines stop where they are. *)
Definition cut_off (po : pool job outcome) : pool job outcome :=
  mkPool (cut is_http <$> po_threads po) (po_world po).
(** No request in flight: each is answered, by its handler or by its deadline. *)
Definition settled (d : deployment) : Prop :=
  ∀ i th, po_threads (dp_pool d) !! i = Some th → is_http (th_job th) = true →
  finished (th_rest th) = true ∨ i ∈ dp_late d.
(** What [server.Shutdown] may return: nil when it has waited for the requests in
    flight, an error when its time is up or the listener did not close. *)
Definition shutdown_returns (d : deployment) (err : option error) : Prop :=
  match err with None => settled d | Some _ => True end.

Inductive step : relation deployment :=
  (** The process starts: [main] gets to [server.Start], or exits. *)
  | step_boot getenv st po late :
      main getenv = Ok (cfg, svcs) → step (mkDeployment (Down st) po late) (mkDeployment Serving po late)
  | step_boot_fails getenv err st po late :
      main getenv = Err err → step (mkDeployment (Down st) po late) (mkDeployment (Down (Some fatal_status)) po late)
  (** A request arrives; a goroutine or the cron job makes a call. *)
  | step_request r po late : step (mkDeployment Serving po late) (mkDeployment Serving (arrive (JHttp r) po) late)
  | step_progress ph e i po late : e_cfg e = cfg → step (mkDeployment ph po late) (mkDeployment ph (call_of e i po) late)
  (** The deadline of a request passes: [http.TimeoutHandler] answers it. *)
  | step_deadline ph i po late : step (mkDeployment ph po late) (mkDeployment ph po (i :: late))
  (** SIGINT or SIGTERM: the listener closes, and so many accepted connections
      have brought no request yet, which they may still do. *)
  | step_signal n po late : step (mkDeployment Serving po late) (mkDeployment (Draining n) po late)
  | step_late_request n r po late :
      step (mkDeployment (Draining (S n)) po late) (mkDeployment (Draining n) (arrive (JHttp r) po) late)
  (** [Shutdown] returns, and [gracefulShutdown] ends the process; or
      [ListenAndServe] fails, and the goroutine of [Start] does. *)
  | step_shutdown n err po late :
      shutdown_returns (mkDeployment (Draining n) po late) err →
      step (mkDeployment (Draining n) po late) (mkDeployment (Down (Some (gracefulShutdown err))) (cut_off po) late)
  | step_listen_returns err status po late :
      Start err = Some status →
      step (mkDeployment Serving po late) (mkDeployment (Down (Some status)) (cut_off po) late)
  (** The process is killed. *)
  | step_killed ph po late : step (mkDeployment ph po late) (mkDeployment (Down None) (cut_off po) late)
  (** The scheduler starts the maintenance command. *)
  | step_cron ph getenv po late : step (mkDeployment ph po late) (mkDeployment ph (arrive (JCron getenv) po) late)
  | step_cron_killed ph i th po late :
      po_threads po !! i = Some th → is_http (th_job th) = false →
      step (mkDeployment ph po late)
        (mkDeployment ph (mkPool (<[i := mkThread (th_job th) Panic]> (po_threads po)) (po_world po)) late).
Definition steps : relation deployment := rtc step.

(** Before the server first runs, over any store. *)
Definition initially (w : World) : deployment := mkDeployment (Down None) (mkPool [] w) [].
Definition deployed (d : deployment) : Prop := ∃ w, steps (initially w) d.
Definition dp_db (d : deployment) : DB := po_db (dp_pool d).

(** ** A deployment is a pool *)

Lemma cut_off_steps po : pool_steps po (cut_off po).
Proof. destruct po as [ths w]. exact (cut_steps is_http [] ths w). Qed.
Lemma step_pool d d' : step d d' → pool_steps (dp_pool d) (dp_pool d').
Proof.
  destruct 1; cbn; try apply rtc_refl; try apply cut_off_steps; apply rtc_once.
  - apply step_accept.
  - by apply step_call.
  - apply step_accept.
  - apply step_accept.
  - by apply step_drop.
Qed.
Lemma steps_pool d d' : steps d d' → pool_steps (dp_pool d) (dp_pool d').
Proof. induction 1; [apply rtc_refl|]. eapply rtc_trans; [by apply step_pool|done]. Qed.
Lemma deployed_running d : deployed d → running (dp_pool d).
Proof. intros [w Hw]. exists w. exact (steps_pool _ _ Hw). Qed.
Lemma deployed_steps d d' : deployed d → steps d d' → deployed d'.
Proof. intros [w Hw] Hs. exists w. by eapply rtc_trans. Qed.

Context `{!LimiterLaws LL}.

(** The services a job may run. *)
Definition job_issues (j : job) (q : Requests.request) : Prop :=
  match j with JHttp r => issues cfg r q | JCron _ => q = RRunMaintenance end.

(** A job moves the store as these do. *)
Lemma along_begin_ret {A B} I R (p : prog A) (f : A → B) : along I R p any → along I R (pbind p (λ a, Ret (f a))) any.
Proof. intros H. by apply (along_pbind I R any). Qed.
Lemma job_along I R `{!Plain R} j : (∀ q, job_issues j q → along I R (program q) any) → along I R (job_prog j) any.
Proof.
  intros Hr. destruct j as [r|getenv]; cbn [job_prog deployment_jobs job_program]; apply along_begin_ret.
  - by apply http_along.
  - specialize (Hr _ eq_refl). change (tracks I R (s_cron_main getenv)). unfold s_cron_main, cron_main. retype.
    destruct (cron_setup getenv); [|done]. apply tracks_bind; [exact (along_begin I R _ _ _ Hr)|].
    intros v. by destruct v.
Qed.
Lemma deployed_tracks R `{!Plain R} d d' :
  (∀ j q, j ∈ accepted (dp_pool d') → job_issues j q → permits R q) → deployed d → steps d d' → R (dp_db d) (dp_db d').
Proof.
  intros Hr Hd Hs. unfold dp_db. apply running_all; [typeclasses eauto|by apply deployed_running|by apply steps_pool|].
  intros j Hj. apply job_along; [done|]. intros q Hq. apply program_along; [done|by apply (Hr j)].
Qed.
End deployment.
