(* ===== verification/DeploySpec.v ===== *)
(** * What holds of a deployment, through signals, crashes and restarts

    The invariant of the schema and the machines of accounts and sessions hold of
    everything the deployment does, and a block on an account holds through it. *)

From S2P Require Import Prelude.
From S2P Require Import GoLib.
From S2P Require Import Utils.
From S2P Require Import Model.
From S2P Require Import Runtime.
From S2P Require Import Logic.
From S2P Require Import Queries.
From S2P Require Import Store.
From S2P Require Import Password.
From S2P Require Import Tokens.
From S2P Require Import Codes.
From S2P Require Import Sso.
From S2P Require Import Maintenance.
From S2P Require Import Admin.
From S2P Require Import Passkey.
From S2P Require Import Walks.
From S2P Require Import Toy.
From S2P Require Import Requests.
From S2P Require Import Scenes.
From S2P Require Import Calls.
From S2P Require Import Steps.
From S2P Require Import Pool.
From S2P Require Import Interleave.
From S2P Require Import BlockedSpec.
From S2P Require Import MaintenanceSpec.
From S2P Require Import Json.
From S2P Require Import Http.
From S2P Require Import Config.
From S2P Require Import Routes.
From S2P Require Import Handlers.
From S2P Require Import Middleware.
From S2P Require Import Server.
From S2P Require Import Startup.
From S2P Require Import ToyServer.
From S2P Require Import ConfigSpec.
From S2P Require Import StartupSpec.
From S2P Require Import LifecycleSpec.
From S2P Require Import AccountSpec.
From S2P Require Import InterleaveSpec.
From S2P Require Import Caller.
From S2P Require Import HttpSteps.
From S2P Require Import Deploy.
From stdpp Require Import relations list.

#[local] Open Scope string_scope.
#[local] Open Scope Z_scope.
#[local] Open Scope go_scope.

Section deployment.
Context `{TL : TextLib} `{UL : UuidLib} `{HL : HashLib} `{JL : JwtLib} `{OL : TotpLib} `{AL : AeadLib}
  `{WL : WebAuthnLib} `{CL : TimeLib} `{OI : OidcLib} `{JN : !JsonLib WL} `{LL : LimiterLib} `{RL : RouterLib}
  `{KL : KeyLib} `{SL : !StartLib OI WL}.

(** C1: the schema's constraints hold at every moment of a deployment: over any
    store that satisfies them, whatever HTTP requests and maintenance runs are
    handled at the same time, in any order of their calls, and wherever a crash,
    a shutdown or a failing call cuts them off. *)
Theorem deployment_keeps_invariant (HLL : LimiterLaws LL) (HRL : RouterLaws RL) cfg svcs w d :
  steps cfg svcs (initially w) d → wf (w_db w) → wf (dp_db d).
Proof.
  intros Hs Hw. assert (deployed cfg svcs (initially w)) as Hd by (exists w; apply rtc_refl).
  destruct (deployed_tracks cfg svcs safe _ _ (λ j q _ _, safe_permits q) Hd Hs) as [_ H]. by apply H.
Qed.

(** The acts of a deployment on an account, and its events on a session. *)
Definition acts_by (cfg : Config) (uid : uuid) (d : deployment) (a : act) : Prop :=
  ∃ r q, JHttp r ∈ accepted (dp_pool d) ∧ issues cfg r q ∧ may_do q uid a.
Definition events_by (cfg : Config) (sid : uuid) (d : deployment) (ev : event) : Prop :=
  ev = Revoke ∨ ∃ r q, JHttp r ∈ accepted (dp_pool d) ∧ issues cfg r q ∧ may_cause_late q sid ev.
Lemma deployment_acts (HLL : LimiterLaws LL) (HRL : RouterLaws RL) cfg svcs uid d d' :
  deployed cfg svcs d → steps cfg svcs d d' → acts (acts_by cfg uid d') (standing_of uid (dp_db d)) (standing_of uid (dp_db d')).
Proof.
  intros Hd Hs. apply (deployed_tracks cfg svcs (stands _ uid) d d'); [|done..]. intros [r|] q Hj Hq; [|by rewrite Hq].
  apply stands_permits. unfold acts_by. eauto.
Qed.

(** C24: the abstract machines are implemented by the deployment: between any two
    moments of it, restarts included, an account has moved only by acts that a
    request the server had taken may cause - on a sign-up route, or on the admin route
    of the act, with the account in its path and an access token of another account
    of the role the route demands.  A session has moved only by a revocation, an
    opening on a sign-in route, or a refresh that bears an access token of that very
    session.  So nothing sent over HTTP makes an admin, revives a deleted account or
    brings back a revoked session. *)
Theorem deployment_refines_machines (HLL : LimiterLaws LL) (HRL : RouterLaws RL) cfg svcs uid sid d d' :
  deployed cfg svcs d → steps cfg svcs d d' →
  acts (acts_by cfg uid d') (standing_of uid (dp_db d)) (standing_of uid (dp_db d'))
  ∧ moves (events_by cfg sid d') (life_of sid (dp_db d)) (life_of sid (dp_db d')).
Proof.
  intros Hd Hs. split; [by apply (deployment_acts _ _ cfg svcs)|].
  assert (Plain (lives (events_by cfg sid d') sid)) by (apply lives_plain; by left).
  apply (deployed_tracks cfg svcs (lives (events_by cfg sid d') sid) d d'); [|done..].
  intros [r|] q Hj Hq; [|by rewrite Hq]. apply lives_permits; unfold events_by; eauto 6.
Qed.

(** A job under way that has come to its end, or that can open no session. *)
Definition spent (cfg : Config) (uid : uuid) (th : thread job outcome) : Prop :=
  finished (th_rest th) = true ∨ ∀ q, job_issues cfg (th_job th) q → harmless uid q.

(** C25: a block holds, from one moment of a deployment to any later one: once an
    account is banned, disabled or deleted, and no sign-in is under way at that
    moment, no request opens a session for it - by password, second factor, single
    sign-on, passkey or sign-up, however the calls of all requests alternate,
    whatever fails and however often the server restarts - unless a request on the
    unban or enable route names it.  (A sign-in that is under way can, which is a
    finding.) *)
Theorem block_holds (HLL : LimiterLaws LL) (HRL : RouterLaws RL) cfg svcs uid d d' :
  deployed cfg svcs d → steps cfg svcs d d' → blocked uid (dp_db d) →
  (∀ th, th ∈ po_threads (dp_pool d) → spent cfg uid th) →
  (∀ j q, j ∈ arrived (dp_pool d) (dp_pool d') → job_issues cfg j q → lifts_block uid q = false) →
  blocked uid (dp_db d') ∧ no_new_session uid (dp_db d) (dp_db d').
Proof.
  intros Hd Hs Hb Hth Hnew. assert (frozen uid (dp_db d) (dp_db d')) as H; [|by apply H].
  pose (deployment_jobs svcs) as Hjobs. pose (configured cfg) as Hset.
  apply (running_along (blocked uid) (frozen uid) (frozen_keeps uid));
    [by apply (deployed_running cfg svcs)|by apply (steps_pool cfg svcs)|done|..].
  - intros th Hin. destruct (Hth th Hin) as [Hf|Hh]; [left; by destruct (th_rest th)|right].
    apply (job_along cfg svcs any (frozen uid)). intros q Hq. by apply harmless_frozen, Hh.
  - intros j Hj. apply (job_along cfg svcs (blocked uid) (frozen uid)). intros q Hq. by apply program_frozen, (Hnew j).
Qed.

(** ** Progress *)

Context `{!RouterLaws RL} (cfg : Config) (svcs : Services).
#[local] Instance svcs_jobs : Jobs job outcome := deployment_jobs svcs.
#[local] Instance cfg_setting : Setting := configured cfg.

Lemma busy_progress ph po po' late : rtc busy_step po po' → steps cfg svcs (mkDeployment ph po late) (mkDeployment ph po' late).
Proof.
  induction 1 as [po|po1 po2 po3 (e & i & th & He & _ & _ & ->) _ IH]; [apply rtc_refl|].
  eapply rtc_l; [by apply step_progress|exact IH].
Qed.
(** An environment of the process: nothing fails. *)
Definition some_env (cfg : Config) : Env :=
  mkEnv cfg false (λ _, 0) (λ _, FNone) (λ _, MkUUID "") (λ _ _, None) (λ _, None) (λ _ _, MkUUID "").

End deployment.

(** ** Example: a sign-in, a crash, and what is swept after it

    The server starts with Google configured and signs somebody in; a second
    sign-in is under way when the process is killed.  Weeks later the maintenance
    command runs. *)

Import Toy ToyServer.

Definition google_env (k : string) : string := if String.eqb k "GOOGLE_CLIENT_ID" then "client" else toy_env "20" k.
Definition google_cfg : Config := match Load google_env with Ok cfg => cfg | Err _ => Toy.cfg end.
Definition google_svcs : Services := mkServices oidc webauthn (Some ()) None None.
Lemma google_starts : main google_env = Ok (google_cfg, google_svcs).
Proof. by vm_compute. Qed.
#[local] Instance google_jobs : Jobs job outcome := deployment_jobs google_svcs.

Definition google_token : HttpRequest := request MethodPost V1_SSOGoogle "" [("id_token", "sub")].
Definition sign_in : job := JHttp google_token.
#[local] Instance google_setting : Setting := configured google_cfg.

(** The environment of the process, and of the cron job weeks later. *)
Definition night : Env :=
  mkEnv google_cfg false (e_clock env) (e_fault env) (e_uuid env) (e_rand_read env) (e_rand_int env) (e_gen_uuid env).
Definition month_later : Env :=
  mkEnv google_cfg false (λ n, e_clock env n + 40 * Day) (e_fault env) (e_uuid env) (e_rand_read env)
    (e_rand_int env) (e_gen_uuid env).

Definition with_sign_in (po : pool job outcome) : pool job outcome := arrive google_svcs sign_in po.
Definition first_night : pool job outcome := play night (replicate 60 0%nat) (with_sign_in (mkPool [] (world empty_db))).
Definition interrupted : pool job outcome := cut_off (play night (replicate 20 1%nat) (with_sign_in first_night)).
Definition swept_later : pool job outcome := play month_later (replicate 20 2%nat) (arrive google_svcs (JCron google_env) interrupted).

Definition signed_in : deployment := mkDeployment Serving first_night [].
Definition crashed : deployment := mkDeployment (Down None) interrupted [].
Definition afterwards : deployment := mkDeployment (Down None) swept_later [].

Definition live (d : deployment) : nat := length (List.filter (λ s, bool_decide (se_Revoked s = Some false)) (sessions (dp_db d))).

(** The sign-in was answered, the other was cut off, and its session expired. *)
Example deployment_story :
  List.map live [signed_in; crashed; afterwards] = [1; 1; 0]%nat
  ∧ List.map (λ th, match th_rest th with Ret (Replied r) => Some (rs_Status r) | Ret (CronExited z) => Some z | _ => None end)
      (po_threads (dp_pool afterwards)) = [Some 200; None; Some 0].
Proof. by vm_compute. Qed.

Lemma play_progress ph e order po late :
  e_cfg e = google_cfg → steps google_cfg google_svcs (mkDeployment ph po late) (mkDeployment ph (play e order po) late).
Proof.
  intros He. revert po. induction order as [|i order IH]; intros po; [apply rtc_refl|]. eapply rtc_l; [by apply step_progress|apply IH].
Qed.
Lemma booted : steps google_cfg google_svcs (initially (world empty_db)) (mkDeployment Serving (mkPool [] (world empty_db)) []).
Proof. exact (rtc_once _ _ (step_boot google_cfg google_svcs google_env None (mkPool [] (world empty_db)) [] google_starts)). Qed.
Lemma signs_in_steps e order po :
  e_cfg e = google_cfg → steps google_cfg google_svcs (mkDeployment Serving po []) (mkDeployment Serving (play e order (with_sign_in po)) []).
Proof. intros He. eapply rtc_l; [apply (step_request google_cfg google_svcs google_token)|by apply play_progress]. Qed.
Lemma killed_steps po : steps google_cfg google_svcs (mkDeployment Serving po []) (mkDeployment (Down None) (cut_off po) []).
Proof. apply rtc_once, step_killed. Qed.
Lemma signed_in_steps : steps google_cfg google_svcs (initially (world empty_db)) signed_in.
Proof. exact (rtc_trans _ _ _ booted (signs_in_steps night (replicate 60 0%nat) (mkPool [] (world empty_db)) eq_refl)). Qed.
Lemma crashed_steps : steps google_cfg google_svcs signed_in crashed.
Proof.
  exact (rtc_trans _ _ _ (signs_in_steps night (replicate 20 1%nat) first_night eq_refl)
           (killed_steps (play night (replicate 20 1%nat) (with_sign_in first_night)))).
Qed.
Lemma signed_in_deployed : deployed google_cfg google_svcs signed_in.
Proof. exists (world empty_db). exact signed_in_steps. Qed.
Lemma crashed_deployed : deployed google_cfg google_svcs crashed.
Proof. exact (deployed_steps google_cfg google_svcs _ _ signed_in_deployed crashed_steps). Qed.
Lemma signed_in_live : live signed_in = 1%nat.
Proof. by vm_compute. Qed.
Lemma deployment_keeps_invariant_witness : live signed_in = 1%nat ∧ wf (dp_db signed_in).
Proof.
  split; [exact signed_in_live|].
  exact (deployment_keeps_invariant limiter_laws router_laws google_cfg google_svcs (world empty_db) signed_in
           signed_in_steps wf_empty).
Defined.


Definition google_session : uuid := match sessions (dp_db signed_in) with s :: _ => se_ID s | [] => id_of 0 end.
Definition google_user : uuid := match users (dp_db signed_in) with u :: _ => u_ID u | [] => id_of 0 end.
Lemma google_joined :
  standing_of google_user (dp_db signed_in) = Account UserRoleUser (Some UserStatusActive) false
  ∧ life_of google_session (dp_db (initially (world empty_db))) = Absent
  ∧ owner (life_of google_session (dp_db signed_in)) = Some (Some google_user).
Proof. by vm_compute. Qed.
Lemma initially_deployed : deployed google_cfg google_svcs (initially (world empty_db)).
Proof. exists (world empty_db). apply rtc_refl. Qed.
Lemma deployment_refines_machines_witness :
  standing_of google_user (dp_db signed_in) = Account UserRoleUser (Some UserStatusActive) false
  ∧ acts (acts_by google_cfg google_user signed_in)
      (standing_of google_user (dp_db (initially (world empty_db)))) (standing_of google_user (dp_db signed_in)).
Proof.
  split; [exact (proj1 google_joined)|].
  exact (proj1 (deployment_refines_machines limiter_laws router_laws google_cfg google_svcs google_user google_session _ _
                  initially_deployed signed_in_steps)).
Defined.

(** The account is banned overnight, and its owner signs in again. *)
Definition w_spam : World :=
  final (run_request (RBanUser nobody "root-id" "root" (uuid_Bytes google_user) "spam")) night (po_world first_night).
Definition over_ban : deployment := mkDeployment Serving (mkPool [] w_spam) [].
Definition refused : pool job outcome := play night (replicate 60 0%nat) (with_sign_in (mkPool [] w_spam)).
Definition after_refusal : deployment := mkDeployment Serving refused [].
Lemma over_ban_deployed : deployed google_cfg google_svcs over_ban.
Proof. exists w_spam. exact (rtc_once _ _ (step_boot google_cfg google_svcs google_env None (mkPool [] w_spam) [] google_starts)). Qed.
Lemma refused_steps : steps google_cfg google_svcs over_ban after_refusal.
Proof. exact (signs_in_steps night (replicate 60 0%nat) (mkPool [] w_spam) eq_refl). Qed.
Lemma refused_answer :
  match po_threads refused with
  | [mkThread (JHttp r) (Ret (Replied resp))] => rs_Status resp = 403
  | _ => False
  end.
Proof. by vm_compute. Qed.
Lemma google_lifts_nothing uid q : issues google_cfg google_token q → lifts_block uid q = false.
Proof.
  intros [_ (mp & ps & Hin & [_ Hm] & _)]. destruct q; try done;
    cbn [routes_of] in Hin; apply list_elem_of_singleton in Hin as ->; vm_compute in Hm; discriminate.
Qed.
Lemma refused_arrived : arrived (dp_pool over_ban) (dp_pool after_refusal) = [sign_in].
Proof. by vm_compute. Qed.
Lemma over_ban_banned : standing_of google_user (dp_db over_ban) = Account UserRoleUser (Some UserStatusBanned) false.
Proof. by vm_compute. Qed.
Lemma over_ban_blocked : blocked google_user (dp_db over_ban).
Proof. apply blocked_true; by vm_compute. Qed.
Lemma over_ban_spent th : th ∈ po_threads (dp_pool over_ban) → spent google_cfg google_user th.
Proof. by intros []%not_elem_of_nil. Qed.
Lemma refused_lifts j q : j ∈ arrived (dp_pool over_ban) (dp_pool after_refusal) → job_issues google_cfg j q → lifts_block google_user q = false.
Proof. rewrite refused_arrived. intros ->%list_elem_of_singleton. apply google_lifts_nothing. Qed.

Lemma block_holds_witness :
  match po_threads refused with
  | [mkThread (JHttp r) (Ret (Replied resp))] => rs_Status resp = 403
  | _ => False
  end
  ∧ no_new_session google_user (dp_db over_ban) (dp_db after_refusal).
Proof.
  split; [exact refused_answer|].
  exact (proj2 (block_holds limiter_laws router_laws google_cfg google_svcs google_user over_ban after_refusal
                  over_ban_deployed refused_steps over_ban_blocked over_ban_spent refused_lifts)).
Defined.
