(* ===== verification/AuthoritySpec.v ===== *)
(** * Whose doing a change of an account is

    Behind every change of the role, the status or the deletion of an account
    stands a request with an access token of somebody else, of the rank the change
    takes. *)

From S2P Require Import Prelude.
From S2P Require Import GoLib.
From S2P Require Import Utils.
From S2P Require Import Model.
From S2P Require Import Runtime.
From S2P Require Import Logic.
From S2P Require Import Queries.
From S2P Require Import Store.
From S2P Require Import Password.
From S2P Require Import Tokens.
From S2P Require Import Codes.
From S2P Require Import Mfa.
From S2P Require Import Login.
From S2P Require Import Session.
From S2P Require Import Sso.
From S2P Require Import Admin.
From S2P Require Import Passkey.
From S2P Require Import Walks.
From S2P Require Import Toy.
From S2P Require Import Requests.
From S2P Require Import Scenes.
From S2P Require Import Calls.
From S2P Require Import Pool.
From S2P Require Import Json.
From S2P Require Import Http.
From S2P Require Import Config.
From S2P Require Import Routes.
From S2P Require Import Handlers.
From S2P Require Import Middleware.
From S2P Require Import Server.
From S2P Require Import Startup.
From S2P Require Import ToyServer.
From S2P Require Import ConfigSpec.
From S2P Require Import StartupSpec.
From S2P Require Import AccountSpec.
From S2P Require Import InterleaveSpec.
From S2P Require Import Caller.
From S2P Require Import HttpSteps.
From S2P Require Import Deploy.
From S2P Require Import DeploySpec.
From stdpp Require Import relations list.

#[local] Open Scope string_scope.
#[local] Open Scope Z_scope.
#[local] Open Scope go_scope.

#[local] Instance standing_eq_dec : EqDecision standing.
Proof. solve_decision. Defined.

(** What only an admin may change of an account: its role, and whether it is
    deleted. *)
Definition tenure (s : standing) : option (UserRole * bool) :=
  match s with Nobody => None | Account role _ deleted => Some (role, deleted) end.

(** Where acts have changed something of an account, one of them did. *)
Lemma acts_changed {B} `{EqDecision B} (g : standing → B) may s s' :
  acts may s s' → s ≠ Nobody → g s ≠ g s' →
  ∃ a x y, may a ∧ act_step a x y ∧ x ≠ Nobody ∧ g x ≠ g y.
Proof.
  induction 1 as [s|s1 s2 s3 (a & Ha & Hs) _ IH]; intros Hn Hg; [done|].
  destruct (decide (g s1 = g s2)) as [E|E]; [|by exists a, s1, s2].
  apply IH; [by destruct Hs|congruence].
Qed.

Section authority.
Context `{TL : TextLib} `{UL : UuidLib} `{HL : HashLib} `{JL : JwtLib} `{OL : TotpLib} `{AL : AeadLib}
  `{WL : WebAuthnLib} `{CL : TimeLib} `{OI : OidcLib} `{JN : !JsonLib WL} `{LL : LimiterLib} `{RL : RouterLib}
  `{KL : KeyLib} `{SL : !StartLib OI WL}.

(** A request bears the access token of somebody else, of a role no less than one. *)
Definition authorised (cfg : Config) (min : UserRole) (uid : uuid) (r : HttpRequest) : Prop :=
  ∃ u, bears cfg (authorization r) u ∧ ranked min u ∧ parseUserID (uc_ID u) ≠ Some uid.
Lemma authorised_less cfg uid r : authorised cfg UserRoleAdmin uid r → authorised cfg UserRoleModerator uid r.
Proof. intros (u & Hb & Hr & Hp). exists u. split; [done|]. split; [|done]. unfold ranked in *. cbn in *. lia. Qed.

(** The rank each act takes. *)
Lemma act_authorised cfg r q uid a :
  issues cfg r q → may_do q uid a → a ≠ AccountSpec.Join →
  authorised cfg (match a with SetStatus _ => UserRoleModerator | _ => UserRoleAdmin end) uid r.
Proof.
  intros [Hb _] Hm Ha. destruct q; cbn in Hm; try done; destruct a; try done; cbn in Hb;
    destruct Hb as (u & Hu & <- & Hr); exists u; (split; [done|]); (split; [done|]); by apply Hm.
Qed.
Lemma act_step_ranks a x y :
  act_step a x y → x ≠ Nobody → a ≠ AccountSpec.Join ∧ (tenure x ≠ tenure y → ∀ s, a ≠ SetStatus s).
Proof. destruct 1; intros Hn; (split; [done|]); intros Ht s'; by cbn in Ht. Qed.

(** C5: an account that is there keeps its role, its status and its place unless
    somebody of rank says otherwise: when one of them has changed between two
    moments of a deployment, the server had taken a request with an access token of
    another account that is at least a moderator, and, if the role or the deletion
    changed, an admin.  Nobody does it to themselves, and no user does it at all. *)
Theorem changes_need_authority (HLL : LimiterLaws LL) (HRL : RouterLaws RL) cfg svcs uid d d' :
  deployed cfg svcs d → steps cfg svcs d d' →
  standing_of uid (dp_db d) ≠ Nobody → standing_of uid (dp_db d') ≠ standing_of uid (dp_db d) →
  ∃ r, JHttp r ∈ accepted (dp_pool d') ∧ authorised cfg UserRoleModerator uid r
    ∧ (tenure (standing_of uid (dp_db d')) ≠ tenure (standing_of uid (dp_db d)) → authorised cfg UserRoleAdmin uid r).
Proof.
  intros Hd Hs Hn Hc. pose proof (deployment_acts _ _ cfg svcs uid d d' Hd Hs) as Ha.
  destruct (decide (tenure (standing_of uid (dp_db d)) = tenure (standing_of uid (dp_db d')))) as [E|E].
  - destruct (acts_changed id _ _ _ Ha Hn (not_eq_sym Hc)) as (a & x & y & (r & q & Hr & Hi & Hm) & Hxy & Hx & _).
    destruct (act_step_ranks _ _ _ Hxy Hx) as [Hj _]. exists r. split; [done|]. split; [|by rewrite E].
    pose proof (act_authorised _ _ _ _ _ Hi Hm Hj) as H. destruct a; [done|done|by apply authorised_less..].
  - destruct (acts_changed tenure _ _ _ Ha Hn E) as (a & x & y & (r & q & Hr & Hi & Hm) & Hxy & Hx & Hg).
    destruct (act_step_ranks _ _ _ Hxy Hx) as [Hj Hst]. exists r. split; [done|].
    pose proof (act_authorised _ _ _ _ _ Hi Hm Hj) as H.
    assert (authorised cfg UserRoleAdmin uid r) as Hadm by (destruct a; try done; by destruct (Hst Hg status)).
    split; [by apply authorised_less|done].
Qed.
End authority.

(** ** Example: a moderator bans an account *)

Import Toy ToyServer.
#[local] Instance team_jobs : Jobs job Deploy.outcome := deployment_jobs google_svcs.
#[local] Instance team_setting : Setting := configured google_cfg.

(** Two accounts of the single sign-on; an operator makes the second a moderator,
    who signs in. *)
Definition google_login (sub : string) : Go (svc LoginOutcome) :=
  SSOLogin nobody ProviderNameGoogle UserOriginGoogle (mkOIDCClaims sub (sub ++ "@example.com") true).
Definition promote (w : World) : World :=
  let promoted u := if String.eqb (u_Email u) "mod@example.com" then set_u_Role UserRoleModerator u else u in
  set_w_db (set_users (List.map promoted (users (w_db w))) (w_db w)) w.
Definition w_hired : World := promote (final (google_login "mod") night (final (google_login "sub") night (world empty_db))).
Definition mod_out : LoginOutcome := Scenes.outcome (mkLoginOutcome "" "" "" "" false "" []) (result (google_login "mod") night w_hired).
Definition w_team : World := final (google_login "mod") night w_hired.
Definition sub_user : uuid := match users (w_db w_team) with u :: _ => u_ID u | [] => id_of 0 end.
Definition ban_request : HttpRequest :=
  ToyServer.request MethodPost ("/auth/v1/admin/users/" ++ uuid_Bytes sub_user ++ "/ban") (lr_AccessToken mod_out) [("reason", "spam")].

Definition before_ban : deployment := mkDeployment Serving (mkPool [] w_team) [].
Definition banning : pool job Deploy.outcome := play night (replicate 60 0%nat) (arrive google_svcs (JHttp ban_request) (mkPool [] w_team)).
Definition after_ban : deployment := mkDeployment Serving banning [].

Lemma before_ban_deployed : deployed google_cfg google_svcs before_ban.
Proof. exists w_team. exact (rtc_once _ _ (step_boot google_cfg google_svcs google_env None (mkPool [] w_team) [] google_starts)). Qed.
Lemma ban_steps : steps google_cfg google_svcs before_ban after_ban.
Proof.
  exact (rtc_l _ _ _ _ (step_request google_cfg google_svcs ban_request (mkPool [] w_team) [])
           (play_progress Serving night (replicate 60 0%nat) _ [] eq_refl)).
Qed.
Lemma sub_banned :
  standing_of sub_user (dp_db before_ban) = Account UserRoleUser (Some UserStatusActive) false
  ∧ standing_of sub_user (dp_db after_ban) = Account UserRoleUser (Some UserStatusBanned) false.
Proof. by vm_compute. Qed.
Lemma sub_changed :
  standing_of sub_user (dp_db before_ban) ≠ Nobody
  ∧ standing_of sub_user (dp_db after_ban) ≠ standing_of sub_user (dp_db before_ban).
Proof. destruct sub_banned as [-> ->]. done. Qed.
Lemma changes_need_authority_witness :
  standing_of sub_user (dp_db after_ban) = Account UserRoleUser (Some UserStatusBanned) false
  ∧ ∃ r, JHttp r ∈ accepted (dp_pool after_ban) ∧ authorised google_cfg UserRoleModerator sub_user r.
Proof.
  split; [exact (proj2 sub_banned)|].
  destruct (changes_need_authority limiter_laws router_laws google_cfg google_svcs sub_user before_ban after_ban
    before_ban_deployed ban_steps (proj1 sub_changed) (proj2 sub_changed)) as (r & Hr & Ha & _).
  exists r. split; [exact Hr|exact Ha].
Defined.

(** The rank is the one the token was given at its sign-in: a moderator who has
    been made a user again bans all the same, until the token expires. *)
Definition mod_user : uuid := match users (w_db w_team) with [_; u] => u_ID u | _ => id_of 0 end.
Definition w_demoted : World :=
  final (run_request (RChangeUserRole nobody "root-id" "root" (uuid_Bytes mod_user) "user")) night w_team.
Definition ban_by_demoted : World := final (NewHandler google_svcs ban_request) night w_demoted.
Example demoted_still_bans :
  standing_of mod_user (w_db w_demoted) = Account UserRoleUser (Some UserStatusActive) false
  ∧ standing_of mod_user (w_db ban_by_demoted) = Account UserRoleUser (Some UserStatusActive) false
  ∧ rs_Status <$> result (NewHandler google_svcs ban_request) night w_demoted = Some 200
  ∧ standing_of sub_user (w_db ban_by_demoted) = Account UserRoleUser (Some UserStatusBanned) false.
Proof. by vm_compute. Qed.
