(* ===== verification/ReplySpec.v ===== *)
(** * Every request is answered

    Whatever a request carries, whatever fails and whatever panics behind the
    logger, and whatever else runs, the client gets a reply with a request id: a
    registered status and a JSON body, or what the router answers on its own (a
    redirect to the cleaned-up path, in the router's format). *)

From S2P Require Import Prelude.
From S2P Require Import GoLib.
From S2P Require Import Utils.
From S2P Require Import Model.
From S2P Require Import Runtime.
From S2P Require Import Logic.
From S2P Require Import Queries.
From S2P Require Import Password.
From S2P Require Import Tokens.
From S2P Require Import Codes.
From S2P Require Import Sso.
From S2P Require Import Maintenance.
From S2P Require Import Admin.
From S2P Require Import Passkey.
From S2P Require Import Calls.
From S2P Require Import Steps.
From S2P Require Import Pool.
From S2P Require Import Json.
From S2P Require Import Http.
From S2P Require Import Config.
From S2P Require Import Routes.
From S2P Require Import Handlers.
From S2P Require Import Middleware.
From S2P Require Import Server.
From S2P Require Import Startup.
From S2P Require Import HttpSteps.
From S2P Require Import Deploy.
From S2P Require Import Toy.
From S2P Require Import ToyServer.
From S2P Require Import ConfigSpec.
From S2P Require Import StartupSpec.
From S2P Require Import DeploySpec.
From stdpp Require Import relations list.

#[local] Open Scope string_scope.
#[local] Open Scope Z_scope.
#[local] Open Scope go_scope.

(** ** Well-formed replies *)

(** A JSON document, or the fallback of a failed encoding. *)
Inductive json_body : string → Prop :=
  | BodyCompact v : json_body (Marshal v)
  | BodyIndented v : json_body (MarshalIndent v)
  | BodyFallback : json_body (Marshal (JObject [("error", JString "internal server error")]) ++ String (char 10) "").

Definition success_statuses : list Z := [StatusOK; StatusCreated; StatusNoContent].
Definition registered_status (s : Z) : Prop := s ∈ success_statuses ∨ ∃ err, s = Status (Errors err).

(** The body, or none with 204 (the answer to a preflight). *)
Definition body_of (status : Z) (b : string) : Prop := json_body b ∨ status = StatusNoContent ∧ b = "".
Definition good_response (r : Response) : Prop := registered_status (rs_Status r) ∧ body_of (rs_Status r) (rs_Body r).

Lemma good_JSONResponse cfg status v :
  registered_status status → good_response (JSONResponse cfg status v).
Proof.
  intros Hs. unfold JSONResponse. destruct v as [v|err]; (split; [done|left]); cbn [rs_Body].
  - destruct (String.eqb _ _); constructor.
  - apply BodyFallback.
Qed.
Lemma good_JSONError cfg err : good_response (JSONError cfg err).
Proof. apply good_JSONResponse. right. eauto. Qed.

Lemma ok_registered : registered_status StatusOK.
Proof. left. left. Qed.
Lemma created_registered : registered_status StatusCreated.
Proof. left. right. left. Qed.
Create HintDb good.
#[local] Hint Resolve ok_registered created_registered good_JSONResponse good_JSONError : good.

Section replies.
Context `{TL : TextLib} `{UL : UuidLib} `{HL : HashLib} `{JL : JwtLib} `{OL : TotpLib} `{AL : AeadLib}
  `{WL : WebAuthnLib} `{CL : TimeLib} `{OI : OidcLib} `{JN : !JsonLib WL} `{LL : LimiterLib} `{RL : RouterLib}.
Context (svcs : Services).

(** ** The handlers: what they answer, when they do not panic *)

Abbreviation good s := (s_ends True s good_response).

Lemma good_error err : good (s_respond_error err).
Proof. apply s_ends_bind_any. intros cfg. apply s_ends_ret. auto with good. Qed.
Lemma good_requireRole min h (t : tree h) r ps ctx : good (t r ps ctx) → good (s_requireRole min h t r ps ctx).
Proof.
  intros Ht. unfold s_requireRole, requireRole. destruct (ctx_User ctx) as [u|]; [|apply good_error].
  destruct (roleRank (uc_Role u) <? _); [apply good_error|done].
Qed.

Ltac good_step :=
  lazymatch goal with
  | |- s_ends _ (s_bind _ _) _ => apply s_ends_bind_any; intros ?
  | |- s_ends _ (s_ret _) _ => apply s_ends_ret; auto with good
  | |- s_ends _ s_panic _ => exact Logic.I
  | |- s_ends _ (s_requireRole _ _ _ _ _ _) _ => apply good_requireRole
  | |- s_ends _ (match ?x with _ => _ end) _ => retype; destruct x
  | |- s_ends _ ?s _ => let h := head_of s in unfold h; cbv beta iota zeta
  end.
Ltac as_good := lazymatch goal with |- ends ?P (steps_of ?s) ?Q => change (s_ends P s Q) end; retype.
Ltac by_trees :=
  lazymatch goal with
  | |- trees_all _ _ ?t => let h := head_of t in unfold h;
      repeat first [exact Logic.I | apply conj; [cbn [fst snd]; intros ? ? ? ?; as_good; repeat good_step|]]
  end.
Lemma registered_good : trees_all (λ _ _ p, ends True p good_response) (registered svcs) (s_registered svcs).
Proof. apply trees_all_registered; by_trees. Qed.

(** ** The layers: they answer, or panic over a writer nothing was sent with *)

(** An answer of the router itself, which no handler had a part in. *)
Definition router_own (r : HttpRequest) (resp : Response) : Prop :=
  ∃ own, router_serve (registered svcs) r = ROwn own ∧ rs_Status resp = rs_Status own ∧ rs_Body resp = rs_Body own.
Definition served_response (r : HttpRequest) (resp : Response) : Prop := good_response resp ∨ router_own r resp.
Lemma good_is_served r resp : good_response resp → served_response r resp.
Proof. by left. Qed.
#[local] Hint Resolve good_is_served : good.

Definition has_id (h : Header) : Prop := is_Some (h !! "X-Request-Id").

(** Nothing has been sent, and the request id is set. *)
Definition fresh (wr : Writer) : Prop := wr_Sent wr = None ∧ wr_Body wr = "" ∧ has_id (wr_Header wr).
Definition good_reply (r : HttpRequest) (resp : Response) : Prop := served_response r resp ∧ has_id (rs_Header resp).
(** The answer, and the status the logger reads. *)
Definition good_written (r : HttpRequest) (wr : Writer) : Prop := good_reply r (reply wr) ∧ wr_Status wr = rs_Status (reply wr).
Definition good_served (r : HttpRequest) (s : served) : Prop :=
  match s with Returned wr => good_written r wr | Panicked wr => fresh wr end.
Definition layer_good {l : Layer} (t : layer_tree l) : Prop := ∀ r ctx wr, fresh wr → s_ends False (t r ctx wr) (good_served r).

Lemma has_id_set k v h : has_id h → has_id (Header_Set k v h).
Proof.
  intros Hh. unfold has_id, Header_Set. apply lookup_insert_is_Some'. by right.
Qed.
Lemma fresh_set k v wr : fresh wr → fresh (writer_Set k v wr).
Proof. intros (Hs & Hb & Hi). split_and!; [done..|]. by apply has_id_set. Qed.
Lemma has_id_union h h' : has_id h' → has_id (h ∪ h').
Proof. intros Hh. unfold has_id. apply (lookup_union_is_Some h h'). by right. Qed.
Lemma write_good r resp wr : fresh wr → served_response r resp → good_served r (Returned (write_response resp wr)).
Proof.
  destruct wr as [h s b st0]. intros (Hs & Hb & Hi) Hr. cbn in Hs, Hb, Hi. subst s b. destruct resp as [st rh rb].
  split; [|done]. split; [exact Hr|]. cbn. by apply has_id_union.
Qed.
Definition answered (r : HttpRequest) (s : served) : Prop := ∃ wr, s = Returned wr ∧ good_written r wr.
Lemma error_answered r err wr : fresh wr → s_ends False (s_write_error err wr) (answered r).
Proof.
  intros Hf. apply s_ends_call; [done|]. intros cfg. apply s_ends_ret. eexists. split; [done|].
  apply write_good; auto with good.
Qed.
Lemma error_good r err wr : fresh wr → s_ends False (s_write_error err wr) (good_served r).
Proof. intros Hf. eapply ends_mono; [|by apply error_answered]. by intros s (w & -> & H). Qed.
Lemma cors_fresh cfg o wr : fresh wr → fresh (cors_headers cfg o wr).
Proof. intros Hf. unfold cors_headers. repeat case_match; auto 10 using fresh_set. Qed.
Lemma security_fresh wr : fresh wr → fresh (security_headers wr).
Proof. intros Hf. unfold security_headers. cbn [List.fold_left]. auto 10 using fresh_set. Qed.

(** What a guarded step answers is not looked at. *)
Lemma guarded_good {A} r {m : Go A} {k : option A → Go served} (s : Steps m) (q : ∀ o, Steps (k o)) :
  (∀ o, s_ends False (q o) (good_served r)) → s_ends False (s_bind (s_catch s) q) (good_served r).
Proof.
  intros Hq. apply (s_ends_bind False any); [|auto]. eapply ends_mono; [|apply ends_pcatch, ends_any]. done.
Qed.
#[local] Hint Resolve fresh_set cors_fresh security_fresh error_good : good.

Section layers.
Context {l : Layer} (t : layer_tree l) (Ht : layer_good t).

Ltac layer_step :=
  lazymatch goal with
  | |- s_ends _ (s_bind (s_catch _) _) _ => apply guarded_good; intros ?
  | |- s_ends _ (s_bind s_cfg _) _ => apply s_ends_call; [done|intros ?]
  | |- s_ends _ (s_write_error _ _) _ => apply error_good; auto with good
  | |- s_ends _ (s_ret (Panicked _)) _ => by apply s_ends_ret
  | |- s_ends _ (t _ _ _) _ => apply Ht; auto with good
  | |- s_ends _ (match ?x with _ => _ end) _ => retype; destruct x
  end.
Ltac layer := intros r ctx wr Hf; lazymatch goal with |- s_ends _ ?s _ => let h := head_of s in unfold h end; repeat layer_step.

Lemma Logger_answers r ctx wr : fresh wr → s_ends False (s_LoggerMiddleware t r ctx wr) (answered r).
Proof.
  intros Hf. eapply s_ends_bind; [by apply Ht|].
  intros [w|w] Hs; [apply s_ends_ret; by exists w|by apply error_answered].
Qed.
Lemma JSON_good : layer_good (s_JSONMiddleware t).
Proof. layer. Qed.
Lemma RateLimit_good : layer_good (s_RateLimitMiddleware t).
Proof. layer. Qed.
Lemma UserRateLimit_good : layer_good (s_UserRateLimitMiddleware t).
Proof. layer. Qed.
Lemma JWT_good : layer_good (s_JWTMiddleware t).
Proof. layer. Qed.
Lemma ResponseHeaders_good : layer_good (s_ResponseHeadersMiddleware t).
Proof.
  layer. apply s_ends_ret.
  pose proof (cors_fresh a (Header_Get (rq_Header r) "Origin") wr Hf) as (Hs & Hb & Hi).
  destruct (cors_headers _ _ _) as [h s b st0]. cbn in Hs, Hb, Hi. subst s b.
  split; [|done]. split; [|done]. left. split; [left; right; right; left|by right].
Qed.
End layers.

Context (HRL : RouterLaws RL).

Lemma router_good r ctx : s_ends True (s_router svcs r ctx) (served_response r).
Proof.
  assert (∀ p, ends True p good_response → ends True p (served_response r)) as Hweak
    by (intros p Hp; eapply ends_mono; [|exact Hp]; auto with good).
  apply (router_program_all svcs (λ _ _ p, ends True p (served_response r))); [|done|intros; apply Hweak, good_error|].
  - eapply trees_all_mono; [|apply registered_good]. intros ? ?. exact Hweak.
  - intros resp E. right. by exists resp.
Qed.
Lemma Timeout_good : layer_good (s_TimeoutMiddleware (s_router svcs)).
Proof.
  intros r ctx wr Hf. unfold s_TimeoutMiddleware, TimeoutMiddleware.
  apply s_ends_call; [done|]. intros cfg. apply s_ends_call; [done|]. intros t0.
  eapply s_ends_bind; [apply ends_pcatch, router_good|]. intros o Ho. apply s_ends_call; [done|]. intros t1.
  retype. destruct (_ <=? _).
  - apply s_ends_ret. destruct wr as [h s b st0]. destruct Hf as (Hs & Hb & Hi). cbn in Hs, Hb, Hi. subst s b.
    split; [|done]. split; [|done]. left. split; [right; by exists SSONotConfigured|]. left. apply BodyCompact.
  - destruct o as [resp|]; [|by apply s_ends_ret]. apply s_ends_ret, write_good; auto.
Qed.
(** The layers the logger guards, run alone. *)
Lemma guarded_served r ctx wr e w :
  fresh wr → ∃ s, result (guarded svcs r ctx wr) e w = Some s ∧ good_served r s.
Proof.
  intros Hf.
  assert (s_ends False (s_JSONMiddleware (s_ResponseHeadersMiddleware (s_RateLimitMiddleware (s_JWTMiddleware
    (s_UserRateLimitMiddleware (s_TimeoutMiddleware (s_router svcs)))))) r ctx wr) (good_served r)) as H
    by (by apply JSON_good; [apply ResponseHeaders_good, RateLimit_good, JWT_good, UserRateLimit_good, Timeout_good|]).
  destruct (ends_run _ _ e w H) as (s & Hs & Hg). exists s. by rewrite steps_run in Hs.
Qed.
Lemma stack_answers r : s_ends False (s_stack svcs r no_ctx new_writer) (answered r).
Proof.
  assert (∀ id, s_ends False (s_LoggerMiddleware (s_JSONMiddleware (s_ResponseHeadersMiddleware (s_RateLimitMiddleware
    (s_JWTMiddleware (s_UserRateLimitMiddleware (s_TimeoutMiddleware (s_router svcs)))))))
    r no_ctx (writer_Set "X-Request-ID" id new_writer)) (answered r)) as H.
  { intros id. apply Logger_answers; [|split_and!; [done..|by exists id]].
    apply JSON_good, ResponseHeaders_good, RateLimit_good, JWT_good, UserRateLimit_good, Timeout_good. }
  unfold s_stack, s_RequestIDMiddleware, RequestIDMiddleware. retype.
  destruct (String.eqb _ _); [apply s_ends_call; [done|intros id]|]; apply H.
Qed.
Lemma program_answers r : ends False (http_program svcs r) (good_reply r).
Proof.
  apply (s_ends_bind False (answered r)); [apply stack_answers|]. by intros s (wr & -> & Hr & _).
Qed.

(** A request that runs alone is answered. *)
Lemma lone_request_is_answered e w r : ∃ resp, result (NewHandler svcs r) e w = Some resp ∧ good_reply r resp.
Proof. unfold result. rewrite <- (run_http svcs). apply ends_run, program_answers. Qed.
End replies.

(** ** Requests of a server that stays up *)

Section up.
Context `{TL : TextLib} `{UL : UuidLib} `{HL : HashLib} `{JL : JwtLib} `{OL : TotpLib} `{AL : AeadLib}
  `{WL : WebAuthnLib} `{CL : TimeLib} `{OI : OidcLib} `{JN : !JsonLib WL} `{LL : LimiterLib} `{RL : RouterLib}
  `{KL : KeyLib} `{SL : !StartLib OI WL}.
Context `{!RouterLaws RL} (cfg : Config) (svcs : Services).

Definition up : relation deployment := λ d d', step cfg svcs d d' ∧ ∀ st, dp_phase d' ≠ Down st.

(** From the [n]-th job on, the requests are on their way to an answer. *)
Definition answering (n : nat) (d : deployment) : Prop :=
  ∀ i th, (n ≤ i)%nat → po_threads (dp_pool d) !! i = Some th → is_http (th_job th) = true →
  ends False (th_rest th) (λ o, ∃ r resp, th_job th = JHttp r ∧ o = Replied resp ∧ good_reply svcs r resp).

Lemma job_answers r : ends False (job_program svcs (JHttp r)) (λ o, ∃ r' resp, JHttp r = JHttp r' ∧ o = Replied resp ∧ good_reply svcs r' resp).
Proof. eapply ends_pbind; [by apply program_answers|]. intros resp Hr. by exists r, resp. Qed.
Lemma arrive_answering n ph j po late :
  answering n (mkDeployment ph po late) → answering n (mkDeployment ph (arrive svcs j po) late).
Proof.
  intros H i th Hi Hth Hj. apply lookup_app_Some in Hth as [Hth|[_ Hth]]; [by eapply H|].
  apply list_lookup_singleton_Some in Hth as [_ <-]. cbn in Hj |- *. destruct j as [r|]; [apply job_answers|done].
Qed.
Lemma up_answering n d d' : up d d' → answering n d → answering n d'.
Proof.
  intros [Hs Hup] H. destruct Hs; try (by destruct (Hup _ eq_refl)); try exact H; try by apply arrive_answering.
  - intros k th Hk Hth Hj. unfold call_of in Hth. cbn [dp_pool] in Hth.
    destruct (po_threads po !! i) as [th0|] eqn:Hi; [|by eapply H].
    pose proof (λ Hn Hh, advance_ends e (th_rest th0) (po_world po) _ (H i th0 Hn Hi Hh)) as Ha.
    destruct (advance e (th_rest th0) (po_world po)) as [p w]. cbn in Hth.
    apply list_lookup_insert_Some in Hth as [(<- & <- & _)|[_ Hth]]; [by apply Ha|by eapply H].
  - intros k th' Hk Hth Hj. cbn in Hth.
    apply list_lookup_insert_Some in Hth as [(<- & <- & _)|[_ Hth]]; [cbn in Hj; congruence|by eapply H].
Qed.

(** C34: every request that arrives while the server stays up is answered, whatever
    runs beside it - through expired deadlines, failed calls and panics in a
    handler or a layer alike: its calls come to an end in any order of the calls of
    all requests, and its end is an answer that carries the request's id and has a
    registered status and a JSON body (none with a 204) - unless no handler served it and it is what
    the router answers on its own, status and body. *)
Theorem every_request_is_answered d d' :
  rtc up d d' →
  sn busy_step (dp_pool d')
  ∧ ∀ i th r, (length (po_threads (dp_pool d)) ≤ i)%nat → po_threads (dp_pool d') !! i = Some th →
      th_job th = JHttp r → finished (th_rest th) = true →
      ∃ resp, th_rest th = Ret (Replied resp) ∧ is_Some (rs_Header resp !! "X-Request-Id")
        ∧ (registered_status (rs_Status resp) ∧ body_of (rs_Status resp) (rs_Body resp)
           ∨ ∃ own, router_serve (registered svcs) r = ROwn own
               ∧ rs_Status resp = rs_Status own ∧ rs_Body resp = rs_Body own).
Proof.
  intros Hs. split; [apply busy_sn|]. intros i th r Hi Hth Hj Hf.
  assert (answering (length (po_threads (dp_pool d))) d) as H0
    by (intros k th0 Hk Hlt%lookup_lt_Some; lia).
  assert (answering (length (po_threads (dp_pool d))) d') as H.
  { clear -Hs H0. revert H0. generalize (length (po_threads (dp_pool d))). intros n. induction Hs; eauto using up_answering. }
  specialize (H i th Hi Hth). rewrite Hj in H. specialize (H eq_refl).
  destruct (th_rest th) as [o| |]; [|done..]. destruct H as (r' & resp & [= <-] & -> & Hg & Hid). by exists resp.
Qed.
End up.

(** ** An example: a server that loses its Redis client, where the limiter panics *)

Import Toy ToyServer.

Definition broken : Env :=
  mkEnv google_cfg true (e_clock env) (e_fault env) (e_uuid env) (e_rand_read env) (e_rand_int env) (e_gen_uuid env).
Definition health : HttpRequest := ToyServer.request MethodGet V1_HealthCheck "" [].
#[local] Instance google_jobs : Jobs job outcome := deployment_jobs google_svcs.
Definition idle_server : deployment := mkDeployment Serving (mkPool [] (world empty_db)) [].
Definition asked : pool job outcome := play broken (replicate 20 0%nat) (arrive google_svcs (JHttp health) (mkPool [] (world empty_db))).

Lemma play_up e order po late :
  e_cfg e = google_cfg → rtc (up google_cfg google_svcs) (mkDeployment Serving po late) (mkDeployment Serving (play e order po) late).
Proof.
  intros He. revert po. induction order as [|i order IH]; intros po; [apply rtc_refl|].
  eapply rtc_l; [split; [by apply step_progress|done]|apply IH].
Qed.
Lemma arrive_up r po late :
  rtc (up google_cfg google_svcs) (mkDeployment Serving po late) (mkDeployment Serving (arrive google_svcs (JHttp r) po) late).
Proof. apply rtc_once. split; [apply step_request|done]. Qed.
Lemma asked_up : rtc (up google_cfg google_svcs) idle_server (mkDeployment Serving asked []).
Proof. exact (rtc_trans _ _ _ (arrive_up health (mkPool [] (world empty_db)) []) (play_up broken (replicate 20 0%nat) _ [] eq_refl)). Qed.
Lemma asked_answer :
  match po_threads asked !! 0%nat with
  | Some (mkThread (JHttp r) (Ret (Replied resp))) => r = health ∧ rs_Status resp = 500
  | _ => False
  end.
Proof. by vm_compute. Qed.

Lemma every_request_is_answered_witness :
  ∃ th resp, po_threads asked !! 0%nat = Some th ∧ th_rest th = Ret (Replied resp) ∧ rs_Status resp = 500
    ∧ is_Some (rs_Header resp !! "X-Request-Id").
Proof.
  pose proof asked_answer as H. destruct (po_threads asked !! 0%nat) as [th|] eqn:E; [|destruct H].
  exists th. destruct th as [[r|] [[resp|]| |]]; try destruct H. exists resp.
  destruct (proj2 (every_request_is_answered google_cfg google_svcs idle_server (mkDeployment Serving asked []) asked_up)
    0%nat _ r (le_n 0) E eq_refl eq_refl) as (resp' & Hr & Hid & _).
  injection Hr as <-. split; [reflexivity|]. split; [reflexivity|]. split; [assumption|exact Hid].
Defined.
