(* ===== verification/LogSpec.v ===== *)
(** * What the logs promise

    The lines of the middleware and of maintenance change nothing a request or a
    run does; every request leaves one line at its start and one at its end, which
    carries the status the client gets; and the lines of the maintenance jobs are
    lost. *)

From S2P Require Import Prelude.
From S2P Require Import GoLib.
From S2P Require Import Utils.
From S2P Require Import Model.
From S2P Require Import Runtime.
From S2P Require Import Logic.
From S2P Require Import Queries.
From S2P Require Import Password.
From S2P Require Import Tokens.
From S2P Require Import Codes.
From S2P Require Import Sso.
From S2P Require Import Maintenance.
From S2P Require Import Admin.
From S2P Require Import Passkey.
From S2P Require Import Json.
From S2P Require Import Http.
From S2P Require Import Config.
From S2P Require Import Routes.
From S2P Require Import Handlers.
From S2P Require Import Middleware.
From S2P Require Import Server.
From S2P Require Import Startup.
From S2P Require Import Emails.
From S2P Require Import Logging.
From S2P Require Import Toy.
From S2P Require Import ToyServer.
From S2P Require Import ServerSpec.
From S2P Require Import ConfigSpec.
From S2P Require Import StartupSpec.
From S2P Require Import ReplySpec.

#[local] Open Scope string_scope.
#[local] Open Scope Z_scope.
#[local] Open Scope go_scope.

(** ** Runs without their log *)

(** What [m] does, its log dropped, is what [m'] does. *)
Definition erases_to {A L} (m : Go (A * L)) (m' : Go A) : Prop :=
  ∀ e w, (let '(o, w') := m e w in (fst <$> o, w')) = m' e w.
Lemma erases_ret {A L} (a : A) (l : L) : erases_to (ret (a, l)) (ret a).
Proof. done. Qed.
(** A step of the code in front of the log... *)
Lemma erases_step {A B L} (m : Go A) (k : A → Go (B * L)) (k' : A → Go B) :
  (∀ a, erases_to (k a) (k' a)) → erases_to (bind m k) (bind m k').
Proof. intros H e w. unfold bind. destruct (m e w) as [[a|] w1]; [apply H|done]. Qed.
(** ... and a step that reports. *)
Lemma erases_bind {A B L} (m : Go (A * L)) (m' : Go A) (k : A * L → Go (B * L)) (k' : A → Go B) :
  erases_to m m' → (∀ a l, erases_to (k (a, l)) (k' a)) → erases_to (bind m k) (bind m' k').
Proof.
  intros Hm Hk e w. unfold bind. specialize (Hm e w). rewrite <- Hm.
  destruct (m e w) as [[[a l]|] w1]; [apply Hk|done].
Qed.
Lemma erases_result {A L} (m : Go (A * L)) m' e w a l :
  erases_to m m' → result m e w = Some (a, l) → result m' e w = Some a ∧ final m e w = final m' e w.
Proof.
  intros H. specialize (H e w). unfold result, final. rewrite <- H.
  destruct (m e w) as [o w1]. cbn. by intros ->.
Qed.
Lemma erases_returns {A L} (m : Go (A * L)) m' e w a :
  erases_to m m' → result m' e w = Some a → ∃ l, result m e w = Some (a, l).
Proof.
  intros H. specialize (H e w). unfold result. rewrite <- H.
  destruct (m e w) as [[[a' l]|] w1]; cbn; [|done]. intros [= ->]. by exists l.
Qed.

Section logs.
Context `{ZL : ZapLib}.
Context (log_clock : nat → Z).

(** ** The calls of utils/logging.go *)

Lemma Level_below_DPanic_ends `{!ZapLaws ZL} ctx msg fs l :
  (LogDebug log_clock ctx msg fs l).1 = Continues ∧ (LogInfo log_clock ctx msg fs l).1 = Continues
  ∧ (LogWarn log_clock ctx msg fs l).1 = Continues ∧ (LogError log_clock ctx msg fs l).1 = Continues.
Proof.
  unfold LogDebug, LogInfo, LogWarn, LogError. destruct (getLogger _ _ _) as [lg l'].
  unfold zap_call. cbn [fst]. split_and!; by apply zap_Write_Ends.
Qed.
(** [LogPanic] panics and [LogFatal] exits, with a logger in the context or not. *)
Lemma LogPanic_ends `{!ZapLaws ZL} ctx msg fs l :
  (LogPanic log_clock ctx msg fs l).1 = Panics msg ∧ (LogFatal log_clock ctx msg fs l).1 = Exits 1.
Proof.
  unfold LogPanic, LogFatal. destruct (getLogger _ _ _) as [lg l']. unfold zap_call. cbn [fst].
  split; [apply zap_Panic_Ends|apply zap_Fatal_Ends].
Qed.
(** Without a logger in the context nothing is written. *)
Lemma no_logger_Write `{!ZapLaws ZL} ctx lvl msg fs l lg l' :
  lc_Logger ctx = None → getLogger log_clock ctx l = (lg, l') → log_out (zap_call lvl lg msg fs l').2 = log_out l.
Proof.
  unfold getLogger. intros -> [= <- <-]. unfold zap_call, zap_lines. cbn. by rewrite zap_nop_Write, app_nil_r.
Qed.
(** The level of the process's logger: debug lines in development only, and one line
    for every other call. *)
Lemma InitLogger_lines `{!ZapLaws ZL} env lvl msg fs :
  (lvl = DebugLevel ∧ env ≠ "development" ∧ zap_lines (InitLogger env) lvl msg fs = [])
  ∨ ∃ line, zap_lines (InitLogger env) lvl msg fs = [ZapLine line].
Proof.
  unfold InitLogger, zap_lines.
  assert (lvl = DebugLevel ∨ level_rank InfoLevel ≤ level_rank lvl) as Hl by (destruct lvl; (by left) || right; cbn; lia).
  assert (level_rank DebugLevel ≤ level_rank lvl) as Hd by (destruct lvl; cbn; lia).
  destruct (String.eqb_spec env "development") as [->|Hne].
  - right. destruct (zap_above (NewConsoleEncoder encoderCfg) DebugLevel lvl msg fs Hd) as [line ->]. by exists line.
  - destruct Hl as [->|Hl].
    + left. rewrite zap_below by (cbn; lia). done.
    + right. destruct (zap_above (NewJSONEncoder encoderCfg) InfoLevel lvl msg fs Hl) as [line ->]. by exists line.
Qed.
(** The guard around the duration tag is always open: where the context has no start
    time [GetContextTime] gives the present. *)
Lemma SendSentryLog_tags ctx err l :
  (∀ n, IsZero (log_clock n) = false) → (∀ t, lc_StartTime ctx = Some t → IsZero t = false) →
  ∃ d, log_out (SendSentryLog log_clock ctx err l)
    = (log_out l ++ [ConfigureScope [("duration_ms", print_int d)] None; CaptureException err])%list.
Proof.
  intros Hc Ht. unfold SendSentryLog, GetContextTime, log_now, Since.
  destruct (lc_StartTime ctx) as [t|]; [rewrite (Ht t eq_refl)|rewrite Hc]; cbn;
    eexists; by rewrite <- app_assoc.
Qed.

(** ** Requests *)

(** A step that reports, after what was there, and is otherwise the step given. *)
Definition grows (l l' : Log) : Prop := log_out l `prefix_of` log_out l'.
#[local] Instance grows_preorder : PreOrder grows.
Proof. split; [intros l; exists []; by rewrite app_nil_r|]. intros l1 l2 l3 H1 H2. unfold grows. etrans; [exact H1|exact H2]. Qed.
Record reports {A} (l : Log) (m : Go (A * Log)) (m' : Go A) : Prop := {
  rp_erases : erases_to m m';
  rp_grows : ∀ e w a l', result m e w = Some (a, l') → grows l l'
}.
Definition reports_as (L : LoggedLayer) (next : Layer) : Prop := ∀ r ctx lc w l, reports l (L r ctx lc w l) (next r ctx w).

Lemma reports_ret {A} (a : A) l l' : grows l l' → reports l (ret (a, l')) (ret a).
Proof. intros H. split; [apply erases_ret|]. by intros e w a1 l1 [= <- <-]. Qed.
Lemma reports_panic {A} l : reports l panic (panic : Go A).
Proof. by split. Qed.
Lemma reports_step {A B} l (m : Go A) (k : A → Go (B * Log)) k' :
  (∀ a, reports l (k a) (k' a)) → reports l (bind m k) (bind m k').
Proof.
  intros H. split; [apply erases_step, H|]. intros e w b l'. unfold result, bind.
  destruct (m e w) as [[a|] w1]; [apply H|done].
Qed.
Lemma reports_bind {A B} l (m : Go (A * Log)) m' (k : A * Log → Go (B * Log)) k' :
  reports l m m' → (∀ a l1, grows l l1 → reports l (k (a, l1)) (k' a)) → reports l (bind m k) (bind m' k').
Proof.
  intros [He Hg] Hk. split.
  - intros e w. unfold bind. specialize (He e w). specialize (Hg e w). unfold result in Hg. rewrite <- He.
    destruct (m e w) as [[[a l1]|] w1]; [|done]. by apply (Hk a l1), (Hg a l1).
  - intros e w b l'. specialize (Hg e w). unfold result, bind in *.
    destruct (m e w) as [[[a l1]|] w1]; [|done]. by apply (Hk a l1), (Hg a l1).
Qed.
Lemma reports_later {A} l l1 (m : Go (A * Log)) m' : grows l l1 → reports l1 m m' → reports l m m'.
Proof. intros H [He Hg]. split; [done|]. intros e w a l' Hr. transitivity l1; [done|by eapply Hg]. Qed.
Lemma reports_attempt {A} l (m : Go (A * Log)) m' w k k' :
  reports l m m' → (∀ a l1, grows l l1 → reports l (k a l1) (k' a)) →
  reports l (logged_attempt m w l k) (attempt m' w k').
Proof.
  intros [He Hg] Hk. split.
  - intros e wd. unfold logged_attempt, attempt, bind, catch. specialize (He e wd). specialize (Hg e wd). unfold result in Hg.
    rewrite <- He. destruct (m e wd) as [[[a l1]|] w1]; [|done]. by apply (Hk a l1), (Hg a l1).
  - intros e wd b l'. specialize (Hg e wd). unfold result, logged_attempt, bind, catch in *.
    destruct (m e wd) as [[[a l1]|] w1]; [by apply (Hk a l1), (Hg a l1)|]. by intros [= <- <-].
Qed.
Lemma silent_reports next : reports_as (silent next) next.
Proof.
  intros r ctx lc w l. split.
  - intros e wd. unfold silent, bind, ret. by destruct (next r ctx w e wd) as [[s|] w'].
  - intros e wd s l'. unfold result, silent, bind, ret. destruct (next r ctx w e wd) as [[s'|] w']; [|done].
    by intros [= <- <-].
Qed.

(** ** The layers that report *)

Lemma tell_grows rs l : grows l (tell rs l).
Proof. by exists rs. Qed.
Lemma Log_grows ctx lvl msg fs l :
  grows l (let '(logger, l) := getLogger log_clock ctx l in zap_call lvl logger msg fs l).2.
Proof. unfold getLogger, grows. destruct (lc_Logger ctx) as [d|]; by eexists. Qed.
Lemma LogDebug_grows ctx msg fs l : grows l (LogDebug log_clock ctx msg fs l).2.
Proof. apply Log_grows. Qed.
Lemma LogWarn_grows ctx msg fs l : grows l (LogWarn log_clock ctx msg fs l).2.
Proof. apply Log_grows. Qed.
Lemma LogError_grows ctx msg fs l : grows l (LogError log_clock ctx msg fs l).2.
Proof. apply Log_grows. Qed.
Lemma write_error_reports err w l l' : grows l l' →
  reports l (bind (write_error err w) (λ s, ret (s, l'))) (write_error err w).
Proof.
  intros H. split; [|by intros e wd s l1 [= <- <-]]. by intros e wd.
Qed.
Create HintDb logs.
#[local] Hint Resolve LogDebug_grows LogWarn_grows LogError_grows tell_grows : logs.

Lemma JSON_reports L next : reports_as L next → reports_as (logged_JSONMiddleware L) (JSONMiddleware next).
Proof.
  intros HL r ctx lc w l. unfold logged_JSONMiddleware, JSONMiddleware.
  destruct (_ && _); [by apply write_error_reports|apply HL].
Qed.
Lemma ResponseHeaders_reports L next :
  reports_as L next → reports_as (logged_ResponseHeadersMiddleware L) (ResponseHeadersMiddleware next).
Proof.
  intros HL r ctx lc w l. apply reports_step. intros cfg. destruct (String.eqb _ _); [by apply reports_ret|apply HL].
Qed.

Section limits.
Context `{LL : LimiterLib} (numbers : string → Log → Z * Z * Z).
Lemma checkRateLimit_reports lc key l :
  reports l (logged_checkRateLimit log_clock numbers lc key l) (checkRateLimit key).
Proof.
  apply reports_step. intros [reached|err]; [|apply reports_ret; auto with logs].
  pose proof (LogDebug_grows lc "Rate limiting check" (limit_fields key (numbers key l)) l) as H1.
  destruct reached; apply reports_ret; [|exact H1].
  transitivity (LogDebug log_clock lc "Rate limiting check" (limit_fields key (numbers key l)) l).2; [exact H1|].
  etransitivity; [apply (tell_grows [CaptureMessage "Rate limit exceeded"])|apply LogWarn_grows].
Qed.
Lemma limited_reports lc key l w m m' :
  (∀ l1, reports l1 (m l1) m') →
  reports l
    (logged_attempt (logged_checkRateLimit log_clock numbers lc key l) w l (λ refused l,
       match refused with Some err => s <- write_error err w ;; ret (s, l) | None => m l end))
    (attempt (checkRateLimit key) w (λ refused,
       match refused with Some err => write_error err w | None => m' end)).
Proof.
  intros Hm. apply reports_attempt; [apply checkRateLimit_reports|].
  intros [err|] l1 H1; [by apply write_error_reports|by eapply reports_later].
Qed.
Lemma RateLimit_reports L next :
  reports_as L next → reports_as (logged_RateLimitMiddleware log_clock numbers L) (RateLimitMiddleware next).
Proof. intros HL r ctx lc w l. apply (limited_reports _ _ _ _ (L r ctx lc w)), HL. Qed.
Lemma UserRateLimit_reports L next :
  reports_as L next → reports_as (logged_UserRateLimitMiddleware log_clock numbers L) (UserRateLimitMiddleware next).
Proof.
  intros HL r ctx lc w l. unfold logged_UserRateLimitMiddleware, UserRateLimitMiddleware.
  destruct (ctx_User ctx) as [u|]; [|apply HL]. destruct (String.eqb _ _); [apply HL|].
  apply (limited_reports _ _ _ _ (L r ctx lc w)), HL.
Qed.
End limits.

Section tokens.
Context `{JL : JwtLib}.
Lemma IsValidSession_reports lc id exp l :
  reports l (logged_IsValidSession log_clock lc id exp l) (IsValidSession id exp).
Proof.
  apply reports_step. intros t. apply reports_step. intros nil. destruct (_ || _); [by apply reports_ret|].
  apply reports_step. intros [n|err]; apply reports_ret; auto with logs. reflexivity.
Qed.
Lemma IsValidTemporarySession_reports lc id exp l :
  reports l (logged_IsValidTemporarySession log_clock lc id exp l) (IsValidTemporarySession id exp).
Proof.
  apply reports_step. intros t. apply reports_step. intros nil. destruct (_ || _); [by apply reports_ret|].
  apply reports_step. intros [n|err]; apply reports_ret; auto with logs. reflexivity.
Qed.
Lemma VerifyAndParseJWT_reports lc h l :
  reports l (logged_VerifyAndParseJWT log_clock lc h l) (VerifyAndParseJWT h).
Proof.
  apply reports_step. intros [claims|err]; [|by apply reports_ret]. destruct (_ || _ || _); [by apply reports_ret|].
  destruct (jc_ExpiresAt claims) as [exp|]; [|apply reports_panic].
  apply reports_bind; [apply IsValidSession_reports|]. intros ok l1 H1. by destruct ok; apply reports_ret.
Qed.
Lemma VerifyAndParseTemporaryJWT_reports lc h role l :
  reports l (logged_VerifyAndParseTemporaryJWT log_clock lc h role l) (VerifyAndParseTemporaryJWT h role).
Proof.
  apply reports_step. intros [claims|err]; [|by apply reports_ret]. destruct (_ || _ || _); [by apply reports_ret|].
  destruct (jc_ExpiresAt claims) as [exp|]; [|apply reports_panic].
  apply reports_bind; [apply IsValidTemporarySession_reports|]. intros ok l1 H1. by destruct ok; apply reports_ret.
Qed.
Lemma refusal_reports lc msg err w l l1 :
  grows l l1 → reports l (logged_refusal log_clock lc msg err w l1) (write_error Unauthorized w).
Proof. intros H. apply write_error_reports. transitivity l1; auto with logs. Qed.
Lemma unreported_reports {A} (m : Go A) (l : Log) : reports l (bind m (λ x, ret (x, l))) m.
Proof.
  split.
  - intros e w. unfold bind, ret. by destruct (m e w) as [[a|] w1].
  - intros e w a l'. unfold result, bind, ret. destruct (m e w) as [[a1|] w1]; [|done]. by intros [= <- <-].
Qed.
Lemma JWT_reports L next : reports_as L next → reports_as (logged_JWTMiddleware log_clock L) (JWTMiddleware next).
Proof.
  intros HL r ctx lc w l. unfold logged_JWTMiddleware, JWTMiddleware.
  destruct (isAlternateRoute _ _); [apply HL|]. destruct (String.eqb _ _); [|destruct (isAlternateRoute _ _)].
  - apply reports_attempt; [apply unreported_reports|].
    intros [[sid uid]|err] l1 H1; [by eapply reports_later|by apply refusal_reports].
  - apply reports_attempt; [apply VerifyAndParseTemporaryJWT_reports|].
    intros [[email id]|err] l1 H1; [by eapply reports_later|by apply refusal_reports].
  - apply reports_attempt; [apply VerifyAndParseJWT_reports|].
    intros [u|err] l1 H1; [by eapply reports_later|by apply refusal_reports].
Qed.
End tokens.

Lemma logged_LoggerMiddleware_erases logger L next r ctx lc w l :
  reports_as L next → erases_to (logged_LoggerMiddleware log_clock logger L r ctx lc w l) (LoggerMiddleware next r ctx w).
Proof.
  intros HL. unfold logged_LoggerMiddleware, LoggerMiddleware, log_now. apply erases_bind; [apply HL|].
  intros [w1|w1] l1; unfold Since, log_now; [apply erases_ret|]. unfold write_error.
  intros e wd. unfold bind, get_cfg, ret. done.
Qed.
Lemma logged_RequestIDMiddleware_erases `{UL : UuidLib} L next r ctx lc w l :
  (∀ r ctx lc w l, erases_to (L r ctx lc w l) (next r ctx w)) →
  erases_to (logged_RequestIDMiddleware L r ctx lc w l) (RequestIDMiddleware next r ctx w).
Proof.
  intros He. unfold logged_RequestIDMiddleware, RequestIDMiddleware. destruct (String.eqb _ _); [|apply He].
  apply erases_step. intros id. apply He.
Qed.

(** What one request leaves in the log, around what the layers further in report. *)
Definition opening (logger : Logger) (r : HttpRequest) (id : string) : list Report :=
  request_scope r id None :: zap_lines logger InfoLevel "Processing Request" (request_fields r id None).
Definition completed (logger : Logger) (r : HttpRequest) (id : string) (d status : Z) : list Report :=
  zap_lines logger InfoLevel "Request Completed"
    (request_fields r id None ++ [("duration", VDuration d); ("status", VInt status)])%list.
Definition recovered (logger : Logger) (r : HttpRequest) (id : string) (d : Z) : list Report :=
  panic_scope r id None :: zap_lines logger ErrorLevel "Recovered from panic"
    (request_fields r id None ++ [("error", VPanic); ("duration", VDuration d)])%list.

Lemma zap_call_With `{!ZapLaws ZL} lvl lg gs msg fs l :
  log_out (zap_call lvl (zap_With lg gs) msg fs l).2 = (log_out l ++ zap_lines lg lvl msg (gs ++ fs))%list.
Proof. unfold zap_call, zap_lines. cbn. by rewrite zap_With_Write. Qed.

Lemma Logger_logs `{!ZapLaws ZL} logger L next r ctx lc w l e wd s :
  reports_as L next → ctx_User ctx = None →
  result (next r (set_ctx_client (rq_RemoteAddr r) (UserAgent r) ctx) w) e wd = Some s →
  let id := default "" (lc_RequestID lc) in
  ∃ wr l' rs d, result (logged_LoggerMiddleware log_clock logger L r ctx lc w l) e wd = Some (Returned wr, l')
    ∧ match s with
      | Returned w1 => wr = w1 ∧ log_out l' = (log_out l ++ opening logger r id ++ rs ++ completed logger r id d (wr_Status w1))%list
      | Panicked w1 => wr = write_response (JSONError (e_cfg e) InternalServerError) w1
          ∧ log_out l' = (log_out l ++ opening logger r id ++ rs ++ recovered logger r id d)%list
      end.
Proof.
  intros HL Hu Hs id. unfold logged_LoggerMiddleware, log_now. rewrite Hu. fold id.
  match goal with |- context [L r ?c ?lc1 w ?l1] => set (l0 := l1); set (lc0 := lc1) end.
  assert (log_out l0 = (log_out l ++ opening logger r id)%list) as Hl0.
  { unfold l0. rewrite zap_call_With. cbn. by rewrite <- app_assoc. }
  destruct (erases_returns _ _ e wd s (rp_erases _ _ _ (HL r _ lc0 w l0)) Hs) as [l1 Hl1].
  destruct (rp_grows _ _ _ (HL r _ lc0 w l0) e wd s l1 Hl1) as [rs Hrs]. rewrite Hl0 in Hrs.
  unfold result, bind. unfold result in Hl1. destruct (L r _ lc0 w l0 e wd) as [o wd1]. cbn in Hl1. subst o.
  unfold Since, log_now. set (d := _ - _). destruct s as [w1|w1]; cbn [fst].
  - eexists w1, _, rs, d. split; [reflexivity|]. split; [done|]. rewrite !zap_call_With.
    unfold zap_call, zap_lines, completed. cbn [snd log_out tell]. rewrite !zap_With_Write.
    rewrite Hrs, <- !app_assoc. done.
  - eexists _, _, rs, d. split; [reflexivity|]. split; [done|]. rewrite zap_call_With. cbn. rewrite Hrs.
    unfold recovered. by rewrite <- !app_assoc.
Qed.

(** The lines among the reports. *)
Definition lines_of (rs : list Report) : list Line := omap (λ x, match x with ZapLine line => Some line | _ => None end) rs.
Lemma InitLogger_one_line `{!ZapLaws ZL} env lvl msg fs :
  lvl ≠ DebugLevel → length (lines_of (zap_lines (InitLogger env) lvl msg fs)) = 1%nat.
Proof. intros Hl. by destruct (InitLogger_lines env lvl msg fs) as [(? & _)|[line ->]]. Qed.
End logs.

Section server.
Context `{TL : TextLib} `{UL : UuidLib} `{HL : HashLib} `{JL : JwtLib} `{OL : TotpLib} `{AL : AeadLib}
  `{WL : WebAuthnLib} `{CL : TimeLib} `{OI : OidcLib} `{JN : !JsonLib WL} `{LL : LimiterLib} `{RL : RouterLib}
  `{ZL : ZapLib}.
Context (svcs : Services) (log_clock : nat → Z) (env : string).

(** The handler of the server with its logger, around layers that may report too. *)
Definition logged_server (inner : LoggedLayer) (r : HttpRequest) (l : Log) : Go (served * Log) :=
  logged_RequestIDMiddleware (logged_LoggerMiddleware log_clock (InitLogger env) inner) r no_ctx background new_writer l.
Definition request_id (r : HttpRequest) (e : Env) (w : World) : string :=
  let given := Header_Get (rq_Header r) "X-Request-ID" in
  if String.eqb given "" then uuid_String (e_uuid e (w_tick w)) else given.

Lemma logged_server_erases inner r l :
  reports_as inner (guarded svcs) → erases_to (logged_server inner r l) (BuildHandlerStack svcs r no_ctx new_writer).
Proof.
  intros Hi. rewrite stack_guarded. apply logged_RequestIDMiddleware_erases. intros. by apply logged_LoggerMiddleware_erases.
Qed.
Lemma NewHandler_of_stack r e w wr :
  result (BuildHandlerStack svcs r no_ctx new_writer) e w = Some (Returned wr) →
  result (NewHandler svcs r) e w = Some (reply wr)
  ∧ final (NewHandler svcs r) e w = final (BuildHandlerStack svcs r no_ctx new_writer) e w.
Proof.
  unfold result, final, NewHandler, bind. destruct (BuildHandlerStack _ _ _ _ _ _) as [o w1]. cbn. by intros ->.
Qed.

Context (HZL : ZapLaws ZL) (HRL : RouterLaws RL).

Lemma logged_server_run inner r e w l :
  reports_as inner (guarded svcs) →
  ∃ wr l' rs d close,
    result (logged_server inner r l) e w = Some (Returned wr, l')
    ∧ log_out l' = (log_out l ++ opening (InitLogger env) r (request_id r e w) ++ rs ++ close)%list
    ∧ (close = completed (InitLogger env) r (request_id r e w) d (rs_Status (reply wr))
       ∨ close = recovered (InitLogger env) r (request_id r e w) d
         ∧ rs_Status (reply wr) = Status (Errors InternalServerError)).
Proof.
  intros Hi. set (id := request_id r e w). set (w1 := if String.eqb (Header_Get (rq_Header r) "X-Request-ID") "" then tick w else w).
  set (wr0 := writer_Set "X-Request-ID" id new_writer).
  set (logger := logged_LoggerMiddleware log_clock (InitLogger env) inner r no_ctx (mkLogCtx (Some id) None None) wr0 l).
  assert (result (logged_server inner r l) e w = result logger e w1) as ->.
  { unfold logged_server, logged_RequestIDMiddleware, logger, wr0, id, request_id, w1. by destruct (String.eqb _ _). }
  assert (fresh wr0) as Hf by (split_and!; [done..|by exists id]).
  destruct (guarded_served svcs HRL r (set_ctx_client (rq_RemoteAddr r) (UserAgent r) no_ctx) wr0 e w1 Hf) as (s & Hs & Hgood).
  destruct (Logger_logs log_clock (InitLogger env) inner (guarded svcs) r no_ctx (mkLogCtx (Some id) None None) wr0 l e w1 s
    Hi eq_refl Hs) as (wr & l' & rs & d & Hrun & Hout).
  exists wr, l', rs, d. destruct s as [w2|w2]; destruct Hout as [-> Hout]; (eexists; split_and!; [exact Hrun|exact Hout|]).
  - left. destruct Hgood as [_ Hst]. by rewrite Hst.
  - right. split; [done|]. destruct Hgood as (Hsent & _). by apply reply_error.
Qed.

(** The layers inside the logger's, each with its own lines; those of the handlers,
    which [TimeoutMiddleware] wraps, are left out. *)
Definition logged_guarded (numbers : string → Log → Z * Z * Z) : LoggedLayer :=
  logged_JSONMiddleware (logged_ResponseHeadersMiddleware (logged_RateLimitMiddleware log_clock numbers
    (logged_JWTMiddleware log_clock (logged_UserRateLimitMiddleware log_clock numbers
      (silent (TimeoutMiddleware (router svcs))))))).
Lemma guarded_reports numbers : reports_as (logged_guarded numbers) (guarded svcs).
Proof. apply JSON_reports, ResponseHeaders_reports, RateLimit_reports, JWT_reports, UserRateLimit_reports, silent_reports. Qed.

(** C35: every request is logged once, truly, and to no effect.  With the lines of
    every layer - the refused tokens, the failing or exceeded rate limits, the
    failing session lookups - but not those of the handlers, the server answers
    and stores what it does without a log; the log gets, around the lines of the
    layers further in, one line when the request is taken and one when it ends,
    both with the path, the method, the address and the id of the request.  The
    last one carries the status the client gets, or says that a panic was
    recovered, and then the client got an internal error. *)
Theorem requests_are_logged numbers r e w l :
  ∃ wr l' rs d close,
    result (logged_server (logged_guarded numbers) r l) e w = Some (Returned wr, l')
    ∧ result (NewHandler svcs r) e w = Some (reply wr)
    ∧ final (logged_server (logged_guarded numbers) r l) e w = final (NewHandler svcs r) e w
    ∧ log_out l' = (log_out l ++ opening (InitLogger env) r (request_id r e w) ++ rs ++ close)%list
    ∧ length (lines_of (opening (InitLogger env) r (request_id r e w))) = 1%nat ∧ length (lines_of close) = 1%nat
    ∧ (close = completed (InitLogger env) r (request_id r e w) d (rs_Status (reply wr))
       ∨ close = recovered (InitLogger env) r (request_id r e w) d
         ∧ rs_Status (reply wr) = Status (Errors InternalServerError)).
Proof.
  set (inner := logged_guarded numbers). pose proof (guarded_reports numbers : reports_as inner (guarded svcs)) as Hi.
  destruct (logged_server_run inner r e w l Hi) as (wr & l' & rs & d & close & Hrun & Hout & Hc).
  destruct (erases_result _ _ e w _ l' (logged_server_erases inner r l Hi) Hrun) as [Hres Hfin].
  destruct (NewHandler_of_stack r e w wr Hres) as [Hn Hf].
  exists wr, l', rs, d, close. split_and!; [done..|by rewrite Hfin|done| | |done].
  - by apply (InitLogger_one_line env InfoLevel).
  - destruct Hc as [->|[-> _]]; by apply InitLogger_one_line.
Qed.
End server.

(** ** Maintenance *)

Section maintenance.
Context `{KL : KeyLib} `{OI : OidcLib} `{WL : WebAuthnLib} `{SL : !StartLib OI WL} `{ZL : ZapLib} (HZL : ZapLaws ZL).
Context (log_clock : nat → Z).

(** What a run leaves in the log, when it comes to an end. *)
Definition leaves {A} (m : Go (A * Log)) (Q : A → Log → Prop) : Prop :=
  ∀ e w a l, result m e w = Some (a, l) → Q a l.
Lemma leaves_step {A B} (m : Go A) (k : A → Go (B * Log)) Q : (∀ a, leaves (k a) Q) → leaves (bind m k) Q.
Proof.
  intros H e w b l. unfold result, bind. destruct (m e w) as [[a|] w1]; [apply H|done].
Qed.
Lemma leaves_bind {A B} (m : Go (A * Log)) (k : A * Log → Go (B * Log)) P Q :
  leaves m P → (∀ a l, P a l → leaves (k (a, l)) Q) → leaves (bind m k) Q.
Proof.
  intros Hm Hk e w b l. unfold result, bind. specialize (Hm e w). unfold result in Hm.
  destruct (m e w) as [[[a l1]|] w1]; [|done]. by apply (Hk a l1), Hm.
Qed.

Lemma background_Write ctx lvl msg fs l :
  lc_Logger ctx = None →
  log_out (let '(logger, l) := getLogger log_clock ctx l in zap_call lvl logger msg fs l).2 = log_out l.
Proof. intros Hc. destruct (getLogger _ _ _) as [lg l'] eqn:E. by eapply no_logger_Write. Qed.
Lemma logged_run_jobs_leaves ctx js failed l :
  lc_Logger ctx = None → leaves (logged_run_jobs log_clock ctx js failed l) (λ _ l', log_out l' = log_out l).
Proof.
  intros Hc. revert failed l. induction js as [|job js IH]; intros failed l; cbn [logged_run_jobs].
  - by intros e w a l' [= _ <-].
  - apply leaves_step. intros [u|err] e w a l' H; apply IH in H; rewrite H;
      unfold LogInfo, LogError; by apply background_Write.
Qed.
Lemma logged_run_jobs_erases ctx js failed l :
  erases_to (logged_run_jobs log_clock ctx js failed l) (run_jobs js failed).
Proof.
  revert failed l. induction js as [|job js IH]; intros failed l; cbn [logged_run_jobs run_jobs]; [apply erases_ret|].
  apply erases_step. intros [u|err]; apply IH.
Qed.
Lemma logged_RunMaintenance_erases ctx l : erases_to (logged_RunMaintenance log_clock ctx l) RunMaintenance.
Proof.
  apply erases_bind; [apply logged_run_jobs_erases|]. intros failed l'. by destruct (0 <? length failed)%nat.
Qed.
Lemma logged_cron_main_erases getenv l : erases_to (logged_cron_main log_clock getenv l) (cron_main getenv).
Proof.
  unfold logged_cron_main, cron_main. destruct (cron_setup getenv); [|apply erases_ret].
  unfold log_now. apply erases_bind; [apply logged_RunMaintenance_erases|]. intros [u|err] l'; apply erases_ret.
Qed.

(** The README and the comment over [RunMaintenance] say each job's result is
    logged: the command gives the jobs a context without a logger, and all that it
    writes is one line about the whole run - which jobs failed is in it, why they
    did is not. *)
Lemma maintenance_jobs_not_logged getenv cfg l :
  cron_setup getenv = Ok cfg →
  leaves (logged_cron_main log_clock getenv l) (λ status l', ∃ line d rest,
    log_out l' = (log_out l ++ ZapLine line :: rest)%list ∧ lines_of rest = []
    ∧ [ZapLine line] = zap_lines (InitLogger (cfg_Env cfg))
        (if status =? 0 then InfoLevel else ErrorLevel)
        (if status =? 0 then "Maintenance run completed successfully" else "Maintenance run completed with failures") d).
Proof.
  intros Hs. unfold logged_cron_main. rewrite Hs. unfold log_now.
  apply (leaves_bind _ _ (λ _ l', log_out l' = log_out l)).
  { apply (leaves_bind _ _ (λ _ l', log_out l' = log_out l));
      [exact (logged_run_jobs_leaves background jobs [] (mkLog (S (log_reads l)) (log_out l)) eq_refl)|].
    intros failed l1 Hl1 e w a l2 [= _ <-]. exact Hl1. }
  intros r l1 Hl1. unfold Since, log_now. set (d := _ - _).
  destruct r as [u|err]; intros e w a l2 [= <- <-].
  - destruct (InitLogger_lines (cfg_Env cfg) InfoLevel "Maintenance run completed successfully"
      [("duration", VDuration d)]) as [(? & _)|[line Hl]]; [done|].
    exists line, [("duration", VDuration d)], []. cbn. by rewrite Hl, Hl1.
  - destruct (InitLogger_lines (cfg_Env cfg) ErrorLevel "Maintenance run completed with failures"
      [("error", VError err); ("duration", VDuration d)]) as [(? & _)|[line Hl]]; [done|].
    eexists line, _, [CaptureException err]. cbn. rewrite Hl, Hl1, <- app_assoc. done.
Qed.
End maintenance.

(** ** Examples *)

Import Toy ToyServer.

(** A logger is its core and its fields; a line is what was asked to be written. *)
#[export] Instance zap : ZapLib := {
  Logger := option Level * list Field;
  Line := Level * string * list Field;
  zap_New enc min := (Some min, []);
  zap_NewNop := (None, []);
  zap_With lg fs := (lg.1, lg.2 ++ fs)%list;
  zap_Write lg l msg fs :=
    match lg.1 with
    | Some min => if level_rank min <=? level_rank l then [(l, msg, lg.2 ++ fs)%list] else []
    | None => []
    end;
  zap_Ends lg l msg :=
    match l with PanicLevel => Panics msg | FatalLevel => Exits 1 | _ => Continues end
}.
#[export] Instance zap_laws : ZapLaws zap.
Proof.
  split; try done.
  - intros [min gs'] gs l msg fs. cbn. destruct min as [min|]; [|done]. by rewrite <- app_assoc.
  - intros enc min l msg fs H. cbn. by rewrite (proj2 (Z.leb_gt _ _)).
  - intros enc min l msg fs H. cbn. rewrite (proj2 (Z.leb_le _ _)) by done. by eexists.
  - by intros lg [].
Qed.

Definition no_log : Log := mkLog 0 [].
(** A request without a token: the refusal is a debug line, which only a server in
    development writes. *)
Definition whoami : HttpRequest := request MethodPost V1_Logout "" [].
Definition toy_numbers (key : string) (l : Log) : Z * Z * Z := (3, 2, 60).
Definition whoami_log (env_name : string) : option (list (Level * string)) :=
  match result (logged_server Z.of_nat env_name (logged_guarded svcs Z.of_nat toy_numbers) whoami no_log) env (world empty_db) with
  | Some (_, l) => Some ((λ line : Line, line.1) <$> lines_of (log_out l))
  | None => None
  end.
Lemma whoami_lines :
  whoami_log "development" = Some [(InfoLevel, "Processing Request"); (DebugLevel, "Rate limiting check");
    (DebugLevel, "JWT validation failed"); (InfoLevel, "Request Completed")]
  ∧ whoami_log "production" = Some [(InfoLevel, "Processing Request"); (InfoLevel, "Request Completed")].
Proof. by vm_compute. Qed.

Lemma requests_are_logged_witness :
  whoami_log "production" = Some [(InfoLevel, "Processing Request"); (InfoLevel, "Request Completed")]
  ∧ ∃ resp l', result (NewHandler svcs whoami) env (world empty_db) = Some resp
    ∧ ∃ rs close, log_out l' = (opening (InitLogger "production") whoami (request_id whoami env (world empty_db)) ++ rs ++ close)%list
        ∧ length (lines_of close) = 1%nat.
Proof.
  split; [exact (proj2 whoami_lines)|].
  destruct (requests_are_logged svcs Z.of_nat "production" zap_laws router_laws toy_numbers whoami env (world empty_db) no_log)
    as (wr & l' & rs & d & close & _ & Hr & _ & Hout & _ & Hone & _).
  exists (reply wr), l'. split; [exact Hr|]. exists rs, close. split; [exact Hout|exact Hone].
Defined.

(** A run in which every statement fails: one line, and it names the jobs only. *)
Definition broken : Env :=
  mkEnv cfg false (λ n, Z.of_nat n) (λ _, FRefused) (λ n, id_of n) (λ n k, Some (pad "" k)) (λ n, Some 0%N) (λ n k, id_of n).
Definition broken_run : option (Z * Log) :=
  result (logged_cron_main Z.of_nat (toy_env "20") no_log) broken (world empty_db).
Example broken_run_logs :
  match broken_run with
  | Some (status, l) => (status, (λ line, line.1) <$> lines_of (log_out l)) = (1, [(ErrorLevel, "Maintenance run completed with failures")])
  | None => False
  end.
Proof. by vm_compute. Qed.
